(* ===== verification/_CoqProject ===== *)
-Q . S2P
Prelude.v
GoStr.v
Utf8.v
Rules.v
Wdac.v
Db.v
Hub.v
StoreCore.v
World.v
Commands.v
Enroll.v
EnrollFacts.v
StoreRollouts.v
StoreNotify.v
Syslog.v
Notify.v
Outbox.v
Http.v
StorePolicies.v
StoreTelemetry.v
StoreMetrics.v
StoreRingfence.v
StoreAdmins.v
Policies.v
Telemetry.v
Alerting.v
Ringfences.v
Authn.v
AgentApi.v
Bootstrap.v
PolicyFacts.v
ApprovalFacts.v
AgentFacts.v
AlertFacts.v
RingfenceFacts.v
NotifyApi.v
Rollout.v
App.v
Demo.v
BootstrapFacts.v
AuthnFacts.v
RolloutLife.v
RolloutTick.v
RolloutConsole.v
Console.v
Exports.v
Releases.v
Routes.v
Tenancy.v
AccessFacts.v
AppFacts.v
Authenticode.v
Endpoint.v
Updater.v
Identity.v
TenantTls.v
WinEvents.v
Fence.v
FenceFacts.v
EndpointControls.v
Machine.v
Executor.v
Runner.v
Backend.v
IdentityFacts.v
RunnerFacts.v
RunnerCommands.v
EndToEnd.v
UpdateEndToEnd.v
FenceEndToEnd.v
AgentMain.v
Service.v
Sim.v
Lifecycle.v
Streams.v
Housekeeping.v
Webui.v
Startup.v
