(* ===== verification/Prelude.v ===== *)
(** * A verification of FreeLocker

    FreeLocker controls which programs may run on Windows endpoints. A server (Go, on
    Postgres) keeps tenants with their devices, application-control policies, ringfences, device
    controls, agent releases and notifications; administrators use it through a JSON console;
    an agent on each endpoint enrolls with an install token, holds a stream to the server
    over mutual TLS, obeys signed commands, applies what it is assigned, reports what it sees and
    updates itself. This library models the server from the tables of the database up to the
    console's route table, the agents' calls and streams, and the process from its start to its end; the agent from the files on its
    disk up to its control loop and its service; and the simulated fleet; as executable functions, and proves what makes them correct,
    each side by itself and the two together.

    This file holds what all the others share: the scalars, the errors, the monad, the class
    [Steps] and the automation.

    ** How code becomes definitions

    - A Go function that returns [(T, error)] over mutable state is an [M S T]: a function from
      the state to a state and a [result]. The state is kept on the error path as
      well. [attempt] is a call whose error the caller inspects, [transaction] one that rolls
      back. Handlers of the console always answer: they are computations of a response.
    - The state of the server is [World.world]: the database ([Db.db], one finite map
      per table from primary key to row), the hub, the clock and the count of fresh identifiers
      drawn. The agent's is [Runner.proc]: its disk, clock and server ([Identity.agent]), its
      enforcers, and what its loops remember. The disk ([Endpoint.disk]), the machine
      of the swap helper ([Updater.machine]), the hosts of [Fence] and [EndpointControls] and the
      log of [WinEvents] take their outcomes from a list of faults, one per operation, so that
      a theorem over every list covers every pattern of failures.
    - Constraints of the schema (CHECK, UNIQUE, foreign keys and their cascades) are written in the
      statements that can violate them. Statements are atomic; a method of several statements
      is several steps, except inside a transaction.
    - Strings are Go's byte strings; 32- and 64-bit arithmetic is written out where it can wrap
      ([Console.token_expiry], the offsets of [Authenticode], [Executor.Backoff] in floats of 53 bits);
      float samples are [spec_float]s with the rounding of a real column.
    - Code outside the repository (Ed25519, SHA-256, bcrypt, TOTP, X.509, protobuf, JSON, YAML,
      sort.Slice, url.Parse, DPAPI, Windows commands) is a class of functions, with a second
      class for the laws its documentation promises: [Crypto] and [CryptoOk], [KeyLib] and [KeyLibOk],
      [IdentityLib] and [IdentityLibOk], [SliceSort], and so on. [Demo] and the second half of [Backend] give
      concrete instances, on which every witness computes.

    ** The parts

    - The store, [internal/server/store]: [Db] (tables), [StoreCore] (audit, tenants, groups, tokens,
      devices, releases), [StoreRollouts], [StoreNotify], [StorePolicies], [StoreTelemetry],
      [StoreMetrics], [StoreRingfence], [StoreAdmins]; the commands table is in [Commands].
    - Rollouts ([rollout], [httpapi/rollouts.go]): [Rollout], with [RolloutLife], [RolloutTick] and
      [RolloutConsole] for the proofs.
    - Commands and the hub ([commands], [hub]): [Commands], [Hub]; the streams of the agent service over it ([Connect] of
      [agentapi/agent.go]), any number at a time, and what each promises, in [Streams].
    - Notifications ([notify], [httpapi/notifications.go]): [Notify], [Syslog], [NotifyApi]; proofs in [Outbox].
    - Policies ([appcontrol/rules], [appcontrol/wdac], [policysvc], [httpapi/policies.go] and [approvals.go]):
      [Rules], [Wdac], [Policies]; proofs in [PolicyFacts] and [ApprovalFacts].
    - Telemetry, controls, alerts, ringfences ([alerting], [httpapi/telemetry.go] and [ringfences.go]):
      [Telemetry], [Alerting], [Ringfences]; proofs in [AlertFacts] and [RingfenceFacts].
    - The agents' side of the server ([agentapi], [ca], [tokens]): [Enroll], [AgentApi], [TenantTls]; proofs in
      [EnrollFacts], [AgentFacts], and for [TenantTls] beside the definitions.
    - Keys and the process ([keys], [keyset], [bootstrap], [app], [config], [cmd/server]): [Bootstrap], [App],
      [Startup] (the configuration, the master secret, [New], the listeners), [Lifecycle] (the group of background tasks as
      threads that interleave, the loops, the command line); proofs in [BootstrapFacts], [AppFacts] and
      [Housekeeping], and for [Startup] and [Lifecycle] beside the definitions.
    - The embedded console ([webui]) and the mux in front of it: [Webui], with the proofs.
    - The console ([auth], [httpapi]): [Http] (helpers), [Authn], [Console], [Exports], [Releases], and [Routes],
      which composes every handler with its guards into [Routes.serve]; proofs in [AuthnFacts],
      [Tenancy] (first the store methods, then every page), [AccessFacts], and for [Exports] and [Releases]
      beside the definitions.
    - The agent ([internal/agent], [cmd/agent], [cmd/agent-updater]): [Endpoint] (disk), [Authenticode]
      (file hashes and signers), [Identity], [Updater], [WinEvents] (event logs), [Fence], [EndpointControls],
      [Executor], [Runner] (sessions and loops), [AgentMain], [Service] (the Windows service, its installation and hardening),
      [Machine] (metrics, inventory, the table of volumes); proofs in the files of the same names with Facts, in [RunnerCommands], and for
      the others beside the definitions.
    - The simulated fleet ([internal/sim], [cmd/agent-sim]): [Sim], with the proofs.
    - The two together: [Backend] implements the interfaces the agent is written against
      ([EnrollServer], [AgentServer]) with the handlers of the server behind its authentication;
      [EndToEnd] proves what holds of the composition, [UpdateEndToEnd] follows a release from its upload to the place
      of the agent's program, [FenceEndToEnd] a ringfence from its assignment to the firewall.

    The agent's definitions are against interfaces: its server ([EnrollServer], [AgentServer]), its three enforcers
    ([PolicyEnforcer], [ControlEnforcer], [FenceEnforcer], each with the Windows implementation and the
    one that does nothing), its actions ([Actions]). On the server an [Emitter] is what producers of
    notifications depend on; [EmitterOk] is what they rely on, and [Notify] discharges it.

    ** What is shown

    - Refinement: the rollout table, under every interleaving of console requests, ticks and agents,
      refines an abstract life cycle ([rollouts_refine_lifecycle]); the ringfence the server resolves leaves exactly
      the rules and values it specifies on the host ([ringfence_reaches_the_device], [Apply_reconciles]); the policy the server resolves is the one the
      agent applies and reports ([policy_reaches_the_device]); an uploaded release is the program that is installed
      ([release_reaches_the_device]); a stream is a queue with one reader ([stream_delivers_in_order]); a simulated agent makes the
      calls of a real one ([sim_is_an_agent]); the key cache refines the database.
    - Isolation and access, over the whole route table: [requests_stay_in_tenant],
      [changes_need_a_role], [second_factor_required], [an_owner_remains], and the rate limit over any history
      of requests ([guesses_limited]).
    - What an agent can be made to do: [session_runs_signed_commands], [commands_run_once],
      [update_installs_signed], [console_code_uninstalls].
    - What an agent survives: [swap_never_loses_the_agent] (it also ends, whatever the service manager
      answers), [Enroll_all_or_nothing], [controls_keep_management], [install_protects], [agent_reconnects] (liveness, with a bound
      on the wait), [pinned_agents_connect].
    - What it leaves alone: [Apply_touches_only_ours]; what it hashes: [hash_covers_file], [signing_keeps_hash].
    - Invariants by induction over operations: [outbox_history], [approval_history], [command_history],
      [policies_invariant], [ringfences_invariant], [hub_invariant], [streams_invariant], [alert_history].
    - The process: it starts with the secret it has ([New_keeps_the_secret]), each minute closes what is due
      ([Run_loop_keeps_house]), and closing it ends every task before the store ([Close_stops_everything]); a browser gets
      files of the build or its index and nothing else ([web_serves]).
    - Bounds on rollouts ([Reconcile_in_flight]), when they pause and whom they update
      ([Reconcile_pauses], [Reconcile_sends]).
    - Round trips: tenant keys sealed and loaded, CSV exports read back, install tokens, release
      addresses; and injection: [Compile_no_injection], [cef_not_forgeable].

    Where the code does not do what a comment or a document says, an [Example] computes the case.

    ** Recursion and fuel

    Functions are structural on their data or on a script of events. Threads ([Lifecycle.sys_run]) and streams ([Streams.step]) are
    steps in any order; [Close_stops_everything] counts those that closing takes. [Notify.drain] has fuel, and
    [drain_terminates] gives the number of rounds that is enough. The polls of the swap helper
    ([Updater.healthy], [waitStopped]) and of the uninstaller ([AgentMain.wait_polls]) are bounded by
    their own deadlines: the fuel is the number of polls that fit. [Runner.Run] is given one script
    of events per attempt, and [agent_reconnects] states how many are enough. [Exports.export_pages]
    and the numeral printers have fuel that the lemmas about them show to suffice.

    ** What is not modelled

    - Time is in nanoseconds; a timestamptz keeps microseconds. Case mapping is that of ASCII, and
      ORDER BY on text compares bytes rather than a collation.
    - One request, one tick, one event of an agent and one choice of a select loop are steps of an interleaving; two
      handlers inside each other are not, except where an Example composes their statements to show a race, and
      except for the task group of the server, which is interleaved at its locks.
      One counter gives every serial column its numbers, where Postgres has one per table.
    - Bodies arrive decoded, API paths matched: net/http (but for the mux and the file server of [Webui], on paths without escapes),
      chi, gRPC with its keepalive, TLS handshakes and the wire are left out, and so are the logs, sockets, ACME, the parsing of flags
      and the migrations, whose outcomes are answers given to the model.
    - Of the disk: names are exact, directories exist ([MkdirAll] does nothing but possibly fail), and permissions
      are not kept, except for the entries of the data directory in [Service]. Of the endpoint: the calls of
      [secret_windows.go] and [signature_windows.go], the tables of processes and volumes, and the counters behind the metrics are
      answers given to the model. A panic of the agent is an error of the modelled function.
    - [gen] is generated. *)

From stdpp Require Import gmap strings list pretty sorting.

Declare Scope fl_scope.
Delimit Scope fl_scope with fl.

(** ** Scalars

    A [uuid.UUID] is 128 bits and only ever compared, so it is an [N].
    [time.Time] and [time.Duration] are counted in nanoseconds; the instant [0]
    is Go's zero [time.Time] (what [IsZero] tests). *)
Abbreviation uuid := N (only parsing).
Abbreviation time := Z (only parsing).
Abbreviation duration := Z (only parsing).

Definition Second : duration := 1000000000%Z.
Definition Minute : duration := (60 * Second)%Z.
Definition Hour : duration := (60 * Minute)%Z.

(** ** Go's [(T, error)] results *)

(** The errors the modelled code distinguishes. [PgUnique], [PgForeignKey] and
    [PgCheck] are the Postgres constraint violations (SQLSTATE 23505, 23503 and
    23514); the sentinels are the package-level [errors.New] values; [EValidation]
    is the store's [ValidationError], by its format string and arguments; [EMsg] is
    any other error made by [errors.New], by its message, and [EFmt] one made by
    [fmt.Errorf], by its format string and its arguments, and [EWrap] wraps an
    error with a %w verb. *)
Inductive err :=
  | ErrNotFound
  | ErrConflict
  | ErrTokenInvalid
  | PgUnique
  | PgForeignKey
  | PgCheck
  | EValidation (format : string) (args : list string)
  | EMsg (msg : string)
  | EFmt (format : string) (args : list string)
  | EWrap (context : string) (e : err).

#[export] Instance err_eq_dec : EqDecision err.
Proof. solve_decision. Defined.

Inductive result (A : Type) :=
  | Ok (a : A)
  | Err (e : err).
Arguments Ok {A} a.
Arguments Err {A} e.

Definition is_ok {A} (r : result A) : bool :=
  match r with Ok _ => true | Err _ => false end.

#[export] Instance result_ret : MRet result := λ A a, Ok a.
#[export] Instance result_bind : MBind result :=
  λ A B f r, match r with Ok a => f a | Err e => Err e end.

(** ** State and errors

    [M S A] is a Go function over the mutable state [S] that returns
    [(A, error)]: the state after the call is kept on both paths, because a
    handler that fails after its first statement leaves that statement's
    effect behind. *)
Definition M (S A : Type) : Type := S → S * result A.

#[export] Instance M_ret S : MRet (M S) := λ A a s, (s, Ok a).
#[export] Instance M_bind S : MBind (M S) :=
  λ A B f m s, match m s with
               | (s', Ok a) => f a s'
               | (s', Err e) => (s', Err e)
               end.

(** A sequence that succeeds is a sequence of successes. *)
Lemma bind_Ok {S A B} (m : M S A) (k : A → M S B) s s' b :
  (m ≫= k) s = (s', Ok b) → ∃ a s1, m s = (s1, Ok a) ∧ k a s1 = (s', Ok b).
Proof. unfold mbind, M_bind. destruct (m s) as [s1 [a|e]]; [eauto | done]. Qed.

(** A single SQL statement, as the function of the state it computes. *)
Definition stmt {S A} (f : S → S * result A) : M S A := f.

Definition fail {S A} (e : err) : M S A := λ s, (s, Err e).
Definition get {S} : M S S := λ s, (s, Ok s).
Definition gets {S A} (f : S → A) : M S A := λ s, (s, Ok (f s)).
Definition put {S} (s : S) : M S unit := λ _, (s, Ok tt).
Definition modify {S} (f : S → S) : M S unit := λ s, (f s, Ok tt).
Definition of_result {S A} (r : result A) : M S A := λ s, (s, r).

(** [attempt m] is a call whose error the caller inspects instead of
    returning it ([if err := m(); err != nil { log; continue }]). *)
Definition attempt {S A} (m : M S A) : M S (result A) :=
  λ s, let '(s', r) := m s in (s', Ok r).

(** A Postgres transaction with a deferred [Rollback]: an error restores the
    state at [Begin]. *)
Definition transaction {S A} (m : M S A) : M S A :=
  λ s, match m s with
       | (s', Ok a) => (s', Ok a)
       | (_, Err e) => (s, Err e)
       end.

(** [for _, x := range xs { body }] over a state, where the body may return an
    error. *)
Fixpoint for_each {S A} (xs : list A) (body : A → M S unit) : M S unit :=
  match xs with
  | [] => mret tt
  | x :: xs' => _ ← body x; for_each xs' body
  end.

(** A query reads the state and leaves it alone, whatever it answers. *)
Class ReadOnly {S A} (m : M S A) : Prop := read_only : ∀ s, (m s).1 = s.

(** A statement either succeeds or leaves the state as it was. *)
Class Atomic {S A} (m : M S A) : Prop :=
  atomic : ∀ s s' e, m s = (s', Err e) → s' = s.

#[export] Instance gets_read_only {S A} (f : S → A) : ReadOnly (gets f).
Proof. done. Qed.
#[export] Instance fail_read_only {S A} e : ReadOnly (@fail S A e).
Proof. done. Qed.
#[export] Instance read_only_atomic {S A} (m : M S A) : ReadOnly m → Atomic m.
Proof. intros Hro s s' e Hm. specialize (Hro s). by rewrite Hm in Hro. Qed.
#[export] Instance transaction_atomic {S A} (m : M S A) : Atomic (transaction m).
Proof.
  intros s s' e. unfold transaction. destruct (m s) as [? [|]]; by intros [=].
Qed.

(** ** What a computation may do to the state

    [Steps R m]: whatever [m] answers, the state it leaves is related by [R] to the
    one it found. For a preorder [R] the control operators compose such facts, so
    that a handler's instance is found from those of the calls it makes. *)
Class Steps {S A} (R : relation S) (m : M S A) : Prop := steps_of : ∀ s, R s (m s).1.

(** [via f R] relates two states by what [f] sees of them; [keeps f]: [f] sees no
    change. *)
Definition via {S T} (f : S → T) (R : relation T) : relation S := λ s s', R (f s) (f s').
Abbreviation keeps f := (via f eq).

#[export] Instance via_preorder {S T} (f : S → T) R : PreOrder R → PreOrder (via f R).
Proof.
  intros [Hr Ht]. unfold via. split; [intros s; apply Hr | intros x y z; apply Ht].
Qed.

Section steps.
Context {S : Type} {R : relation S} `{!PreOrder R}.

#[export] Instance read_only_steps {A} (m : M S A) : ReadOnly m → Steps R m | 5.
Proof. intros Hm s. by rewrite (Hm s). Qed.
#[export] Instance ret_steps {A} (a : A) : Steps R (mret a : M S A).
Proof. intros s. simpl. reflexivity. Qed.
#[export] Instance bind_steps {A B} (m : M S A) (k : A → M S B) :
  Steps R m → (∀ a, Steps R (k a)) → Steps R (m ≫= k).
Proof.
  intros Hm Hk s. unfold mbind, M_bind. specialize (Hm s).
  destruct (m s) as [s' [a|e]]; simpl in *; [|done]. etrans; [done | apply Hk].
Qed.
#[export] Instance attempt_steps {A} (m : M S A) : Steps R m → Steps R (attempt m).
Proof. intros Hm s. unfold attempt. specialize (Hm s). by destruct (m s). Qed.
#[export] Instance transaction_steps {A} (m : M S A) : Steps R m → Steps R (transaction m).
Proof.
  intros Hm s. unfold transaction. specialize (Hm s).
  destruct (m s) as [s' [a|e]]; [done | simpl; reflexivity].
Qed.
#[export] Instance for_each_steps {A} (xs : list A) (body : A → M S unit) :
  (∀ x, Steps R (body x)) → Steps R (for_each xs body).
Proof. intros Hb. induction xs; simpl; apply _. Qed.
#[export] Instance if_steps {A} (b : bool) (m1 m2 : M S A) :
  Steps R m1 → Steps R m2 → Steps R (if b then m1 else m2).
Proof. by destruct b. Qed.
End steps.

(** Finds a [Steps] instance, splitting on the data the code matches on. *)
Ltac steps :=
  repeat (intros; first
    [ solve [apply _] | apply bind_steps | apply attempt_steps | apply if_steps | case_match ]).

(** ** Booleans *)

Definition opt_beq {A} `{EqDecision A} (x y : option A) : bool := bool_decide (x = y).

Lemma not_true_false (b : bool) : b ≠ true ↔ b = false.
Proof. destruct b; naive_solver. Qed.

(** ** Automation *)

Create HintDb fl.

(** Splits the [match]es and [if]s of a hypothesis and cleans up. *)
Ltac inv_match H :=
  repeat (progress simpl in H || case_match; simplify_eq/=).

(** Case analysis on every boolean test of the goal and the context, turned
    into propositions. *)
Ltac bool_cases :=
  repeat match goal with
    | H : andb _ _ = true |- _ => apply andb_true_iff in H as [? ?]
    | H : orb _ _ = false |- _ => apply orb_false_iff in H as [? ?]
    | H : negb _ = true |- _ => apply negb_true_iff in H
    | H : negb _ = false |- _ => apply negb_false_iff in H
    | H : bool_decide _ = true |- _ => apply bool_decide_eq_true in H
    | H : bool_decide _ = false |- _ => apply bool_decide_eq_false in H
    | H : Z.ltb _ _ = true |- _ => apply Z.ltb_lt in H
    | H : Z.ltb _ _ = false |- _ => apply Z.ltb_ge in H
    | H : Z.leb _ _ = true |- _ => apply Z.leb_le in H
    | H : Z.leb _ _ = false |- _ => apply Z.leb_gt in H
    | H : Z.eqb _ _ = true |- _ => apply Z.eqb_eq in H
    | H : Z.eqb _ _ = false |- _ => apply Z.eqb_neq in H
    | H : Nat.ltb _ _ = true |- _ => apply Nat.ltb_lt in H
    | H : Nat.ltb _ _ = false |- _ => apply Nat.ltb_ge in H
    | H : Nat.leb _ _ = true |- _ => apply Nat.leb_le in H
    | H : Nat.leb _ _ = false |- _ => apply Nat.leb_gt in H
    | H : Nat.eqb _ _ = true |- _ => apply Nat.eqb_eq in H
    | H : Nat.eqb _ _ = false |- _ => apply Nat.eqb_neq in H
    end.

(** ** Lists *)

Section lists.
Context {A : Type}.
Implicit Types l : list A.

(** The rows a [WHERE] clause keeps, counted. *)
Definition count (p : A → bool) l : nat := length (List.filter p l).

Lemma count_nil p : count p [] = 0.
Proof. done. Qed.
Lemma count_cons p x l : count p (x :: l) = (if p x then 1 else 0) + count p l.
Proof. unfold count. simpl. by destruct (p x). Qed.
Lemma count_app p l1 l2 : count p (l1 ++ l2) = count p l1 + count p l2.
Proof. unfold count. by rewrite List.filter_app, length_app. Qed.
Lemma count_perm p l1 l2 : l1 ≡ₚ l2 → count p l1 = count p l2.
Proof. induction 1; rewrite ?count_cons in *; lia. Qed.
Lemma count_ext p q l : (∀ x, x ∈ l → p x = q x) → count p l = count q l.
Proof.
  induction l as [|x l IH]; intros Heq; [done|]. rewrite !count_cons.
  rewrite (Heq x), IH; [done | set_solver | set_solver].
Qed.
Lemma count_mono p q l : (∀ x, x ∈ l → p x = true → q x = true) → count p l ≤ count q l.
Proof.
  induction l as [|x l IH]; intros Hle; [done|]. rewrite !count_cons.
  assert (count p l ≤ count q l) by (apply IH; set_solver).
  destruct (p x) eqn:Hp; [rewrite (Hle x) by set_solver|destruct (q x)]; lia.
Qed.
Lemma count_split p q l :
  count p l = count (λ x, p x && q x) l + count (λ x, p x && negb (q x)) l.
Proof. induction l; rewrite ?count_cons; [done|]. destruct (p _), (q _); simpl; lia. Qed.
Lemma count_pos p l : 0 < count p l ↔ ∃ x, x ∈ l ∧ p x = true.
Proof.
  induction l as [|x l IH]; [rewrite count_nil; set_solver by lia|].
  rewrite count_cons. destruct (p x) eqn:Hp.
  - split; [intros _; exists x; set_solver | lia].
  - simpl. rewrite IH. split; [set_solver|].
    intros (y & Hy & Hpy). exists y. split; [|done].
    apply elem_of_cons in Hy as [->|]; congruence.
Qed.
Lemma count_zero p l : count p l = 0 ↔ ∀ x, x ∈ l → p x = false.
Proof.
  split.
  - intros H0 x Hx. destruct (p x) eqn:Hp; [|done].
    assert (0 < count p l) by (apply count_pos; eauto). lia.
  - intros Hall. destruct (decide (0 < count p l)) as [Hp|]; [|lia].
    apply count_pos in Hp as (x & Hx & Hpx). rewrite Hall in Hpx; done.
Qed.
End lists.
