(* ===== verification/GoStr.v ===== *)
(** * Go's string functions

    Go strings are byte strings, which is what Rocq's [string] is. This file
    models the [strings] and [fmt] functions the program calls, byte for byte:
    [TrimSpace] knows the UTF-8 encodings of every rune [unicode.IsSpace]
    accepts. [ToUpper] and [ToLower] map the ASCII letters and leave other bytes
    alone; the callers only compare their results with ASCII text. *)

From Stdlib Require Import Ascii.
From stdpp Require Import strings list pretty sets.
From S2P Require Import Prelude.

Definition nl : string := String "010"%char EmptyString.
Definition cr : string := String "013"%char EmptyString.
Definition dq : string := String "034"%char EmptyString.

(** [xq s] is [s] with every apostrophe turned into a double quote: the way this
    development writes Go literals that contain double quotes. *)
Fixpoint xq (s : string) : string :=
  match s with
  | EmptyString => EmptyString
  | String c s' => String (if Ascii.eqb c "'"%char then "034"%char else c) (xq s')
  end.

Abbreviation bytes := (list Ascii.ascii).
Abbreviation to_list := String.list_ascii_of_string.
Abbreviation of_list := String.string_of_list_ascii.

Lemma of_to_list s : of_list (to_list s) = s.
Proof. apply String.string_of_list_ascii_of_string. Qed.
Lemma to_of_list l : to_list (of_list l) = l.
Proof. apply String.list_ascii_of_string_of_list_ascii. Qed.
Lemma to_list_inj s t : to_list s = to_list t → s = t.
Proof. intros H. by rewrite <- (of_to_list s), H, of_to_list. Qed.
Lemma to_list_app s t : to_list (s +:+ t) = to_list s ++ to_list t.
Proof.
  induction s as [|c s IH]; [done|].
  change (String c s +:+ t) with (String c (s +:+ t)). simpl. by rewrite IH.
Qed.
Lemma of_list_app l k : of_list (l ++ k) = of_list l +:+ of_list k.
Proof. apply to_list_inj. by rewrite to_list_app, !to_of_list. Qed.
Lemma length_to_list s : length (to_list s) = String.length s.
Proof. induction s; simpl; congruence. Qed.


(** ** Prefixes of byte lists *)

(** [strip_prefix p l] is what follows [p] in [l], if [l] starts with [p]. *)
Fixpoint strip_prefix (p l : bytes) : option bytes :=
  match p, l with
  | [], _ => Some l
  | c :: p', d :: l' => if Ascii.eqb c d then strip_prefix p' l' else None
  | _ :: _, [] => None
  end.

Lemma strip_prefix_Some p l k : strip_prefix p l = Some k ↔ l = p ++ k.
Proof.
  revert l. induction p as [|c p IH]; intros l; simpl; [naive_solver|].
  destruct l as [|d l]; [naive_solver|].
  destruct (Ascii.eqb_spec c d) as [->|]; [rewrite IH|]; naive_solver.
Qed.

Definition has_prefix (s p : string) : bool :=
  bool_decide (is_Some (strip_prefix (to_list p) (to_list s))).
Definition has_suffix (s p : string) : bool :=
  bool_decide (is_Some (strip_prefix (rev (to_list p)) (rev (to_list s)))).

(** [strings.TrimSuffix] and [strings.TrimPrefix]. *)
Definition TrimSuffix (s suffix : string) : string :=
  match strip_prefix (rev (to_list suffix)) (rev (to_list s)) with
  | Some k => of_list (rev k)
  | None => s
  end.
Definition TrimPrefix (s prefix : string) : string :=
  match strip_prefix (to_list prefix) (to_list s) with
  | Some k => of_list k
  | None => s
  end.

Fixpoint contains_bytes (p l : bytes) : bool :=
  match strip_prefix p l with
  | Some _ => true
  | None => match l with [] => false | _ :: l' => contains_bytes p l' end
  end.
(** [strings.Contains(s, substr)]. *)
Definition Contains (s substr : string) : bool := contains_bytes (to_list substr) (to_list s).
(** [strings.ContainsAny(s, chars)] for ASCII [chars]. *)
Definition ContainsAny (s chars : string) : bool :=
  existsb (λ c, existsb (Ascii.eqb c) (to_list chars)) (to_list s).

(** ** [strings.TrimSpace] *)

(** The UTF-8 encodings of the runes [unicode.IsSpace] accepts: the ASCII
    blanks, U+0085, U+00A0, U+1680, U+2000 to U+200A, U+2028, U+2029, U+202F,
    U+205F and U+3000. *)
Definition space_runes : list bytes :=
  ([["009"]; ["010"]; ["011"]; ["012"]; ["013"]; [" "];
    ["194"; "133"]; ["194"; "160"]; ["225"; "154"; "128"];
    ["226"; "128"; "128"]; ["226"; "128"; "129"]; ["226"; "128"; "130"];
    ["226"; "128"; "131"]; ["226"; "128"; "132"]; ["226"; "128"; "133"];
    ["226"; "128"; "134"]; ["226"; "128"; "135"]; ["226"; "128"; "136"];
    ["226"; "128"; "137"]; ["226"; "128"; "138"]; ["226"; "128"; "168"];
    ["226"; "128"; "169"]; ["226"; "128"; "175"]; ["226"; "129"; "159"];
    ["227"; "128"; "128"]])%char.

Fixpoint strip_any (pats : list bytes) (l : bytes) : option bytes :=
  match pats with
  | [] => None
  | p :: ps => match strip_prefix p l with Some k => Some k | None => strip_any ps l end
  end.

Fixpoint trim_fuel (n : nat) (pats : list bytes) (l : bytes) : bytes :=
  match n with
  | 0 => l
  | S n' => match strip_any pats l with Some k => trim_fuel n' pats k | None => l end
  end.

Definition trim_left (l : bytes) : bytes := trim_fuel (length l) space_runes l.
Definition trim_right (l : bytes) : bytes :=
  rev (trim_fuel (length l) (map (@rev _) space_runes) (rev l)).
Definition TrimSpace (s : string) : string := of_list (trim_right (trim_left (to_list s))).

Lemma strip_any_Some pats l k :
  strip_any pats l = Some k → ∃ p, p ∈ pats ∧ l = p ++ k.
Proof.
  induction pats as [|p ps IH]; [done|]. simpl. case_match eqn:Hp.
  - intros [= <-]. apply strip_prefix_Some in Hp. exists p. set_solver.
  - intros [q [? ?]]%IH. exists q. set_solver.
Qed.
Lemma strip_any_None pats l :
  strip_any pats l = None ↔ ∀ p k, p ∈ pats → l ≠ p ++ k.
Proof.
  induction pats as [|p ps IH]; [set_solver|]. simpl. case_match eqn:Hp.
  - split; [done|]. intros Hall. apply strip_prefix_Some in Hp.
    destruct (Hall p _ ltac:(set_solver) Hp).
  - rewrite IH. assert (∀ k, l ≠ p ++ k).
    { intros k Hk. by rewrite (proj2 (strip_prefix_Some p l k) Hk) in Hp. }
    set_solver.
Qed.

(** Trimming consumes whole patterns, and with as much fuel as bytes it stops
    only where no pattern matches. *)
Lemma trim_fuel_suffix n pats l : ∃ k, l = k ++ trim_fuel n pats l.
Proof.
  revert l. induction n as [|n IH]; intros l; simpl; [by exists []|].
  destruct (strip_any pats l) as [b|] eqn:Hs; [|by exists []].
  apply strip_any_Some in Hs as (p & _ & ->). destruct (IH b) as [k Hk].
  exists (p ++ k). by rewrite <- (assoc_L (++)), <- Hk.
Qed.
Lemma trim_fuel_stops n pats l :
  [] ∉ pats → length l ≤ n → strip_any pats (trim_fuel n pats l) = None.
Proof.
  intros Hne. revert l. induction n as [|n IH]; intros l Hlen; simpl.
  - destruct l; [|simpl in Hlen; lia]. apply strip_any_None.
    intros p k Hp Hnil. symmetry in Hnil. apply app_eq_nil in Hnil as [-> ->]. done.
  - case_match eqn:Hs; [|done]. apply IH.
    apply strip_any_Some in Hs as (p & Hp & ->). rewrite length_app in Hlen.
    destruct p; [done|]. simpl in Hlen. lia.
Qed.
Lemma trim_fuel_id n pats l : strip_any pats l = None → trim_fuel n pats l = l.
Proof. intros Hs. destruct n; simpl; [done|]. by rewrite Hs. Qed.
Lemma strip_any_app_l pats l k : strip_any pats (l ++ k) = None → strip_any pats l = None.
Proof.
  rewrite !strip_any_None. intros Hall p k' Hp ->.
  apply (Hall p (k' ++ k) Hp). by rewrite (assoc_L (++)).
Qed.
Lemma space_runes_ne : [] ∉ space_runes.
Proof. rewrite list_elem_of_In. vm_compute. intuition discriminate. Qed.
Lemma rev_space_runes_ne : [] ∉ map (@rev _) space_runes.
Proof. rewrite list_elem_of_In. vm_compute. intuition discriminate. Qed.

Lemma trim_left_stops l : strip_any space_runes (trim_left l) = None.
Proof. apply trim_fuel_stops; [apply space_runes_ne | done]. Qed.
Lemma trim_right_prefix l : ∃ k, l = trim_right l ++ k.
Proof.
  unfold trim_right. destruct (trim_fuel_suffix (length l) (map (@rev _) space_runes) (rev l)) as [k Hk].
  exists (rev k). apply (f_equal (@rev _)) in Hk. by rewrite rev_app_distr, rev_involutive in Hk.
Qed.
Lemma trim_right_stops l : strip_any (map (@rev _) space_runes) (rev (trim_right l)) = None.
Proof.
  unfold trim_right. rewrite rev_involutive.
  apply trim_fuel_stops; [apply rev_space_runes_ne | by rewrite length_rev].
Qed.

(** A trimmed string is a fixed point of [TrimSpace]. *)
Lemma TrimSpace_idemp s : TrimSpace (TrimSpace s) = TrimSpace s.
Proof.
  unfold TrimSpace. rewrite to_of_list. set (l := trim_left (to_list s)). f_equal.
  assert (trim_left (trim_right l) = trim_right l) as ->.
  { apply trim_fuel_id. destruct (trim_right_prefix l) as [k Hk].
    apply (strip_any_app_l _ _ k). rewrite <- Hk. apply trim_left_stops. }
  unfold trim_right at 1. rewrite trim_fuel_id by apply trim_right_stops.
  apply rev_involutive.
Qed.

(** ** Case mapping

    [strings.ToUpper] and [strings.ToLower] on the ASCII letters; any other character is
    kept, as for text without letters beyond them. *)

Definition upper_ascii (c : Ascii.ascii) : Ascii.ascii :=
  let n := Ascii.nat_of_ascii c in
  if (97 <=? n)%nat && (n <=? 122)%nat then Ascii.ascii_of_nat (n - 32) else c.
Definition lower_ascii (c : Ascii.ascii) : Ascii.ascii :=
  let n := Ascii.nat_of_ascii c in
  if (65 <=? n)%nat && (n <=? 90)%nat then Ascii.ascii_of_nat (n + 32) else c.
Definition ToUpper (s : string) : string := of_list (map upper_ascii (to_list s)).
Definition ToLower (s : string) : string := of_list (map lower_ascii (to_list s)).

Lemma upper_ascii_idemp c : upper_ascii (upper_ascii c) = upper_ascii c.
Proof. by destruct c as [[][][][][][][][]]. Qed.
Lemma lower_ascii_idemp c : lower_ascii (lower_ascii c) = lower_ascii c.
Proof. by destruct c as [[][][][][][][][]]. Qed.
Lemma ToUpper_idemp s : ToUpper (ToUpper s) = ToUpper s.
Proof.
  unfold ToUpper. rewrite to_of_list, map_map. f_equal.
  apply map_ext, upper_ascii_idemp.
Qed.
Lemma ToLower_idemp s : ToLower (ToLower s) = ToLower s.
Proof.
  unfold ToLower. rewrite to_of_list, map_map. f_equal.
  apply map_ext, lower_ascii_idemp.
Qed.

(** ** [strings.NewReplacer] with one-byte patterns

    Every replacer of the program maps single bytes to strings, so replacement
    is a byte-wise substitution. *)
Definition replacer (f : Ascii.ascii → option string) (s : string) : string :=
  foldr (λ c acc, match f c with Some r => r +:+ acc | None => String c acc end) ""
    (to_list s).

Lemma replacer_nil f : replacer f "" = "".
Proof. done. Qed.
Lemma replacer_cons f c s :
  replacer f (String c s) =
    match f c with Some r => r +:+ replacer f s | None => String c (replacer f s) end.
Proof. done. Qed.
Lemma replacer_app f s t : replacer f (s +:+ t) = replacer f s +:+ replacer f t.
Proof.
  induction s as [|c s IH]; [done|]. change (String c s +:+ t) with (String c (s +:+ t)).
  rewrite !replacer_cons, IH. destruct (f c) as [r|]; [|done].
  apply to_list_inj. by rewrite !to_list_app, (assoc_L (++)).
Qed.

(** [all_bytes p s]: every byte of [s] satisfies [p]. *)
Definition all_bytes (p : Ascii.ascii → bool) (s : string) : bool := forallb p (to_list s).

Lemma all_bytes_app p s t : all_bytes p (s +:+ t) = all_bytes p s && all_bytes p t.
Proof. unfold all_bytes. by rewrite to_list_app, forallb_app. Qed.
Lemma all_bytes_cons p c s : all_bytes p (String c s) = p c && all_bytes p s.
Proof. done. Qed.

(** A replacer that covers every byte outside [p] by a string within [p] yields
    a string within [p]. *)
Lemma replacer_all_bytes f p s :
  (∀ c, match f c with Some r => all_bytes p r = true | None => p c = true end) →
  all_bytes p (replacer f s) = true.
Proof.
  intros Hf. induction s as [|c s IH]; [done|]. rewrite replacer_cons. specialize (Hf c).
  destruct (f c); rewrite ?all_bytes_app, ?all_bytes_cons, Hf, IH; done.
Qed.

(** ** [strings.Split] and [strings.Join] *)

Fixpoint Join (parts : list string) (sep : string) : string :=
  match parts with
  | [] => ""
  | [p] => p
  | p :: ps => p +:+ sep +:+ Join ps sep
  end.

(** [strings.Split(s, sep)] for a one-byte separator. *)
Fixpoint split_byte (sep : Ascii.ascii) (l : bytes) : list bytes :=
  match l with
  | [] => [[]]
  | c :: l' =>
      if Ascii.eqb c sep then [] :: split_byte sep l'
      else match split_byte sep l' with
           | [] => [[c]]
           | w :: ws => (c :: w) :: ws
           end
  end.
Definition SplitByte (s : string) (sep : Ascii.ascii) : list string :=
  map of_list (split_byte sep (to_list s)).

Lemma split_byte_ne sep l : split_byte sep l ≠ [].
Proof. destruct l as [|c l]; simpl; [done|]. repeat case_match; done. Qed.
Lemma split_byte_clean sep l w : w ∈ split_byte sep l → sep ∉ w.
Proof.
  revert w. induction l as [|c l IH]; simpl; intros w.
  - intros ->%list_elem_of_singleton. apply not_elem_of_nil.
  - destruct (Ascii.eqb_spec c sep) as [->|Hne].
    + intros [->|Hw]%elem_of_cons; [apply not_elem_of_nil | by apply IH].
    + destruct (split_byte sep l) as [|v vs] eqn:Hs; [by apply split_byte_ne in Hs|].
      intros [->|Hw]%elem_of_cons.
      * specialize (IH v). set_solver.
      * apply IH. set_solver.
Qed.

(** ** Concatenation *)

Lemma str_app_assoc (s t u : string) : (s +:+ t) +:+ u = s +:+ t +:+ u.
Proof. apply to_list_inj. by rewrite !to_list_app, (assoc_L (++)). Qed.
Lemma str_app_inj_r (s t u : string) : s +:+ u = t +:+ u → s = t.
Proof. intros Heq. apply (f_equal to_list) in Heq. rewrite !to_list_app in Heq. apply to_list_inj. by apply app_inj_2 in Heq as [? _]. Qed.

(** A string without line breaks. *)
Definition one_line (s : string) : bool := all_bytes (λ c, negb (Ascii.eqb c "010"%char)) s.

Lemma one_line_app s t : one_line (s +:+ t) = one_line s && one_line t.
Proof. apply all_bytes_app. Qed.
(** The first line break ends the first line. *)
Lemma first_line_inj a b x y :
  one_line a = true → one_line b = true → a +:+ nl +:+ x = b +:+ nl +:+ y → a = b ∧ x = y.
Proof.
  assert (∀ z, nl +:+ z = String "010" z) as Hnl by done.
  assert (∀ c s z, String c s +:+ z = String c (s +:+ z)) as Hcons by done.
  unfold one_line. rewrite !Hnl. revert b.
  induction a as [|c a IH]; intros [|c' b]; rewrite ?all_bytes_cons, ?andb_true_iff, ?Hcons.
  - intros _ _ Heq. split; [done|]. by injection Heq.
  - intros _ [Hc _] Heq. injection Heq as <- _. done.
  - intros [Hc _] _ Heq. injection Heq as -> _. done.
  - intros [_ Ha] [_ Hb] Heq. injection Heq as -> Heq. by destruct (IH b Ha Hb Heq) as [-> ->].
Qed.

(** [strings.ReplaceAll(s, old, new)] for a one-byte [old]. *)
Definition ReplaceByte (s : string) (old : Ascii.ascii) (new : string) : string :=
  replacer (λ c, if Ascii.eqb c old then Some new else None) s.

Lemma all_bytes_impl (p q : Ascii.ascii → bool) s :
  (∀ c, p c = true → q c = true) → all_bytes p s = true → all_bytes q s = true.
Proof.
  intros Hpq. induction s as [|c s IH]; [done|]. rewrite !all_bytes_cons, !andb_true_iff. naive_solver.
Qed.
(** A replacer whose replacements stay within [p] keeps a string within [p]. *)
Lemma replacer_keeps f p s :
  (∀ c r, f c = Some r → all_bytes p r = true) → all_bytes p s = true → all_bytes p (replacer f s) = true.
Proof.
  intros Hf. induction s as [|c s IH]; [done|].
  rewrite all_bytes_cons, replacer_cons, andb_true_iff. intros [Hc Hs].
  destruct (f c) as [r|] eqn:E; rewrite ?all_bytes_app, ?all_bytes_cons, (IH Hs);
    [by rewrite (Hf _ _ E) | by rewrite Hc].
Qed.
Lemma Join_all_bytes p parts sep :
  all_bytes p sep = true → Forall (λ s, all_bytes p s = true) parts → all_bytes p (Join parts sep) = true.
Proof.
  intros Hsep Hall. induction Hall as [|s parts Hs Hall IH]; [done|].
  destruct parts as [|s' parts]; [done|].
  change (Join (s :: s' :: parts) sep) with (s +:+ sep +:+ Join (s' :: parts) sep).
  by rewrite !all_bytes_app, Hs, Hsep, IH.
Qed.

(** ** Decimal text *)

Definition is_num (c : Ascii.ascii) : bool :=
  Ascii.eqb c "-"%char || ((48 <=? Ascii.nat_of_ascii c)%nat && (Ascii.nat_of_ascii c <=? 57)%nat).

Lemma pretty_N_num (n : N) : all_bytes is_num (pretty n) = true.
Proof.
  assert (∀ s, all_bytes is_num s = true → all_bytes is_num (pretty_N_go n s) = true) as Hgo.
  { induction (N.lt_wf_0 n) as [n _ IH]; intros s Hs.
    destruct (decide (n = 0)%N) as [->|]; [by rewrite pretty_N_go_0|].
    rewrite pretty_N_go_step by lia. apply IH; [apply N.div_lt; lia|].
    rewrite all_bytes_cons, Hs, andb_true_r. unfold pretty_N_char. by repeat case_match. }
  unfold pretty, pretty_N. case_decide; [done|]. by apply Hgo.
Qed.
Lemma pretty_Z_num (n : Z) : all_bytes is_num (pretty n) = true.
Proof. destruct n; [done| |]; apply (pretty_N_num (Npos p)) || exact (pretty_N_num (Npos p)). Qed.
