(* ===== verification/Utf8.v ===== *)
(** * UTF-8

    The parts of Go's [unicode/utf8] and [strings.ToValidUTF8] the program relies on,
    byte for byte. *)

From Stdlib Require Import Ascii.
From stdpp Require Import strings list.
From S2P Require Import Prelude GoStr.

(** ** UTF-8

    [rune_len l] is how many bytes the valid encoding at the head of [l] takes, and
    [None] when [l] starts with no valid encoding (Go's [utf8.DecodeRune] reports a
    width-one [RuneError] there). *)
Definition byte_in (lo hi : nat) (c : Ascii.ascii) : bool :=
  (lo <=? Ascii.nat_of_ascii c)%nat && (Ascii.nat_of_ascii c <=? hi)%nat.
Abbreviation cont := (byte_in 128 191).

Definition rune_len (l : bytes) : option nat :=
  match l with
  | [] => None
  | a :: l1 =>
      if byte_in 0 127 a then Some 1
      else match l1 with
      | [] => None
      | b :: l2 =>
          if byte_in 194 223 a && cont b then Some 2
          else match l2 with
          | [] => None
          | c :: l3 =>
              if ((byte_in 224 224 a && byte_in 160 191 b) || (byte_in 225 236 a && cont b) ||
                  (byte_in 237 237 a && byte_in 128 159 b) || (byte_in 238 239 a && cont b)) && cont c
              then Some 3
              else match l3 with
              | [] => None
              | d :: _ =>
                  if ((byte_in 240 240 a && byte_in 144 191 b) || (byte_in 241 243 a && cont b) ||
                      (byte_in 244 244 a && byte_in 128 143 b)) && cont c && cont d
                  then Some 4 else None
              end
          end
      end
  end.

Fixpoint valid_utf8_fuel (n : nat) (l : bytes) : bool :=
  match n, l with
  | _, [] => true
  | 0, _ => false
  | S n', _ => match rune_len l with Some k => valid_utf8_fuel n' (drop k l) | None => false end
  end.
Definition ValidUTF8 (s : string) : bool := valid_utf8_fuel (String.length s) (to_list s).

(** [strings.ToValidUTF8(s, empty)]: invalid bytes are dropped. *)
Fixpoint to_valid_fuel (n : nat) (l : bytes) : bytes :=
  match n, l with
  | _, [] => []
  | 0, _ => []
  | S n', _ :: l' =>
      match rune_len l with
      | Some k => take k l ++ to_valid_fuel n' (drop k l)
      | None => to_valid_fuel n' l'
      end
  end.
Definition ToValidUTF8 (s : string) : string := of_list (to_valid_fuel (String.length s) (to_list s)).

Lemma rune_len_bounds l k : rune_len l = Some k → 1 ≤ k ≤ length l.
Proof. unfold rune_len. intros H. repeat case_match; simplify_eq/=; lia. Qed.
(** The encoding is recognised from its own bytes. *)
Lemma rune_len_take l k r : rune_len l = Some k → rune_len (take k l ++ r) = Some k.
Proof.
  intros H. assert (k = 1 ∨ k = 2 ∨ k = 3 ∨ k = 4) as Hk.
  { unfold rune_len in H. repeat case_match; simplify_eq; auto. }
  destruct l as [|a [|b [|c [|d l]]]]; unfold rune_len in *;
    destruct Hk as [->|[->|[->| ->]]]; simpl in *; repeat case_match; simplify_eq; done.
Qed.

Lemma valid_utf8_more n m l : n ≤ m → valid_utf8_fuel n l = true → valid_utf8_fuel m l = true.
Proof.
  revert m l. induction n as [|n IH]; intros m [|a l] Hnm; [by destruct m|done|by destruct m|].
  destruct m as [|m]; [lia|]. cbn [valid_utf8_fuel]. destruct (rune_len (a :: l)); [|done]. apply IH. lia.
Qed.

Lemma to_valid_length n l : length (to_valid_fuel n l) ≤ length l.
Proof.
  revert l. induction n as [|n IH]; intros [|a l]; cbn [to_valid_fuel]; [simpl; lia..|].
  destruct (rune_len (a :: l)) as [k|] eqn:Hk.
  - rewrite length_app, length_take. specialize (IH (drop k (a :: l))). rewrite length_drop in IH. lia.
  - specialize (IH l). simpl. lia.
Qed.

Lemma to_valid_valid n l : valid_utf8_fuel (length (to_valid_fuel n l)) (to_valid_fuel n l) = true.
Proof.
  revert l. induction n as [|n IH]; intros [|a l]; cbn [to_valid_fuel]; [done..|].
  destruct (rune_len (a :: l)) as [k|] eqn:Hk; [|apply IH].
  pose proof (rune_len_bounds _ _ Hk) as Hb. set (r := to_valid_fuel n _).
  pose proof (rune_len_take _ _ r Hk) as Ht.
  assert (length (take k (a :: l)) = k) as Hlen by (rewrite length_take; lia).
  destruct (take k (a :: l) ++ r) as [|x y] eqn:Hxy.
  - apply (f_equal length) in Hxy. rewrite length_app, Hlen in Hxy. simpl in Hxy. lia.
  - assert (drop k (x :: y) = r) as Hd by (rewrite <- Hxy; by apply drop_app_length').
    assert (length (x :: y) = k + length r) as Hl by (rewrite <- Hxy, length_app; lia).
    simpl length. cbn [valid_utf8_fuel]. rewrite Ht, Hd. eapply valid_utf8_more; [|apply IH].
    simpl in Hl. fold r. lia.
Qed.

Lemma ToValidUTF8_valid s : ValidUTF8 (ToValidUTF8 s) = true.
Proof.
  unfold ValidUTF8, ToValidUTF8. rewrite to_of_list, <- length_to_list, to_of_list. apply to_valid_valid.
Qed.
Lemma ToValidUTF8_length s : String.length (ToValidUTF8 s) ≤ String.length s.
Proof.
  unfold ToValidUTF8. rewrite <- !length_to_list, to_of_list. apply to_valid_length.
Qed.
