(* ===== verification/Rules.v ===== *)
(** * Application-control rules

    Models [internal/appcontrol/rules/rules.go]: the rule record, its two
    validation patterns and [Normalize]. *)

From Stdlib Require Import Ascii.
From stdpp Require Import strings list sets.
From S2P Require Import Prelude GoStr.

(** [type Kind string] is open: any string can arrive, three are known. *)
Definition Hash : string := "hash".
Definition Publisher : string := "publisher".
Definition Path : string := "path".

Record Rule := mkRule {
  Kind : string;
  Value : string;
  PublisherName : string;
  Description : string;
}.

#[export] Instance Rule_eq_dec : EqDecision Rule.
Proof. solve_decision. Defined.

Definition is_upper_hex (c : ascii) : bool :=
  let n := nat_of_ascii c in
  ((48 <=? n) && (n <=? 57) || (65 <=? n) && (n <=? 70))%nat.
Definition is_letter (c : ascii) : bool :=
  let n := nat_of_ascii c in
  ((65 <=? n) && (n <=? 90) || (97 <=? n) && (n <=? 122))%nat.

(** The pattern [^[0-9A-F]{64}$]. *)
Definition hex64 (s : string) : bool :=
  (String.length s =? 64)%nat && all_bytes is_upper_hex s.

(** The negated character class of [winPath]: no angle bracket, colon, double
    quote, bar, question mark or newline. *)
Definition path_byte (c : ascii) : bool :=
  negb (existsb (Ascii.eqb c) (["<"; ">"; ":"; "034"; "|"; "?"; "010"])%char).

(** A letter, a colon, a backslash, then only [path_byte]s. *)
Definition winPath (s : string) : bool :=
  match s with
  | String d (String c (String b rest)) =>
      is_letter d && Ascii.eqb c ":"%char && Ascii.eqb b "\"%char && all_bytes path_byte rest
  | _ => false
  end.

Definition Normalize (r : Rule) : result Rule :=
  let r := mkRule (Kind r) (TrimSpace (Value r)) (TrimSpace (PublisherName r))
             (TrimSpace (Description r)) in
  if bool_decide (Kind r = Hash) || bool_decide (Kind r = Publisher) then
    let r := mkRule (Kind r) (ToUpper (Value r)) (PublisherName r) (Description r) in
    if negb (hex64 (Value r)) then Err (EFmt "%s value must be 64 hex characters" [Kind r])
    else Ok r
  else if bool_decide (Kind r = Path) then
    let base := TrimSuffix (Value r) "\*" in
    if bool_decide (base = "") || negb (winPath base) then
      Err (EMsg "path must be an absolute Windows path (optionally ending in \*)")
    else Ok r
  else Err (EFmt "unknown rule kind %q" [Kind r]).

(** What a normalized rule looks like: trimmed text, and a value in the
    canonical form of its kind. *)
Definition canonical (r : Rule) : Prop :=
  TrimSpace (PublisherName r) = PublisherName r ∧
  TrimSpace (Description r) = Description r ∧
  ((Kind r = Hash ∨ Kind r = Publisher) ∧ hex64 (Value r) = true
   ∨ Kind r = Path ∧ TrimSpace (Value r) = Value r ∧
     winPath (TrimSuffix (Value r) "\*") = true).

(** ** Canonical hash values *)

Lemma upper_hex_space c : is_upper_hex c = true →
  ∀ p, p ∈ space_runes → c ∉ p.
Proof.
  intros Hc p Hp Hin. apply list_elem_of_In in Hp, Hin. vm_compute in Hp.
  repeat destruct Hp as [<-|Hp]; try done;
    repeat destruct Hin as [<-|Hin]; done.
Qed.

Lemma upper_hex_upper c : is_upper_hex c = true → upper_ascii c = c.
Proof. by destruct c as [[][][][][][][][]]. Qed.

(** A pattern all of whose entries avoid the bytes of [l] strips nothing. *)
Lemma strip_any_disjoint pats (P : ascii → Prop) l :
  [] ∉ pats → (∀ c, P c → ∀ p, p ∈ pats → c ∉ p) → Forall P l → strip_any pats l = None.
Proof.
  intros Hne Hd Hl. apply strip_any_None. intros p k Hp ->.
  destruct p as [|c p]; [done|]. inversion Hl; subst.
  apply (Hd c ltac:(done) _ Hp). set_solver.
Qed.

Lemma all_bytes_Forall p s : all_bytes p s = true ↔ Forall (λ c, p c = true) (to_list s).
Proof. unfold all_bytes. rewrite forallb_forall, List.Forall_forall. done. Qed.

Lemma TrimSpace_hex s : all_bytes is_upper_hex s = true → TrimSpace s = s.
Proof.
  rewrite all_bytes_Forall. intros Hs. unfold TrimSpace, trim_left.
  rewrite trim_fuel_id.
  2: { eapply strip_any_disjoint; [apply space_runes_ne | apply upper_hex_space | done]. }
  unfold trim_right. rewrite trim_fuel_id, rev_involutive, of_to_list; [done|].
  eapply strip_any_disjoint; [apply rev_space_runes_ne | | by apply Forall_rev].
  intros c Hc p Hp. apply list_elem_of_In, in_map_iff in Hp as (q & <- & Hq%list_elem_of_In).
  intros Hin. apply (upper_hex_space c Hc q Hq).
  rewrite list_elem_of_In in *. by apply in_rev.
Qed.

Lemma ToUpper_hex s : all_bytes is_upper_hex s = true → ToUpper s = s.
Proof.
  rewrite all_bytes_Forall. intros Hs. unfold ToUpper. rewrite <- (of_to_list s) at 2. f_equal.
  induction Hs; simpl; [done|]. by rewrite upper_hex_upper, IHHs.
Qed.

Lemma hex64_bytes s : hex64 s = true → all_bytes is_upper_hex s = true.
Proof. unfold hex64. intros. by bool_cases. Qed.

(** ** [Normalize] *)

Lemma Normalize_canonical r r' : Normalize r = Ok r' → canonical r' ∧ Kind r' = Kind r.
Proof.
  unfold Normalize, canonical. simpl. intros H.
  repeat case_match; simplify_eq/=; rewrite ?TrimSpace_idemp; bool_cases; split_and?; auto.
  - left. split; [|done]. destruct (decide (Kind r = Hash)); [by left|right].
    apply orb_true_iff in H0 as [|]; bool_cases; done.
Qed.

Lemma canonical_Normalize r : canonical r → Normalize r = Ok r.
Proof.
  destruct r as [k v pn d]. unfold canonical, Normalize. simpl.
  intros (-> & -> & [[Hk Hv]|(-> & -> & Hv)]).
  - rewrite TrimSpace_hex, ToUpper_hex by (by apply hex64_bytes).
    rewrite Hv. simpl. destruct Hk as [->| ->]; done.
  - simpl. rewrite Hv. case_bool_decide as Hb; [by rewrite Hb in Hv | done].
Qed.

(** [Normalize] accepts exactly the rules whose trimmed (and, for hashes and
    publishers, upper-cased) fields are canonical; its result is canonical, keeps
    the rule's kind, and normalizing it again changes nothing, as the source
    comment promises. *)
Theorem Normalize_idempotent r r' :
  Normalize r = Ok r' → canonical r' ∧ Kind r' = Kind r ∧ Normalize r' = Ok r'.
Proof.
  intros [Hc Hk]%Normalize_canonical. auto using canonical_Normalize.
Qed.

(** A path rule may carry wildcards before the trailing one: [path_byte] excludes
    the question mark but not the asterisk. *)
Example Normalize_inner_wildcards :
  Normalize (mkRule Path "C:\*\a\*\*" "" "") = Ok (mkRule Path "C:\*\a\*\*" "" "").
Proof. vm_compute. reflexivity. Qed.

Lemma Normalize_idempotent_witness :
  let r := mkRule Hash ("  aaaaaaaaaaaaaaaaaaaaaaaaaaaaaaaaaaaaaaaaaaaaaaaaaaaaaaaaaaaaaaaa" +:+ nl) "" " x" in
  let r' := mkRule Hash "AAAAAAAAAAAAAAAAAAAAAAAAAAAAAAAAAAAAAAAAAAAAAAAAAAAAAAAAAAAAAAAA" "" "x" in
  Normalize r = Ok r' ∧ canonical r' ∧ Kind r' = Kind r ∧ Normalize r' = Ok r'.
Proof.
  intros r r'. assert (Normalize r = Ok r') as H by (vm_compute; reflexivity).
  split; [exact H | exact (Normalize_idempotent r r' H)].
Defined.
