(* ===== verification/Wdac.v ===== *)
(** * The WDAC policy compiler

    Models [internal/appcontrol/wdac/wdac.go]: the Microsoft baseline, [esc] and
    [Compile], which renders an admin's rules as SiPolicy XML. The sort the
    compiler calls ([sort.Slice]) is an interface: [Compile] works for every
    function that satisfies its contract. [ContentHash] is SHA-256 over the
    output and is a parameter of the policy service, not of this file. *)

From Stdlib Require Import Ascii.
From stdpp Require Import strings list pretty sorting sets.
From S2P Require Import Prelude GoStr Rules.

Definition basePolicyGUID : string := "{A244370E-44C9-4C06-B551-F6016E563076}".
Definition platformID : string := "{2E07F7E4-194C-4D20-B7C9-6F44A6C5A234}".

Record Policy := mkPolicy { Mode : string; Rules : list Rule }.

Definition baselineEKUs : string :=
  xq "    <EKU ID='ID_EKU_WINDOWS' Value='010A2B0601040182370A0306' />" +:+ nl +:+
  xq "    <EKU ID='ID_EKU_WHQL' Value='010A2B0601040182370A0305' />" +:+ nl +:+
  xq "    <EKU ID='ID_EKU_ELAM' Value='010A2B0601040182373D0401' />" +:+ nl +:+
  xq "    <EKU ID='ID_EKU_HAL_EXT' Value='010A2B0601040182373D0501' />" +:+ nl +:+
  xq "    <EKU ID='ID_EKU_RT_EXT' Value='010A2B0601040182370A0315' />" +:+ nl +:+
  xq "    <EKU ID='ID_EKU_STORE' Value='010A2B0601040182374C0301' />" +:+ nl +:+
  xq "    <EKU ID='ID_EKU_DCODEGEN' Value='010A2B0601040182374C0501' />" +:+ nl +:+
  xq "    <EKU ID='ID_EKU_AM' Value='010A2B0601040182374C0B01' />" +:+ nl.

Record baselineSigner := mkSigner {
  sg_id : string; sg_name : string; sg_root : string; sg_eku : string; sg_kernel : bool;
}.

Definition baselineSigners : list baselineSigner :=
  [
   mkSigner "ID_SIGNER_WINDOWS_PRODUCTION" "Microsoft Product Root 2010 Windows EKU"
     (xq "Type='Wellknown' Value='06'") "ID_EKU_WINDOWS" true;
   mkSigner "ID_SIGNER_ELAM_PRODUCTION" "Microsoft Product Root 2010 ELAM EKU"
     (xq "Type='Wellknown' Value='06'") "ID_EKU_ELAM" true;
   mkSigner "ID_SIGNER_HAL_PRODUCTION" "Microsoft Product Root 2010 HAL EKU"
     (xq "Type='Wellknown' Value='06'") "ID_EKU_HAL_EXT" true;
   mkSigner "ID_SIGNER_WHQL_SHA2" "Microsoft Product Root 2010 WHQL EKU"
     (xq "Type='Wellknown' Value='06'") "ID_EKU_WHQL" true;
   mkSigner "ID_SIGNER_WHQL_SHA1" "Microsoft Product Root WHQL EKU SHA1"
     (xq "Type='Wellknown' Value='05'") "ID_EKU_WHQL" true;
   mkSigner "ID_SIGNER_WHQL_MD5" "Microsoft Product Root WHQL EKU MD5"
     (xq "Type='Wellknown' Value='04'") "ID_EKU_WHQL" true;
   mkSigner "ID_SIGNER_WINDOWS_FLIGHT_ROOT" "Microsoft Flighting Root 2014 Windows EKU"
     (xq "Type='Wellknown' Value='0E'") "ID_EKU_WINDOWS" true;
   mkSigner "ID_SIGNER_ELAM_FLIGHT" "Microsoft Flighting Root 2014 ELAM EKU"
     (xq "Type='Wellknown' Value='0E'") "ID_EKU_ELAM" true;
   mkSigner "ID_SIGNER_HAL_FLIGHT" "Microsoft Flighting Root 2014 HAL EKU"
     (xq "Type='Wellknown' Value='0E'") "ID_EKU_HAL_EXT" true;
   mkSigner "ID_SIGNER_WHQL_FLIGHT_SHA2" "Microsoft Flighting Root 2014 WHQL EKU"
     (xq "Type='Wellknown' Value='0E'") "ID_EKU_WHQL" true;
   mkSigner "ID_SIGNER_WINDOWS_PRODUCTION_USER" "Microsoft Product Root 2010 Windows EKU"
     (xq "Type='Wellknown' Value='06'") "ID_EKU_WINDOWS" false;
   mkSigner "ID_SIGNER_ELAM_PRODUCTION_USER" "Microsoft Product Root 2010 ELAM EKU"
     (xq "Type='Wellknown' Value='06'") "ID_EKU_ELAM" false;
   mkSigner "ID_SIGNER_HAL_PRODUCTION_USER" "Microsoft Product Root 2010 HAL EKU"
     (xq "Type='Wellknown' Value='06'") "ID_EKU_HAL_EXT" false;
   mkSigner "ID_SIGNER_WHQL_SHA2_USER" "Microsoft Product Root 2010 WHQL EKU"
     (xq "Type='Wellknown' Value='06'") "ID_EKU_WHQL" false;
   mkSigner "ID_SIGNER_WHQL_SHA1_USER" "Microsoft Product Root WHQL EKU SHA1"
     (xq "Type='Wellknown' Value='05'") "ID_EKU_WHQL" false;
   mkSigner "ID_SIGNER_WHQL_MD5_USER" "Microsoft Product Root WHQL EKU MD5"
     (xq "Type='Wellknown' Value='04'") "ID_EKU_WHQL" false;
   mkSigner "ID_SIGNER_WINDOWS_FLIGHT_ROOT_USER" "Microsoft Flighting Root 2014 Windows EKU"
     (xq "Type='Wellknown' Value='0E'") "ID_EKU_WINDOWS" false;
   mkSigner "ID_SIGNER_ELAM_FLIGHT_USER" "Microsoft Flighting Root 2014 ELAM EKU"
     (xq "Type='Wellknown' Value='0E'") "ID_EKU_ELAM" false;
   mkSigner "ID_SIGNER_HAL_FLIGHT_USER" "Microsoft Flighting Root 2014 HAL EKU"
     (xq "Type='Wellknown' Value='0E'") "ID_EKU_HAL_EXT" false;
   mkSigner "ID_SIGNER_WHQL_FLIGHT_SHA2_USER" "Microsoft Flighting Root 2014 WHQL EKU"
     (xq "Type='Wellknown' Value='0E'") "ID_EKU_WHQL" false;
   mkSigner "ID_SIGNER_STORE" "Microsoft MarketPlace PCA 2011"
     (xq "Type='TBS' Value='FC9EDE3DCCA09186B2D3BF9B738A2050CB1A554DA2DCADB55F3F72EE17721378'") "ID_EKU_STORE" false;
   mkSigner "ID_SIGNER_STORE_FLIGHT_ROOT" "Microsoft Flighting Root 2014 Store EKU"
     (xq "Type='Wellknown' Value='0E'") "ID_EKU_STORE" false;
   mkSigner "ID_SIGNER_RT_PRODUCTION" "Microsoft Product Root 2010 RT EKU"
     (xq "Type='Wellknown' Value='06'") "ID_EKU_RT_EXT" false;
   mkSigner "ID_SIGNER_RT_FLIGHT" "Microsoft Flighting Root 2014 RT EKU"
     (xq "Type='Wellknown' Value='0E'") "ID_EKU_RT_EXT" false;
   mkSigner "ID_SIGNER_RT_STANDARD" "Microsoft Standard Root 2011 RT EKU"
     (xq "Type='Wellknown' Value='07'") "ID_EKU_RT_EXT" false;
   mkSigner "ID_SIGNER_DRM" "Microsoft DMD Root 2005"
     (xq "Type='Wellknown' Value='0C'") "" false;
   mkSigner "ID_SIGNER_DCODEGEN" "Microsoft Product Root 2010 Dynamic Code Generation EKU"
     (xq "Type='Wellknown' Value='06'") "ID_EKU_DCODEGEN" false;
   mkSigner "ID_SIGNER_AM" "Microsoft Standard Root 2011 AntiMalware EKU"
     (xq "Type='Wellknown' Value='07'") "ID_EKU_AM" false
  ].

(** [esc]: the XML escaping of attribute text. *)
Definition esc_byte (c : ascii) : option string :=
  if Ascii.eqb c "&"%char then Some "&amp;"
  else if Ascii.eqb c "<"%char then Some "&lt;"
  else if Ascii.eqb c ">"%char then Some "&gt;"
  else if Ascii.eqb c "034"%char then Some "&quot;"
  else None.
Definition esc (s : string) : string := replacer esc_byte s.

(** ** [sort.Slice] *)

(** The contract of [sort.Slice(x, less)]: a permutation of the slice in which
    no element is less than one before it, for a [less] that is a strict weak
    order. Equal elements may come in any order. *)
Class SliceSort (sort : ∀ A, (A → A → bool) → list A → list A) : Prop := {
  slice_sort_perm : ∀ A less (l : list A), sort A less l ≡ₚ l;
  slice_sort_sorted : ∀ A (less : A → A → bool) (l : list A),
    Transitive (λ x y, less y x = false) → (∀ x y, less x y = true → less y x = false) →
    StronglySorted (λ x y, less y x = false) (sort A less l);
}.

(** Byte-wise [<] on strings. *)
Definition str_ltb (s t : string) : bool := negb (String.leb t s).

Definition rule_less (a b : Rule) : bool :=
  if negb (bool_decide (Kind a = Kind b)) then str_ltb (Kind a) (Kind b)
  else str_ltb (Value a) (Value b).

(** ** [Compile] *)

Fixpoint normalize_all (rs : list Rule) : result (list Rule) :=
  match rs with
  | [] => Ok []
  | r :: rs' => n ← Normalize r; ns ← normalize_all rs'; Ok (n :: ns)
  end.

Definition signer_xml (s : baselineSigner) : string :=
  xq "    <Signer ID='" +:+ sg_id s +:+ xq "' Name='" +:+ sg_name s +:+ xq "'>" +:+ nl +:+
  "      <CertRoot " +:+ sg_root s +:+ " />" +:+ nl +:+
  (if negb (bool_decide (sg_eku s = ""))
   then xq "      <CertEKU ID='" +:+ sg_eku s +:+ xq "' />" +:+ nl else "") +:+
  "    </Signer>" +:+ nl.

Definition signer_ref (id : string) : string :=
  xq "          <AllowedSigner SignerId='" +:+ id +:+ xq "' />" +:+ nl.

Definition file_ref (rid : string) : string :=
  xq "          <FileRuleRef RuleID='" +:+ rid +:+ xq "' />" +:+ nl.

(** The [strings.Builder]s of [Compile], with the running [id]. *)
Record builders := mkBuilders {
  b_signers : string; b_kernelRefs : string; b_userRefs : string;
  b_fileRules : string; b_fileRefs : string; b_id : N;
}.

Definition add_baseline (b : builders) (s : baselineSigner) : builders :=
  let ref := signer_ref (sg_id s) in
  mkBuilders (b_signers b +:+ signer_xml s)
    (if sg_kernel s then b_kernelRefs b +:+ ref else b_kernelRefs b)
    (if sg_kernel s then b_userRefs b else b_userRefs b +:+ ref)
    (b_fileRules b) (b_fileRefs b) (b_id b).

Definition add_rule (b : builders) (r : Rule) : builders :=
  let id := b_id b in
  if bool_decide (Kind r = Hash) then
    let rid := "ID_ALLOW_H_" +:+ pretty id in
    mkBuilders (b_signers b) (b_kernelRefs b) (b_userRefs b)
      (b_fileRules b +:+ xq "    <Allow ID='" +:+ rid +:+ xq "' FriendlyName='" +:+
       esc (Description r) +:+ xq "' Hash='" +:+ Value r +:+ xq "' />" +:+ nl)
      (b_fileRefs b +:+ file_ref rid) (id + 1)
  else if bool_decide (Kind r = Path) then
    let rid := "ID_ALLOW_P_" +:+ pretty id in
    mkBuilders (b_signers b) (b_kernelRefs b) (b_userRefs b)
      (b_fileRules b +:+ xq "    <Allow ID='" +:+ rid +:+ xq "' FriendlyName='" +:+
       esc (Description r) +:+ xq "' FilePath='" +:+ esc (Value r) +:+ xq "' />" +:+ nl)
      (b_fileRefs b +:+ file_ref rid) (id + 1)
  else if bool_decide (Kind r = Publisher) then
    let sid := "ID_SIGNER_P_" +:+ pretty id in
    let name := if bool_decide (PublisherName r = "") then "Publisher" else PublisherName r in
    mkBuilders
      (b_signers b +:+ xq "    <Signer ID='" +:+ sid +:+ xq "' Name='" +:+ esc name +:+ xq "'>" +:+ nl +:+
       xq "      <CertRoot Type='TBS' Value='" +:+ Value r +:+ xq "' />" +:+ nl +:+
       "    </Signer>" +:+ nl)
      (b_kernelRefs b) (b_userRefs b +:+ signer_ref sid)
      (b_fileRules b) (b_fileRefs b) (id + 1)
  else mkBuilders (b_signers b) (b_kernelRefs b) (b_userRefs b) (b_fileRules b) (b_fileRefs b) (id + 1).

Definition render (mode : string) (b : builders) : string :=
  xq "<?xml version='1.0' encoding='utf-8'?>" +:+ nl +:+
  xq "<SiPolicy xmlns='urn:schemas-microsoft-com:sipolicy' PolicyType='Base Policy'>" +:+ nl +:+
  "  <VersionEx>1.0.0.0</VersionEx>" +:+ nl +:+
  "  <PolicyID>" +:+ basePolicyGUID +:+ "</PolicyID>" +:+ nl +:+
  "  <BasePolicyID>" +:+ basePolicyGUID +:+ "</BasePolicyID>" +:+ nl +:+
  "  <PlatformID>" +:+ platformID +:+ "</PlatformID>" +:+ nl +:+
  "  <Rules>" +:+ nl +:+
  "    <Rule><Option>Enabled:Unsigned System Integrity Policy</Option></Rule>" +:+ nl +:+
  (if negb (bool_decide (mode = "enforce"))
   then "    <Rule><Option>Enabled:Audit Mode</Option></Rule>" +:+ nl else "") +:+
  "    <Rule><Option>Enabled:UMCI</Option></Rule>" +:+ nl +:+
  "    <Rule><Option>Enabled:Update Policy No Reboot</Option></Rule>" +:+ nl +:+
  "    <Rule><Option>Enabled:Revoked Expired As Unsigned</Option></Rule>" +:+ nl +:+
  "  </Rules>" +:+ nl +:+
  "  <EKUs>" +:+ nl +:+ baselineEKUs +:+ "  </EKUs>" +:+ nl +:+
  "  <FileRules>" +:+ nl +:+ b_fileRules b +:+ "  </FileRules>" +:+ nl +:+
  "  <Signers>" +:+ nl +:+ b_signers b +:+ "  </Signers>" +:+ nl +:+
  "  <SigningScenarios>" +:+ nl +:+
  xq "    <SigningScenario Value='131' ID='ID_SIGNINGSCENARIO_KMCI' FriendlyName='Kernel mode'>" +:+ nl +:+
  "      <ProductSigners>" +:+ nl +:+
  "        <AllowedSigners>" +:+ nl +:+ b_kernelRefs b +:+ "        </AllowedSigners>" +:+ nl +:+
  "      </ProductSigners>" +:+ nl +:+
  "    </SigningScenario>" +:+ nl +:+
  xq "    <SigningScenario Value='12' ID='ID_SIGNINGSCENARIO_UMCI' FriendlyName='User mode'>" +:+ nl +:+
  "      <ProductSigners>" +:+ nl +:+
  "        <AllowedSigners>" +:+ nl +:+ b_userRefs b +:+ "        </AllowedSigners>" +:+ nl +:+
  (if (0 <? String.length (b_fileRefs b))%nat
   then "        <FileRulesRef>" +:+ nl +:+ b_fileRefs b +:+ "        </FileRulesRef>" +:+ nl else "") +:+
  "      </ProductSigners>" +:+ nl +:+
  "    </SigningScenario>" +:+ nl +:+
  "  </SigningScenarios>" +:+ nl +:+
  "  <UpdatePolicySigners />" +:+ nl +:+
  "  <CiSigners>" +:+ nl +:+ xq "    <CiSigner SignerId='ID_SIGNER_STORE' />" +:+ nl +:+
  "  </CiSigners>" +:+ nl +:+
  "  <HvciOptions>0</HvciOptions>" +:+ nl +:+
  "</SiPolicy>" +:+ nl.

Definition baseline_builders : builders :=
  foldl add_baseline (mkBuilders "" "" "" "" "" 0) baselineSigners.

Definition Compile (sort : ∀ A, (A → A → bool) → list A → list A) (p : Policy) : result string :=
  rs ← normalize_all (Rules p);
  let rs := sort Rule rule_less rs in
  Ok (render (Mode p) (foldl add_rule baseline_builders rs)).

(** ** An instance of the sort contract

    [sort.Slice] runs insertion sort on short slices; this is that loop. *)
Fixpoint insert_by {A} (less : A → A → bool) (x : A) (l : list A) : list A :=
  match l with
  | [] => [x]
  | y :: l' => if less x y then x :: y :: l' else y :: insert_by less x l'
  end.
Definition insertion_sort A (less : A → A → bool) (l : list A) : list A :=
  foldl (λ acc x, insert_by less x acc) [] l.

Lemma insert_by_perm {A} less (x : A) l : insert_by less x l ≡ₚ x :: l.
Proof.
  induction l as [|y l IH]; simpl; [done|]. destruct (less x y); [done|].
  rewrite IH. apply Permutation_swap.
Qed.
Lemma insert_by_sorted {A} (less : A → A → bool) x l :
  Transitive (λ x y, less y x = false) → (∀ x y, less x y = true → less y x = false) →
  StronglySorted (λ x y, less y x = false) l →
  StronglySorted (λ x y, less y x = false) (insert_by less x l).
Proof.
  intros Htr Has. induction 1 as [|y l Hl IH Hy]; simpl; [by repeat constructor|].
  destruct (less x y) eqn:Hxy.
  - constructor; [by constructor|]. constructor; [by apply Has|].
    apply Has in Hxy. eapply Forall_impl; [exact Hy|].
    intros z Hz. exact (Htr x y z Hxy Hz).
  - constructor; [done|]. rewrite insert_by_perm. by constructor.
Qed.

#[export] Instance insertion_sort_ok : SliceSort insertion_sort.
Proof.
  unfold insertion_sort. split.
  - intros A less l. change (l) with ([] ++ l) at 2. generalize (@nil A) as acc.
    induction l as [|x l IH]; intros acc; simpl; [by rewrite app_nil_r|].
    rewrite IH, insert_by_perm. simpl. apply Permutation_middle.
  - intros A less l Htr Has. generalize (SSorted_nil (λ x y : A, less y x = false)).
    generalize (@nil A) as acc. induction l as [|x l IH]; intros acc Hacc; simpl; [done|].
    by apply IH, insert_by_sorted.
Qed.

(** ** The order [Compile] sorts by *)

Lemma str_ltb_false s t : str_ltb s t = false ↔ String.le t s.
Proof. unfold str_ltb, String.le. rewrite negb_false_iff. by destruct (String.leb t s). Qed.
Lemma str_ltb_true s t : str_ltb s t = true ↔ ¬ String.le t s.
Proof. rewrite <- str_ltb_false. by destruct (str_ltb s t). Qed.

(** [rule_le x y] is the non-strict order [rule_less] induces: lexicographic on
    kind and value. *)
Lemma rule_less_false x y :
  rule_less y x = false ↔ String.le (Kind x) (Kind y) ∧ (Kind x = Kind y → String.le (Value x) (Value y)).
Proof.
  unfold rule_less. case_bool_decide as Hk; simpl; rewrite str_ltb_false.
  - rewrite Hk. split; [intros ?; split; [reflexivity | done] | naive_solver].
  - naive_solver.
Qed.
Lemma rule_less_trans : Transitive (λ x y, rule_less y x = false).
Proof.
  intros x y z. rewrite !rule_less_false. intros [Hk1 Hv1] [Hk2 Hv2]. split; [by etrans|].
  intros Hxz. assert (Kind x = Kind y) as Hxy.
  { apply (anti_symm String.le); [done|]. by rewrite Hxz. }
  etrans; [by apply Hv1 | apply Hv2; congruence].
Qed.
Lemma rule_less_asymm x y : rule_less x y = true → rule_less y x = false.
Proof.
  unfold rule_less. rewrite (bool_decide_ext (Kind y = Kind x) (Kind x = Kind y)) by naive_solver.
  destruct (bool_decide _); simpl; rewrite str_ltb_true, str_ltb_false; intros Hn;
    [destruct (total String.le (Value x) (Value y)) | destruct (total String.le (Kind x) (Kind y))];
    done.
Qed.
Lemma rule_less_key x y :
  rule_less y x = false → rule_less x y = false → (Kind x, Value x) = (Kind y, Value y).
Proof.
  rewrite !rule_less_false. intros [Hk1 Hv1] [Hk2 Hv2].
  assert (Kind x = Kind y) as Hk by (by apply (anti_symm String.le)).
  f_equal; [done|]. apply (anti_symm String.le); [by apply Hv1 | by apply Hv2].
Qed.

(** Two sorted permutations of rules with pairwise distinct keys agree. *)
Lemma sorted_keys_unique l1 l2 :
  StronglySorted (λ x y, rule_less y x = false) l1 →
  StronglySorted (λ x y, rule_less y x = false) l2 →
  l1 ≡ₚ l2 → NoDup ((λ r, (Kind r, Value r)) <$> l1) → l1 = l2.
Proof.
  revert l2. induction l1 as [|x l1 IH]; intros l2 H1 H2 Hp Hnd.
  { by apply Permutation_nil_l in Hp. }
  destruct l2 as [|y l2]; [by apply Permutation_nil_r in Hp|].
  assert (x = y) as ->.
  { inversion H1 as [|? ? _ Hx]; inversion H2 as [|? ? _ Hy]; subst.
    assert (Hyin : y ∈ x :: l1) by (rewrite Hp; left).
    assert (Hxin : x ∈ y :: l2) by (rewrite <- Hp; left).
    apply elem_of_cons in Hyin as [->|Hyin]; [done|].
    apply elem_of_cons in Hxin as [->|Hxin]; [done|].
    rewrite List.Forall_forall in Hx, Hy. rewrite list_elem_of_In in Hyin, Hxin.
    pose proof (rule_less_key x y (Hx _ Hyin) (Hy _ Hxin)) as Hkey.
    apply NoDup_cons in Hnd as [Hni _]. destruct Hni. simpl. rewrite Hkey.
    apply list_elem_of_fmap. exists y. split; [done | by apply list_elem_of_In]. }
  f_equal. inversion H1; inversion H2; subst. apply IH; try done.
  - by apply Permutation_cons_inv in Hp.
  - by apply NoDup_cons in Hnd as [_ ?].
Qed.

(** ** Normalizing a list *)

Lemma normalize_all_Ok rs ns :
  normalize_all rs = Ok ns ↔ Forall2 (λ r n, Normalize r = Ok n) rs ns.
Proof.
  revert ns. induction rs as [|r rs IH]; intros ns; simpl.
  - split; [by intros [= <-] | by inversion 1].
  - destruct (Normalize r) as [n|e] eqn:Hr; simpl.
    + destruct (normalize_all rs) as [ns'|e] eqn:Hrs; simpl.
      * split; [intros [= <-]; constructor; [done | by apply IH]|].
        inversion 1 as [|? n' ? ns'' Hn Hns]; subst.
        apply IH in Hns. congruence.
      * split; [done|]. inversion 1 as [|? n' ? ns'' Hn Hns]; subst.
        apply IH in Hns. congruence.
    + split; [done|]. inversion 1; congruence.
Qed.

Lemma Forall2_fun_perm {A B} (f : A → option B) l1 l2 k1 :
  l1 ≡ₚ l2 → Forall2 (λ a b, f a = Some b) l1 k1 →
  ∃ k2, Forall2 (λ a b, f a = Some b) l2 k2 ∧ k1 ≡ₚ k2.
Proof.
  intros Hp. revert k1. induction Hp as [|x l1 l2 Hp IH|x y l|l1 l2 l3 _ IH1 _ IH2]; intros k1 HF.
  - eauto.
  - inversion HF as [|? b ? k ? Hk]; subst. destruct (IH k Hk) as (k2 & ? & ?).
    exists (b :: k2). auto.
  - inversion HF as [|? b ? k ? Hk]; subst. inversion Hk as [|? b' ? k' ? Hk']; subst.
    exists (b' :: b :: k'). split; [auto | apply Permutation_swap].
  - destruct (IH1 k1 HF) as (k2 & HF2 & ?). destruct (IH2 k2 HF2) as (k3 & ? & ?).
    exists k3. split; [done | by etrans].
Qed.

Lemma normalize_all_perm l1 l2 n1 :
  l1 ≡ₚ l2 → normalize_all l1 = Ok n1 → ∃ n2, normalize_all l2 = Ok n2 ∧ n1 ≡ₚ n2.
Proof.
  intros Hp H1%normalize_all_Ok.
  set (f r := match Normalize r with Ok n => Some n | Err _ => None end).
  assert (∀ r n, Normalize r = Ok n ↔ f r = Some n) as Hf.
  { intros r n. unfold f. destruct (Normalize r); naive_solver. }
  destruct (Forall2_fun_perm f l1 l2 n1 Hp) as (n2 & H2 & Hperm).
  { eapply Forall2_impl; [exact H1|]. intros; by apply Hf. }
  exists n2. split; [|done]. apply normalize_all_Ok.
  eapply Forall2_impl; [exact H2|]. intros; by apply Hf.
Qed.

(** The compiled XML is a function of the rule set: permuting the rules, and
    even swapping one correct [sort.Slice] for another, yields byte-identical
    output, provided the normalized rules have distinct (kind, value) keys (the
    [UNIQUE (policy_id, kind, value)] of the rules table). *)
Theorem Compile_deterministic sort1 sort2 `{!SliceSort sort1, !SliceSort sort2} mode l1 l2 ns xml :
  normalize_all l1 = Ok ns → NoDup ((λ r, (Kind r, Value r)) <$> ns) → l1 ≡ₚ l2 →
  Compile sort1 (mkPolicy mode l1) = Ok xml → Compile sort2 (mkPolicy mode l2) = Ok xml.
Proof.
  intros Hns Hnd Hp. destruct (normalize_all_perm l1 l2 ns Hp Hns) as (ns2 & Hns2 & Hp2).
  unfold Compile. simpl. rewrite Hns, Hns2. simpl.
  rewrite (sorted_keys_unique (sort1 _ rule_less ns) (sort2 _ rule_less ns2)); [done | | | |].
  - apply slice_sort_sorted; [apply rule_less_trans | apply rule_less_asymm].
  - apply slice_sort_sorted; [apply rule_less_trans | apply rule_less_asymm].
  - by rewrite !slice_sort_perm.
  - by rewrite slice_sort_perm.
Qed.

(** ** Escaping *)

(** What an XML reader makes of attribute text: the four entities [esc] writes
    are decoded, every other byte stands for itself. *)
Fixpoint unesc_fuel (n : nat) (l : bytes) : bytes :=
  match n with
  | 0 => l
  | S n' =>
      match l with
      | [] => []
      | c :: l' =>
          match strip_prefix (to_list "&amp;") l, strip_prefix (to_list "&lt;") l,
                strip_prefix (to_list "&gt;") l, strip_prefix (to_list "&quot;") l with
          | Some k, _, _, _ => "&"%char :: unesc_fuel n' k
          | _, Some k, _, _ => "<"%char :: unesc_fuel n' k
          | _, _, Some k, _ => ">"%char :: unesc_fuel n' k
          | _, _, _, Some k => "034"%char :: unesc_fuel n' k
          | _, _, _, _ => c :: unesc_fuel n' l'
          end
      end
  end.
Definition unesc (s : string) : string := of_list (unesc_fuel (String.length s) (to_list s)).

Definition attr_byte (c : ascii) : bool :=
  negb (Ascii.eqb c "<"%char || Ascii.eqb c ">"%char || Ascii.eqb c "034"%char).

Lemma esc_attr s : all_bytes attr_byte (esc s) = true.
Proof.
  apply replacer_all_bytes. intros c. unfold esc_byte, attr_byte.
  destruct (Ascii.eqb_spec c "&") as [->|]; [done|].
  destruct (Ascii.eqb c "<"), (Ascii.eqb c ">"), (Ascii.eqb c "034"); done.
Qed.

Lemma unesc_esc_fuel n s :
  String.length s ≤ n → unesc_fuel n (to_list (esc s)) = to_list s.
Proof.
  revert s. induction n as [|n IH]; intros s Hlen.
  { destruct s; [done | simpl in Hlen; lia]. }
  destruct s as [|c s]; [done|]. simpl in Hlen. unfold esc in *.
  rewrite replacer_cons. unfold esc_byte.
  destruct (Ascii.eqb_spec c "&") as [->|H1];
    [|destruct (Ascii.eqb_spec c "<") as [->|H2];
      [|destruct (Ascii.eqb_spec c ">") as [->|H3];
        [|destruct (Ascii.eqb_spec c "034") as [->|H4]]]];
    rewrite ?to_list_app; try (simpl; rewrite IH by lia; done).
  cbn [String.list_ascii_of_string unesc_fuel].
  assert (∀ p k, strip_prefix ("&"%char :: p) (c :: k) = None) as Hn.
  { intros p k. cbn [strip_prefix]. by destruct (Ascii.eqb_spec "&" c) as [<-|]. }
  rewrite !Hn. f_equal. apply IH. lia.
Qed.
Lemma unesc_fuel_mono n m l : length l ≤ n → length l ≤ m → unesc_fuel n l = unesc_fuel m l.
Proof.
  revert m l. induction n as [|n IH]; intros m l Hn Hm.
  { destruct l; [by destruct m | simpl in Hn; lia]. }
  destruct m as [|m]; [destruct l; [done | simpl in Hm; lia]|].
  destruct l as [|c l]; [done|]. cbn [unesc_fuel].
  assert (∀ p k, strip_prefix p (c :: l) = Some k → p ≠ [] → length k ≤ length l) as Hk.
  { intros p k Hp%strip_prefix_Some Hne. destruct p; [done|].
    apply (f_equal length) in Hp. simpl in Hp. rewrite length_app in Hp. lia. }
  repeat match goal with |- context [match strip_prefix ?p ?x with _ => _ end] =>
    let H := fresh in destruct (strip_prefix p x) eqn:H;
    [apply Hk in H; [|done]; simpl in Hn, Hm; f_equal; apply IH; lia |] end.
  simpl in Hn, Hm. f_equal. apply IH; lia.
Qed.
Lemma length_esc s : String.length s ≤ String.length (esc s).
Proof.
  unfold esc. induction s as [|c s IH]; [done|]. rewrite replacer_cons.
  destruct (esc_byte c) as [r|] eqn:Hr; simpl; [|lia].
  rewrite <- (length_to_list (r +:+ _)), to_list_app, length_app, !length_to_list.
  assert (1 ≤ String.length r); [|lia].
  unfold esc_byte in Hr. repeat case_match; simplify_eq/=; lia.
Qed.

(** Escaped text is inert and lossless: it contains no angle bracket and no
    double quote, so it cannot close an attribute or open a tag, and decoding the
    entities gives back exactly the text the admin typed. *)
Theorem esc_roundtrip s : all_bytes attr_byte (esc s) = true ∧ unesc (esc s) = s.
Proof.
  split; [apply esc_attr|]. unfold unesc. apply to_list_inj. rewrite to_of_list.
  rewrite (unesc_fuel_mono _ (String.length s + String.length (esc s))).
  - apply unesc_esc_fuel. lia.
  - by rewrite length_to_list.
  - rewrite length_to_list. lia.
Qed.

(** ** Markup outside attribute values *)

(** [skel q s] erases the bytes between double quotes ([q]: inside quotes), which
    leaves the tags and attribute names; [quoted q s] is where [s] leaves the
    reader. *)
Fixpoint skel (q : bool) (s : string) : string :=
  match s with
  | EmptyString => EmptyString
  | String c s' =>
      if Ascii.eqb c "034"%char then String c (skel (negb q) s')
      else if q then skel q s' else String c (skel q s')
  end.
Fixpoint quoted (q : bool) (s : string) : bool :=
  match s with
  | EmptyString => q
  | String c s' => quoted (if Ascii.eqb c "034"%char then negb q else q) s'
  end.

Lemma skel_app q s t : skel q (s +:+ t) = skel q s +:+ skel (quoted q s) t.
Proof.
  revert q. induction s as [|c s IH]; intros q; [done|].
  change (String c s +:+ t) with (String c (s +:+ t)). cbn [skel quoted].
  destruct (Ascii.eqb c "034"); [|destruct q]; rewrite IH; done.
Qed.
Lemma quoted_app q s t : quoted q (s +:+ t) = quoted (quoted q s) t.
Proof.
  revert q. induction s as [|c s IH]; intros q; [done|].
  change (String c s +:+ t) with (String c (s +:+ t)). cbn [quoted]. apply IH.
Qed.

(** Text without double quotes vanishes from inside an attribute. *)
Definition no_quote (s : string) : Prop := skel true s = "" ∧ quoted true s = true.
Lemma no_quote_bytes s : all_bytes (λ c, negb (Ascii.eqb c "034"%char)) s = true → no_quote s.
Proof.
  unfold no_quote. induction s as [|c s IH]; [done|]. rewrite all_bytes_cons.
  intros [Hc Hs]%andb_true_iff. apply negb_true_iff in Hc. simpl. rewrite Hc. auto.
Qed.
Lemma no_quote_esc s : no_quote (esc s).
Proof.
  apply no_quote_bytes. eapply all_bytes_impl; [|apply esc_attr]. intros c.
  unfold attr_byte. destruct (Ascii.eqb c "034"); [|done]. by rewrite orb_true_r.
Qed.
Lemma no_quote_hex64 s : hex64 s = true → no_quote s.
Proof.
  intros Hs%hex64_bytes. apply no_quote_bytes. eapply all_bytes_impl; [|done]. intros c.
  destruct (Ascii.eqb_spec c "034") as [->|]; done.
Qed.
Lemma no_quote_app s t : no_quote s → no_quote t → no_quote (s +:+ t).
Proof. intros [Hs1 Hs2] [Ht1 Ht2]. split; [rewrite skel_app, Hs1, Hs2 | rewrite quoted_app, Hs2]; done. Qed.
Lemma no_quote_pretty (n : N) : no_quote (pretty n).
Proof.
  unfold pretty, pretty_N. destruct (decide _); [done|]. clear.
  assert (∀ s, no_quote s → no_quote (pretty_N_go n s)) as H; [|by apply (H "")].
  induction (N.lt_wf_0 n) as [n _ IH]; intros s Hs.
  destruct (decide (0 < n)%N) as [Hpos|]; [|replace n with 0%N by lia; done].
  rewrite pretty_N_go_step by done. apply IH; [apply N.div_lt; lia|].
  change (String (pretty_N_char (n `mod` 10)) s) with (String (pretty_N_char (n `mod` 10)) "" +:+ s).
  apply no_quote_app; [|done].
  assert (n `mod` 10 < 10)%N as Hlt by (apply N.mod_lt; lia).
  generalize dependent (n `mod` 10)%N. intros m Hm.
  unfold pretty_N_char. repeat case_match; done.
Qed.

(** [same_markup s t]: the same tags, whatever the attribute values, both texts
    starting and ending outside quotes. *)
Definition same_markup (s t : string) : Prop :=
  skel false s = skel false t ∧ quoted false s = false ∧ quoted false t = false.

#[export] Instance same_markup_app : Proper (same_markup ==> same_markup ==> same_markup) String.append.
Proof.
  intros s s' (H1 & H2 & H3) t t' (H4 & H5 & H6). split_and!.
  - by rewrite !skel_app, H1, H2, H3, H4.
  - by rewrite quoted_app, H2.
  - by rewrite quoted_app, H3.
Qed.

(** Text as the compiler writes it: fixed segments around attribute values. *)
Inductive seg := Fix (s : string) | Val (s : string).
Definition seg_str (g : seg) : string := match g with Fix s => s | Val s => s end.
Definition text (gs : list seg) : string := foldr (λ g acc, seg_str g +:+ acc) "" gs.

(** Where the fixed segments leave the reader, if every value sits in quotes. *)
Fixpoint seg_state (q : bool) (gs : list seg) : option bool :=
  match gs with
  | [] => Some q
  | Fix s :: gs' => seg_state (quoted q s) gs'
  | Val _ :: gs' => if q then seg_state q gs' else None
  end.

Inductive seg_alike : seg → seg → Prop :=
  | alike_Fix s : seg_alike (Fix s) (Fix s)
  | alike_Val v v' : no_quote v → no_quote v' → seg_alike (Val v) (Val v').

Lemma text_markup_state gs gs' q q' :
  Forall2 seg_alike gs gs' → seg_state q gs = Some q' →
  skel q (text gs) = skel q (text gs') ∧ quoted q (text gs) = q' ∧ quoted q (text gs') = q'.
Proof.
  intros HF. revert q. induction HF as [|g g' gs gs' Hg HF IH]; intros q; [by intros [= ->]|].
  cbn [text foldr]. fold (text gs) (text gs').
  destruct Hg as [s|v v' [Hv1 Hv2] [Hv1' Hv2']]; cbn [seg_state seg_str]; intros Hq.
  - rewrite !skel_app, !quoted_app. destruct (IH _ Hq) as (-> & ? & ?). done.
  - destruct q; [|done]. rewrite !skel_app, !quoted_app, Hv1, Hv1', Hv2, Hv2'.
    destruct (IH _ Hq) as (-> & ? & ?). done.
Qed.

Lemma text_markup gs gs' :
  Forall2 seg_alike gs gs' → seg_state false gs = Some false → same_markup (text gs) (text gs').
Proof. intros HF Hq. exact (text_markup_state gs gs' false false HF Hq). Qed.

Lemma closed_markup s : quoted false s = false → same_markup s s.
Proof. done. Qed.

(** Builders that differ only in attribute values. *)
Record alike (b1 b2 : builders) : Prop := mkAlike {
  alike_signers : same_markup (b_signers b1) (b_signers b2);
  alike_fileRules : same_markup (b_fileRules b1) (b_fileRules b2);
  alike_kernel : b_kernelRefs b1 = b_kernelRefs b2;
  alike_user : b_userRefs b1 = b_userRefs b2;
  alike_refs : b_fileRefs b1 = b_fileRefs b2;
  alike_id : b_id b1 = b_id b2;
  alike_closed : quoted false (b_kernelRefs b1) = false ∧ quoted false (b_userRefs b1) = false ∧
    quoted false (b_fileRefs b1) = false;
}.

Lemma canonical_value r : canonical r → Kind r ≠ Path → no_quote (Value r).
Proof. intros (_ & _ & [[_ Hv]|[Hk _]]) Hne; [by apply no_quote_hex64 | done]. Qed.

(** The three shapes of text a rule adds. *)
Definition hash_xml (rid desc v : string) : list seg :=
  [Fix (xq "    <Allow ID='"); Val rid; Fix (xq "' FriendlyName='"); Val desc;
   Fix (xq "' Hash='"); Val v; Fix (xq "' />"); Fix nl].
Definition path_xml (rid desc v : string) : list seg :=
  [Fix (xq "    <Allow ID='"); Val rid; Fix (xq "' FriendlyName='"); Val desc;
   Fix (xq "' FilePath='"); Val v; Fix (xq "' />"); Fix nl].
Definition publisher_xml (sid name v : string) : list seg :=
  [Fix (xq "    <Signer ID='"); Val sid; Fix (xq "' Name='"); Val name; Fix (xq "'>"); Fix nl;
   Fix (xq "      <CertRoot Type='TBS' Value='"); Val v; Fix (xq "' />"); Fix nl;
   Fix "    </Signer>"; Fix nl].
#[export] Hint Constructors seg_alike Forall2 : fl.
#[export] Hint Resolve no_quote_esc no_quote_pretty no_quote_app : fl.

Lemma ref_closed s pre id :
  quoted false s = false → quoted false pre = true → no_quote id →
  quoted false (s +:+ text [Fix pre; Val id; Fix (xq "' />"); Fix nl]) = false.
Proof.
  intros Hs Hpre Hid. rewrite quoted_app, Hs.
  destruct (text_markup [Fix pre; Val id; Fix (xq "' />"); Fix nl]
              [Fix pre; Val id; Fix (xq "' />"); Fix nl]) as (_ & ? & _); [auto 10 with fl | | done].
  cbn [seg_state]. by rewrite Hpre.
Qed.

Lemma file_ref_closed s id :
  quoted false s = false → no_quote id → quoted false (s +:+ file_ref id) = false.
Proof. intros Hs. exact (ref_closed s (xq "          <FileRuleRef RuleID='") id Hs eq_refl). Qed.
Lemma signer_ref_closed s id :
  quoted false s = false → no_quote id → quoted false (s +:+ signer_ref id) = false.
Proof. intros Hs. exact (ref_closed s (xq "          <AllowedSigner SignerId='") id Hs eq_refl). Qed.

Lemma add_rule_alike b1 b2 r1 r2 :
  alike b1 b2 → canonical r1 → canonical r2 → Kind r1 = Kind r2 →
  alike (add_rule b1 r1) (add_rule b2 r2).
Proof.
  intros [Hs Hf Hk Hu Hr Hi (Hck & Hcu & Hcr)] Hc1 Hc2 Hkind.
  pose proof (canonical_value r1 Hc1) as Hv1. pose proof (canonical_value r2 Hc2) as Hv2.
  rewrite <- Hkind in Hv2. pose proof (no_quote_pretty (b_id b2)) as Hid.
  assert (∀ p, no_quote p → no_quote (p +:+ pretty (b_id b2))) as Hn by auto with fl.
  assert (no_quote "ID_ALLOW_H_") by done. assert (no_quote "ID_ALLOW_P_") by done.
  assert (no_quote "ID_SIGNER_P_") by done.
  assert (Hash ≠ Path) by done. assert (Publisher ≠ Path) by done.
  unfold add_rule. rewrite <- Hkind, Hi.
  case_bool_decide as HkH; [|case_bool_decide as HkP; [|case_bool_decide as HkS]];
    (constructor; cbn -[xq pretty]; try congruence;
     try match goal with |- quoted _ _ = _ ∧ _ => split_and! end);
    rewrite ?Hk, ?Hu, ?Hr in *; try done.
  - apply same_markup_app; [done|]. rewrite HkH in *.
    apply (text_markup (hash_xml ("ID_ALLOW_H_" +:+ pretty (b_id b2)) (esc (Description r1)) (Value r1))
             (hash_xml ("ID_ALLOW_H_" +:+ pretty (b_id b2)) (esc (Description r2)) (Value r2))); [|done].
    unfold hash_xml. auto 20 with fl.
  - apply file_ref_closed; [done | by apply Hn].
  - apply same_markup_app; [done|].
    apply (text_markup (path_xml ("ID_ALLOW_P_" +:+ pretty (b_id b2)) (esc (Description r1)) (esc (Value r1)))
             (path_xml ("ID_ALLOW_P_" +:+ pretty (b_id b2)) (esc (Description r2)) (esc (Value r2)))); [|done].
    unfold path_xml. auto 20 with fl.
  - apply file_ref_closed; [done | by apply Hn].
  - apply same_markup_app; [done|]. rewrite HkS in *.
    set (nm r := if bool_decide (PublisherName r = "") then "Publisher" else PublisherName r).
    apply (text_markup (publisher_xml ("ID_SIGNER_P_" +:+ pretty (b_id b2)) (esc (nm r1)) (Value r1))
             (publisher_xml ("ID_SIGNER_P_" +:+ pretty (b_id b2)) (esc (nm r2)) (Value r2))); [|done].
    unfold publisher_xml. auto 20 with fl.
  - apply signer_ref_closed; [done | by apply Hn].
Qed.

Lemma foldl_add_rule_alike rs1 rs2 b1 b2 :
  alike b1 b2 → Forall canonical rs1 → Forall canonical rs2 → Kind <$> rs1 = Kind <$> rs2 →
  alike (foldl add_rule b1 rs1) (foldl add_rule b2 rs2).
Proof.
  revert rs2 b1 b2. induction rs1 as [|r1 rs1 IH]; intros [|r2 rs2] b1 b2 Hb H1 H2 Hk; try done.
  simpl in *. inversion H1; inversion H2; simplify_eq. apply IH; auto using add_rule_alike.
Qed.

Lemma baseline_alike : alike baseline_builders baseline_builders.
Proof. by constructor. Qed.

Lemma render_alike mode b1 b2 : alike b1 b2 → same_markup (render mode b1) (render mode b2).
Proof.
  intros [Hs Hf Hk Hu Hr _ (Hck & Hcu & Hcr)]. unfold render. rewrite Hk, Hu, Hr in *.
  apply closed_markup in Hck, Hcu, Hcr.
  repeat lazymatch goal with
    | |- same_markup (_ +:+ _) (_ +:+ _) => apply same_markup_app
    | |- same_markup (if ?b then _ else _) _ => destruct b
    end; try assumption; by apply closed_markup.
Qed.

(** Normalized rules sorted by [rule_less] are sorted by kind. *)
Lemma sorted_kinds rs :
  StronglySorted (λ x y, rule_less y x = false) rs → Sorted String.le (Kind <$> rs).
Proof.
  intros Hs. apply StronglySorted_Sorted. induction Hs as [|r rs _ IH Hr]; simpl; constructor; [done|].
  apply Forall_fmap. eapply Forall_impl; [exact Hr|].
  intros x Hx%rule_less_false. by destruct Hx.
Qed.

Lemma normalize_all_canonical rs ns :
  normalize_all rs = Ok ns → Forall canonical ns ∧ Kind <$> ns = Kind <$> rs.
Proof.
  rewrite normalize_all_Ok. induction 1 as [|r n rs ns Hn _ [IH1 IH2]]; [done|].
  apply Normalize_canonical in Hn as [Hc Hk]. split; [by constructor|].
  by rewrite !fmap_cons, Hk, IH2.
Qed.

(** C37. Rule text cannot change the policy's structure: two policies with the same
    mode and the same number of rules of each kind compile to documents with
    identical markup. Only attribute values differ, whatever paths, publisher
    names and descriptions the rules carry. *)
Theorem Compile_no_injection sort `{!SliceSort sort} p1 p2 xml1 xml2 :
  Mode p1 = Mode p2 → Kind <$> Rules p1 ≡ₚ Kind <$> Rules p2 →
  Compile sort p1 = Ok xml1 → Compile sort p2 = Ok xml2 → same_markup xml1 xml2.
Proof.
  intros Hm Hk. unfold Compile.
  destruct (normalize_all (Rules p1)) as [n1|] eqn:H1; [|done].
  destruct (normalize_all (Rules p2)) as [n2|] eqn:H2; [|done].
  intros [= <-] [= <-]. rewrite Hm.
  apply normalize_all_canonical in H1 as [Hc1 Hk1], H2 as [Hc2 Hk2].
  apply render_alike, foldl_add_rule_alike; [apply baseline_alike | by rewrite slice_sort_perm.. |].
  apply (Sorted_unique String.le).
  - apply sorted_kinds, slice_sort_sorted; [apply rule_less_trans | apply rule_less_asymm].
  - apply sorted_kinds, slice_sort_sorted; [apply rule_less_trans | apply rule_less_asymm].
  - by rewrite !slice_sort_perm, Hk1, Hk2.
Qed.

(** ** The kernel scenario *)

Definition kernel_refs : string :=
  foldr (λ s acc, signer_ref (sg_id s) +:+ acc) ""
    (List.filter sg_kernel baselineSigners).

Lemma add_rule_kernel rs b : b_kernelRefs (foldl add_rule b rs) = b_kernelRefs b.
Proof.
  revert b. induction rs as [|r rs IH]; intros b; [done|]. simpl. rewrite IH.
  unfold add_rule. by repeat case_bool_decide.
Qed.

Definition kernel_scenario : string :=
  xq "    <SigningScenario Value='131' ID='ID_SIGNINGSCENARIO_KMCI' FriendlyName='Kernel mode'>" +:+ nl +:+
  "      <ProductSigners>" +:+ nl +:+
  "        <AllowedSigners>" +:+ nl +:+ kernel_refs +:+ "        </AllowedSigners>" +:+ nl +:+
  "      </ProductSigners>" +:+ nl +:+
  "    </SigningScenario>" +:+ nl.

Lemma str_app_nil (s : string) : s +:+ "" = s.
Proof. apply to_list_inj. by rewrite to_list_app, app_nil_r. Qed.

Lemma occurs_skip k s t :
  (∃ pre post, t = pre +:+ k +:+ post) → ∃ pre post, s +:+ t = pre +:+ k +:+ post.
Proof. intros (pre & post & ->). exists (s +:+ pre), post. by rewrite str_app_assoc. Qed.
Lemma occurs_here k t : ∃ pre post, k +:+ t = pre +:+ k +:+ post.
Proof. by exists "", t. Qed.

(** Kernel mode stays at the Microsoft baseline: whatever the rules, the
    compiled kernel scenario is the constant [kernel_scenario] listing the
    baseline's kernel signers and nothing else; and the policy is in audit mode
    (blocks nothing) unless its mode is exactly enforce. *)
Theorem Compile_kernel_baseline sort p xml :
  Compile sort p = Ok xml →
  (∃ pre post, xml = pre +:+ kernel_scenario +:+ post) ∧
  (Mode p ≠ "enforce" →
   ∃ pre post, xml = pre +:+ "    <Rule><Option>Enabled:Audit Mode</Option></Rule>" +:+ post).
Proof.
  unfold Compile. destruct (normalize_all (Rules p)) as [ns|]; [|done]. intros [= <-].
  set (b := foldl add_rule baseline_builders _).
  assert (b_kernelRefs b = kernel_refs) as Hk.
  { unfold b. rewrite add_rule_kernel. vm_compute. done. }
  clearbody b. split.
  - unfold render. rewrite Hk. do 48 apply occurs_skip.
    eexists "", _. unfold kernel_scenario. rewrite !str_app_assoc. reflexivity.
  - intros Hm. unfold render. rewrite bool_decide_eq_false_2 by done. cbn [negb].
    do 22 apply occurs_skip. rewrite str_app_assoc. apply occurs_here.
Qed.

(** Sample rules, and the properties above at them. *)
Definition hash_a : string :=
  "AAAAAAAAAAAAAAAAAAAAAAAAAAAAAAAAAAAAAAAAAAAAAAAAAAAAAAAAAAAAAAAA".
Definition sample_hash : Rule := mkRule Hash hash_a "" "Seven Zip".
Definition sample_path : Rule := mkRule Path "C:\Tools\*" "" "Tools".
Definition sample_quote : Rule := mkRule Path ("C:\A&B\*" +:+ " ") "" (dq +:+ " /><Allow ID=").

Lemma Compile_deterministic_witness :
  ∃ xml, Compile insertion_sort (mkPolicy "enforce" [sample_path; sample_hash]) = Ok xml ∧
         Compile insertion_sort (mkPolicy "enforce" [sample_hash; sample_path]) = Ok xml.
Proof.
  eexists. split; [vm_compute; reflexivity|].
  apply (Compile_deterministic insertion_sort insertion_sort "enforce"
           [sample_path; sample_hash] [sample_hash; sample_path] [sample_path; sample_hash]).
  - vm_compute. reflexivity.
  - apply (bool_decide_unpack _). vm_compute. exact I.
  - apply Permutation_swap.
  - vm_compute. reflexivity.
Defined.

Lemma Compile_no_injection_witness :
  ∃ xml1 xml2, Compile insertion_sort (mkPolicy "audit" [sample_path]) = Ok xml1 ∧
    Compile insertion_sort (mkPolicy "audit" [sample_quote]) = Ok xml2 ∧
    same_markup xml1 xml2.
Proof.
  eexists _, _. split; [vm_compute; reflexivity|]. split; [vm_compute; reflexivity|].
  apply (Compile_no_injection insertion_sort (mkPolicy "audit" [sample_path])
           (mkPolicy "audit" [sample_quote])); [reflexivity | reflexivity | |]; vm_compute; reflexivity.
Defined.

Lemma Compile_kernel_baseline_witness :
  ∃ xml, Compile insertion_sort (mkPolicy "" [sample_hash]) = Ok xml ∧
  (∃ pre post, xml = pre +:+ kernel_scenario +:+ post) ∧
  (∃ pre post, xml = pre +:+ "    <Rule><Option>Enabled:Audit Mode</Option></Rule>" +:+ post).
Proof.
  eexists. split; [reflexivity|].
  destruct (Compile_kernel_baseline insertion_sort (mkPolicy "" [sample_hash]) _ eq_refl) as [Hk Ha].
  split; [exact Hk | apply Ha; discriminate].
Defined.
