(* ===== verification/Db.v ===== *)
(** * The database

    Every table of [internal/server/store/migrations] the modelled code touches,
    as a finite map from its primary key to a row record (the columns the [Go]
    structs of [internal/server/store] scan), and the database as a record of
    tables. The constraints of the schema ([CHECK], [UNIQUE], foreign keys) are
    written out in the statements that can violate them, in the files that model
    the store. For each column or table some statement updates there is a
    setter. *)

From Stdlib Require Import SpecFloat.
From stdpp Require Import gmap strings list.
From S2P Require Import Prelude.

(** A value of a [map[string]any] that ends up in a JSON column. *)
Inductive jval := JNil | JStr (s : string) | JInt (n : Z) | JBool (b : bool) | JList (l : list string).

#[export] Instance jval_eq_dec : EqDecision jval.
Proof. solve_decision. Defined.

(** The value of an audit entry's detail: the thresholds of alert rules are floats. *)
#[export] Instance spec_float_eq_dec : EqDecision spec_float.
Proof. solve_decision. Defined.
Inductive aval := AJ (v : jval) | AF (f : spec_float).
#[export] Instance aval_eq_dec : EqDecision aval.
Proof. solve_decision. Defined.
Definition plain (detail : list (string * jval)) : list (string * aval) := (λ kv, (kv.1, AJ kv.2)) <$> detail.

(** [tenants]. *)
Record Tenant := mkTenant {
  tn_name : string;
  tn_suspended : bool;
  tn_created_at : time;
}.
Definition tn_set_name (v : string) (r : Tenant) : Tenant :=
  mkTenant v (tn_suspended r) (tn_created_at r).
Definition tn_set_suspended (v : bool) (r : Tenant) : Tenant :=
  mkTenant (tn_name r) v (tn_created_at r).

(** [admins]; the key is the admin's id. *)
Record Admin := mkAdmin {
  ad_tenant : uuid;
  ad_email : string;
  ad_password_hash : string;
  ad_totp_secret_enc : option string;
  ad_totp_confirmed : bool;
  ad_role : string;
  ad_disabled : bool;
  ad_provider : bool;
  ad_created_at : time;
}.
Definition ad_set_totp_secret_enc (v : option string) (r : Admin) : Admin :=
  mkAdmin (ad_tenant r) (ad_email r) (ad_password_hash r) v (ad_totp_confirmed r) (ad_role r) (ad_disabled r) (ad_provider r) (ad_created_at r).
Definition ad_set_totp_confirmed (v : bool) (r : Admin) : Admin :=
  mkAdmin (ad_tenant r) (ad_email r) (ad_password_hash r) (ad_totp_secret_enc r) v (ad_role r) (ad_disabled r) (ad_provider r) (ad_created_at r).
Definition ad_set_role (v : string) (r : Admin) : Admin :=
  mkAdmin (ad_tenant r) (ad_email r) (ad_password_hash r) (ad_totp_secret_enc r) (ad_totp_confirmed r) v (ad_disabled r) (ad_provider r) (ad_created_at r).
Definition ad_set_disabled (v : bool) (r : Admin) : Admin :=
  mkAdmin (ad_tenant r) (ad_email r) (ad_password_hash r) (ad_totp_secret_enc r) (ad_totp_confirmed r) (ad_role r) v (ad_provider r) (ad_created_at r).

(** [sessions]; the key is the hash of the cookie token. *)
Record Session := mkSession {
  se_tenant : uuid;
  se_admin : uuid;
  se_csrf : string;
  se_mfa_passed : bool;
  se_expires_at : time;
  se_ip : string;
  se_user_agent : string;
}.
Definition se_set_mfa_passed (v : bool) (r : Session) : Session :=
  mkSession (se_tenant r) (se_admin r) (se_csrf r) v (se_expires_at r) (se_ip r) (se_user_agent r).

(** [device_groups]. *)
Record DeviceGroup := mkDeviceGroup {
  gr_tenant : uuid;
  gr_name : string;
}.
Definition gr_set_name (v : string) (r : DeviceGroup) : DeviceGroup :=
  mkDeviceGroup (gr_tenant r) v.

(** [install_tokens]. *)
Record InstallToken := mkInstallToken {
  it_tenant : uuid;
  it_token_hash : string;
  it_name : string;
  it_group : option uuid;
  it_expires_at : option time;
  it_max_uses : option Z;
  it_uses : Z;
  it_revoked : bool;
  it_created_by : option uuid;
  it_created_at : time;
}.
Definition it_set_group (v : option uuid) (r : InstallToken) : InstallToken :=
  mkInstallToken (it_tenant r) (it_token_hash r) (it_name r) v (it_expires_at r) (it_max_uses r) (it_uses r) (it_revoked r) (it_created_by r) (it_created_at r).
Definition it_set_uses (v : Z) (r : InstallToken) : InstallToken :=
  mkInstallToken (it_tenant r) (it_token_hash r) (it_name r) (it_group r) (it_expires_at r) (it_max_uses r) v (it_revoked r) (it_created_by r) (it_created_at r).
Definition it_set_revoked (v : bool) (r : InstallToken) : InstallToken :=
  mkInstallToken (it_tenant r) (it_token_hash r) (it_name r) (it_group r) (it_expires_at r) (it_max_uses r) (it_uses r) v (it_created_by r) (it_created_at r).

(** [devices]. *)
Record Device := mkDevice {
  dv_tenant : uuid;
  dv_hostname : string;
  dv_machine_guid : string;
  dv_group : option uuid;
  dv_cert_serial : string;
  dv_cert_expires_at : time;
  dv_os_build : string;
  dv_agent_version : string;
  dv_ips : list string;
  dv_logged_on_user : string;
  dv_uptime_seconds : Z;
  dv_last_seen_at : option time;
  dv_clean_shutdown : bool;
  dv_revoked : bool;
  dv_enrolled_at : time;
  dv_policy_version : string;
  dv_asr_available : option bool;
}.
Definition dv_set_hostname (v : string) (r : Device) : Device :=
  mkDevice (dv_tenant r) v (dv_machine_guid r) (dv_group r) (dv_cert_serial r) (dv_cert_expires_at r) (dv_os_build r) (dv_agent_version r) (dv_ips r) (dv_logged_on_user r) (dv_uptime_seconds r) (dv_last_seen_at r) (dv_clean_shutdown r) (dv_revoked r) (dv_enrolled_at r) (dv_policy_version r) (dv_asr_available r).
Definition dv_set_group (v : option uuid) (r : Device) : Device :=
  mkDevice (dv_tenant r) (dv_hostname r) (dv_machine_guid r) v (dv_cert_serial r) (dv_cert_expires_at r) (dv_os_build r) (dv_agent_version r) (dv_ips r) (dv_logged_on_user r) (dv_uptime_seconds r) (dv_last_seen_at r) (dv_clean_shutdown r) (dv_revoked r) (dv_enrolled_at r) (dv_policy_version r) (dv_asr_available r).
Definition dv_set_cert_serial (v : string) (r : Device) : Device :=
  mkDevice (dv_tenant r) (dv_hostname r) (dv_machine_guid r) (dv_group r) v (dv_cert_expires_at r) (dv_os_build r) (dv_agent_version r) (dv_ips r) (dv_logged_on_user r) (dv_uptime_seconds r) (dv_last_seen_at r) (dv_clean_shutdown r) (dv_revoked r) (dv_enrolled_at r) (dv_policy_version r) (dv_asr_available r).
Definition dv_set_cert_expires_at (v : time) (r : Device) : Device :=
  mkDevice (dv_tenant r) (dv_hostname r) (dv_machine_guid r) (dv_group r) (dv_cert_serial r) v (dv_os_build r) (dv_agent_version r) (dv_ips r) (dv_logged_on_user r) (dv_uptime_seconds r) (dv_last_seen_at r) (dv_clean_shutdown r) (dv_revoked r) (dv_enrolled_at r) (dv_policy_version r) (dv_asr_available r).
Definition dv_set_os_build (v : string) (r : Device) : Device :=
  mkDevice (dv_tenant r) (dv_hostname r) (dv_machine_guid r) (dv_group r) (dv_cert_serial r) (dv_cert_expires_at r) v (dv_agent_version r) (dv_ips r) (dv_logged_on_user r) (dv_uptime_seconds r) (dv_last_seen_at r) (dv_clean_shutdown r) (dv_revoked r) (dv_enrolled_at r) (dv_policy_version r) (dv_asr_available r).
Definition dv_set_agent_version (v : string) (r : Device) : Device :=
  mkDevice (dv_tenant r) (dv_hostname r) (dv_machine_guid r) (dv_group r) (dv_cert_serial r) (dv_cert_expires_at r) (dv_os_build r) v (dv_ips r) (dv_logged_on_user r) (dv_uptime_seconds r) (dv_last_seen_at r) (dv_clean_shutdown r) (dv_revoked r) (dv_enrolled_at r) (dv_policy_version r) (dv_asr_available r).
Definition dv_set_ips (v : list string) (r : Device) : Device :=
  mkDevice (dv_tenant r) (dv_hostname r) (dv_machine_guid r) (dv_group r) (dv_cert_serial r) (dv_cert_expires_at r) (dv_os_build r) (dv_agent_version r) v (dv_logged_on_user r) (dv_uptime_seconds r) (dv_last_seen_at r) (dv_clean_shutdown r) (dv_revoked r) (dv_enrolled_at r) (dv_policy_version r) (dv_asr_available r).
Definition dv_set_logged_on_user (v : string) (r : Device) : Device :=
  mkDevice (dv_tenant r) (dv_hostname r) (dv_machine_guid r) (dv_group r) (dv_cert_serial r) (dv_cert_expires_at r) (dv_os_build r) (dv_agent_version r) (dv_ips r) v (dv_uptime_seconds r) (dv_last_seen_at r) (dv_clean_shutdown r) (dv_revoked r) (dv_enrolled_at r) (dv_policy_version r) (dv_asr_available r).
Definition dv_set_uptime_seconds (v : Z) (r : Device) : Device :=
  mkDevice (dv_tenant r) (dv_hostname r) (dv_machine_guid r) (dv_group r) (dv_cert_serial r) (dv_cert_expires_at r) (dv_os_build r) (dv_agent_version r) (dv_ips r) (dv_logged_on_user r) v (dv_last_seen_at r) (dv_clean_shutdown r) (dv_revoked r) (dv_enrolled_at r) (dv_policy_version r) (dv_asr_available r).
Definition dv_set_last_seen_at (v : option time) (r : Device) : Device :=
  mkDevice (dv_tenant r) (dv_hostname r) (dv_machine_guid r) (dv_group r) (dv_cert_serial r) (dv_cert_expires_at r) (dv_os_build r) (dv_agent_version r) (dv_ips r) (dv_logged_on_user r) (dv_uptime_seconds r) v (dv_clean_shutdown r) (dv_revoked r) (dv_enrolled_at r) (dv_policy_version r) (dv_asr_available r).
Definition dv_set_clean_shutdown (v : bool) (r : Device) : Device :=
  mkDevice (dv_tenant r) (dv_hostname r) (dv_machine_guid r) (dv_group r) (dv_cert_serial r) (dv_cert_expires_at r) (dv_os_build r) (dv_agent_version r) (dv_ips r) (dv_logged_on_user r) (dv_uptime_seconds r) (dv_last_seen_at r) v (dv_revoked r) (dv_enrolled_at r) (dv_policy_version r) (dv_asr_available r).
Definition dv_set_revoked (v : bool) (r : Device) : Device :=
  mkDevice (dv_tenant r) (dv_hostname r) (dv_machine_guid r) (dv_group r) (dv_cert_serial r) (dv_cert_expires_at r) (dv_os_build r) (dv_agent_version r) (dv_ips r) (dv_logged_on_user r) (dv_uptime_seconds r) (dv_last_seen_at r) (dv_clean_shutdown r) v (dv_enrolled_at r) (dv_policy_version r) (dv_asr_available r).
Definition dv_set_policy_version (v : string) (r : Device) : Device :=
  mkDevice (dv_tenant r) (dv_hostname r) (dv_machine_guid r) (dv_group r) (dv_cert_serial r) (dv_cert_expires_at r) (dv_os_build r) (dv_agent_version r) (dv_ips r) (dv_logged_on_user r) (dv_uptime_seconds r) (dv_last_seen_at r) (dv_clean_shutdown r) (dv_revoked r) (dv_enrolled_at r) v (dv_asr_available r).
Definition dv_set_asr_available (v : option bool) (r : Device) : Device :=
  mkDevice (dv_tenant r) (dv_hostname r) (dv_machine_guid r) (dv_group r) (dv_cert_serial r) (dv_cert_expires_at r) (dv_os_build r) (dv_agent_version r) (dv_ips r) (dv_logged_on_user r) (dv_uptime_seconds r) (dv_last_seen_at r) (dv_clean_shutdown r) (dv_revoked r) (dv_enrolled_at r) (dv_policy_version r) v.

(** [commands]. *)
Record Command := mkCommand {
  cm_tenant : uuid;
  cm_device : uuid;
  cm_type : string;
  cm_payload : string;
  cm_issued_by : option uuid;
  cm_issued_at : time;
  cm_expires_at : time;
  cm_state : string;
  cm_result : string;
  cm_completed_at : option time;
}.
Definition cm_set_state (v : string) (r : Command) : Command :=
  mkCommand (cm_tenant r) (cm_device r) (cm_type r) (cm_payload r) (cm_issued_by r) (cm_issued_at r) (cm_expires_at r) v (cm_result r) (cm_completed_at r).
Definition cm_set_result (v : string) (r : Command) : Command :=
  mkCommand (cm_tenant r) (cm_device r) (cm_type r) (cm_payload r) (cm_issued_by r) (cm_issued_at r) (cm_expires_at r) (cm_state r) v (cm_completed_at r).
Definition cm_set_completed_at (v : option time) (r : Command) : Command :=
  mkCommand (cm_tenant r) (cm_device r) (cm_type r) (cm_payload r) (cm_issued_by r) (cm_issued_at r) (cm_expires_at r) (cm_state r) (cm_result r) v.

(** [audit_log]. *)
Record AuditEntry := mkAuditEntry {
  au_tenant : uuid;
  au_actor : string;
  au_action : string;
  au_target_type : string;
  au_target_id : string;
  au_detail : list (string * aval);
  au_ip : string;
  au_result : string;
  au_created_at : time;
}.

(** [agent_releases]; the key is (tenant, version). *)
Record Release := mkRelease {
  rl_sha256 : string;
  rl_signature : string;
  rl_uploaded_at : time;
}.

(** [agent_rollouts]. *)
Record Rollout := mkRollout {
  ro_tenant : uuid;
  ro_version : string;
  ro_group_ids : list uuid;
  ro_batch_size : Z;
  ro_max_failures : Z;
  ro_state : string;
  ro_created_by : string;
  ro_created_at : time;
  ro_updated_at : time;
  ro_finished_at : option time;
}.
Definition ro_set_state (v : string) (r : Rollout) : Rollout :=
  mkRollout (ro_tenant r) (ro_version r) (ro_group_ids r) (ro_batch_size r) (ro_max_failures r) v (ro_created_by r) (ro_created_at r) (ro_updated_at r) (ro_finished_at r).
Definition ro_set_updated_at (v : time) (r : Rollout) : Rollout :=
  mkRollout (ro_tenant r) (ro_version r) (ro_group_ids r) (ro_batch_size r) (ro_max_failures r) (ro_state r) (ro_created_by r) (ro_created_at r) v (ro_finished_at r).
Definition ro_set_finished_at (v : option time) (r : Rollout) : Rollout :=
  mkRollout (ro_tenant r) (ro_version r) (ro_group_ids r) (ro_batch_size r) (ro_max_failures r) (ro_state r) (ro_created_by r) (ro_created_at r) (ro_updated_at r) v.

(** [agent_rollout_devices]; the key is (rollout, device). *)
Record RolloutDevice := mkRolloutDevice {
  rd_command : uuid;
  rd_state : string;
  rd_detail : string;
  rd_issued_at : time;
  rd_resolved_at : option time;
}.
Definition rd_set_state (v : string) (r : RolloutDevice) : RolloutDevice :=
  mkRolloutDevice (rd_command r) v (rd_detail r) (rd_issued_at r) (rd_resolved_at r).
Definition rd_set_detail (v : string) (r : RolloutDevice) : RolloutDevice :=
  mkRolloutDevice (rd_command r) (rd_state r) v (rd_issued_at r) (rd_resolved_at r).
Definition rd_set_resolved_at (v : option time) (r : RolloutDevice) : RolloutDevice :=
  mkRolloutDevice (rd_command r) (rd_state r) (rd_detail r) (rd_issued_at r) v.

(** [notification_channels]. *)
Record Channel := mkChannel {
  ch_tenant : uuid;
  ch_kind : string;
  ch_name : string;
  ch_events : list string;
  ch_enabled : bool;
  ch_recipients : list string;
  ch_url : string;
  ch_secret : string;
  ch_created_at : time;
  ch_updated_at : time;
}.
Definition ch_set_name (v : string) (r : Channel) : Channel :=
  mkChannel (ch_tenant r) (ch_kind r) v (ch_events r) (ch_enabled r) (ch_recipients r) (ch_url r) (ch_secret r) (ch_created_at r) (ch_updated_at r).
Definition ch_set_events (v : list string) (r : Channel) : Channel :=
  mkChannel (ch_tenant r) (ch_kind r) (ch_name r) v (ch_enabled r) (ch_recipients r) (ch_url r) (ch_secret r) (ch_created_at r) (ch_updated_at r).
Definition ch_set_enabled (v : bool) (r : Channel) : Channel :=
  mkChannel (ch_tenant r) (ch_kind r) (ch_name r) (ch_events r) v (ch_recipients r) (ch_url r) (ch_secret r) (ch_created_at r) (ch_updated_at r).
Definition ch_set_recipients (v : list string) (r : Channel) : Channel :=
  mkChannel (ch_tenant r) (ch_kind r) (ch_name r) (ch_events r) (ch_enabled r) v (ch_url r) (ch_secret r) (ch_created_at r) (ch_updated_at r).
Definition ch_set_url (v : string) (r : Channel) : Channel :=
  mkChannel (ch_tenant r) (ch_kind r) (ch_name r) (ch_events r) (ch_enabled r) (ch_recipients r) v (ch_secret r) (ch_created_at r) (ch_updated_at r).
Definition ch_set_secret (v : string) (r : Channel) : Channel :=
  mkChannel (ch_tenant r) (ch_kind r) (ch_name r) (ch_events r) (ch_enabled r) (ch_recipients r) (ch_url r) v (ch_created_at r) (ch_updated_at r).
Definition ch_set_updated_at (v : time) (r : Channel) : Channel :=
  mkChannel (ch_tenant r) (ch_kind r) (ch_name r) (ch_events r) (ch_enabled r) (ch_recipients r) (ch_url r) (ch_secret r) (ch_created_at r) v.

(** [notification_deliveries]; the key is the serial id. *)
Record Delivery := mkDelivery {
  dl_tenant : uuid;
  dl_channel : uuid;
  dl_event_kind : string;
  dl_payload : string;
  dl_state : string;
  dl_attempts : Z;
  dl_next_attempt_at : time;
  dl_last_error : string;
  dl_created_at : time;
  dl_sent_at : option time;
}.
Definition dl_set_state (v : string) (r : Delivery) : Delivery :=
  mkDelivery (dl_tenant r) (dl_channel r) (dl_event_kind r) (dl_payload r) v (dl_attempts r) (dl_next_attempt_at r) (dl_last_error r) (dl_created_at r) (dl_sent_at r).
Definition dl_set_attempts (v : Z) (r : Delivery) : Delivery :=
  mkDelivery (dl_tenant r) (dl_channel r) (dl_event_kind r) (dl_payload r) (dl_state r) v (dl_next_attempt_at r) (dl_last_error r) (dl_created_at r) (dl_sent_at r).
Definition dl_set_next_attempt_at (v : time) (r : Delivery) : Delivery :=
  mkDelivery (dl_tenant r) (dl_channel r) (dl_event_kind r) (dl_payload r) (dl_state r) (dl_attempts r) v (dl_last_error r) (dl_created_at r) (dl_sent_at r).
Definition dl_set_last_error (v : string) (r : Delivery) : Delivery :=
  mkDelivery (dl_tenant r) (dl_channel r) (dl_event_kind r) (dl_payload r) (dl_state r) (dl_attempts r) (dl_next_attempt_at r) v (dl_created_at r) (dl_sent_at r).
Definition dl_set_sent_at (v : option time) (r : Delivery) : Delivery :=
  mkDelivery (dl_tenant r) (dl_channel r) (dl_event_kind r) (dl_payload r) (dl_state r) (dl_attempts r) (dl_next_attempt_at r) (dl_last_error r) (dl_created_at r) v.

(** [policies]. *)
Record AppPolicy := mkAppPolicy {
  po_tenant : uuid;
  po_name : string;
  po_mode : string;
  po_created_at : time;
}.
Definition po_set_mode (v : string) (r : AppPolicy) : AppPolicy :=
  mkAppPolicy (po_tenant r) (po_name r) v (po_created_at r).

(** [policy_rules]. *)
Record PolicyRule := mkPolicyRule {
  pr_tenant : uuid;
  pr_policy : uuid;
  pr_kind : string;
  pr_value : string;
  pr_publisher_name : string;
  pr_description : string;
  pr_added_by : option uuid;
  pr_created_at : time;
}.

(** [policy_versions]; the key is (policy, version). *)
Record PolicyVersion := mkPolicyVersion {
  pv_tenant : uuid;
  pv_mode : string;
  pv_xml : string;
  pv_signature : string;
  pv_created_at : time;
}.

(** [policy_assignments]; the key is the group. *)
Record PolicyAssignment := mkPolicyAssignment {
  pa_tenant : uuid;
  pa_policy : uuid;
}.
Definition pa_set_policy (v : uuid) (r : PolicyAssignment) : PolicyAssignment :=
  mkPolicyAssignment (pa_tenant r) v.

(** [approval_requests]. *)
Record ApprovalRequest := mkApprovalRequest {
  ar_tenant : uuid;
  ar_policy : uuid;
  ar_sha256 : string;
  ar_path : string;
  ar_signer : string;
  ar_signer_tbs : string;
  ar_signer_verified : bool;
  ar_status : string;
  ar_device_count : Z;
  ar_event_count : Z;
  ar_first_seen : time;
  ar_last_seen : time;
  ar_decided_by : option uuid;
  ar_decided_at : option time;
}.
Definition ar_set_path (v : string) (r : ApprovalRequest) : ApprovalRequest :=
  mkApprovalRequest (ar_tenant r) (ar_policy r) (ar_sha256 r) v (ar_signer r) (ar_signer_tbs r) (ar_signer_verified r) (ar_status r) (ar_device_count r) (ar_event_count r) (ar_first_seen r) (ar_last_seen r) (ar_decided_by r) (ar_decided_at r).
Definition ar_set_signer (v : string) (r : ApprovalRequest) : ApprovalRequest :=
  mkApprovalRequest (ar_tenant r) (ar_policy r) (ar_sha256 r) (ar_path r) v (ar_signer_tbs r) (ar_signer_verified r) (ar_status r) (ar_device_count r) (ar_event_count r) (ar_first_seen r) (ar_last_seen r) (ar_decided_by r) (ar_decided_at r).
Definition ar_set_signer_tbs (v : string) (r : ApprovalRequest) : ApprovalRequest :=
  mkApprovalRequest (ar_tenant r) (ar_policy r) (ar_sha256 r) (ar_path r) (ar_signer r) v (ar_signer_verified r) (ar_status r) (ar_device_count r) (ar_event_count r) (ar_first_seen r) (ar_last_seen r) (ar_decided_by r) (ar_decided_at r).
Definition ar_set_signer_verified (v : bool) (r : ApprovalRequest) : ApprovalRequest :=
  mkApprovalRequest (ar_tenant r) (ar_policy r) (ar_sha256 r) (ar_path r) (ar_signer r) (ar_signer_tbs r) v (ar_status r) (ar_device_count r) (ar_event_count r) (ar_first_seen r) (ar_last_seen r) (ar_decided_by r) (ar_decided_at r).
Definition ar_set_status (v : string) (r : ApprovalRequest) : ApprovalRequest :=
  mkApprovalRequest (ar_tenant r) (ar_policy r) (ar_sha256 r) (ar_path r) (ar_signer r) (ar_signer_tbs r) (ar_signer_verified r) v (ar_device_count r) (ar_event_count r) (ar_first_seen r) (ar_last_seen r) (ar_decided_by r) (ar_decided_at r).
Definition ar_set_device_count (v : Z) (r : ApprovalRequest) : ApprovalRequest :=
  mkApprovalRequest (ar_tenant r) (ar_policy r) (ar_sha256 r) (ar_path r) (ar_signer r) (ar_signer_tbs r) (ar_signer_verified r) (ar_status r) v (ar_event_count r) (ar_first_seen r) (ar_last_seen r) (ar_decided_by r) (ar_decided_at r).
Definition ar_set_event_count (v : Z) (r : ApprovalRequest) : ApprovalRequest :=
  mkApprovalRequest (ar_tenant r) (ar_policy r) (ar_sha256 r) (ar_path r) (ar_signer r) (ar_signer_tbs r) (ar_signer_verified r) (ar_status r) (ar_device_count r) v (ar_first_seen r) (ar_last_seen r) (ar_decided_by r) (ar_decided_at r).
Definition ar_set_first_seen (v : time) (r : ApprovalRequest) : ApprovalRequest :=
  mkApprovalRequest (ar_tenant r) (ar_policy r) (ar_sha256 r) (ar_path r) (ar_signer r) (ar_signer_tbs r) (ar_signer_verified r) (ar_status r) (ar_device_count r) (ar_event_count r) v (ar_last_seen r) (ar_decided_by r) (ar_decided_at r).
Definition ar_set_last_seen (v : time) (r : ApprovalRequest) : ApprovalRequest :=
  mkApprovalRequest (ar_tenant r) (ar_policy r) (ar_sha256 r) (ar_path r) (ar_signer r) (ar_signer_tbs r) (ar_signer_verified r) (ar_status r) (ar_device_count r) (ar_event_count r) (ar_first_seen r) v (ar_decided_by r) (ar_decided_at r).
Definition ar_set_decided_by (v : option uuid) (r : ApprovalRequest) : ApprovalRequest :=
  mkApprovalRequest (ar_tenant r) (ar_policy r) (ar_sha256 r) (ar_path r) (ar_signer r) (ar_signer_tbs r) (ar_signer_verified r) (ar_status r) (ar_device_count r) (ar_event_count r) (ar_first_seen r) (ar_last_seen r) v (ar_decided_at r).
Definition ar_set_decided_at (v : option time) (r : ApprovalRequest) : ApprovalRequest :=
  mkApprovalRequest (ar_tenant r) (ar_policy r) (ar_sha256 r) (ar_path r) (ar_signer r) (ar_signer_tbs r) (ar_signer_verified r) (ar_status r) (ar_device_count r) (ar_event_count r) (ar_first_seen r) (ar_last_seen r) (ar_decided_by r) v.

(** [alert_rules]. *)
Record AlertRule := mkAlertRule {
  al_tenant : uuid;
  al_name : string;
  al_metric : string;
  al_op : string;
  al_threshold : spec_float;
  al_duration_seconds : Z;
  al_enabled : bool;
  al_created_at : time;
}.
Definition al_set_name (v : string) (r : AlertRule) : AlertRule :=
  mkAlertRule (al_tenant r) v (al_metric r) (al_op r) (al_threshold r) (al_duration_seconds r) (al_enabled r) (al_created_at r).
Definition al_set_metric (v : string) (r : AlertRule) : AlertRule :=
  mkAlertRule (al_tenant r) (al_name r) v (al_op r) (al_threshold r) (al_duration_seconds r) (al_enabled r) (al_created_at r).
Definition al_set_op (v : string) (r : AlertRule) : AlertRule :=
  mkAlertRule (al_tenant r) (al_name r) (al_metric r) v (al_threshold r) (al_duration_seconds r) (al_enabled r) (al_created_at r).
Definition al_set_threshold (v : spec_float) (r : AlertRule) : AlertRule :=
  mkAlertRule (al_tenant r) (al_name r) (al_metric r) (al_op r) v (al_duration_seconds r) (al_enabled r) (al_created_at r).
Definition al_set_duration_seconds (v : Z) (r : AlertRule) : AlertRule :=
  mkAlertRule (al_tenant r) (al_name r) (al_metric r) (al_op r) (al_threshold r) v (al_enabled r) (al_created_at r).
Definition al_set_enabled (v : bool) (r : AlertRule) : AlertRule :=
  mkAlertRule (al_tenant r) (al_name r) (al_metric r) (al_op r) (al_threshold r) (al_duration_seconds r) v (al_created_at r).

(** [alerts]; the key is the serial id. *)
Record Alert := mkAlert {
  at_tenant : uuid;
  at_device : uuid;
  at_rule : uuid;
  at_metric : string;
  at_message : string;
  at_at : time;
  at_resolved_at : option time;
}.
Definition at_set_resolved_at (v : option time) (r : Alert) : Alert :=
  mkAlert (at_tenant r) (at_device r) (at_rule r) (at_metric r) (at_message r) (at_at r) v.

(** [alert_breaches]; the key is (device, rule). *)
Record Breach := mkBreach {
  br_tenant : uuid;
  br_since : time;
}.

(** [device_controls]; the key is the group. *)
Record Controls := mkControls {
  dc_tenant : uuid;
  dc_usb_storage_blocked : bool;
  dc_network_blocked : bool;
  dc_elevation_blocked : bool;
  dc_updated_at : time;
}.

(** [device_control_overrides]; the key is the device. *)
Record Overrides := mkOverrides {
  ov_tenant : uuid;
  ov_usb_storage_blocked : option bool;
  ov_network_blocked : option bool;
  ov_elevation_blocked : option bool;
  ov_updated_at : time;
}.

(** [login_failures]. *)
Record LoginFailure := mkLoginFailure {
  lf_tenant : uuid;
  lf_key : string;
  lf_at : time;
}.

(** [ringfence_policies]. *)
Record RingfencePolicy := mkRingfencePolicy {
  rf_tenant : uuid;
  rf_name : string;
  rf_mode : string;
  rf_created_at : time;
}.
Definition rf_set_name (v : string) (r : RingfencePolicy) : RingfencePolicy :=
  mkRingfencePolicy (rf_tenant r) v (rf_mode r) (rf_created_at r).
Definition rf_set_mode (v : string) (r : RingfencePolicy) : RingfencePolicy :=
  mkRingfencePolicy (rf_tenant r) (rf_name r) v (rf_created_at r).

(** [ringfence_programs]. *)
Record RingfenceProgram := mkRingfenceProgram {
  rp_tenant : uuid;
  rp_ringfence : uuid;
  rp_path : string;
  rp_network_blocked : bool;
  rp_note : string;
}.

(** [ringfence_protections]; the key is (ringfence, ASR rule). *)
Record RingfenceProtection := mkRingfenceProtection {
  rt_tenant : uuid;
  rt_action : string;
}.
Definition rt_set_action (v : string) (r : RingfenceProtection) : RingfenceProtection :=
  mkRingfenceProtection (rt_tenant r) v.

(** [ringfence_assignments]; the key is the group. *)
Record RingfenceAssignment := mkRingfenceAssignment {
  ra_tenant : uuid;
  ra_ringfence : uuid;
}.
Definition ra_set_ringfence (v : uuid) (r : RingfenceAssignment) : RingfenceAssignment :=
  mkRingfenceAssignment (ra_tenant r) v.

(** [block_events]. *)
Record BlockEvent := mkBlockEvent {
  be_tenant : uuid;
  be_device : uuid;
  be_sha256 : string;
  be_path : string;
  be_signer : string;
  be_signer_tbs : string;
  be_signer_verified : bool;
  be_blocked : bool;
  be_at : time;
}.

(** [observations]; the key is (device, hash, path). *)
Record Observation := mkObservation {
  ob_tenant : uuid;
  ob_signer : string;
  ob_signer_tbs : string;
  ob_signer_verified : bool;
  ob_first_seen : time;
  ob_last_seen : time;
  ob_count : Z;
  ob_downloaded : option bool;
  ob_download_source : string;
}.

(** [device_events]. *)
Record DeviceEvent := mkDeviceEvent {
  de_tenant : uuid;
  de_device : uuid;
  de_kind : string;
  de_summary : string;
  de_at : time;
}.

(** [server_keys]; the key is (tenant, name). *)
Record ServerKey := mkServerKey {
  sk_public_der : string;
  sk_private_enc : string;
}.

(** [device_metrics]. *)
Record Metric := mkMetric {
  dm_tenant : uuid;
  dm_device : uuid;
  dm_at : time;
  dm_cpu_pct : spec_float;
  dm_mem_pct : spec_float;
  dm_disk_pct : spec_float;
}.

(** [ringfence_events]. *)
Record RingfenceEventRow := mkRingfenceEventRow {
  re_tenant : uuid;
  re_device : uuid;
  re_kind : string;
  re_program : string;
  re_detail : string;
  re_enforced : bool;
  re_at : time;
}.

(** The database. *)
Record db := mkDb {
  pg_now : time; (* the database clock, SQL's [now()] *)
  serial : N; (* the last value drawn from a [bigserial] sequence *)
  tenants : gmap uuid Tenant;
  admins : gmap uuid Admin;
  sessions : gmap string Session;
  device_groups : gmap uuid DeviceGroup;
  install_tokens : gmap uuid InstallToken;
  devices : gmap uuid Device;
  commands : gmap uuid Command;
  audit_log : list (N * AuditEntry); (* append-only, oldest first *)
  agent_releases : gmap (uuid * string) Release;
  agent_rollouts : gmap uuid Rollout;
  agent_rollout_devices : gmap (uuid * uuid) RolloutDevice;
  notification_channels : gmap uuid Channel;
  notification_deliveries : gmap N Delivery;
  policies : gmap uuid AppPolicy;
  policy_rules : gmap uuid PolicyRule;
  policy_versions : gmap (uuid * string) PolicyVersion;
  policy_assignments : gmap uuid PolicyAssignment;
  approval_requests : gmap uuid ApprovalRequest;
  approval_request_devices : gset (uuid * uuid);
  alert_rules : gmap uuid AlertRule;
  alerts : gmap N Alert;
  alert_breaches : gmap (uuid * uuid) Breach;
  device_controls : gmap uuid Controls;
  device_control_overrides : gmap uuid Overrides;
  login_failures : list LoginFailure;
  ringfence_policies : gmap uuid RingfencePolicy;
  ringfence_programs : gmap uuid RingfenceProgram;
  ringfence_protections : gmap (uuid * string) RingfenceProtection;
  ringfence_assignments : gmap uuid RingfenceAssignment;
  block_events : list (N * BlockEvent); (* append-only, oldest first, with their ids *)
  observations : gmap (uuid * string * string) Observation;
  device_events : list (N * DeviceEvent); (* append-only, oldest first *)
  server_keys : gmap (uuid * string) ServerKey;
  device_metrics : list Metric; (* oldest first *)
  ringfence_events : list (N * RingfenceEventRow); (* append-only, oldest first *)
}.

(** The database clock moves by itself. *)
Definition set_pg_now (v : time) (d : db) : db :=
  mkDb v (serial d) (tenants d) (admins d) (sessions d) (device_groups d) (install_tokens d) (devices d) (commands d) (audit_log d) (agent_releases d) (agent_rollouts d) (agent_rollout_devices d) (notification_channels d) (notification_deliveries d) (policies d) (policy_rules d) (policy_versions d) (policy_assignments d) (approval_requests d) (approval_request_devices d) (alert_rules d) (alerts d) (alert_breaches d) (device_controls d) (device_control_overrides d) (login_failures d) (ringfence_policies d) (ringfence_programs d) (ringfence_protections d) (ringfence_assignments d) (block_events d) (observations d) (device_events d) (server_keys d) (device_metrics d) (ringfence_events d).
Definition set_serial (v : N) (d : db) : db :=
  mkDb (pg_now d) v (tenants d) (admins d) (sessions d) (device_groups d) (install_tokens d) (devices d) (commands d) (audit_log d) (agent_releases d) (agent_rollouts d) (agent_rollout_devices d) (notification_channels d) (notification_deliveries d) (policies d) (policy_rules d) (policy_versions d) (policy_assignments d) (approval_requests d) (approval_request_devices d) (alert_rules d) (alerts d) (alert_breaches d) (device_controls d) (device_control_overrides d) (login_failures d) (ringfence_policies d) (ringfence_programs d) (ringfence_protections d) (ringfence_assignments d) (block_events d) (observations d) (device_events d) (server_keys d) (device_metrics d) (ringfence_events d).
Definition set_tenants (v : gmap uuid Tenant) (d : db) : db :=
  mkDb (pg_now d) (serial d) v (admins d) (sessions d) (device_groups d) (install_tokens d) (devices d) (commands d) (audit_log d) (agent_releases d) (agent_rollouts d) (agent_rollout_devices d) (notification_channels d) (notification_deliveries d) (policies d) (policy_rules d) (policy_versions d) (policy_assignments d) (approval_requests d) (approval_request_devices d) (alert_rules d) (alerts d) (alert_breaches d) (device_controls d) (device_control_overrides d) (login_failures d) (ringfence_policies d) (ringfence_programs d) (ringfence_protections d) (ringfence_assignments d) (block_events d) (observations d) (device_events d) (server_keys d) (device_metrics d) (ringfence_events d).
Definition set_admins (v : gmap uuid Admin) (d : db) : db :=
  mkDb (pg_now d) (serial d) (tenants d) v (sessions d) (device_groups d) (install_tokens d) (devices d) (commands d) (audit_log d) (agent_releases d) (agent_rollouts d) (agent_rollout_devices d) (notification_channels d) (notification_deliveries d) (policies d) (policy_rules d) (policy_versions d) (policy_assignments d) (approval_requests d) (approval_request_devices d) (alert_rules d) (alerts d) (alert_breaches d) (device_controls d) (device_control_overrides d) (login_failures d) (ringfence_policies d) (ringfence_programs d) (ringfence_protections d) (ringfence_assignments d) (block_events d) (observations d) (device_events d) (server_keys d) (device_metrics d) (ringfence_events d).
Definition set_sessions (v : gmap string Session) (d : db) : db :=
  mkDb (pg_now d) (serial d) (tenants d) (admins d) v (device_groups d) (install_tokens d) (devices d) (commands d) (audit_log d) (agent_releases d) (agent_rollouts d) (agent_rollout_devices d) (notification_channels d) (notification_deliveries d) (policies d) (policy_rules d) (policy_versions d) (policy_assignments d) (approval_requests d) (approval_request_devices d) (alert_rules d) (alerts d) (alert_breaches d) (device_controls d) (device_control_overrides d) (login_failures d) (ringfence_policies d) (ringfence_programs d) (ringfence_protections d) (ringfence_assignments d) (block_events d) (observations d) (device_events d) (server_keys d) (device_metrics d) (ringfence_events d).
Definition set_device_groups (v : gmap uuid DeviceGroup) (d : db) : db :=
  mkDb (pg_now d) (serial d) (tenants d) (admins d) (sessions d) v (install_tokens d) (devices d) (commands d) (audit_log d) (agent_releases d) (agent_rollouts d) (agent_rollout_devices d) (notification_channels d) (notification_deliveries d) (policies d) (policy_rules d) (policy_versions d) (policy_assignments d) (approval_requests d) (approval_request_devices d) (alert_rules d) (alerts d) (alert_breaches d) (device_controls d) (device_control_overrides d) (login_failures d) (ringfence_policies d) (ringfence_programs d) (ringfence_protections d) (ringfence_assignments d) (block_events d) (observations d) (device_events d) (server_keys d) (device_metrics d) (ringfence_events d).
Definition set_install_tokens (v : gmap uuid InstallToken) (d : db) : db :=
  mkDb (pg_now d) (serial d) (tenants d) (admins d) (sessions d) (device_groups d) v (devices d) (commands d) (audit_log d) (agent_releases d) (agent_rollouts d) (agent_rollout_devices d) (notification_channels d) (notification_deliveries d) (policies d) (policy_rules d) (policy_versions d) (policy_assignments d) (approval_requests d) (approval_request_devices d) (alert_rules d) (alerts d) (alert_breaches d) (device_controls d) (device_control_overrides d) (login_failures d) (ringfence_policies d) (ringfence_programs d) (ringfence_protections d) (ringfence_assignments d) (block_events d) (observations d) (device_events d) (server_keys d) (device_metrics d) (ringfence_events d).
Definition set_devices (v : gmap uuid Device) (d : db) : db :=
  mkDb (pg_now d) (serial d) (tenants d) (admins d) (sessions d) (device_groups d) (install_tokens d) v (commands d) (audit_log d) (agent_releases d) (agent_rollouts d) (agent_rollout_devices d) (notification_channels d) (notification_deliveries d) (policies d) (policy_rules d) (policy_versions d) (policy_assignments d) (approval_requests d) (approval_request_devices d) (alert_rules d) (alerts d) (alert_breaches d) (device_controls d) (device_control_overrides d) (login_failures d) (ringfence_policies d) (ringfence_programs d) (ringfence_protections d) (ringfence_assignments d) (block_events d) (observations d) (device_events d) (server_keys d) (device_metrics d) (ringfence_events d).
Definition set_commands (v : gmap uuid Command) (d : db) : db :=
  mkDb (pg_now d) (serial d) (tenants d) (admins d) (sessions d) (device_groups d) (install_tokens d) (devices d) v (audit_log d) (agent_releases d) (agent_rollouts d) (agent_rollout_devices d) (notification_channels d) (notification_deliveries d) (policies d) (policy_rules d) (policy_versions d) (policy_assignments d) (approval_requests d) (approval_request_devices d) (alert_rules d) (alerts d) (alert_breaches d) (device_controls d) (device_control_overrides d) (login_failures d) (ringfence_policies d) (ringfence_programs d) (ringfence_protections d) (ringfence_assignments d) (block_events d) (observations d) (device_events d) (server_keys d) (device_metrics d) (ringfence_events d).
Definition set_audit_log (v : list (N * AuditEntry)) (d : db) : db :=
  mkDb (pg_now d) (serial d) (tenants d) (admins d) (sessions d) (device_groups d) (install_tokens d) (devices d) (commands d) v (agent_releases d) (agent_rollouts d) (agent_rollout_devices d) (notification_channels d) (notification_deliveries d) (policies d) (policy_rules d) (policy_versions d) (policy_assignments d) (approval_requests d) (approval_request_devices d) (alert_rules d) (alerts d) (alert_breaches d) (device_controls d) (device_control_overrides d) (login_failures d) (ringfence_policies d) (ringfence_programs d) (ringfence_protections d) (ringfence_assignments d) (block_events d) (observations d) (device_events d) (server_keys d) (device_metrics d) (ringfence_events d).
Definition set_agent_releases (v : gmap (uuid * string) Release) (d : db) : db :=
  mkDb (pg_now d) (serial d) (tenants d) (admins d) (sessions d) (device_groups d) (install_tokens d) (devices d) (commands d) (audit_log d) v (agent_rollouts d) (agent_rollout_devices d) (notification_channels d) (notification_deliveries d) (policies d) (policy_rules d) (policy_versions d) (policy_assignments d) (approval_requests d) (approval_request_devices d) (alert_rules d) (alerts d) (alert_breaches d) (device_controls d) (device_control_overrides d) (login_failures d) (ringfence_policies d) (ringfence_programs d) (ringfence_protections d) (ringfence_assignments d) (block_events d) (observations d) (device_events d) (server_keys d) (device_metrics d) (ringfence_events d).
Definition set_agent_rollouts (v : gmap uuid Rollout) (d : db) : db :=
  mkDb (pg_now d) (serial d) (tenants d) (admins d) (sessions d) (device_groups d) (install_tokens d) (devices d) (commands d) (audit_log d) (agent_releases d) v (agent_rollout_devices d) (notification_channels d) (notification_deliveries d) (policies d) (policy_rules d) (policy_versions d) (policy_assignments d) (approval_requests d) (approval_request_devices d) (alert_rules d) (alerts d) (alert_breaches d) (device_controls d) (device_control_overrides d) (login_failures d) (ringfence_policies d) (ringfence_programs d) (ringfence_protections d) (ringfence_assignments d) (block_events d) (observations d) (device_events d) (server_keys d) (device_metrics d) (ringfence_events d).
Definition set_agent_rollout_devices (v : gmap (uuid * uuid) RolloutDevice) (d : db) : db :=
  mkDb (pg_now d) (serial d) (tenants d) (admins d) (sessions d) (device_groups d) (install_tokens d) (devices d) (commands d) (audit_log d) (agent_releases d) (agent_rollouts d) v (notification_channels d) (notification_deliveries d) (policies d) (policy_rules d) (policy_versions d) (policy_assignments d) (approval_requests d) (approval_request_devices d) (alert_rules d) (alerts d) (alert_breaches d) (device_controls d) (device_control_overrides d) (login_failures d) (ringfence_policies d) (ringfence_programs d) (ringfence_protections d) (ringfence_assignments d) (block_events d) (observations d) (device_events d) (server_keys d) (device_metrics d) (ringfence_events d).
Definition set_notification_channels (v : gmap uuid Channel) (d : db) : db :=
  mkDb (pg_now d) (serial d) (tenants d) (admins d) (sessions d) (device_groups d) (install_tokens d) (devices d) (commands d) (audit_log d) (agent_releases d) (agent_rollouts d) (agent_rollout_devices d) v (notification_deliveries d) (policies d) (policy_rules d) (policy_versions d) (policy_assignments d) (approval_requests d) (approval_request_devices d) (alert_rules d) (alerts d) (alert_breaches d) (device_controls d) (device_control_overrides d) (login_failures d) (ringfence_policies d) (ringfence_programs d) (ringfence_protections d) (ringfence_assignments d) (block_events d) (observations d) (device_events d) (server_keys d) (device_metrics d) (ringfence_events d).
Definition set_notification_deliveries (v : gmap N Delivery) (d : db) : db :=
  mkDb (pg_now d) (serial d) (tenants d) (admins d) (sessions d) (device_groups d) (install_tokens d) (devices d) (commands d) (audit_log d) (agent_releases d) (agent_rollouts d) (agent_rollout_devices d) (notification_channels d) v (policies d) (policy_rules d) (policy_versions d) (policy_assignments d) (approval_requests d) (approval_request_devices d) (alert_rules d) (alerts d) (alert_breaches d) (device_controls d) (device_control_overrides d) (login_failures d) (ringfence_policies d) (ringfence_programs d) (ringfence_protections d) (ringfence_assignments d) (block_events d) (observations d) (device_events d) (server_keys d) (device_metrics d) (ringfence_events d).
Definition set_policies (v : gmap uuid AppPolicy) (d : db) : db :=
  mkDb (pg_now d) (serial d) (tenants d) (admins d) (sessions d) (device_groups d) (install_tokens d) (devices d) (commands d) (audit_log d) (agent_releases d) (agent_rollouts d) (agent_rollout_devices d) (notification_channels d) (notification_deliveries d) v (policy_rules d) (policy_versions d) (policy_assignments d) (approval_requests d) (approval_request_devices d) (alert_rules d) (alerts d) (alert_breaches d) (device_controls d) (device_control_overrides d) (login_failures d) (ringfence_policies d) (ringfence_programs d) (ringfence_protections d) (ringfence_assignments d) (block_events d) (observations d) (device_events d) (server_keys d) (device_metrics d) (ringfence_events d).
Definition set_policy_rules (v : gmap uuid PolicyRule) (d : db) : db :=
  mkDb (pg_now d) (serial d) (tenants d) (admins d) (sessions d) (device_groups d) (install_tokens d) (devices d) (commands d) (audit_log d) (agent_releases d) (agent_rollouts d) (agent_rollout_devices d) (notification_channels d) (notification_deliveries d) (policies d) v (policy_versions d) (policy_assignments d) (approval_requests d) (approval_request_devices d) (alert_rules d) (alerts d) (alert_breaches d) (device_controls d) (device_control_overrides d) (login_failures d) (ringfence_policies d) (ringfence_programs d) (ringfence_protections d) (ringfence_assignments d) (block_events d) (observations d) (device_events d) (server_keys d) (device_metrics d) (ringfence_events d).
Definition set_policy_versions (v : gmap (uuid * string) PolicyVersion) (d : db) : db :=
  mkDb (pg_now d) (serial d) (tenants d) (admins d) (sessions d) (device_groups d) (install_tokens d) (devices d) (commands d) (audit_log d) (agent_releases d) (agent_rollouts d) (agent_rollout_devices d) (notification_channels d) (notification_deliveries d) (policies d) (policy_rules d) v (policy_assignments d) (approval_requests d) (approval_request_devices d) (alert_rules d) (alerts d) (alert_breaches d) (device_controls d) (device_control_overrides d) (login_failures d) (ringfence_policies d) (ringfence_programs d) (ringfence_protections d) (ringfence_assignments d) (block_events d) (observations d) (device_events d) (server_keys d) (device_metrics d) (ringfence_events d).
Definition set_policy_assignments (v : gmap uuid PolicyAssignment) (d : db) : db :=
  mkDb (pg_now d) (serial d) (tenants d) (admins d) (sessions d) (device_groups d) (install_tokens d) (devices d) (commands d) (audit_log d) (agent_releases d) (agent_rollouts d) (agent_rollout_devices d) (notification_channels d) (notification_deliveries d) (policies d) (policy_rules d) (policy_versions d) v (approval_requests d) (approval_request_devices d) (alert_rules d) (alerts d) (alert_breaches d) (device_controls d) (device_control_overrides d) (login_failures d) (ringfence_policies d) (ringfence_programs d) (ringfence_protections d) (ringfence_assignments d) (block_events d) (observations d) (device_events d) (server_keys d) (device_metrics d) (ringfence_events d).
Definition set_approval_requests (v : gmap uuid ApprovalRequest) (d : db) : db :=
  mkDb (pg_now d) (serial d) (tenants d) (admins d) (sessions d) (device_groups d) (install_tokens d) (devices d) (commands d) (audit_log d) (agent_releases d) (agent_rollouts d) (agent_rollout_devices d) (notification_channels d) (notification_deliveries d) (policies d) (policy_rules d) (policy_versions d) (policy_assignments d) v (approval_request_devices d) (alert_rules d) (alerts d) (alert_breaches d) (device_controls d) (device_control_overrides d) (login_failures d) (ringfence_policies d) (ringfence_programs d) (ringfence_protections d) (ringfence_assignments d) (block_events d) (observations d) (device_events d) (server_keys d) (device_metrics d) (ringfence_events d).
Definition set_approval_request_devices (v : gset (uuid * uuid)) (d : db) : db :=
  mkDb (pg_now d) (serial d) (tenants d) (admins d) (sessions d) (device_groups d) (install_tokens d) (devices d) (commands d) (audit_log d) (agent_releases d) (agent_rollouts d) (agent_rollout_devices d) (notification_channels d) (notification_deliveries d) (policies d) (policy_rules d) (policy_versions d) (policy_assignments d) (approval_requests d) v (alert_rules d) (alerts d) (alert_breaches d) (device_controls d) (device_control_overrides d) (login_failures d) (ringfence_policies d) (ringfence_programs d) (ringfence_protections d) (ringfence_assignments d) (block_events d) (observations d) (device_events d) (server_keys d) (device_metrics d) (ringfence_events d).
Definition set_alert_rules (v : gmap uuid AlertRule) (d : db) : db :=
  mkDb (pg_now d) (serial d) (tenants d) (admins d) (sessions d) (device_groups d) (install_tokens d) (devices d) (commands d) (audit_log d) (agent_releases d) (agent_rollouts d) (agent_rollout_devices d) (notification_channels d) (notification_deliveries d) (policies d) (policy_rules d) (policy_versions d) (policy_assignments d) (approval_requests d) (approval_request_devices d) v (alerts d) (alert_breaches d) (device_controls d) (device_control_overrides d) (login_failures d) (ringfence_policies d) (ringfence_programs d) (ringfence_protections d) (ringfence_assignments d) (block_events d) (observations d) (device_events d) (server_keys d) (device_metrics d) (ringfence_events d).
Definition set_alerts (v : gmap N Alert) (d : db) : db :=
  mkDb (pg_now d) (serial d) (tenants d) (admins d) (sessions d) (device_groups d) (install_tokens d) (devices d) (commands d) (audit_log d) (agent_releases d) (agent_rollouts d) (agent_rollout_devices d) (notification_channels d) (notification_deliveries d) (policies d) (policy_rules d) (policy_versions d) (policy_assignments d) (approval_requests d) (approval_request_devices d) (alert_rules d) v (alert_breaches d) (device_controls d) (device_control_overrides d) (login_failures d) (ringfence_policies d) (ringfence_programs d) (ringfence_protections d) (ringfence_assignments d) (block_events d) (observations d) (device_events d) (server_keys d) (device_metrics d) (ringfence_events d).
Definition set_alert_breaches (v : gmap (uuid * uuid) Breach) (d : db) : db :=
  mkDb (pg_now d) (serial d) (tenants d) (admins d) (sessions d) (device_groups d) (install_tokens d) (devices d) (commands d) (audit_log d) (agent_releases d) (agent_rollouts d) (agent_rollout_devices d) (notification_channels d) (notification_deliveries d) (policies d) (policy_rules d) (policy_versions d) (policy_assignments d) (approval_requests d) (approval_request_devices d) (alert_rules d) (alerts d) v (device_controls d) (device_control_overrides d) (login_failures d) (ringfence_policies d) (ringfence_programs d) (ringfence_protections d) (ringfence_assignments d) (block_events d) (observations d) (device_events d) (server_keys d) (device_metrics d) (ringfence_events d).
Definition set_device_controls (v : gmap uuid Controls) (d : db) : db :=
  mkDb (pg_now d) (serial d) (tenants d) (admins d) (sessions d) (device_groups d) (install_tokens d) (devices d) (commands d) (audit_log d) (agent_releases d) (agent_rollouts d) (agent_rollout_devices d) (notification_channels d) (notification_deliveries d) (policies d) (policy_rules d) (policy_versions d) (policy_assignments d) (approval_requests d) (approval_request_devices d) (alert_rules d) (alerts d) (alert_breaches d) v (device_control_overrides d) (login_failures d) (ringfence_policies d) (ringfence_programs d) (ringfence_protections d) (ringfence_assignments d) (block_events d) (observations d) (device_events d) (server_keys d) (device_metrics d) (ringfence_events d).
Definition set_device_control_overrides (v : gmap uuid Overrides) (d : db) : db :=
  mkDb (pg_now d) (serial d) (tenants d) (admins d) (sessions d) (device_groups d) (install_tokens d) (devices d) (commands d) (audit_log d) (agent_releases d) (agent_rollouts d) (agent_rollout_devices d) (notification_channels d) (notification_deliveries d) (policies d) (policy_rules d) (policy_versions d) (policy_assignments d) (approval_requests d) (approval_request_devices d) (alert_rules d) (alerts d) (alert_breaches d) (device_controls d) v (login_failures d) (ringfence_policies d) (ringfence_programs d) (ringfence_protections d) (ringfence_assignments d) (block_events d) (observations d) (device_events d) (server_keys d) (device_metrics d) (ringfence_events d).
Definition set_login_failures (v : list LoginFailure) (d : db) : db :=
  mkDb (pg_now d) (serial d) (tenants d) (admins d) (sessions d) (device_groups d) (install_tokens d) (devices d) (commands d) (audit_log d) (agent_releases d) (agent_rollouts d) (agent_rollout_devices d) (notification_channels d) (notification_deliveries d) (policies d) (policy_rules d) (policy_versions d) (policy_assignments d) (approval_requests d) (approval_request_devices d) (alert_rules d) (alerts d) (alert_breaches d) (device_controls d) (device_control_overrides d) v (ringfence_policies d) (ringfence_programs d) (ringfence_protections d) (ringfence_assignments d) (block_events d) (observations d) (device_events d) (server_keys d) (device_metrics d) (ringfence_events d).
Definition set_ringfence_policies (v : gmap uuid RingfencePolicy) (d : db) : db :=
  mkDb (pg_now d) (serial d) (tenants d) (admins d) (sessions d) (device_groups d) (install_tokens d) (devices d) (commands d) (audit_log d) (agent_releases d) (agent_rollouts d) (agent_rollout_devices d) (notification_channels d) (notification_deliveries d) (policies d) (policy_rules d) (policy_versions d) (policy_assignments d) (approval_requests d) (approval_request_devices d) (alert_rules d) (alerts d) (alert_breaches d) (device_controls d) (device_control_overrides d) (login_failures d) v (ringfence_programs d) (ringfence_protections d) (ringfence_assignments d) (block_events d) (observations d) (device_events d) (server_keys d) (device_metrics d) (ringfence_events d).
Definition set_ringfence_programs (v : gmap uuid RingfenceProgram) (d : db) : db :=
  mkDb (pg_now d) (serial d) (tenants d) (admins d) (sessions d) (device_groups d) (install_tokens d) (devices d) (commands d) (audit_log d) (agent_releases d) (agent_rollouts d) (agent_rollout_devices d) (notification_channels d) (notification_deliveries d) (policies d) (policy_rules d) (policy_versions d) (policy_assignments d) (approval_requests d) (approval_request_devices d) (alert_rules d) (alerts d) (alert_breaches d) (device_controls d) (device_control_overrides d) (login_failures d) (ringfence_policies d) v (ringfence_protections d) (ringfence_assignments d) (block_events d) (observations d) (device_events d) (server_keys d) (device_metrics d) (ringfence_events d).
Definition set_ringfence_protections (v : gmap (uuid * string) RingfenceProtection) (d : db) : db :=
  mkDb (pg_now d) (serial d) (tenants d) (admins d) (sessions d) (device_groups d) (install_tokens d) (devices d) (commands d) (audit_log d) (agent_releases d) (agent_rollouts d) (agent_rollout_devices d) (notification_channels d) (notification_deliveries d) (policies d) (policy_rules d) (policy_versions d) (policy_assignments d) (approval_requests d) (approval_request_devices d) (alert_rules d) (alerts d) (alert_breaches d) (device_controls d) (device_control_overrides d) (login_failures d) (ringfence_policies d) (ringfence_programs d) v (ringfence_assignments d) (block_events d) (observations d) (device_events d) (server_keys d) (device_metrics d) (ringfence_events d).
Definition set_ringfence_assignments (v : gmap uuid RingfenceAssignment) (d : db) : db :=
  mkDb (pg_now d) (serial d) (tenants d) (admins d) (sessions d) (device_groups d) (install_tokens d) (devices d) (commands d) (audit_log d) (agent_releases d) (agent_rollouts d) (agent_rollout_devices d) (notification_channels d) (notification_deliveries d) (policies d) (policy_rules d) (policy_versions d) (policy_assignments d) (approval_requests d) (approval_request_devices d) (alert_rules d) (alerts d) (alert_breaches d) (device_controls d) (device_control_overrides d) (login_failures d) (ringfence_policies d) (ringfence_programs d) (ringfence_protections d) v (block_events d) (observations d) (device_events d) (server_keys d) (device_metrics d) (ringfence_events d).
Definition set_block_events (v : list (N * BlockEvent)) (d : db) : db :=
  mkDb (pg_now d) (serial d) (tenants d) (admins d) (sessions d) (device_groups d) (install_tokens d) (devices d) (commands d) (audit_log d) (agent_releases d) (agent_rollouts d) (agent_rollout_devices d) (notification_channels d) (notification_deliveries d) (policies d) (policy_rules d) (policy_versions d) (policy_assignments d) (approval_requests d) (approval_request_devices d) (alert_rules d) (alerts d) (alert_breaches d) (device_controls d) (device_control_overrides d) (login_failures d) (ringfence_policies d) (ringfence_programs d) (ringfence_protections d) (ringfence_assignments d) v (observations d) (device_events d) (server_keys d) (device_metrics d) (ringfence_events d).
Definition set_observations (v : gmap (uuid * string * string) Observation) (d : db) : db :=
  mkDb (pg_now d) (serial d) (tenants d) (admins d) (sessions d) (device_groups d) (install_tokens d) (devices d) (commands d) (audit_log d) (agent_releases d) (agent_rollouts d) (agent_rollout_devices d) (notification_channels d) (notification_deliveries d) (policies d) (policy_rules d) (policy_versions d) (policy_assignments d) (approval_requests d) (approval_request_devices d) (alert_rules d) (alerts d) (alert_breaches d) (device_controls d) (device_control_overrides d) (login_failures d) (ringfence_policies d) (ringfence_programs d) (ringfence_protections d) (ringfence_assignments d) (block_events d) v (device_events d) (server_keys d) (device_metrics d) (ringfence_events d).
Definition set_device_events (v : list (N * DeviceEvent)) (d : db) : db :=
  mkDb (pg_now d) (serial d) (tenants d) (admins d) (sessions d) (device_groups d) (install_tokens d) (devices d) (commands d) (audit_log d) (agent_releases d) (agent_rollouts d) (agent_rollout_devices d) (notification_channels d) (notification_deliveries d) (policies d) (policy_rules d) (policy_versions d) (policy_assignments d) (approval_requests d) (approval_request_devices d) (alert_rules d) (alerts d) (alert_breaches d) (device_controls d) (device_control_overrides d) (login_failures d) (ringfence_policies d) (ringfence_programs d) (ringfence_protections d) (ringfence_assignments d) (block_events d) (observations d) v (server_keys d) (device_metrics d) (ringfence_events d).
Definition set_server_keys (v : gmap (uuid * string) ServerKey) (d : db) : db :=
  mkDb (pg_now d) (serial d) (tenants d) (admins d) (sessions d) (device_groups d) (install_tokens d) (devices d) (commands d) (audit_log d) (agent_releases d) (agent_rollouts d) (agent_rollout_devices d) (notification_channels d) (notification_deliveries d) (policies d) (policy_rules d) (policy_versions d) (policy_assignments d) (approval_requests d) (approval_request_devices d) (alert_rules d) (alerts d) (alert_breaches d) (device_controls d) (device_control_overrides d) (login_failures d) (ringfence_policies d) (ringfence_programs d) (ringfence_protections d) (ringfence_assignments d) (block_events d) (observations d) (device_events d) v (device_metrics d) (ringfence_events d).
Definition set_device_metrics (v : list Metric) (d : db) : db :=
  mkDb (pg_now d) (serial d) (tenants d) (admins d) (sessions d) (device_groups d) (install_tokens d) (devices d) (commands d) (audit_log d) (agent_releases d) (agent_rollouts d) (agent_rollout_devices d) (notification_channels d) (notification_deliveries d) (policies d) (policy_rules d) (policy_versions d) (policy_assignments d) (approval_requests d) (approval_request_devices d) (alert_rules d) (alerts d) (alert_breaches d) (device_controls d) (device_control_overrides d) (login_failures d) (ringfence_policies d) (ringfence_programs d) (ringfence_protections d) (ringfence_assignments d) (block_events d) (observations d) (device_events d) (server_keys d) v (ringfence_events d).
Definition set_ringfence_events (v : list (N * RingfenceEventRow)) (d : db) : db :=
  mkDb (pg_now d) (serial d) (tenants d) (admins d) (sessions d) (device_groups d) (install_tokens d) (devices d) (commands d) (audit_log d) (agent_releases d) (agent_rollouts d) (agent_rollout_devices d) (notification_channels d) (notification_deliveries d) (policies d) (policy_rules d) (policy_versions d) (policy_assignments d) (approval_requests d) (approval_request_devices d) (alert_rules d) (alerts d) (alert_breaches d) (device_controls d) (device_control_overrides d) (login_failures d) (ringfence_policies d) (ringfence_programs d) (ringfence_protections d) (ringfence_assignments d) (block_events d) (observations d) (device_events d) (server_keys d) (device_metrics d) v.

(** A freshly migrated database. *)
Definition empty_db : db :=
  mkDb 1 0 ∅ ∅ ∅ ∅ ∅ ∅ ∅ [] ∅ ∅ ∅ ∅ ∅ ∅ ∅ ∅ ∅ ∅ ∅ ∅ ∅ ∅ ∅ ∅ [] ∅ ∅ ∅ ∅ [] ∅ [] ∅ [] [].

(** ** Rows and constraints *)

(** The rows of a table. *)
Definition rows {K A} `{Countable K} (m : gmap K A) : list A := (map_to_list m).*2.

(** Some row of the table satisfies [p]. *)
Definition exists_row {K A} `{Countable K} (p : K → A → bool) (m : gmap K A) : bool :=
  existsb (λ kv, p kv.1 kv.2) (map_to_list m).

Lemma exists_row_true {K A} `{Countable K} (p : K → A → bool) (m : gmap K A) :
  exists_row p m = true ↔ ∃ k a, m !! k = Some a ∧ p k a = true.
Proof.
  unfold exists_row. rewrite existsb_exists. split.
  - intros ([k a] & Hin & Hp). exists k, a. split; [|done].
    by apply elem_of_map_to_list, list_elem_of_In.
  - intros (k & a & Hk & Hp). exists (k, a). split; [|done].
    by apply list_elem_of_In, elem_of_map_to_list.
Qed.
Lemma exists_row_false {K A} `{Countable K} (p : K → A → bool) (m : gmap K A) :
  exists_row p m = false ↔ ∀ k a, m !! k = Some a → p k a = false.
Proof.
  rewrite <- not_true_false, exists_row_true. split.
  - intros Hn k a Hk. destruct (p k a) eqn:Hp; [|done]. destruct Hn; eauto.
  - intros Hall (k & a & Hk & Hp). by rewrite (Hall k a Hk) in Hp.
Qed.

(** The row a [WHERE] clause on a unique column picks, with its key. *)
Definition find_row {K A} `{Countable K} (p : K → A → bool) (m : gmap K A) : option (K * A) :=
  List.find (λ kv, p kv.1 kv.2) (map_to_list m).

Lemma find_row_Some {K A} `{Countable K} (p : K → A → bool) (m : gmap K A) k a :
  find_row p m = Some (k, a) → m !! k = Some a ∧ p k a = true.
Proof.
  unfold find_row. intros [Hin Hp]%find_some. split; [|done].
  by apply elem_of_map_to_list, list_elem_of_In.
Qed.
Lemma find_row_None {K A} `{Countable K} (p : K → A → bool) (m : gmap K A) :
  find_row p m = None ↔ ∀ k a, m !! k = Some a → p k a = false.
Proof.
  unfold find_row. split.
  - intros Hn k a Hk. apply (find_none _ _ Hn (k, a)).
    by apply list_elem_of_In, elem_of_map_to_list.
  - intros Hall. destruct (List.find _ _) as [[k a]|] eqn:E; [|done].
    apply find_some in E as [Hin Hp]. apply list_elem_of_In, elem_of_map_to_list in Hin.
    simpl in Hp. by rewrite (Hall k a Hin) in Hp.
Qed.

(** [conflict]: a unique-constraint violation becomes [ErrConflict]; any other
    error is kept. *)
Definition conflict (e : err) : err :=
  match e with PgUnique => ErrConflict | _ => e end.

(** The error of a call, mapped. *)
Definition map_err {S A} (f : err → err) (m : M S A) : M S A :=
  λ s, match m s with
       | (s', Ok a) => (s', Ok a)
       | (s', Err e) => (s', Err (f e))
       end.

(** [oneRow]: an [UPDATE] or [DELETE] on a primary key and a tenant, which
    affects the row the key names if its tenant matches and reports
    [ErrNotFound] when it affected none. *)
Definition oneRow {S K A} `{Countable K} (tbl : S → gmap K A) (k : K) (p : A → bool)
    (write : A → S → S) : M S unit :=
  λ s, match tbl s !! k with
       | Some a => if p a then (write a s, Ok tt) else (s, Err ErrNotFound)
       | None => (s, Err ErrNotFound)
       end.

#[export] Instance oneRow_atomic {S K A} `{Countable K} (tbl : S → gmap K A) k p write :
  Atomic (oneRow tbl k p write).
Proof. intros s s' e. unfold oneRow. repeat case_match; by intros [=]. Qed.

#[export] Instance map_err_atomic {S A} f (m : M S A) : Atomic m → Atomic (map_err f m).
Proof.
  intros Hm s s' e. unfold map_err. destruct (m s) as [s1 [|e1]] eqn:E; [done|].
  intros [= -> _]. exact (Hm _ _ _ E).
Qed.

#[export] Instance map_err_steps {S A} (R : relation S) f (m : M S A) : Steps R m → Steps R (map_err f m).
Proof. intros Hm s. unfold map_err. specialize (Hm s). by destruct (m s) as [s1 [|e1]]. Qed.

(** ** Counting rows *)

Section count_rows.
Context {K A : Type} `{Countable K}.
Implicit Types (m : gmap K A) (p q : K * A → bool).

Lemma count_rows_insert p m k a :
  m !! k = None →
  count p (map_to_list (<[k := a]> m)) = (if p (k, a) then 1 else 0) + count p (map_to_list m).
Proof. intros Hk. by rewrite (count_perm p _ _ (map_to_list_insert m k a Hk)), count_cons. Qed.

Lemma count_rows_ext p q m :
  (∀ k a, m !! k = Some a → p (k, a) = q (k, a)) → count p (map_to_list m) = count q (map_to_list m).
Proof. intros Hpq. apply count_ext. intros [k a] Hin. by apply Hpq, elem_of_map_to_list. Qed.

(** Two tests that differ at one row only. *)
Lemma count_rows_flip p q m k a :
  m !! k = Some a → p (k, a) = true → q (k, a) = false →
  (∀ k' a', m !! k' = Some a' → k' ≠ k → p (k', a') = q (k', a')) →
  count p (map_to_list m) = S (count q (map_to_list m)).
Proof.
  intros Hk Hp Hq Hpq. rewrite <- (insert_delete_id m k a Hk).
  rewrite !count_rows_insert by apply lookup_delete_eq. rewrite Hp, Hq. simpl. f_equal.
  apply count_rows_ext. intros k' a' [Hne Hk']%lookup_delete_Some. by apply Hpq.
Qed.

Lemma count_rows_zero p m : count p (map_to_list m) = 0 ↔ ∀ k a, m !! k = Some a → p (k, a) = false.
Proof.
  rewrite count_zero. split.
  - intros Hall k a Hk. by apply Hall, elem_of_map_to_list.
  - intros Hall [k a] Hin. by apply Hall, elem_of_map_to_list.
Qed.
Lemma count_rows_pos p m : 0 < count p (map_to_list m) ↔ ∃ k a, m !! k = Some a ∧ p (k, a) = true.
Proof.
  rewrite count_pos. split.
  - intros ([k a] & Hin & Hp). exists k, a. split; [by apply elem_of_map_to_list | done].
  - intros (k & a & Hk & Hp). exists (k, a). split; [by apply elem_of_map_to_list | done].
Qed.

(** An update of every row. *)
Lemma count_rows_imap p (f : K → A → A) m :
  count p (map_to_list (map_imap (λ k a, Some (f k a)) m)) =
  count (λ ka, p (ka.1, f ka.1 ka.2)) (map_to_list m).
Proof.
  induction m as [|k a m Hk _ IH] using map_first_key_ind; [done|].
  rewrite map_imap_insert, !count_rows_insert; [by rewrite IH|done|].
  by rewrite map_lookup_imap, Hk.
Qed.
End count_rows.
