(* ===== verification/Hub.v ===== *)
(** * The connection hub

    Models [internal/server/hub/hub.go]: which agent stream is live for each
    device, the bounded send buffer of each stream, and who gets cancelled when
    a device reconnects. Connections are heap objects compared by pointer, as in
    the source: [conns] maps a device to the pointer of its current [Conn].
    Every method holds the mutex (or touches one channel), so each is one step. *)

From stdpp Require Import gmap strings list.
From S2P Require Import Prelude.

Definition sendBuffer : nat := 64.

(** The causes a stream's context can be cancelled with: replaced by a newer
    connection, or whatever [Disconnect] was given. *)
Inductive cause := ErrReplaced | Cause (msg : string).

Section hub.
Context {msg : Type}.

(** A [Conn]: the messages queued in its channel and, once its context is
    cancelled, the first cause (later ones are ignored by [context]). *)
Record Conn := mkConn { c_send : list msg; c_cancelled : option cause }.

Record hub := mkHub {
  conns : gmap uuid N;
  heap : gmap N Conn;
  next_ptr : N;
}.

Definition New : hub := mkHub ∅ ∅ 0.

Definition cancel (k : cause) (c : Conn) : Conn :=
  mkConn (c_send c) (match c_cancelled c with Some k' => Some k' | None => Some k end).

Definition Register (id : uuid) (h : hub) : N * hub :=
  let p := next_ptr h in
  let old := conns h !! id in
  let hp := <[p := mkConn [] None]> (heap h) in
  let hp := match old with Some q => alter (cancel ErrReplaced) q hp | None => hp end in
  (p, mkHub (<[id := p]> (conns h)) hp (p + 1)).

Definition Unregister (id : uuid) (p : N) (h : hub) : hub :=
  if bool_decide (conns h !! id = Some p)
  then mkHub (delete id (conns h)) (heap h) (next_ptr h)
  else h.

Definition Send (id : uuid) (m : msg) (h : hub) : bool * hub :=
  match conns h !! id with
  | None => (false, h)
  | Some p =>
      match heap h !! p with
      | Some c =>
          if (length (c_send c) <? sendBuffer)%nat
          then (true, mkHub (conns h) (<[p := mkConn (c_send c ++ [m]) (c_cancelled c)]> (heap h)) (next_ptr h))
          else (false, h)
      | None => (false, h)
      end
  end.

Definition Disconnect (id : uuid) (k : cause) (h : hub) : hub :=
  match conns h !! id with
  | Some p => mkHub (conns h) (alter (cancel k) p (heap h)) (next_ptr h)
  | None => h
  end.

Definition Connected (id : uuid) (h : hub) : bool := bool_decide (is_Some (conns h !! id)).

(** The stream goroutine of [agentService.Connect] takes one queued message. *)
Definition Receive (p : N) (h : hub) : option msg * hub :=
  match heap h !! p with
  | Some (mkConn (m :: ms) k) => (Some m, mkHub (conns h) (<[p := mkConn ms k]> (heap h)) (next_ptr h))
  | _ => (None, h)
  end.

(** ** Reachable hubs *)

Inductive step : hub → hub → Prop :=
  | step_register id h : step h (Register id h).2
  | step_unregister id p h : step h (Unregister id p h)
  | step_send id m h : step h (Send id m h).2
  | step_disconnect id k h : step h (Disconnect id k h)
  | step_receive p h : step h (Receive p h).2.

(** Pointers are allocated, no two devices share a connection, and buffers are
    bounded. *)
Record hub_ok (h : hub) : Prop := {
  ok_alloc : ∀ p c, heap h !! p = Some c → (p < next_ptr h)%N;
  ok_conns : ∀ id p, conns h !! id = Some p → is_Some (heap h !! p);
  ok_inj : ∀ id id' p, conns h !! id = Some p → conns h !! id' = Some p → id = id';
  ok_buffer : ∀ p c, heap h !! p = Some c → length (c_send c) ≤ sendBuffer;
}.

Lemma New_ok : hub_ok New.
Proof. by constructor. Qed.

Lemma hub_ok_alter h p f :
  (∀ c, length (c_send (f c)) ≤ length (c_send c) ∨ length (c_send (f c)) ≤ sendBuffer) →
  hub_ok h → hub_ok (mkHub (conns h) (alter f p (heap h)) (next_ptr h)).
Proof.
  intros Hf [H1 H2 H3 H4]. constructor; simpl; try done.
  - intros q c. rewrite lookup_alter. case_decide; [|apply H1]. subst.
    destruct (heap h !! q) eqn:E; [intros _; by eapply H1 | done].
  - intros id q Hq. rewrite lookup_alter. case_decide; [|by eapply H2].
    subst. destruct (H2 _ _ Hq) as [c ->]. by eexists.
  - intros q c. rewrite lookup_alter. case_decide; [|apply H4]. subst.
    destruct (heap h !! q) as [c0|] eqn:E; [|done]. intros [= <-].
    pose proof (H4 _ _ E). destruct (Hf c0); lia.
Qed.

Lemma hub_ok_store h p c :
  is_Some (heap h !! p) → length (c_send c) ≤ sendBuffer → hub_ok h →
  hub_ok (mkHub (conns h) (<[p := c]> (heap h)) (next_ptr h)).
Proof.
  intros [c0 Hp] Hc Hok.
  replace (<[p := c]> (heap h)) with (alter (λ _, c) p (heap h)).
  - apply hub_ok_alter; [auto | done].
  - apply map_eq. intros q. rewrite lookup_alter, lookup_insert. case_decide; [|done].
    subst. by rewrite Hp.
Qed.

Lemma Register_ok id h : hub_ok h → hub_ok (Register id h).2.
Proof.
  intros Hok. pose proof Hok as [H1 H2 H3 H4].
  assert (hub_ok (mkHub (<[id := next_ptr h]> (conns h)) (<[next_ptr h := mkConn [] None]> (heap h)) (next_ptr h + 1)))
    as Hnew.
  { assert (∀ i q, conns h !! i = Some q → (q < next_ptr h)%N) as Hlt.
    { intros i q Hq. destruct (H2 _ _ Hq) as [c Hc]. by eapply H1. }
    constructor; simpl.
    - intros q c [[<- _]|[_ Hq]]%lookup_insert_Some; [lia|]. apply H1 in Hq. lia.
    - intros i q. rewrite !lookup_insert. repeat case_decide; intros; simplify_eq; eauto.
    - intros i i' q. rewrite !lookup_insert. repeat case_decide; intros Hi Hi'; simplify_eq; eauto.
      + apply Hlt in Hi'. lia.
      + apply Hlt in Hi. lia.
    - intros q c [[_ <-]|[_ Hq]]%lookup_insert_Some; [simpl; lia | by eapply H4]. }
  unfold Register. simpl. destruct (conns h !! id) as [q|]; [|done].
  apply (hub_ok_alter _ q (cancel ErrReplaced)) in Hnew; [done | auto].
Qed.

Lemma hub_step_ok h h' : step h h' → hub_ok h → hub_ok h'.
Proof.
  destruct 1 as [id h|id p h|id m h|id k h|p h]; intros Hok.
  - by apply Register_ok.
  - unfold Unregister. case_bool_decide; [|done]. destruct Hok as [H1 H2 H3 H4].
    constructor; simpl; try done.
    + intros i q [_ Hq]%lookup_delete_Some. eauto.
    + intros i i' q [_ Hq]%lookup_delete_Some [_ Hq']%lookup_delete_Some. eauto.
  - unfold Send. destruct (conns h !! id) as [p|] eqn:Hp; [|done].
    destruct (heap h !! p) as [c|] eqn:Hc; [|done]. destruct (_ <? _)%nat eqn:Hlt; [|done].
    bool_cases. apply hub_ok_store; [by eexists | simpl; rewrite length_app; simpl; lia | done].
  - unfold Disconnect. case_match; [|done]. apply hub_ok_alter; [auto | done].
  - unfold Receive. destruct (heap h !! p) as [[[|m ms] k]|] eqn:Hc; [done| |done].
    apply hub_ok_store; [by eexists | | done]. pose proof (ok_buffer _ Hok _ _ Hc). simpl in *. lia.
Qed.

(** In every hub reachable from [New], send buffers never exceed their 64
    slots, every current connection is live in the heap and belongs to one device
    only. *)
Theorem hub_invariant h : rtc step New h → hub_ok h.
Proof.
  intros Hs. cut (∀ h0, hub_ok h0 → rtc step h0 h → hub_ok h); [eauto using New_ok|].
  clear Hs. intros h0 Hok. induction 1; eauto using hub_step_ok.
Qed.

(** Reconnecting: registering a device cancels its previous stream with
    [ErrReplaced] (unless that stream was already cancelled), makes the new
    connection current with an empty buffer, and the old stream's deferred
    [Unregister] does not tear down the new connection; other devices keep their
    connections. *)
Theorem Register_replaces id h p h' :
  hub_ok h → Register id h = (p, h') →
  conns h' !! id = Some p ∧ heap h' !! p = Some (mkConn [] None) ∧
  (∀ q, conns h !! id = Some q →
     (∃ c c', heap h !! q = Some c ∧ heap h' !! q = Some c' ∧ c_send c' = c_send c ∧
        c_cancelled c' = Some (default ErrReplaced (c_cancelled c))) ∧
     Unregister id q h' = h') ∧
  (∀ id', id' ≠ id → conns h' !! id' = conns h !! id').
Proof.
  intros Hok. unfold Register. intros [= <- <-]. simpl.
  assert (∀ q, conns h !! id = Some q → q ≠ next_ptr h) as Hne.
  { intros q Hq ->. destruct (ok_conns _ Hok _ _ Hq) as [c Hc].
    apply (ok_alloc _ Hok) in Hc. lia. }
  split_and!.
  - apply lookup_insert_eq.
  - destruct (conns h !! id) as [q|] eqn:Hq; [|apply lookup_insert_eq].
    rewrite lookup_alter_ne by (by apply Hne). apply lookup_insert_eq.
  - intros q Hq. rewrite Hq. split.
    + destruct (ok_conns _ Hok _ _ Hq) as [c Hc]. exists c, (cancel ErrReplaced c).
      rewrite lookup_alter, decide_True by done.
      rewrite lookup_insert_ne by (symmetry; by apply Hne). rewrite Hc.
      split_and!; try done. by destruct c as [? []].
    + unfold Unregister. simpl. rewrite bool_decide_eq_false_2; [done|].
      rewrite lookup_insert_eq. intros [= Heq]. by apply (Hne q).
  - intros id' Hid. by rewrite lookup_insert_ne.
Qed.

(** [Send] answers [true] exactly when the device is connected with room in its
    buffer, and then queues the message last. *)
Lemma Send_spec id m h :
  hub_ok h →
  match conns h !! id with
  | None => Send id m h = (false, h)
  | Some p => ∃ c, heap h !! p = Some c ∧
      if (length (c_send c) <? sendBuffer)%nat
      then ∃ h', Send id m h = (true, h') ∧ conns h' = conns h ∧
        heap h' !! p = Some (mkConn (c_send c ++ [m]) (c_cancelled c))
      else Send id m h = (false, h)
  end.
Proof.
  intros Hok. unfold Send. destruct (conns h !! id) as [p|] eqn:Hp; [|done].
  destruct (ok_conns _ Hok _ _ Hp) as [c Hc]. rewrite Hc. exists c. split; [done|].
  destruct (_ <? _)%nat; [|done]. eexists. split_and!; [done|done|]. apply lookup_insert_eq.
Qed.
End hub.
Arguments hub : clear implicits.
Arguments Conn : clear implicits.

Lemma hub_invariant_witness :
  hub_ok (Send 7 1 (Register 7 (@New nat)).2).2.
Proof.
  apply hub_invariant. eapply rtc_l; [apply (step_register 7)|].
  eapply rtc_l; [apply (step_send 7 1)|]. apply rtc_refl.
Defined.

Lemma Register_replaces_witness :
  conns (Register 7 (Register 7 (@New nat)).2).2 !! 7%N = Some 1%N.
Proof.
  refine (proj1 (Register_replaces 7 (Register 7 (@New nat)).2 1 _ _ _)).
  - apply Register_ok, New_ok.
  - reflexivity.
Defined.
