(* ===== verification/StoreCore.v ===== *)
(** * The core of the store: audit log, tenants, groups, tokens, devices, releases

    Models [internal/server/store/audit.go], [tenants.go], [tokens.go],
    [devices.go] and [releases.go]. Each exported method is one definition; a
    single statement is atomic, and a [tx] is a [transaction]. *)

From stdpp Require Import gmap strings list sorting.
From S2P Require Import Prelude Db.

(** The list a query with [ORDER BY] returns. SQL leaves the order of equal keys
    open; this model takes the table order there. *)
Definition by_leb {A} (leb : A → A → bool) (x y : A) : Prop := leb x y = true.
#[export] Instance by_leb_dec {A} (leb : A → A → bool) : RelDecision (by_leb leb).
Proof. intros x y. unfold by_leb. apply _. Defined.
Definition order_by {A} (leb : A → A → bool) (l : list A) : list A := merge_sort (by_leb leb) l.

Lemma order_by_perm {A} leb (l : list A) : order_by leb l ≡ₚ l.
Proof. apply merge_sort_Permutation. Qed.

(** Foreign keys to the tenants table. *)
Definition has_tenant (t : uuid) (d : db) : bool := bool_decide (is_Some (tenants d !! t)).

(** What an [int] column holds. *)
Definition int4 (n : Z) : bool := (- 2 ^ 31 <=? n)%Z && (n <? 2 ^ 31)%Z.

(** ** audit.go *)

Definition AppendAudit (tenantID : uuid) (actor action target_type target_id : string)
    (detail : list (string * aval)) (ip result : string) : M db unit :=
  λ d, if has_tenant tenantID d
       then (set_audit_log (audit_log d ++
               [((serial d + 1)%N, mkAuditEntry tenantID actor action target_type target_id detail ip result (pg_now d))])
               (set_serial (serial d + 1) d), Ok tt)
       else (d, Err PgForeignKey).

(** [ListAudit]: newest first, ids below [beforeID] ([0]: no bound). *)
Definition ListAudit (tenantID : uuid) (limit : nat) (beforeID : Z) (d : db) : list (N * AuditEntry) :=
  let beforeID := if bool_decide (beforeID = 0%Z) then (2 ^ 63 - 1)%Z else beforeID in
  take limit (rev (List.filter (λ e, bool_decide (au_tenant e.2 = tenantID) && (Z.of_N e.1 <? beforeID)%Z) (audit_log d))).

(** ** tenants.go *)

Definition CreateTenant (id : uuid) (name : string) : M db uuid :=
  λ d, match tenants d !! id with
       | Some _ => (d, Err PgUnique)
       | None => (set_tenants (<[id := mkTenant name false (pg_now d)]> (tenants d)) d, Ok id)
       end.

Definition RenameTenant (id : uuid) (name : string) : M db unit :=
  oneRow tenants id (λ _, true) (λ t d, set_tenants (<[id := tn_set_name name t]> (tenants d)) d).

Definition SetTenantSuspended (id : uuid) (suspended : bool) : M db unit :=
  transaction (
    _ ← oneRow tenants id (λ _, true)
          (λ t d, set_tenants (<[id := tn_set_suspended suspended t]> (tenants d)) d);
    if suspended
    then modify (λ d, set_sessions (filter (λ kv, se_tenant kv.2 ≠ id) (sessions d)) d)
    else mret tt).

Definition TenantSuspended (id : uuid) : M db bool :=
  λ d, match tenants d !! id with
       | Some t => (d, Ok (tn_suspended t))
       | None => (d, Err ErrNotFound)
       end.

(** ** tokens.go *)

(** The unique index on (tenant, name) of the groups. *)
Definition group_name_taken (tenantID : uuid) (name : string) (except : option uuid) (d : db) : bool :=
  exists_row (λ id g, bool_decide (gr_tenant g = tenantID) && bool_decide (gr_name g = name) &&
                      negb (bool_decide (except = Some id))) (device_groups d).

Definition CreateDeviceGroup (id tenantID : uuid) (name : string) : M db uuid :=
  map_err conflict (λ d,
    if negb (has_tenant tenantID d) then (d, Err PgForeignKey)
    else if bool_decide (is_Some (device_groups d !! id)) || group_name_taken tenantID name None d
    then (d, Err PgUnique)
    else (set_device_groups (<[id := mkDeviceGroup tenantID name]> (device_groups d)) d, Ok id)).

Definition RenameDeviceGroup (tenantID id : uuid) (name : string) : M db unit :=
  map_err conflict (λ d,
    match device_groups d !! id with
    | Some g =>
        if negb (bool_decide (gr_tenant g = tenantID)) then (d, Err ErrNotFound)
        else if group_name_taken tenantID name (Some id) d then (d, Err PgUnique)
        else (set_device_groups (<[id := gr_set_name name g]> (device_groups d)) d, Ok tt)
    | None => (d, Err ErrNotFound)
    end).

(** The rows that go with a group: [ON DELETE CASCADE] of policy assignments,
    controls and ringfence assignments. *)
Definition cascade_group (id : uuid) (d : db) : db :=
  set_policy_assignments (delete id (policy_assignments d))
    (set_device_controls (delete id (device_controls d))
      (set_ringfence_assignments (delete id (ringfence_assignments d)) d)).

Definition ungroup_device (tenantID id : uuid) (v : Device) : Device :=
  if bool_decide (dv_tenant v = tenantID) && bool_decide (dv_group v = Some id)
  then dv_set_group None v else v.
Definition ungroup_token (tenantID id : uuid) (t : InstallToken) : InstallToken :=
  if bool_decide (it_tenant t = tenantID) && bool_decide (it_group t = Some id)
  then it_set_group None t else t.

(** The foreign keys a deleted group must not leave dangling. *)
Definition group_referenced (id : uuid) (d : db) : bool :=
  exists_row (λ _ v, bool_decide (dv_group v = Some id)) (devices d) ||
  exists_row (λ _ t, bool_decide (it_group t = Some id)) (install_tokens d).

Definition DeleteDeviceGroup (tenantID id : uuid) : M db unit :=
  transaction (
    _ ← modify (λ d, set_devices (ungroup_device tenantID id <$> devices d) d);
    _ ← modify (λ d, set_install_tokens (ungroup_token tenantID id <$> install_tokens d) d);
    stmt (λ d,
      match device_groups d !! id with
      | Some g =>
          if negb (bool_decide (gr_tenant g = tenantID)) then (d, Err ErrNotFound)
          else if group_referenced id d then (d, Err PgForeignKey)
          else (cascade_group id (set_device_groups (delete id (device_groups d)) d), Ok tt)
      | None => (d, Err ErrNotFound)
      end)).

Definition CreateInstallToken (id tenantID : uuid) (hash name : string) (group : option uuid)
    (expires_at : option time) (max_uses : option Z) (created_by : option uuid) : M db uuid :=
  λ d,
    if negb (match max_uses with Some m => int4 m | None => true end)
    then (d, Err (EMsg "max_uses does not fit into int4"))
    else if negb (has_tenant tenantID d)
       || match group with Some g => bool_decide (device_groups d !! g = None) | None => false end
       || match created_by with Some a => bool_decide (admins d !! a = None) | None => false end
    then (d, Err PgForeignKey)
    else if bool_decide (is_Some (install_tokens d !! id))
            || exists_row (λ _ t, bool_decide (it_token_hash t = hash)) (install_tokens d)
    then (d, Err PgUnique)
    else (set_install_tokens
            (<[id := mkInstallToken tenantID hash name group expires_at max_uses 0 false created_by (pg_now d)]>
               (install_tokens d)) d, Ok id).

Definition RevokeInstallToken (tenantID id : uuid) : M db unit :=
  oneRow install_tokens id (λ t, bool_decide (it_tenant t = tenantID))
    (λ t d, set_install_tokens (<[id := it_set_revoked true t]> (install_tokens d)) d).

(** ** devices.go *)

Definition OnlineWindow : duration := (90 * Second)%Z.

Record NewDevice := mkNewDevice {
  nd_id : uuid; nd_hostname : string; nd_machine_guid : string; nd_os_build : string;
  nd_cert_serial : string; nd_cert_expires_at : time;
}.

(** [Device.Status]. *)
Definition Status (v : Device) (now : time) : string :=
  if dv_revoked v then "revoked"
  else match dv_last_seen_at v with
       | None => "never_seen"
       | Some seen =>
           if (now - seen <=? OnlineWindow)%Z then "online"
           else if dv_clean_shutdown v then "offline"
           else "unexpected_offline"
       end.

(** The test [EnrollDevice] makes on the token row, after the suspension check. *)
Definition token_rejected (now : time) (t : InstallToken) : bool :=
  it_revoked t
  || match it_expires_at t with Some e => negb (now <? e)%Z | None => false end
  || match it_max_uses t with Some m => (m <=? it_uses t)%Z | None => false end.

Definition EnrollDevice (tokenHash : string) (now : time) (build : uuid → result NewDevice) : M db uuid :=
  transaction (λ d,
    match find_row (λ _ t, bool_decide (it_token_hash t = tokenHash)) (install_tokens d) with
    | None => (d, Err ErrTokenInvalid)
    | Some (tokenID, t) =>
        match tenants d !! it_tenant t with
        | None => (d, Err ErrTokenInvalid)
        | Some tn =>
            if tn_suspended tn || token_rejected now t then (d, Err ErrTokenInvalid)
            else match build (it_tenant t) with
                 | Err e => (d, Err e)
                 | Ok nd =>
                     match devices d !! nd_id nd with
                     | Some _ => (d, Err PgUnique)
                     | None =>
                         let row := mkDevice (it_tenant t) (nd_hostname nd) (nd_machine_guid nd) (it_group t)
                                      (nd_cert_serial nd) (nd_cert_expires_at nd) (nd_os_build nd)
                                      "" [] "" 0 None false false (pg_now d) "" None in
                         let d := set_devices (<[nd_id nd := row]> (devices d)) d in
                         let d := set_install_tokens
                                    (<[tokenID := it_set_uses (it_uses t + 1) t]> (install_tokens d)) d in
                         (d, Ok (it_tenant t))
                     end
                 end
        end
    end).

Definition GetDevice (tenantID id : uuid) : M db Device :=
  λ d, match devices d !! id with
       | Some v => if bool_decide (dv_tenant v = tenantID) then (d, Ok v) else (d, Err ErrNotFound)
       | None => (d, Err ErrNotFound)
       end.

Definition upd_device (tenantID id : uuid) (f : Device → Device) : M db unit :=
  oneRow devices id (λ v, bool_decide (dv_tenant v = tenantID))
    (λ v d, set_devices (<[id := f v]> (devices d)) d).

Definition SetDeviceGroup (tenantID id : uuid) (groupID : option uuid) : M db unit :=
  λ d, let known := match groupID with
                    | None => true
                    | Some g => match device_groups d !! g with
                                | Some gr => bool_decide (gr_tenant gr = tenantID)
                                | None => false
                                end
                    end in
       if known then upd_device tenantID id (dv_set_group groupID) d else (d, Err ErrNotFound).

Definition DeviceAuthState (id : uuid) : M db (uuid * string * bool) :=
  λ d, match devices d !! id with
       | Some v => (d, Ok (dv_tenant v, dv_cert_serial v, dv_revoked v))
       | None => (d, Err ErrNotFound)
       end.

Record Inventory := mkInventory {
  iv_hostname : string; iv_os_build : string; iv_ips : list string; iv_logged_on_user : string;
  iv_agent_version : string; iv_uptime_seconds : Z;
}.

Definition RecordHeartbeat (tenantID id : uuid) (inv : Inventory) (now : time) : M db unit :=
  upd_device tenantID id (λ v,
    dv_set_hostname (iv_hostname inv) (dv_set_os_build (iv_os_build inv) (dv_set_ips (iv_ips inv)
      (dv_set_logged_on_user (iv_logged_on_user inv) (dv_set_agent_version (iv_agent_version inv)
        (dv_set_uptime_seconds (iv_uptime_seconds inv) (dv_set_last_seen_at (Some now)
          (dv_set_clean_shutdown false v)))))))).

Definition MarkCleanShutdown (tenantID id : uuid) : M db unit :=
  upd_device tenantID id (dv_set_clean_shutdown true).
Definition RevokeDevice (tenantID id : uuid) : M db unit :=
  upd_device tenantID id (dv_set_revoked true).
Definition UpdateDeviceCert (tenantID id : uuid) (serial : string) (expiresAt : time) : M db unit :=
  upd_device tenantID id (λ v, dv_set_cert_serial serial (dv_set_cert_expires_at expiresAt v)).
Definition SetDeviceASRAvailable (tenantID id : uuid) (available : bool) : M db unit :=
  upd_device tenantID id (dv_set_asr_available (Some available)).
Definition SetDevicePolicyVersion (tenantID id : uuid) (version : string) : M db unit :=
  upd_device tenantID id (dv_set_policy_version version).

(** ** releases.go *)

Definition PutRelease (tenantID : uuid) (version sha256 signature : string) : M db unit :=
  λ d, if has_tenant tenantID d
       then (set_agent_releases (<[(tenantID, version) := mkRelease sha256 signature (pg_now d)]> (agent_releases d)) d, Ok tt)
       else (d, Err PgForeignKey).

Definition GetRelease (tenantID : uuid) (version : string) : M db Release :=
  λ d, match agent_releases d !! (tenantID, version) with
       | Some r => (d, Ok r)
       | None => (d, Err ErrNotFound)
       end.

(** ** Listings *)

Definition by_created (a b : uuid * Tenant) : bool := (tn_created_at a.2 <=? tn_created_at b.2)%Z.
Definition ListTenantDetails (d : db) : list (uuid * Tenant) := order_by by_created (map_to_list (tenants d)).
Definition ListTenants (d : db) : list uuid := (ListTenantDetails d).*1.
Definition FirstTenant : M db uuid :=
  λ d, match ListTenants d with id :: _ => (d, Ok id) | [] => (d, Err ErrNotFound) end.

Definition ListDeviceGroups (tenantID : uuid) (d : db) : list (uuid * DeviceGroup) :=
  order_by (λ a b, String.leb (gr_name a.2) (gr_name b.2))
    (List.filter (λ kv, bool_decide (gr_tenant kv.2 = tenantID)) (map_to_list (device_groups d))).
Definition ListInstallTokens (tenantID : uuid) (d : db) : list (uuid * InstallToken) :=
  order_by (λ a b, (it_created_at b.2 <=? it_created_at a.2)%Z)
    (List.filter (λ kv, bool_decide (it_tenant kv.2 = tenantID)) (map_to_list (install_tokens d))).
Definition ListDevices (tenantID : uuid) (d : db) : list (uuid * Device) :=
  order_by (λ a b, String.leb (dv_hostname a.2) (dv_hostname b.2))
    (List.filter (λ kv, bool_decide (dv_tenant kv.2 = tenantID)) (map_to_list (devices d))).

Definition ListReleases (tenantID : uuid) (d : db) : list (string * Release) :=
  order_by (λ a b, (rl_uploaded_at b.2 <=? rl_uploaded_at a.2)%Z)
    (omap (λ kv : (uuid * string) * Release, if bool_decide (kv.1.1 = tenantID) then Some (kv.1.2, kv.2) else None)
       (map_to_list (agent_releases d))).
Definition LatestRelease (tenantID : uuid) : M db (string * Release) :=
  λ d, match ListReleases tenantID d with r :: _ => (d, Ok r) | [] => (d, Err ErrNotFound) end.

(** ** Properties *)

#[export] Instance GetDevice_read_only t i : ReadOnly (GetDevice t i).
Proof. intros d. unfold GetDevice. by repeat case_match. Qed.
#[export] Instance GetRelease_read_only t v : ReadOnly (GetRelease t v).
Proof. intros d. unfold GetRelease. by case_match. Qed.

(** The effect of a successful [oneRow] on the devices table. *)
Lemma upd_device_Ok t i f d d' :
  upd_device t i f d = (d', Ok tt) →
  ∃ v, devices d !! i = Some v ∧ dv_tenant v = t ∧ d' = set_devices (<[i := f v]> (devices d)) d.
Proof.
  unfold upd_device, oneRow. destruct (devices d !! i) as [v|]; [|done].
  case_bool_decide; [|done]. intros [= <-]. eauto.
Qed.

(** An enrollment that succeeded. *)
Lemma EnrollDevice_Ok hash now build d d' tenant :
  EnrollDevice hash now build d = (d', Ok tenant) →
  ∃ id t tn nd,
    install_tokens d !! id = Some t ∧ it_token_hash t = hash ∧ it_tenant t = tenant ∧
    tenants d !! tenant = Some tn ∧ tn_suspended tn = false ∧
    it_revoked t = false ∧ (∀ e, it_expires_at t = Some e → (now < e)%Z) ∧
    (∀ m, it_max_uses t = Some m → (it_uses t + 1 <= m)%Z) ∧
    build tenant = Ok nd ∧ devices d !! nd_id nd = None ∧
    (∃ v, devices d' = <[nd_id nd := v]> (devices d) ∧ dv_tenant v = tenant ∧
          dv_group v = it_group t ∧ dv_revoked v = false ∧ dv_cert_serial v = nd_cert_serial nd) ∧
    install_tokens d' = <[id := it_set_uses (it_uses t + 1) t]> (install_tokens d) ∧
    tenants d' = tenants d.
Proof.
  intros H.
  unfold EnrollDevice, transaction in H.
  destruct (find_row _ _) as [[id t]|] eqn:Hf; [|done].
  apply find_row_Some in Hf as [Hid Hh]. bool_cases.
  destruct (tenants d !! it_tenant t) as [tn|] eqn:Htn; [|done].
  destruct (tn_suspended tn || token_rejected now t) eqn:Hrej; [done|].
  destruct (build (it_tenant t)) as [nd|] eqn:Hb; [|done].
  destruct (devices d !! nd_id nd) eqn:Hd; [done|]. simplify_eq.
  unfold token_rejected in Hrej. bool_cases.
  exists id, t, tn, nd. split_and!; try done.
  - intros e' He. rewrite He in *. by bool_cases.
  - intros m Hm. rewrite Hm in *. bool_cases. lia.
  - eexists. split_and!; done.
Qed.

(** Enrollment: the call succeeds only for a token that exists, of a tenant that
    is not suspended, neither revoked, expired nor used up, and with a device that
    can be built under a fresh id; then exactly one device row appears, in the
    token's tenant and group, and the token has one more use, still within
    [max_uses]. A failed enrollment changes nothing, and it fails only because no
    token has that hash, the one found is unusable (both [ErrTokenInvalid]), the
    device could not be built, or its id is taken. *)
Theorem EnrollDevice_spec hash now build d d' r :
  EnrollDevice hash now build d = (d', r) →
  match r with
  | Ok tenant => ∃ id t tn nd,
      install_tokens d !! id = Some t ∧ it_token_hash t = hash ∧ it_tenant t = tenant ∧
      tenants d !! tenant = Some tn ∧ tn_suspended tn = false ∧
      it_revoked t = false ∧ (∀ e, it_expires_at t = Some e → (now < e)%Z) ∧
      (∀ m, it_max_uses t = Some m → (it_uses t + 1 <= m)%Z) ∧
      build tenant = Ok nd ∧ devices d !! nd_id nd = None ∧
      (∃ v, devices d' = <[nd_id nd := v]> (devices d) ∧ dv_tenant v = tenant ∧
            dv_group v = it_group t ∧ dv_revoked v = false ∧ dv_cert_serial v = nd_cert_serial nd) ∧
      install_tokens d' = <[id := it_set_uses (it_uses t + 1) t]> (install_tokens d) ∧
      tenants d' = tenants d
  | Err e => d' = d ∧
      (e = ErrTokenInvalid ∧ (∀ id t, install_tokens d !! id = Some t → it_token_hash t ≠ hash) ∨
       ∃ id t, install_tokens d !! id = Some t ∧ it_token_hash t = hash ∧
         (e = ErrTokenInvalid ∧ (tenants d !! it_tenant t = None ∨ token_rejected now t = true ∨
            ∃ tn, tenants d !! it_tenant t = Some tn ∧ tn_suspended tn = true) ∨
          build (it_tenant t) = Err e ∨
          e = PgUnique ∧ ∃ nd, build (it_tenant t) = Ok nd ∧ is_Some (devices d !! nd_id nd)))
  end.
Proof.
  intros H. destruct r as [tenant|e]; [|split; [exact (transaction_atomic _ _ _ _ H)|]].
  2: { unfold EnrollDevice, transaction in H.
    destruct (find_row _ _) as [[id t]|] eqn:Hf.
    2: { simplify_eq. left. split; [done|]. intros id t Ht.
      rewrite find_row_None in Hf. specialize (Hf id t Ht). by bool_cases. }
    right. apply find_row_Some in Hf as [Hid Hh]. bool_cases. exists id, t.
    split; [done|]. split; [done|].
    destruct (tenants d !! it_tenant t) as [tn|] eqn:Htn; [|naive_solver].
    destruct (tn_suspended tn) eqn:Hs; [naive_solver|]. simpl in H.
    destruct (token_rejected now t) eqn:Hr; [naive_solver|].
    destruct (build (it_tenant t)) as [nd|] eqn:Hb; [|naive_solver].
    destruct (devices d !! nd_id nd) eqn:Hd; naive_solver. }
  by apply EnrollDevice_Ok in H.
Qed.

(** A tenant with a one-use token, for the witnesses. *)
Definition one_token_db : db :=
  set_install_tokens {[5%N := mkInstallToken 1 "h" "lab" None (Some 100%Z) (Some 1%Z) 0 false None 1]}
    (set_tenants {[1%N := mkTenant "acme" false 1]} empty_db).
Definition pc : NewDevice := mkNewDevice 9 "pc" "guid" "os" "serial" 50.

Lemma EnrollDevice_spec_witness :
  ∃ d', EnrollDevice "h" 10 (λ _, Ok pc) one_token_db = (d', Ok 1%N) ∧
        (∃ id t, install_tokens one_token_db !! id = Some t ∧ it_token_hash t = "h") ∧
        (EnrollDevice "h" 10 (λ _, Ok pc) d').2 = Err ErrTokenInvalid.
Proof.
  eexists. split; [reflexivity|]. split; [|vm_compute; reflexivity].
  destruct (EnrollDevice_spec "h" 10 (λ _, Ok pc) one_token_db _ _ eq_refl)
    as (id & t & _ & _ & Hid & Hh & _). exists id, t. exact (conj Hid Hh).
Defined.
