(* ===== verification/World.v ===== *)
(** * The running server

    The state a server process works on: the database, the connection hub, the
    clock and the source of fresh identifiers. Also the vocabulary shared by the
    services: signed commands, notification events, and the interfaces to code
    that is not part of the repository (the text form of UUIDs, the signature
    scheme and the protobuf encoding). *)

From stdpp Require Import gmap strings list.
From S2P Require Import Prelude Db Hub.

(** ** Interfaces to libraries *)

(** [github.com/google/uuid]: [String] and [Parse]. *)
Class UuidText := {
  uuid_string : uuid → string;
  uuid_parse : string → option uuid;
}.
(** Its documented round trip. *)
Class UuidTextOk `{UuidText} : Prop :=
  uuid_parse_string : ∀ u, uuid_parse (uuid_string u) = Some u.

(** [commands.Command] of the protocol ([proto/freelocker/v1]). *)
Inductive CommandType :=
  | UNSPECIFIED | PING | REFRESH_INVENTORY | ROTATE_CERTIFICATE | UNINSTALL | UPDATE_AGENT.
#[export] Instance CommandType_eq_dec : EqDecision CommandType.
Proof. solve_decision. Defined.

Record CommandPB := mkCommandPB {
  pb_id : string; pb_type : CommandType; pb_device_id : string;
  pb_issued_at_unix : Z; pb_expires_at_unix : Z; pb_payload : string;
}.

Record SignedCommand := mkSignedCommand { sc_command : string; sc_signature : string }.

(** Ed25519 and the deterministic protobuf encoding of a command. *)
Class Crypto := {
  ed_public : string → string;              (* public half of a private key *)
  ed_sign : string → string → string;       (* key, message *)
  ed_verify : string → string → string → bool; (* public key, message, signature *)
  marshal : CommandPB → option string;
  unmarshal : string → option CommandPB;
}.
(** What their documentation promises: signatures verify, encodings decode. *)
Class CryptoOk `{Crypto} : Prop := {
  ed_sign_verify : ∀ k m, ed_verify (ed_public k) m (ed_sign k m) = true;
  marshal_unmarshal : ∀ c b, marshal c = Some b → unmarshal b = Some c;
}.

(** SHA-256, in hexadecimal. *)
Class Hasher := sha256_hex : string → string.

(** ** Time *)

(** Seconds from Go's zero time to the Unix epoch. *)
Definition unix_epoch : Z := 62135596800.
(** [time.Unix(s, 0)] and [t.Unix()]. *)
Definition of_unix (s : Z) : time := ((unix_epoch + s) * Second)%Z.
Definition to_unix (t : time) : Z := (t / Second - unix_epoch)%Z.

Lemma to_of_unix s : to_unix (of_unix s) = s.
Proof. unfold to_unix, of_unix. rewrite Z.div_mul by done. lia. Qed.
Lemma of_to_unix t : (of_unix (to_unix t) ≤ t < of_unix (to_unix t) + Second)%Z.
Proof.
  unfold of_unix, to_unix. replace (unix_epoch + (t / Second - unix_epoch))%Z with (t / Second)%Z by lia.
  unfold Second. pose proof (Z.div_mod t 1000000000 ltac:(done)).
  pose proof (Z.mod_pos_bound t 1000000000 ltac:(done)). lia.
Qed.

(** ** The process state *)

Record world := mkWorld {
  w_db : db;
  w_hub : hub SignedCommand;
  w_now : time;      (* the clock, fixed during one call *)
  w_drawn : nat;     (* how many identifiers [uuid.New] has handed out *)
}.

Definition set_db (d : db) (w : world) : world := mkWorld d (w_hub w) (w_now w) (w_drawn w).
Definition set_hub (h : hub SignedCommand) (w : world) : world := mkWorld (w_db w) h (w_now w) (w_drawn w).

(** A store method, run by a service. *)
Definition on_db {A} (m : M db A) : M world A :=
  λ w, let '(d, r) := m (w_db w) in (set_db d w, r).

Lemma set_db_id w : set_db (w_db w) w = w.
Proof. by destruct w. Qed.
(** A query leaves the process as it is. *)
Lemma on_db_query {A} (m : M db A) `{!ReadOnly m} w : on_db m w = (w, (m (w_db w)).2).
Proof.
  unfold on_db. pose proof (read_only (w_db w)) as Hm. destruct (m (w_db w)) as [d r]. simpl in *.
  by rewrite Hm, set_db_id.
Qed.

Definition now : M world time := λ w, (w, Ok (w_now w)).

(** The random source behind [uuid.New]. *)
Class UuidSource := uuid_at : nat → uuid.
Definition uuid_New `{UuidSource} : M world uuid :=
  λ w, (mkWorld (w_db w) (w_hub w) (w_now w) (S (w_drawn w)), Ok (uuid_at (w_drawn w))).

#[export] Instance on_db_read_only {A} (m : M db A) : ReadOnly m → ReadOnly (on_db m).
Proof.
  intros Hm [d h n k]. unfold on_db. simpl. specialize (Hm d).
  destruct (m d) as [d' r]. simpl in *. by subst.
Qed.
#[export] Instance on_db_atomic {A} (m : M db A) : Atomic m → Atomic (on_db m).
Proof.
  intros Hm [d h n k] w' e. unfold on_db. simpl.
  destruct (m d) as [d' [|]] eqn:E; [done|]. intros [= <- <-]. by rewrite (Hm _ _ _ E).
Qed.

(** What a store method does to the tables, seen from the process. *)
Definition dbv {T} (f : db → T) (w : world) : T := f (w_db w).

#[export] Instance on_db_steps {T A} (f : db → T) R (m : M db A) :
  Steps (via f R) m → Steps (via (dbv f) R) (on_db m).
Proof. intros Hm w. unfold on_db. specialize (Hm (w_db w)). by destruct (m (w_db w)). Qed.
(** The same for a relation on whole databases. *)
#[export] Instance on_db_whole {A} R (m : M db A) : Steps R m → Steps (via w_db R) (on_db m).
Proof. intros Hm w. unfold on_db, via. specialize (Hm (w_db w)). by destruct (m (w_db w)). Qed.
#[export] Instance now_steps (R : relation world) `{!PreOrder R} : Steps R now.
Proof. intros w. simpl. reflexivity. Qed.
#[export] Instance uuid_New_steps `{UuidSource} {T} (f : db → T) R `{!PreOrder R} :
  Steps (via (dbv f) R) uuid_New.
Proof. intros w. unfold via, dbv. simpl. reflexivity. Qed.

(** ** Notifications *)

(** [notify.Event]. *)
Record Event := mkEvent {
  ev_kind : string; ev_tenant : uuid; ev_title : string; ev_body : string;
  ev_detail : list (string * jval); ev_at : time;
}.

(** The database with the outbox and the serial counter of another. *)
Definition with_outbox (d d' : db) : db :=
  set_notification_deliveries (notification_deliveries d') (set_serial (serial d') d).

(** [notify.Emitter], what producers depend on: [Emit] cannot fail, it touches nothing
    but the outbox, and it draws ids in order. *)
Class Emitter := Emit : Event → M world unit.
Class EmitterOk `{Emitter} : Prop := {
  Emit_frame : ∀ e w, ∃ d', Emit e w = (set_db (with_outbox (w_db w) d') w, Ok tt);
  Emit_serial : ∀ e w, (serial (w_db w) ≤ serial (w_db (Emit e w).1))%N;
}.

(** [notify.Nop]. *)
Definition Nop : Emitter := λ _, mret tt.
Lemma Nop_ok : @EmitterOk Nop.
Proof. split; intros e w; [|done]. exists (w_db w). destruct w as [[] ? ? ?]. reflexivity. Qed.
