(* ===== verification/Commands.v ===== *)
(** * Signed commands

    Models [internal/server/commands] ([commands.go], [sign.go], [update.go]) and
    [internal/server/store/commands.go]: issuing, signing, delivering, completing
    and expiring the commands the server sends to agents, and the check an agent
    makes before it runs one. *)

From Stdlib Require Import Ascii.
From stdpp Require Import gmap strings list sorting.
From S2P Require Import Prelude Db Hub World StoreCore.

(** ** store/commands.go *)

Definition command_open (c : Command) : bool :=
  bool_decide (cm_state c = "pending") || bool_decide (cm_state c = "sent").

Definition CreateCommand (tenantID id deviceID : uuid) (typ payload : string) (issuedBy : option uuid)
    (issuedAt expiresAt : time) : M db unit :=
  λ d, if bool_decide (is_Some (commands d !! id)) then (d, Err PgUnique)
       else if negb (has_tenant tenantID d) || bool_decide (devices d !! deviceID = None)
               || match issuedBy with Some a => bool_decide (admins d !! a = None) | None => false end
       then (d, Err PgForeignKey)
       else (set_commands (<[id := mkCommand tenantID deviceID typ payload issuedBy issuedAt expiresAt
                                     "pending" "" None]> (commands d)) d, Ok tt).

Definition OpenCommands (tenantID deviceID : uuid) (now : time) (d : db) : list (uuid * Command) :=
  order_by (λ a b, (cm_issued_at a.2 <=? cm_issued_at b.2)%Z)
    (List.filter (λ kc, bool_decide (cm_tenant kc.2 = tenantID) && bool_decide (cm_device kc.2 = deviceID)
                        && command_open kc.2 && (now <? cm_expires_at kc.2)%Z)
       (map_to_list (commands d))).

Definition MarkCommandSent (tenantID id : uuid) : M db unit :=
  oneRow commands id (λ c, bool_decide (cm_tenant c = tenantID) && bool_decide (cm_state c = "pending"))
    (λ c d, set_commands (<[id := cm_set_state "sent" c]> (commands d)) d).

Definition CompleteCommand (tenantID deviceID id : uuid) (success : bool) (result : string) (now : time) : M db unit :=
  let state := if success then "succeeded" else "failed" in
  oneRow commands id
    (λ c, bool_decide (cm_tenant c = tenantID) && bool_decide (cm_device c = deviceID) && command_open c)
    (λ c d, set_commands
      (<[id := cm_set_state state (cm_set_result result (cm_set_completed_at (Some now) c))]> (commands d)) d).

Definition ListDeviceCommands (tenantID deviceID : uuid) (limit : nat) (d : db) : list (uuid * Command) :=
  take limit (order_by (λ a b, (cm_issued_at b.2 <=? cm_issued_at a.2)%Z)
    (List.filter (λ kc, bool_decide (cm_tenant kc.2 = tenantID) && bool_decide (cm_device kc.2 = deviceID))
       (map_to_list (commands d)))).

Definition expire_command (now : time) (c : Command) : Command :=
  if command_open c && (cm_expires_at c <=? now)%Z then cm_set_state "expired" c else c.

Definition ExpireCommands (now : time) : M db nat :=
  λ d, (set_commands (expire_command now <$> commands d) d,
        Ok (count (λ c, command_open c && (cm_expires_at c <=? now)%Z) (rows (commands d)))).

(** ** sign.go *)

Definition clockSkew : duration := (5 * Minute)%Z.

Definition typeNames : list (CommandType * string) :=
  [(PING, "ping"); (REFRESH_INVENTORY, "refresh_inventory"); (ROTATE_CERTIFICATE, "rotate_certificate");
   (UNINSTALL, "uninstall"); (UPDATE_AGENT, "update_agent")].

(** A missing key of a Go map reads as the zero value. *)
Definition TypeName (t : CommandType) : string :=
  default "" (snd <$> List.find (λ p, bool_decide (p.1 = t)) typeNames).
Definition ParseType (name : string) : result CommandType :=
  match List.find (λ p, bool_decide (p.2 = name)) typeNames with
  | Some p => Ok p.1
  | None => Err (EFmt "unknown command type %q" [name])
  end.

Section signing.
Context `{Crypto}.

Definition Sign (key : string) (c : CommandPB) : result SignedCommand :=
  match marshal c with
  | Some b => Ok (mkSignedCommand b (ed_sign key b))
  | None => Err (EMsg "proto: marshal failed")
  end.

Definition Verify (pub : string) (sc : SignedCommand) (deviceID : string) (now : time) : result CommandPB :=
  if negb (ed_verify pub (sc_command sc) (sc_signature sc)) then Err (EMsg "bad command signature")
  else match unmarshal (sc_command sc) with
       | None => Err (EMsg "proto: unmarshal failed")
       | Some c =>
           if negb (bool_decide (pb_device_id c = deviceID)) then Err (EMsg "command addressed to another device")
           else if (of_unix (pb_expires_at_unix c) + clockSkew <? now)%Z then Err (EMsg "command expired")
           else Ok c
       end.
End signing.

(** ** commands.go *)

Definition DefaultTTL : duration := (24 * Hour)%Z.

(** [bootstrap.Keys]: the keys of a tenant, those of its [ca.CA] included. *)
Record Keys := mkKeys {
  CommandKey : string; UpdateKey : string; CA_Cert : string; CA_key : string; uninstallKey : string;
}.

(** [commands.CommandResult] of the protocol. *)
Record CommandResult := mkCommandResult { cr_id : string; cr_success : bool; cr_message : string }.

(** A command as the service holds it in memory: the row's fields, with an empty
    [State] when it was just built. *)
Record PendingCommand := mkPending {
  pc_id : uuid; pc_device : uuid; pc_type : string; pc_payload : string;
  pc_issued_at : time; pc_expires_at : time; pc_state : string;
}.

Section service.
Context `{UuidText, Crypto, UuidSource}.
(** [Service.keys]: the per-tenant provider, or the single configured key set. *)
Variable keys : uuid → result Keys.

Definition to_pb (typ : CommandType) (c : PendingCommand) : CommandPB :=
  mkCommandPB (uuid_string (pc_id c)) typ (uuid_string (pc_device c))
    (to_unix (pc_issued_at c)) (to_unix (pc_expires_at c)) (pc_payload c).

Definition hub_send (id : uuid) (m : SignedCommand) : M world bool :=
  λ w, let '(b, h) := Send id m (w_hub w) in (set_hub h w, Ok b).

(** [deliver] logs every failure and returns nothing. *)
Definition deliver (tenantID : uuid) (c : PendingCommand) : M world unit :=
  match ParseType (pc_type c) with
  | Err _ => mret tt
  | Ok typ =>
      match keys tenantID with
      | Err _ => mret tt
      | Ok k =>
          match Sign (CommandKey k) (to_pb typ c) with
          | Err _ => mret tt
          | Ok sc =>
              sent ← hub_send (pc_device c) sc;
              if sent && (bool_decide (pc_state c = "") || bool_decide (pc_state c = "pending"))
              then _ ← attempt (on_db (MarkCommandSent tenantID (pc_id c))); mret tt
              else mret tt
          end
      end
  end.

Definition Issue (tenantID deviceID : uuid) (typ : CommandType) (payload : string)
    (issuedBy : option uuid) (actor : string) : M world uuid :=
  t ← now;
  id ← uuid_New;
  let c := mkPending id deviceID (TypeName typ) payload t (t + DefaultTTL)%Z "" in
  _ ← on_db (CreateCommand tenantID id deviceID (pc_type c) payload issuedBy t (t + DefaultTTL)%Z);
  _ ← attempt (on_db (AppendAudit tenantID actor "command.issue" "device" (uuid_string deviceID)
        (plain [("command_id", JStr (uuid_string id)); ("type", JStr (pc_type c))]) "" "success"));
  _ ← deliver tenantID c;
  mret id.

Definition of_row (kc : uuid * Command) : PendingCommand :=
  mkPending kc.1 (cm_device kc.2) (cm_type kc.2) (cm_payload kc.2) (cm_issued_at kc.2)
    (cm_expires_at kc.2) (cm_state kc.2).

Definition DeliverPending (tenantID deviceID : uuid) : M world unit :=
  t ← now;
  open ← gets (λ w, OpenCommands tenantID deviceID t (w_db w));
  for_each open (λ kc, deliver tenantID (of_row kc)).

Definition Complete (tenantID deviceID : uuid) (r : CommandResult) : M world unit :=
  match uuid_parse (cr_id r) with
  | None => fail (EMsg "invalid UUID")
  | Some id =>
      t ← now;
      _ ← on_db (CompleteCommand tenantID deviceID id (cr_success r) (cr_message r) t);
      let result := if cr_success r then "success" else "failure" in
      on_db (AppendAudit tenantID ("device:" +:+ uuid_string deviceID) "command.result" "command"
               (uuid_string id) (plain [("message", JStr (cr_message r))]) "" result)
  end.

Definition ExpireStale : M world nat := t ← now; on_db (ExpireCommands t).

(** ** update.go *)

Record UpdatePayload := mkUpdatePayload {
  up_version : string; up_url : string; up_sha256 : string; up_signature : string;
}.

(** [json.Marshal] of the payload. *)
Context (MarshalUpdate : UpdatePayload → string).

Definition IssueUpdate (tenantID deviceID : uuid) (p : UpdatePayload) (actor : string) : M world uuid :=
  Issue tenantID deviceID UPDATE_AGENT (MarshalUpdate p) None actor.
End service.

(** ** The life of a command *)

(** The store operations that touch the commands table. *)
Inductive command_step : db → db → Prop :=
  | step_create t i v typ p by_ ia ea d : command_step d (CreateCommand t i v typ p by_ ia ea d).1
  | step_sent t i d : command_step d (MarkCommandSent t i d).1
  | step_complete t v i ok res now d : command_step d (CompleteCommand t v i ok res now d).1
  | step_expire now d : command_step d (ExpireCommands now d).1.

(** The states a command can move between. *)
Definition command_edge (s s' : string) : Prop :=
  s' = s ∨ s = "pending" ∧ s' = "sent" ∨
  (s = "pending" ∨ s = "sent") ∧ (s' = "succeeded" ∨ s' = "failed" ∨ s' = "expired").

(** [c'] is what [c] may become: its identity is fixed, its state moves along an
    edge, and a closed command does not change at all. *)
Definition command_next (c c' : Command) : Prop :=
  cm_tenant c' = cm_tenant c ∧ cm_device c' = cm_device c ∧ cm_type c' = cm_type c ∧
  cm_payload c' = cm_payload c ∧ cm_issued_at c' = cm_issued_at c ∧ cm_expires_at c' = cm_expires_at c ∧
  command_edge (cm_state c) (cm_state c') ∧ (command_open c = false → c' = c).

Lemma command_next_refl c : command_next c c.
Proof. unfold command_next, command_edge. naive_solver. Qed.
#[export] Hint Resolve command_next_refl : fl.

Lemma command_open_spec c : command_open c = true ↔ cm_state c = "pending" ∨ cm_state c = "sent".
Proof. unfold command_open. rewrite orb_true_iff, !bool_decide_eq_true. done. Qed.

(** An update of one open command along an edge. *)
Lemma command_update_next (d : db) i k c c0 c1 :
  commands d !! i = Some c0 → command_next c0 c1 → commands d !! k = Some c →
  ∃ c', <[i := c1]> (commands d) !! k = Some c' ∧ command_next c c'.
Proof.
  intros Hi Hn Hk. rewrite lookup_insert. case_decide; [|eauto with fl].
  subst. simplify_eq. eauto.
Qed.

Lemma command_step_next d d' k c :
  command_step d d' → commands d !! k = Some c →
  ∃ c', commands d' !! k = Some c' ∧ command_next c c'.
Proof.
  destruct 1 as [t i v typ p by_ ia ea d|t i d|t v i ok res now d|now d]; intros Hk.
  - unfold CreateCommand. case_bool_decide as Hi; [simpl; eauto with fl|].
    destruct (_ || _); [simpl; eauto with fl|]. simpl. rewrite lookup_insert_ne; [eauto with fl|].
    intros ->. destruct Hi. by eexists.
  - unfold MarkCommandSent, oneRow. destruct (commands d !! i) as [c0|] eqn:Hi; [|simpl; eauto with fl].
    destruct (_ && _) eqn:Hg; [|simpl; eauto with fl]. bool_cases. simpl.
    eapply command_update_next; [done | | done]. unfold command_next, command_edge. simpl.
    split_and!; try done; [naive_solver|]. intros Hc. exfalso. unfold command_open in Hc.
    by rewrite H0 in Hc.
  - unfold CompleteCommand, oneRow. destruct (commands d !! i) as [c0|] eqn:Hi; [|simpl; eauto with fl].
    destruct (_ && _) eqn:Hg; [|simpl; eauto with fl]. bool_cases. simpl.
    eapply command_update_next; [done | | done]. unfold command_next, command_edge. simpl.
    split_and!; try done; [|congruence]. apply command_open_spec in H0. destruct ok; naive_solver.
  - simpl. rewrite lookup_fmap, Hk. eexists. split; [done|]. unfold expire_command.
    destruct (_ && _) eqn:Hg; [|auto with fl]. bool_cases. unfold command_next, command_edge. simpl.
    split_and!; try done; [|congruence]. apply command_open_spec in H. naive_solver.
Qed.

(** C38. Commands only move forward: along any sequence of store operations a
    command's device, type, payload and deadline never change, and once it has
    succeeded, failed or expired its row, result included, is never altered
    again. *)
Theorem command_history d d' k c :
  rtc command_step d d' → commands d !! k = Some c →
  ∃ c', commands d' !! k = Some c' ∧ cm_device c' = cm_device c ∧ cm_type c' = cm_type c ∧
        cm_payload c' = cm_payload c ∧ cm_expires_at c' = cm_expires_at c ∧
        (command_open c = false → c' = c).
Proof.
  intros Hs. revert c. induction Hs as [d|d d1 d2 Hd _ IH]; intros c Hk; [naive_solver|].
  destruct (command_step_next _ _ _ _ Hd Hk) as (c1 & Hk1 & Hn).
  destruct (IH c1 Hk1) as (c2 & ? & ? & ? & ? & ? & Hcl).
  unfold command_next in Hn. destruct_and!. exists c2.
  split_and!; try congruence.
  intros Hc. assert (c1 = c) as -> by auto. auto.
Qed.

(** ** Signing and checking *)

Section signed.
Context `{CryptoOk}.

Lemma Verify_signed key c sc dev t :
  Sign key c = Ok sc →
  Verify (ed_public key) sc dev t =
    if negb (bool_decide (pb_device_id c = dev)) then Err (EMsg "command addressed to another device")
    else if (of_unix (pb_expires_at_unix c) + clockSkew <? t)%Z then Err (EMsg "command expired")
    else Ok c.
Proof.
  unfold Sign, Verify. destruct (marshal c) as [b|] eqn:Hm; [|done]. intros [= <-]. simpl.
  by rewrite ed_sign_verify, (marshal_unmarshal _ _ Hm).
Qed.

(** What [Sign] produces, [Verify] answers exactly so under the matching public
    key: the command that was signed, to the addressed device only, and up to the
    five-minute skew after the deadline. *)
Theorem Verify_Sign key c sc dev t :
  Sign key c = Ok sc →
  (∀ c', Verify (ed_public key) sc dev t = Ok c' ↔
     c' = c ∧ pb_device_id c = dev ∧ (t ≤ of_unix (pb_expires_at_unix c) + 5 * Minute)%Z) ∧
  (pb_device_id c ≠ dev →
     Verify (ed_public key) sc dev t = Err (EMsg "command addressed to another device")).
Proof.
  intros Hs. rewrite (Verify_signed _ _ _ dev t Hs). unfold clockSkew.
  case_bool_decide as Hd; simpl; [|naive_solver].
  split; [|done]. intros c'. destruct (_ <? t)%Z eqn:Ht; bool_cases; [|naive_solver lia].
  split; [done | lia].
Qed.

(** A delivered command is accepted by its device at any time up to its expiry,
    although the wire format drops the fraction of a second. *)
Lemma Verify_before_expiry `{UuidText} key typ c sc t :
  Sign key (to_pb typ c) = Ok sc → (t ≤ pc_expires_at c)%Z →
  Verify (ed_public key) sc (uuid_string (pc_device c)) t = Ok (to_pb typ c).
Proof.
  intros Hs Ht. rewrite (Verify_signed _ _ _ _ _ Hs). simpl.
  rewrite bool_decide_eq_true_2 by done. simpl.
  pose proof (of_to_unix (pc_expires_at c)). unfold clockSkew, Minute, Second in *.
  by rewrite (proj2 (Z.ltb_ge _ _)) by lia.
Qed.
End signed.

(** ** Issuing *)

Lemma TypeName_ParseType t : t ≠ UNSPECIFIED → ParseType (TypeName t) = Ok t.
Proof. by destruct t. Qed.

Section issuing.
Context `{UuidText, CryptoOk, UuidSource} (keys : uuid → result Keys).

Lemma CreateCommand_Ok t i v typ p by_ ia ea d d' :
  CreateCommand t i v typ p by_ ia ea d = (d', Ok tt) →
  commands d !! i = None ∧ has_tenant t d = true ∧ is_Some (devices d !! v) ∧
  d' = set_commands (<[i := mkCommand t v typ p by_ ia ea "pending" "" None]> (commands d)) d.
Proof.
  unfold CreateCommand. case_bool_decide as Hi; [done|].
  destruct (_ || _) eqn:Hg; [done|]. intros [= <-]. bool_cases.
  split_and!; try done; [by apply eq_None_not_Some|].
  destruct (devices d !! v) eqn:E; [by eexists|]. done.
Qed.

(** What [deliver] does to a command that is pending in the database. *)
Lemma deliver_spec t c w cm :
  commands (w_db w) !! pc_id c = Some cm → cm_tenant cm = t → cm_state cm = "pending" → pc_state c = "" →
  ∃ w', deliver keys t c w = (w', Ok tt) ∧ w_now w' = w_now w ∧ w_drawn w' = w_drawn w ∧
    (w' = w ∨
     ∃ typ k sc h', ParseType (pc_type c) = Ok typ ∧ keys t = Ok k ∧
       Sign (CommandKey k) (to_pb typ c) = Ok sc ∧ Send (pc_device c) sc (w_hub w) = (true, h') ∧
       w_hub w' = h' ∧
       w_db w' = set_commands (<[pc_id c := cm_set_state "sent" cm]> (commands (w_db w))) (w_db w)).
Proof.
  intros Hc Ht Hs Hp. unfold deliver.
  destruct (ParseType (pc_type c)) as [typ|] eqn:E1; [|eauto 10].
  destruct (keys t) as [k|] eqn:E2; [|eauto 10].
  destruct (Sign _ _) as [sc|] eqn:E3; [|eauto 10].
  unfold hub_send, mbind, M_bind. destruct (Send (pc_device c) sc (w_hub w)) as [[] h'] eqn:E4; simpl.
  - rewrite Hp. simpl. unfold attempt, on_db, MarkCommandSent, oneRow. simpl. rewrite Hc.
    rewrite !bool_decide_eq_true_2 by done. simpl. eexists. split_and!; [done|done|done|].
    right. exists typ, k, sc, h'. done.
  - eexists. split_and!; [done|done|done|]. left.
    assert (h' = w_hub w) as ->.
    { unfold Send in E4. repeat case_match; by simplify_eq. }
    by destruct w.
Qed.

(** Issuing a command: on success a new row addressed to that device exists
    under the returned id, an audit entry is appended, and the row is either still
    pending with nothing queued, or marked sent because the device's stream took a
    signed message that the device will accept, as exactly this command, until it
    expires. *)
Theorem Issue_spec t v typ p by_ actor w w' id :
  typ ≠ UNSPECIFIED →
  Issue keys t v typ p by_ actor w = (w', Ok id) →
  commands (w_db w) !! id = None ∧
  length (audit_log (w_db w')) = S (length (audit_log (w_db w))) ∧
  ∃ c, commands (w_db w') !! id = Some c ∧ cm_tenant c = t ∧ cm_device c = v ∧
    cm_expires_at c = (w_now w + DefaultTTL)%Z ∧
    (cm_state c = "pending" ∧ w_hub w' = w_hub w ∨
     cm_state c = "sent" ∧ ∃ k sc, keys t = Ok k ∧ Send v sc (w_hub w) = (true, w_hub w') ∧
       ∀ s, (s ≤ cm_expires_at c)%Z →
         Verify (ed_public (CommandKey k)) sc (uuid_string v) s =
           Ok (to_pb typ (mkPending id v (TypeName typ) p (w_now w) (w_now w + DefaultTTL)%Z ""))).
Proof.
  intros Htyp. unfold Issue, now, uuid_New, mbind, M_bind, on_db. simpl.
  set (id0 := uuid_at (w_drawn w)). destruct (CreateCommand _ _ _ _ _ _ _ _ _) as [d1 [[]|e]] eqn:Hc; [|done].
  apply CreateCommand_Ok in Hc as (Hnone & Hten & _ & ->). simpl.
  unfold attempt. simpl. unfold AppendAudit.
  change (has_tenant t (set_commands ?x ?y)) with (has_tenant t y). rewrite Hten. simpl.
  set (c := mkPending id0 v (TypeName typ) p (w_now w) (w_now w + DefaultTTL)%Z "").
  match goal with |- context [deliver keys t c ?w1] => set (w1' := w1) end.
  destruct (deliver_spec t c w1' (mkCommand t v (TypeName typ) p by_ (w_now w) (w_now w + DefaultTTL)%Z "pending" "" None))
    as (w2 & -> & _ & _ & Hcase); [simpl; apply lookup_insert_eq | done.. |].
  simpl. intros [= <- <-]. split; [done|].
  destruct Hcase as [-> | (typ' & k & sc & h' & Hpt & Hk & Hsg & Hsend & Hhub & Hdb)].
  - simpl. split; [rewrite length_app; simpl; lia|]. eexists. split; [apply lookup_insert_eq|].
    simpl. split_and!; try done. by left.
  - rewrite Hdb. simpl. split; [rewrite length_app; simpl; lia|].
    eexists. split; [apply lookup_insert_eq|]. simpl. split_and!; try done. right. split; [done|].
    exists k, sc. rewrite Hhub. split_and!; [done|done|].
    simpl in Hpt. rewrite TypeName_ParseType in Hpt by done. injection Hpt as <-.
    intros s Hs. by apply (Verify_before_expiry (CommandKey k) typ c).
Qed.
End issuing.

(** ** What the service leaves alone *)

(** The tables that commands and their audit trail do not touch. *)
Definition off_commands (d : db) :=
  (pg_now d, tenants d, devices d, agent_releases d, agent_rollouts d, agent_rollout_devices d).

#[export] Instance AppendAudit_off_commands t a b c x det ip r :
  Steps (keeps off_commands) (AppendAudit t a b c x det ip r).
Proof. intros d. unfold AppendAudit. by destruct (has_tenant t d). Qed.
#[export] Instance CreateCommand_off_commands t i v typ p by_ ia ea :
  Steps (keeps off_commands) (CreateCommand t i v typ p by_ ia ea).
Proof. intros d. unfold CreateCommand. by repeat case_match. Qed.
#[export] Instance MarkCommandSent_off_commands t i : Steps (keeps off_commands) (MarkCommandSent t i).
Proof. intros d. unfold MarkCommandSent, oneRow. by repeat case_match. Qed.
#[export] Instance hub_send_off_commands i m : Steps (keeps (dbv off_commands)) (hub_send i m).
Proof. intros w. unfold hub_send. by destruct (Send i m (w_hub w)). Qed.

(** The commands table only moves forward. *)
Definition commands_le (C C' : gmap uuid Command) : Prop :=
  ∀ k c, C !! k = Some c → ∃ c', C' !! k = Some c' ∧ command_next c c'.
Lemma command_edge_trans a b c : command_edge a b → command_edge b c → command_edge a c.
Proof.
  unfold command_edge. intros [->|[[-> ->]|[Ha Hb]]]; [done| |].
  - intros [->|[[? ?]|[_ Hc]]]; [auto | done | auto].
  - intros [->|[[-> _]|[Hb' _]]]; [auto| |]; exfalso.
    + by destruct Hb as [|[|]].
    + by destruct Hb as [->|[->| ->]], Hb'.
Qed.
Lemma command_next_trans c1 c2 c3 : command_next c1 c2 → command_next c2 c3 → command_next c1 c3.
Proof.
  unfold command_next. intros Ha Hb. destruct_and!. split_and!; try congruence.
  - eauto using command_edge_trans.
  - intros Hc. assert (c2 = c1) as -> by auto. auto.
Qed.
#[export] Instance commands_le_preorder : PreOrder commands_le.
Proof.
  split; [intros C k c; eauto with fl|].
  intros C1 C2 C3 H12 H23 k c Hk. destruct (H12 k c Hk) as (c2 & Hk2 & ?).
  destruct (H23 k c2 Hk2) as (c3 & ? & ?). eauto using command_next_trans.
Qed.
#[export] Instance CreateCommand_le t i v typ p by_ ia ea :
  Steps (via commands commands_le) (CreateCommand t i v typ p by_ ia ea).
Proof. intros d k c. apply command_step_next. constructor. Qed.
#[export] Instance MarkCommandSent_le t i : Steps (via commands commands_le) (MarkCommandSent t i).
Proof. intros d k c. apply command_step_next. constructor. Qed.
#[export] Instance AppendAudit_le t a b c x det ip r :
  Steps (via commands commands_le) (AppendAudit t a b c x det ip r).
Proof. intros d. unfold AppendAudit, via. destruct (has_tenant t d); simpl; reflexivity. Qed.
#[export] Instance hub_send_le i m : Steps (via (dbv commands) commands_le) (hub_send i m).
Proof. intros w. unfold hub_send, via, dbv. destruct (Send i m (w_hub w)). simpl. reflexivity. Qed.

(** Who is connected. *)
Definition live (w : world) : gmap uuid N := conns (w_hub w).
#[export] Instance on_db_live {A} (m : M db A) : Steps (keeps live) (on_db m).
Proof. intros w. unfold on_db. by destruct (m (w_db w)). Qed.
#[export] Instance uuid_New_live `{UuidSource} : Steps (keeps live) uuid_New.
Proof. done. Qed.
#[export] Instance hub_send_live i m : Steps (keeps live) (hub_send i m).
Proof.
  intros w. unfold hub_send, via, live, Send. repeat case_match; by simplify_eq/=.
Qed.

Section frames.
Context `{UuidText, Crypto, UuidSource} (keys : uuid → result Keys).
#[export] Instance deliver_off_commands t c : Steps (keeps (dbv off_commands)) (deliver keys t c).
Proof. unfold deliver. steps. Qed.
#[export] Instance Issue_off_commands t v typ p by_ actor :
  Steps (keeps (dbv off_commands)) (Issue keys t v typ p by_ actor).
Proof. unfold Issue. steps. Qed.
#[export] Instance deliver_le t c : Steps (via (dbv commands) commands_le) (deliver keys t c).
Proof. unfold deliver. steps. Qed.
#[export] Instance deliver_live t c : Steps (keeps live) (deliver keys t c).
Proof. unfold deliver. steps. Qed.
#[export] Instance Issue_le t v typ p by_ actor :
  Steps (via (dbv commands) commands_le) (Issue keys t v typ p by_ actor).
Proof. unfold Issue. steps. Qed.
#[export] Instance Issue_live t v typ p by_ actor : Steps (keeps live) (Issue keys t v typ p by_ actor).
Proof. unfold Issue. steps. Qed.

(** The row a successful [Issue] leaves. *)
Lemma Issue_row t v typ p by_ actor w w' id :
  Issue keys t v typ p by_ actor w = (w', Ok id) →
  ∃ c, commands (w_db w') !! id = Some c ∧ cm_tenant c = t ∧ cm_device c = v ∧ cm_type c = TypeName typ.
Proof.
  unfold Issue. intros (t0 & w0 & [= <- <-] & (i & w1 & [= <- <-] & Hi)%bind_Ok)%bind_Ok.
  apply bind_Ok in Hi as ([] & w2 & Hc & Hi). unfold on_db in Hc. simpl in Hc.
  destruct (CreateCommand _ _ _ _ _ _ _ _ _) as [d1 r] eqn:Hd; simplify_eq/=.
  apply CreateCommand_Ok in Hd as (_ & _ & _ & ->).
  match type of Hi with ?m ?w1 = _ =>
    assert (Steps (via (dbv commands) commands_le) m) as Hm by steps; specialize (Hm w1) end.
  rewrite Hi in Hm. unfold via, dbv in Hm. simpl in Hm.
  edestruct (Hm (uuid_at (w_drawn w))) as (c' & Hc' & Hn); [apply lookup_insert_eq|].
  assert (id = uuid_at (w_drawn w)) as ->.
  { apply bind_Ok in Hi as (? & ? & _ & (? & ? & _ & [= _ <-])%bind_Ok). done. }
  exists c'. split; [done|]. unfold command_next in Hn. simpl in Hn. by destruct_and!.
Qed.
End frames.

(** ** A concrete setting

    Instances of the library interfaces with which the definitions run: decimal
    text for identifiers, a keyed prefix for signatures, and the binary code of a
    command for its encoding. They satisfy the laws assumed of the libraries. *)
Module Toy.
#[export] Instance toy_source : UuidSource := λ n, N.of_nat (100 + n).

Fixpoint pos_text (p : positive) : string :=
  match p with
  | xH => EmptyString
  | xO p' => String "0"%char (pos_text p')
  | xI p' => String "1"%char (pos_text p')
  end.
Fixpoint text_pos (s : string) : positive :=
  match s with
  | EmptyString => xH
  | String c s' => if Ascii.eqb c "0"%char then xO (text_pos s') else xI (text_pos s')
  end.
Lemma text_pos_text p : text_pos (pos_text p) = p.
Proof. by induction p as [p IH|p IH|]; simpl; rewrite ?IH. Qed.

#[export] Instance toy_uuid : UuidText := {
  uuid_string u := pos_text (N.succ_pos u);
  uuid_parse s := Some (N.pred (Npos (text_pos s)));
}.
#[export] Instance toy_uuid_ok : UuidTextOk.
Proof. intros u. simpl. f_equal. rewrite text_pos_text. lia. Qed.

Definition type_code (t : CommandType) : nat :=
  match t with
  | UNSPECIFIED => 0 | PING => 1 | REFRESH_INVENTORY => 2
  | ROTATE_CERTIFICATE => 3 | UNINSTALL => 4 | UPDATE_AGENT => 5
  end.
Definition code_type (n : nat) : CommandType :=
  match n with
  | 1 => PING | 2 => REFRESH_INVENTORY | 3 => ROTATE_CERTIFICATE
  | 4 => UNINSTALL | 5 => UPDATE_AGENT | _ => UNSPECIFIED
  end.
#[export] Instance CommandPB_eq_dec : EqDecision CommandPB.
Proof. solve_decision. Defined.
#[export] Instance CommandPB_countable : Countable CommandPB.
Proof.
  refine (inj_countable'
    (λ c, (pb_id c, type_code (pb_type c), pb_device_id c, pb_issued_at_unix c, pb_expires_at_unix c, pb_payload c))
    (λ x, let '(i, t, v, ia, ea, p) := x in mkCommandPB i (code_type t) v ia ea p) _).
  by intros [? [] ? ? ? ?].
Defined.

#[export] Instance toy_crypto : Crypto := {
  ed_public k := k;
  ed_sign k m := k +:+ m;
  ed_verify k m s := bool_decide (s = k +:+ m);
  marshal c := Some (pos_text (encode c));
  unmarshal b := decode (text_pos b);
}.
#[export] Instance toy_crypto_ok : CryptoOk.
Proof.
  split.
  - intros k m. simpl. by apply bool_decide_eq_true_2.
  - intros c b [= <-]. simpl. rewrite text_pos_text. apply decode_encode.
Qed.

(** A server with tenant 1 whose device 9 is connected. *)
Definition lab_db : db :=
  set_devices {[9%N := mkDevice 1 "pc" "" None "s" 0 "" "1.0" [] "" 0 None false false 1 "" None]}
    (set_tenants {[1%N := mkTenant "acme" false 1]} empty_db).
Definition lab : world := mkWorld lab_db (Register 9 New).2 5 0.
Definition lab_keys (t : uuid) : result Keys := Ok (mkKeys "ck" "uk" "ca" "cak" "unk").
End Toy.

Section witnesses.
Import Toy.

Lemma command_history_witness :
  ∃ d c, rtc command_step d (MarkCommandSent 1 7 d).1 ∧ commands d !! 7%N = Some c ∧
    command_open c = false ∧ commands (MarkCommandSent 1 7 d).1 !! 7%N = Some c.
Proof.
  set (c := mkCommand 1 9 "ping" "" None 0 10 "failed" "boom" (Some 3%Z)).
  set (d := set_commands {[7%N := c]} lab_db). exists d, c.
  assert (rtc command_step d (MarkCommandSent 1 7 d).1) as Hs by (apply rtc_once; constructor).
  destruct (command_history d _ 7 c Hs eq_refl) as (c' & Hc' & _ & _ & _ & _ & Heq).
  split; [exact Hs|]. split; [reflexivity|]. split; [reflexivity|].
  rewrite Hc'. f_equal. apply Heq. reflexivity.
Defined.

Lemma Verify_Sign_witness :
  let c := mkCommandPB "7" PING "9" 0 100 "" in
  ∃ sc, Sign "ck" c = Ok sc ∧ Verify (ed_public "ck") sc "9" (of_unix 50) = Ok c ∧
        Verify (ed_public "ck") sc "8" (of_unix 50) = Err (EMsg "command addressed to another device").
Proof.
  intros c. destruct (Sign "ck" c) as [sc|e] eqn:Hs; [|discriminate Hs].
  exists sc. split; [reflexivity|]. split.
  - apply (Verify_Sign "ck" c sc "9" (of_unix 50) Hs). vm_compute. intuition discriminate.
  - apply (Verify_Sign "ck" c sc "8" (of_unix 50) Hs). discriminate.
Defined.

Lemma Issue_spec_witness :
  ∃ w' c, Issue lab_keys 1 9 PING "" None "admin:a" lab = (w', Ok 100%N) ∧
    commands (w_db w') !! 100%N = Some c ∧ cm_device c = 9%N.
Proof.
  destruct (Issue lab_keys 1 9 PING "" None "admin:a" lab) as [w' r] eqn:Hi.
  assert (r = Ok 100%N) as ->.
  { change r with (w', r).2. rewrite <- Hi. vm_compute. reflexivity. }
  destruct (Issue_spec lab_keys 1 9 PING "" None "admin:a" lab w' 100 ltac:(discriminate) Hi)
    as (_ & _ & c & Hc & _ & Hv & _).
  exists w', c. split; [reflexivity|]. split; [exact Hc | exact Hv].
Defined.
End witnesses.
