(* ===== verification/Enroll.v ===== *)
(** * Devices join and identify themselves

    Models [internal/server/ca/ca.go] ([SignDevice]), [tokens/tokens.go], the uninstall
    codes of [bootstrap/bootstrap.go], and of [internal/server/agentapi] the
    authentication of device certificates ([auth.go]), enrollment ([enroll.go]) and
    certificate renewal ([agent.go]). *)

From Stdlib Require Import Ascii.
From stdpp Require Import gmap strings list.
From S2P Require Import Prelude GoStr Db Hub World StoreCore Commands.

(** ** Libraries *)

(** A parsed certificate request, as far as the code looks at it. *)
Record Csr := mkCsr { csr_CheckSignature : result unit; csr_is_P256 : bool; csr_PublicKey : string }.
(** The certificate template the CA fills in. *)
Record Template := mkTemplate {
  tp_SerialNumber : N; tp_CommonName : string; tp_NotBefore : time; tp_NotAfter : time; tp_ClientAuth : bool;
}.
(** [crypto/x509] and its random source, and the hashes and text encodings. *)
Class Pki := {
  ParseCertificateRequest : string → result Csr;
  CreateCertificate : Template → string → string → string → result string; (* template, CA, public key, CA key *)
  rand_serial : nat → N;
  sha256 : string → string;
  hmac_sha256 : string → string → string;
  base32 : string → string;
  base64_url : string → string;
  rand_bytes : nat → nat → string;
  uuid_bytes : uuid → string;
}.

(** [big.Int.Text(16)]. *)
Definition hex_digit (n : N) : ascii := ascii_of_N (if (n <? 10)%N then 48 + n else 87 + n).
Fixpoint hex_text_fuel (fuel : nat) (n : N) (acc : string) : string :=
  match fuel with
  | 0 => acc
  | S f =>
      let acc := String (hex_digit (n mod 16)) acc in
      if (n <? 16)%N then acc else hex_text_fuel f (n / 16) acc
  end.
Definition Text16 (n : N) : string := hex_text_fuel (S (N.to_nat (N.log2 n))) n "".

(** ** tokens.go *)
Section tokens.
Context `{Pki}.
Definition Hash (secret : string) : string := sha256 secret.
Definition Generate (n : nat) (caPin : string) : string * string :=
  let secret := base64_url (rand_bytes n 32) in (secret +:+ "." +:+ caPin, Hash secret).
End tokens.

Fixpoint Split (sep : ascii) (s : string) : list string :=
  match s with
  | EmptyString => [EmptyString]
  | String c s' =>
      if Ascii.eqb c sep then EmptyString :: Split sep s'
      else match Split sep s' with part :: rest => String c part :: rest | [] => [String c EmptyString] end
  end.

Definition Parse (full : string) : result (string * string) :=
  match Split "."%char full with
  | [a; b] => if bool_decide (a = "") || bool_decide (b = "") then Err (EMsg "malformed install token") else Ok (a, b)
  | _ => Err (EMsg "malformed install token")
  end.

(** ** ca.go *)
Definition DeviceCertValidity : duration := (90 * 24 * Hour)%Z.
Definition backdate : duration := (5 * Minute)%Z.
(** [time.Time.Truncate(time.Second)]. *)
Definition TruncateSecond (t : time) : time := (t - t mod Second)%Z.

Section agentapi.
Context `{UuidText, UuidSource, Crypto, Pki} (keys : uuid → result Keys).

(** [SignDevice], on the [n]th draw of the random source. *)
Definition SignDevice (n : nat) (k : Keys) (csrDER : string) (deviceID : uuid) (now : time) : result (string * string * time) :=
  match ParseCertificateRequest csrDER with
  | Err e => Err (EWrap "parse CSR" e)
  | Ok req =>
      match csr_CheckSignature req with
      | Err e => Err (EWrap "CSR signature" e)
      | Ok _ =>
          if negb (csr_is_P256 req) then Err (EMsg "CSR key must be ECDSA P-256")
          else
            let serial := rand_serial n in
            let notAfter := TruncateSecond (now + DeviceCertValidity) in
            match CreateCertificate (mkTemplate serial (uuid_string deviceID) (now - backdate) notAfter true)
                    (CA_Cert k) (csr_PublicKey req) (CA_key k) with
            | Err e => Err e
            | Ok der => Ok (der, Text16 serial, notAfter)
            end
      end
  end.

(** ** bootstrap.go *)
Definition UninstallCode (k : Keys) (deviceID : uuid) : string :=
  base32 (String.substring 0 10 (hmac_sha256 (uninstallKey k) (uuid_bytes deviceID))).
Definition UninstallCodeHash (k : Keys) (deviceID : uuid) : string := sha256 (UninstallCode k deviceID).

(** ** auth.go *)

(** gRPC status codes, and an answer that is one of them or a value; [RpcErrOf]
    carries the text of an error. *)
Inductive rpc_code := Unauthenticated | PermissionDenied | InvalidArgument | Internal | Unavailable.
Inductive rpc_error := RpcErr (c : rpc_code) (msg : string) | RpcErrOf (c : rpc_code) (e : err).
Definition refuse {S A} (c : rpc_code) (msg : string) : M S (rpc_error + A) := mret (inl (RpcErr c msg)).

(** What the TLS layer knows of the caller: nothing, no verified client certificate,
    or the verified leaf's common name and serial number. *)
Inductive peer := NoPeer | NoCertificate | Leaf (CommonName : string) (SerialNumber : N).
Record device := mkDeviceRef { dev_ID : uuid; dev_TenantID : uuid }.

Definition authenticate (p : peer) : M db (rpc_error + device) :=
  match p with
  | NoPeer => refuse Unauthenticated "no peer"
  | NoCertificate => refuse Unauthenticated "client certificate required"
  | Leaf cn sn =>
      match uuid_parse cn with
      | None => refuse Unauthenticated "certificate is not a device certificate"
      | Some id =>
          st ← attempt (DeviceAuthState id);
          match st with
          | Err ErrNotFound => refuse Unauthenticated "unknown device"
          | Err _ => refuse Internal "auth lookup failed"
          | Ok (tenantID, serial, revoked) =>
              if (revoked : bool) then refuse Unauthenticated "device revoked"
              else if negb (bool_decide (serial = Text16 sn)) then refuse Unauthenticated "certificate superseded"
              else
                s ← attempt (TenantSuspended tenantID);
                match s with
                | Err _ => refuse Internal "auth lookup failed"
                | Ok true => refuse PermissionDenied "tenant suspended"
                | Ok false => mret (inr (mkDeviceRef id tenantID))
                end
          end
      end
  end.

Definition agentServicePrefix : string := "/freelocker.v1.Agent/".
(** [unaryAuth] and [streamAuth]: the handler of an [Agent] method runs as the device
    the certificate names; one of another service runs without. *)
Definition withAuth {A} (fullMethod : string) (p : peer) (handler : option device → M world (rpc_error + A))
    : M world (rpc_error + A) :=
  if negb (String.prefix agentServicePrefix fullMethod) then handler None
  else
    dev ← on_db (authenticate p);
    match dev with
    | inl e => mret (inl e)
    | inr dev => handler (Some dev)
    end.

(** ** enroll.go *)

Record HardwareInfo := mkHardwareInfo { hw_hostname : string; hw_os_build : string; hw_machine_guid : string }.
Record EnrollRequest := mkEnrollRequest { eq_token_secret : string; eq_csr_der : string; eq_hardware : HardwareInfo }.
Record EnrollResponse := mkEnrollResponse {
  es_device_id : string; es_cert_der : string; es_ca_cert_der : string; es_command_key : string; es_update_key : string;
  es_uninstall : string;
}.

Definition errBadCSR : string := "bad CSR".
Definition is_bad_csr (e : err) : bool := match e with EWrap c _ => bool_decide (c = errBadCSR) | _ => false end.

(** What the callback of [EnrollDevice] computes for a tenant: the new row, and the
    certificate and keys it captures for the response. *)
Definition build_device (n : nat) (req : EnrollRequest) (deviceID : uuid) (now : time) (tid : uuid)
    : result (NewDevice * (string * Keys)) :=
  match keys tid with
  | Err e => Err e
  | Ok k =>
      match SignDevice n k (eq_csr_der req) deviceID now with
      | Err e => Err (EWrap errBadCSR e)
      | Ok (der, serial, notAfter) =>
          let hw := eq_hardware req in
          Ok (mkNewDevice deviceID (hw_hostname hw) (hw_machine_guid hw) (hw_os_build hw) serial notAfter, (der, k))
      end
  end.
Definition new_row (r : result (NewDevice * (string * Keys))) : result NewDevice :=
  match r with Ok (nd, _) => Ok nd | Err e => Err e end.

(** One draw from the random source. *)
Definition draw : M world nat := λ w, (mkWorld (w_db w) (w_hub w) (w_now w) (S (w_drawn w)), Ok (w_drawn w)).

Definition Enroll (req : EnrollRequest) : M world (rpc_error + EnrollResponse) :=
  if bool_decide (eq_token_secret req = "") || bool_decide (eq_csr_der req = "") || bool_decide (hw_hostname (eq_hardware req) = "")
  then refuse InvalidArgument "token_secret, csr_der and hardware.hostname are required"
  else
    t ← now;
    deviceID ← uuid_New;
    n ← draw;
    r ← attempt (on_db (EnrollDevice (Hash (eq_token_secret req)) t (λ tid, new_row (build_device n req deviceID t tid))));
    match r with
    | Err ErrTokenInvalid => refuse PermissionDenied "install token invalid, expired, revoked, or exhausted"
    | Err e => if is_bad_csr e then mret (inl (RpcErrOf InvalidArgument e)) else refuse Internal "enrollment failed"
    | Ok tenantID =>
        _ ← attempt (on_db (AppendAudit tenantID ("device:" +:+ uuid_string deviceID) "device.enroll" "device" (uuid_string deviceID)
                              (plain [("hostname", JStr (hw_hostname (eq_hardware req)))]) "" "success"));
        match build_device n req deviceID t tenantID with
        | Ok (_, (der, k)) =>
            mret (inr (mkEnrollResponse (uuid_string deviceID) der (CA_Cert k) (ed_public (CommandKey k)) (ed_public (UpdateKey k))
                         (UninstallCodeHash k deviceID)))
        | Err e => fail e (* the callback has succeeded *)
        end
    end.

(** ** agent.go, RenewCertificate *)

Definition RenewCertificate (dev : device) (csrDER : string) : M world (rpc_error + string) :=
  t ← now;
  match keys (dev_TenantID dev) with
  | Err _ => refuse Internal "resolve tenant keys"
  | Ok k =>
      n ← draw;
      match SignDevice n k csrDER (dev_ID dev) t with
      | Err e => mret (inl (RpcErrOf InvalidArgument e))
      | Ok (der, serial, notAfter) =>
          r ← attempt (on_db (UpdateDeviceCert (dev_TenantID dev) (dev_ID dev) serial notAfter));
          match r with
          | Err _ => refuse Internal "store certificate"
          | Ok _ =>
              _ ← attempt (on_db (AppendAudit (dev_TenantID dev) ("device:" +:+ uuid_string (dev_ID dev)) "device.cert_renew" "device"
                                    (uuid_string (dev_ID dev)) (plain [("serial", JStr serial)]) "" "success"));
              mret (inr der)
          end
      end
  end.
End agentapi.
