(* ===== verification/EnrollFacts.v ===== *)
(** * Only enrolled devices are served

    Properties of enrollment, of device authentication and of certificate renewal:
    which certificates are accepted, that an enrolled device's is, that a renewed one's
    predecessor is not, and that install tokens parse back. *)

From Stdlib Require Import Ascii.
From stdpp Require Import gmap strings list.
From S2P Require Import Prelude GoStr Db Hub World StoreCore Commands Enroll.

(** ** Serial numbers as text *)

Definition digit_value (c : ascii) : N := let k := N_of_ascii c in if (k <? 58)%N then (k - 48)%N else (k - 87)%N.
Fixpoint hex_value (s : string) (v : N) : N :=
  match s with EmptyString => v | String c s' => hex_value s' (16 * v + digit_value c)%N end.

Lemma digit_value_hex n : (n < 16)%N → digit_value (hex_digit n) = n.
Proof.
  intros Hn. unfold digit_value, hex_digit. rewrite N_ascii_embedding by (destruct (n <? 10)%N eqn:E; lia).
  destruct (N.ltb_spec n 10) as [Hlt|Hge].
  - rewrite (proj2 (N.ltb_lt _ _)) by lia. lia.
  - rewrite (proj2 (N.ltb_ge _ _)) by lia. lia.
Qed.

Lemma hex_value_text fuel n acc :
  (n < 16 ^ N.of_nat fuel)%N → 0 < fuel → hex_value (hex_text_fuel fuel n acc) 0 = hex_value acc n.
Proof.
  revert n acc. induction fuel as [|f IH]; intros n acc Hn Hf; [lia|]. cbn [hex_text_fuel].
  pose proof (N.mod_lt n 16 ltac:(done)) as Hm. pose proof (N.div_mod n 16 ltac:(done)) as Hd.
  destruct (N.ltb_spec n 16) as [Hlt|Hge].
  - cbn [hex_value]. rewrite digit_value_hex by done. f_equal. rewrite N.mod_small by done. lia.
  - rewrite Nat2N.inj_succ, N.pow_succ_r' in Hn. rewrite IH.
    + cbn [hex_value]. rewrite digit_value_hex by done. by rewrite <- Hd.
    + apply N.Div0.div_lt_upper_bound. lia.
    + destruct f; [simpl in Hn; lia | lia].
Qed.

(** The text names the number. *)
Lemma Text16_value n : hex_value (Text16 n) 0 = n.
Proof.
  unfold Text16. rewrite hex_value_text; [done| |lia].
  rewrite Nat2N.inj_succ, N2Nat.id. destruct (decide (n = 0%N)) as [->|Hn]; [done|].
  pose proof (N.log2_spec n ltac:(lia)) as [_ Hl]. eapply N.lt_le_trans; [exact Hl|].
  apply N.pow_le_mono_l. lia.
Qed.
#[export] Instance Text16_inj : Inj (=) (=) Text16.
Proof. intros a b Hab. rewrite <- (Text16_value a), <- (Text16_value b). by rewrite Hab. Qed.

(** ** Who is let in *)

Section authentication.
Context `{UuidText}.

(** What being let in tells of the caller and its row. *)
Lemma authenticate_inv p dev d :
  authenticate p d = (d, Ok (inr dev)) →
  ∃ cn sn v tn, p = Leaf cn sn ∧ uuid_parse cn = Some (dev_ID dev) ∧ devices d !! dev_ID dev = Some v ∧
    dv_tenant v = dev_TenantID dev ∧ dv_revoked v = false ∧ dv_cert_serial v = Text16 sn ∧
    tenants d !! dev_TenantID dev = Some tn ∧ tn_suspended tn = false.
Proof.
  unfold authenticate, refuse, mbind, M_bind, attempt, DeviceAuthState, TenantSuspended.
  destruct p as [| |cn sn]; [done..|]. destruct (uuid_parse cn) as [id|] eqn:Hid; [|done].
  destruct (devices d !! id) as [v|] eqn:Hv; [|done]. destruct (dv_revoked v) eqn:Hr; [done|].
  case_bool_decide as Hs; [|done]. simpl. destruct (tenants d !! dv_tenant v) as [tn|] eqn:Ht; [|done].
  destruct (tn_suspended tn) eqn:Hsu; [done|]. intros [= <-]. simpl. by exists cn, sn, v, tn.
Qed.

(** A call to the agent service is let in, as some device of some tenant, exactly
    when the TLS layer verified a client certificate whose common name is the device's
    id and whose serial number is the one the device's row records now, the device is
    not revoked, and its tenant exists and is not suspended. *)
Theorem authenticate_exactly p dev d :
  authenticate p d = (d, Ok (inr dev)) ↔
  ∃ cn sn v tn, p = Leaf cn sn ∧ uuid_parse cn = Some (dev_ID dev) ∧ devices d !! dev_ID dev = Some v ∧
    dv_tenant v = dev_TenantID dev ∧ dv_revoked v = false ∧ dv_cert_serial v = Text16 sn ∧
    tenants d !! dev_TenantID dev = Some tn ∧ tn_suspended tn = false.
Proof.
  split; [apply authenticate_inv|].
  unfold authenticate, refuse, mbind, M_bind, attempt, DeviceAuthState, TenantSuspended. intros (cn & sn & v & tn & -> & Hid & Hv & Ht & Hr & Hs & Htn & Hsu). rewrite Hid, Hv, Hr, Hs.
  rewrite bool_decide_eq_true_2 by done. simpl. rewrite Ht, Htn, Hsu. by destruct dev; simpl in *; subst.
Qed.

(** The accepted certificate of a device is unique. *)
Lemma authenticate_Leaf cn sn id v d dev :
  uuid_parse cn = Some id → devices d !! id = Some v →
  authenticate (Leaf cn sn) d = (d, Ok (inr dev)) → dv_cert_serial v = Text16 sn ∧ dev = mkDeviceRef id (dv_tenant v).
Proof.
  unfold authenticate, refuse, mbind, M_bind, attempt, DeviceAuthState, TenantSuspended. intros -> ->.
  destruct (dv_revoked v); [done|]. case_bool_decide; [|done]. simpl.
  destruct (tenants d !! dv_tenant v) as [tn|]; [|done]. destruct (tn_suspended tn); [done|]. by intros [= <-].
Qed.

Lemma authenticate_accepts cn sn id v tn d :
  uuid_parse cn = Some id → devices d !! id = Some v → dv_revoked v = false → dv_cert_serial v = Text16 sn →
  tenants d !! dv_tenant v = Some tn → tn_suspended tn = false →
  authenticate (Leaf cn sn) d = (d, Ok (inr (mkDeviceRef id (dv_tenant v)))).
Proof.
  intros Hid Hv Hr Hs Htn Hsu. unfold authenticate, mbind, M_bind, attempt, DeviceAuthState, TenantSuspended.
  rewrite Hid, Hv. simpl. rewrite Hr, Hs, bool_decide_eq_true_2 by done. simpl. by rewrite Htn, Hsu.
Qed.
End authentication.

(** ** Joining and renewing *)

Definition identities (d : db) := (devices d, tenants d).
#[export] Instance AppendAudit_identities t a b c x det ip r : Steps (keeps identities) (AppendAudit t a b c x det ip r).
Proof. intros d. unfold AppendAudit. by case_match. Qed.

Section enrollment.
Context `{UuidTextOk, UuidSource, Crypto, Pki} (keys : uuid → result Keys).

Lemma SignDevice_Ok n k csr id t der serial notAfter :
  SignDevice n k csr id t = Ok (der, serial, notAfter) →
  serial = Text16 (rand_serial n) ∧ notAfter = TruncateSecond (t + DeviceCertValidity) ∧
  ∃ req, ParseCertificateRequest csr = Ok req ∧ csr_is_P256 req = true ∧ csr_CheckSignature req = Ok tt ∧
    CreateCertificate (mkTemplate (rand_serial n) (uuid_string id) (t - backdate) notAfter true) (CA_Cert k) (csr_PublicKey req)
      (CA_key k) = Ok der.
Proof.
  unfold SignDevice. destruct (ParseCertificateRequest csr) as [req|]; [|done].
  destruct (csr_CheckSignature req) as [[]|] eqn:Hs; [|done]. destruct (csr_is_P256 req) eqn:Hp; [|done]. simpl.
  destruct (CreateCertificate _ _ _ _) as [c|] eqn:Hc; [|done]. intros [= <- <- <-]. eauto 10.
Qed.

(** A certificate with this common name, serial number and end. *)
Definition created (der cn : string) (sn : N) (notAfter : time) : Prop :=
  ∃ notBefore ca pub key, CreateCertificate (mkTemplate sn cn notBefore notAfter true) ca pub key = Ok der.

(** What enrolling gives a device: a certificate by its tenant's CA, for the key of
    its own request, whose common name is the id in the response and with which it is
    let in from then on, as a device of the tenant whose token it presented; the id
    was not in use before. *)
Theorem Enroll_lets_in req w w' resp :
  Enroll keys req w = (w', Ok (inr resp)) →
  ∃ id sn tenant token t k csr,
    es_ca_cert_der resp = CA_Cert k ∧ es_command_key resp = ed_public (CommandKey k) ∧ es_update_key resp = ed_public (UpdateKey k) ∧
    es_uninstall resp = UninstallCodeHash k id ∧
    es_device_id resp = uuid_string id ∧ devices (w_db w) !! id = None ∧
    install_tokens (w_db w) !! token = Some t ∧ it_token_hash t = Hash (eq_token_secret req) ∧ it_tenant t = tenant ∧
    keys tenant = Ok k ∧ ParseCertificateRequest (eq_csr_der req) = Ok csr ∧
    CreateCertificate (mkTemplate sn (es_device_id resp) (w_now w - backdate) (TruncateSecond (w_now w + DeviceCertValidity)) true)
      (CA_Cert k) (csr_PublicKey csr) (CA_key k) = Ok (es_cert_der resp) ∧
    authenticate (Leaf (es_device_id resp) sn) (w_db w') = (w_db w', Ok (inr (mkDeviceRef id tenant))).
Proof.
  unfold Enroll. destruct (_ || _); [done|]. intros (t & w1 & [= <- <-] & He)%bind_Ok.
  apply bind_Ok in He as (id & w1 & [= <- <-] & He). apply bind_Ok in He as (n & w2 & [= <- <-] & He).
  apply bind_Ok in He as (r & w3 & Hr & He). unfold attempt, on_db in Hr. simpl in *.
  destruct (EnrollDevice _ _ _ _) as [d1 r'] eqn:Hen. injection Hr as <- ->.
  destruct r as [tenant|e]; [|destruct e; try done; unfold is_bad_csr in He; simpl in He; by repeat case_match].
  apply EnrollDevice_Ok in Hen as (token & tok & tn & nd & Htok & Hh & Htt & Htn & Hsu & _ & _ & _ & Hb & Hfree & (v & Hv & Hvt & _ & Hvr & Hvs) & _ & Hts).
  apply bind_Ok in He as (a & w4 & Ha & He).
  match type of Ha with ?m ?w0 = _ => pose proof (steps_of (R := keeps (dbv identities)) (m := m) w0) as Hk end.
  rewrite Ha in Hk. unfold via, dbv, identities in Hk. simpl in Hk. injection Hk as Hk1 Hk2.
  unfold build_device, new_row in Hb. destruct (build_device _ _ _ _ _ tenant) as [[nd' [der k]]|] eqn:Hbd; [|done].
  injection He as <- <-. unfold build_device in Hbd. destruct (keys tenant) as [k'|] eqn:Hkt; [|done].
  destruct (SignDevice _ _ _ _ _) as [[[der' serial] notAfter]|] eqn:Hsd; [|done]. simplify_eq/=.
  apply SignDevice_Ok in Hsd as (Hser & -> & csr & Hcsr & _ & _ & Hcc).
  exists (uuid_at (w_drawn w)), (rand_serial (S (w_drawn w))), (it_tenant tok), token, tok, k, csr.
  do 12 (split; [done|]). rewrite <- Hvt. apply (authenticate_accepts _ _ _ v tn); try done.
  - rewrite <- Hk1, Hv. apply lookup_insert_eq.
  - by rewrite <- Hk2, Hts, Hvt.
Qed.

(** Renewal replaces the certificate: when it succeeds for a device that may be
    served, exactly the certificate with the new serial number is accepted for it
    afterwards; the one it was made with, like any other, is refused. *)
Theorem RenewCertificate_supersedes dev csr w w' der v tn :
  devices (w_db w) !! dev_ID dev = Some v → dv_revoked v = false →
  tenants (w_db w) !! dev_TenantID dev = Some tn → tn_suspended tn = false →
  RenewCertificate keys dev csr w = (w', Ok (inr der)) →
  ∃ sn, sn = rand_serial (w_drawn w) ∧ created der (uuid_string (dev_ID dev)) sn (TruncateSecond (w_now w + DeviceCertValidity)) ∧
    ∀ sn', authenticate (Leaf (uuid_string (dev_ID dev)) sn') (w_db w') = (w_db w', Ok (inr dev)) ↔ sn' = sn.
Proof.
  intros Hdv Hrev Htn Hsu. unfold RenewCertificate. intros (t & w1 & [= <- <-] & He)%bind_Ok.
  destruct (keys (dev_TenantID dev)) as [k|]; [|done]. apply bind_Ok in He as (n & w2 & [= <- <-] & He).
  destruct (SignDevice _ _ _ _ _) as [[[der' serial] notAfter]|] eqn:Hsd; [|done].
  apply SignDevice_Ok in Hsd as (-> & -> & req & _ & _ & _ & Hcreated). apply bind_Ok in He as (r & w3 & Hr & He).
  unfold attempt, on_db, UpdateDeviceCert, upd_device, oneRow in Hr. simpl in Hr. rewrite Hdv in Hr.
  destruct (bool_decide (dv_tenant v = dev_TenantID dev)) eqn:Ht; [|by injection Hr as <- <-]. bool_cases.
  injection Hr as <- <-. apply bind_Ok in He as (a & w4 & Ha & [= <- <-]).
  match type of Ha with ?m ?w0 = _ => pose proof (steps_of (R := keeps (dbv identities)) (m := m) w0) as Hk end.
  rewrite Ha in Hk. unfold via, dbv, identities in Hk. simpl in Hk. injection Hk as Hk1 Hk2.
  eexists. split; [reflexivity|]. split; [by eexists _, _, _, _|]. intros sn'.
  set (v' := dv_set_cert_serial _ _) in Hk1.
  assert (devices (w_db w4) !! dev_ID dev = Some v') as Hv' by (rewrite <- Hk1; apply lookup_insert_eq).
  split.
  - intros Hau. apply (authenticate_Leaf _ _ (dev_ID dev) v') in Hau as [Hs _]; [|apply uuid_parse_string | done].
    simpl in Hs. by apply Text16_inj in Hs.
  - intros ->. assert (dev = mkDeviceRef (dev_ID dev) (dv_tenant v')) as Hd by (destruct dev; simpl in *; by subst).
    rewrite Hd at 2. apply (authenticate_accepts _ _ _ v' tn); try done.
    simpl. by rewrite <- Hk2, Ht.
Qed.
End enrollment.

(** ** Install tokens *)

Definition dot : ascii := "."%char.
Definition dotless (s : string) : bool := all_bytes (λ c, negb (Ascii.eqb c dot)) s.

Lemma Split_dotless s : dotless s = true → Split dot s = [s].
Proof.
  induction s as [|c s IH]; [done|]. unfold dotless in *. simpl. intros [Hc Hs]%andb_true_iff. apply negb_true_iff in Hc.
  by rewrite Hc, IH.
Qed.
Lemma Split_app s t : dotless s = true → Split dot (s +:+ String dot t) = s :: Split dot t.
Proof.
  induction s as [|c s IH]; [done|]. unfold dotless in *. simpl. intros [Hc Hs]%andb_true_iff. apply negb_true_iff in Hc.
  change (String c s +:+ String dot t) with (String c (s +:+ String dot t)). simpl. by rewrite Hc, IH.
Qed.
Lemma Split_nonempty s : Split dot s ≠ [].
Proof. destruct s as [|c s]; [done|]. simpl. repeat case_match; done. Qed.
(** Joining the parts with the separator gives the string back; no part has it. *)
Lemma Split_parts s p ps :
  Split dot s = p :: ps →
  dotless p = true ∧ match ps with [] => s = p | _ => ∃ t, s = p +:+ String dot t ∧ Split dot t = ps end.
Proof.
  revert p ps. induction s as [|c s IH]; intros p ps; simpl; [by intros [= <- <-]|].
  destruct (Ascii.eqb_spec c dot) as [->|Hc].
  - intros [= <- <-]. split; [done|]. destruct (Split dot s) eqn:E; [by apply Split_nonempty in E|]. eauto.
  - destruct (Split dot s) as [|q qs] eqn:E; [by apply Split_nonempty in E|]. intros [= <- <-]. destruct (IH q qs eq_refl) as [Hq Hs].
    split; [unfold dotless in *; rewrite all_bytes_cons, Hq; by apply Ascii.eqb_neq in Hc as ->|].
    destruct qs; [by subst|]. destruct Hs as (t & -> & Ht). by exists t.
Qed.

(** Install tokens round-trip: [Parse] accepts exactly two non-empty parts without a
    dot joined by one, and returns them. *)
Theorem Parse_exactly full a b :
  Parse full = Ok (a, b) ↔
  full = a +:+ String dot b ∧ a ≠ "" ∧ b ≠ "" ∧ dotless a = true ∧ dotless b = true.
Proof.
  unfold Parse. fold dot. split.
  - destruct (Split dot full) as [|p [|q [|]]] eqn:E; [done..| |done].
    apply Split_parts in E as (Hp & t & -> & Ht). apply Split_parts in Ht as (Hq & ->).
    destruct (_ || _) eqn:He; [done|]. intros [= <- <-]. by bool_cases.
  - intros (-> & Ha & Hb & Hda & Hdb). rewrite Split_app, Split_dotless by done.
    by rewrite !bool_decide_eq_false_2.
Qed.

(** ** A concrete enrollment *)
Module Site.
Import Toy.
#[export] Instance toy_pki : Pki := {
  ParseCertificateRequest s := Ok (mkCsr (Ok tt) true s);
  CreateCertificate t ca pub key := Ok (tp_CommonName t +:+ "/" +:+ Text16 (tp_SerialNumber t) +:+ "/" +:+ ca +:+ "/" +:+ pub);
  rand_serial n := N.of_nat (1000 + n);
  sha256 s := "#" +:+ s;
  hmac_sha256 k s := k +:+ s;
  base32 s := s;
  base64_url s := s;
  rand_bytes _ _ := "";
  uuid_bytes _ := "";
}.
Definition site_db : db :=
  set_install_tokens {[5%N := mkInstallToken 1 "#secret" "lab" None (Some (10 * Hour)%Z) (Some 1%Z) 0 false None 1]}
    (set_tenants {[1%N := mkTenant "acme" false 1]} empty_db).
Definition site : world := mkWorld site_db New Hour 0.
Definition request : EnrollRequest := mkEnrollRequest "secret" "csr" (mkHardwareInfo "pc" "10.0" "guid").
(** The new device has id 100; its certificate has the serial number 1001. *)
Definition joined : world := (Enroll lab_keys request site).1.
Definition dev100 : device := mkDeviceRef 100 1.
End Site.

Section site_witnesses.
Import Toy Site.
Lemma Enroll_lets_in_witness :
  ∃ resp id sn tenant, (Enroll lab_keys request site).2 = Ok (inr resp) ∧ es_device_id resp = uuid_string id ∧
    authenticate (Leaf (es_device_id resp) sn) (w_db joined) = (w_db joined, Ok (inr (mkDeviceRef id tenant))).
Proof.
  unfold joined. destruct (Enroll lab_keys request site) as [w' r] eqn:He.
  destruct r as [[e|resp]|e]; [exfalso|exists resp|exfalso];
    [vm_compute in He; discriminate He | | vm_compute in He; discriminate He].
  destruct (Enroll_lets_in lab_keys request site w' resp He)
    as (id & sn & tenant & token & t & k & csr & _ & _ & _ & _ & Hid & _ & _ & _ & _ & _ & _ & _ & Hau).
  exists id, sn, tenant. split; [reflexivity|]. split; [exact Hid | exact Hau].
Defined.

(** The certificate of the enrollment no longer lets the device in. *)
Lemma RenewCertificate_supersedes_witness :
  let w' := (RenewCertificate lab_keys dev100 "csr2" joined).1 in
  authenticate (Leaf (uuid_string 100) 1001) (w_db joined) = (w_db joined, Ok (inr dev100)) ∧
  authenticate (Leaf (uuid_string 100) 1001) (w_db w') ≠ (w_db w', Ok (inr dev100)).
Proof.
  split; [vm_compute; reflexivity|].
  destruct (RenewCertificate lab_keys dev100 "csr2" joined) as [w' r] eqn:He.
  destruct r as [[e|der]|e]; [vm_compute in He; discriminate He | | vm_compute in He; discriminate He].
  destruct (devices (w_db joined) !! 100%N) as [v|] eqn:Hv; [|vm_compute in Hv; discriminate Hv].
  assert (dv_revoked <$> devices (w_db joined) !! 100%N = Some false) as Hr by (vm_compute; reflexivity).
  rewrite Hv in Hr. injection Hr as Hr.
  destruct (RenewCertificate_supersedes lab_keys dev100 "csr2" joined w' der v (mkTenant "acme" false 1) Hv Hr)
    as (sn & Hsn & _ & Hau); [vm_compute; reflexivity | reflexivity | exact He |].
  intros Hin. apply Hau in Hin. rewrite Hsn in Hin. vm_compute in Hin. discriminate Hin.
Defined.
End site_witnesses.
