(* ===== verification/StoreRollouts.v ===== *)
(** * Rollouts in the store

    Models [internal/server/store/rollouts.go]: the rollout and progress tables
    with their constraints (state checks, one open rollout per tenant), the
    guarded state changes, candidate selection, the resolution of in-flight rows
    and the progress summary. *)

From stdpp Require Import gmap strings list sorting.
From S2P Require Import Prelude Db StoreCore.

Definition rollout_state_ok (s : string) : bool :=
  bool_decide (s = "active") || bool_decide (s = "paused") ||
  bool_decide (s = "completed") || bool_decide (s = "cancelled").
Definition rollout_open (r : Rollout) : bool :=
  bool_decide (ro_state r = "active") || bool_decide (ro_state r = "paused").

(** The partial unique index [agent_rollouts_one_open]: another open rollout of the
    tenant. *)
Definition other_open (tenantID id : uuid) (d : db) : bool :=
  exists_row (λ k r, bool_decide (ro_tenant r = tenantID) && rollout_open r && negb (bool_decide (k = id)))
    (agent_rollouts d).

(** The caller's part of a rollout row. *)
Record NewRollout := mkNewRollout {
  nr_id : uuid; nr_version : string; nr_group_ids : list uuid; nr_batch_size : Z;
  nr_max_failures : Z; nr_state : string; nr_created_by : string;
}.

Definition insertRollout (tenantID : uuid) (r : NewRollout) : M db unit :=
  λ d,
    if negb (int4 (nr_batch_size r) && int4 (nr_max_failures r)) then (d, Err (EMsg "value out of range for int4"))
    else match agent_releases d !! (tenantID, nr_version r) with
    | None => (d, Err ErrNotFound)
    | Some _ =>
        if negb (rollout_state_ok (nr_state r)) then (d, Err (conflict PgCheck))
        else if bool_decide (is_Some (agent_rollouts d !! nr_id r)) then (d, Err (conflict PgUnique))
        else let row := mkRollout tenantID (nr_version r) (nr_group_ids r) (nr_batch_size r)
                          (nr_max_failures r) (nr_state r) (nr_created_by r) (pg_now d) (pg_now d) None in
             if rollout_open row && other_open tenantID (nr_id r) d then (d, Err (conflict PgUnique))
             else if negb (has_tenant tenantID d) then (d, Err (conflict PgForeignKey))
             else (set_agent_rollouts (<[nr_id r := row]> (agent_rollouts d)) d, Ok tt)
    end.

Definition CreateRollout (tenantID : uuid) (r : NewRollout) : M db unit := insertRollout tenantID r.

Definition GetRollout (tenantID id : uuid) : M db Rollout :=
  λ d, match agent_rollouts d !! id with
       | Some r => if bool_decide (ro_tenant r = tenantID) then (d, Ok r) else (d, Err ErrNotFound)
       | None => (d, Err ErrNotFound)
       end.

Definition ReplaceRollout (tenantID oldID : uuid) (next : NewRollout) (now : time) : M db unit :=
  transaction (
    old ← GetRollout tenantID oldID;
    _ ← (if bool_decide (ro_state old = "active") || bool_decide (ro_state old = "paused")
         then modify (λ d, set_agent_rollouts
                (<[oldID := ro_set_state "cancelled" (ro_set_updated_at now (ro_set_finished_at (Some now) old))]>
                   (agent_rollouts d)) d)
         else mret tt);
    insertRollout tenantID next).

Definition ListRollouts (tenantID : uuid) (limit : nat) (d : db) : list (uuid * Rollout) :=
  take limit (order_by (λ a b, (ro_created_at b.2 <=? ro_created_at a.2)%Z)
    (List.filter (λ kr, bool_decide (ro_tenant kr.2 = tenantID)) (map_to_list (agent_rollouts d)))).

Definition SetRolloutState (tenantID id : uuid) (from : list string) (to : string) (now : time) : M db unit :=
  let terminal := bool_decide (to = "completed") || bool_decide (to = "cancelled") in
  λ d,
    match agent_rollouts d !! id with
    | Some r =>
        if bool_decide (ro_tenant r = tenantID) && bool_decide (ro_state r ∈ from) then
          let row := ro_set_state to (ro_set_updated_at now
                       (ro_set_finished_at (if terminal then Some now else ro_finished_at r) r)) in
          if negb (rollout_state_ok to) then (d, Err PgCheck)
          else if rollout_open row && other_open tenantID id d then (d, Err PgUnique)
          else (set_agent_rollouts (<[id := row]> (agent_rollouts d)) d, Ok tt)
        else (_ ← GetRollout tenantID id; fail ErrConflict) d
    | None => (_ ← GetRollout tenantID id; fail ErrConflict) d
    end.

(** Every active rollout of every non-suspended tenant, oldest first. *)
Definition OpenRollouts (d : db) : list (uuid * Rollout) :=
  order_by (λ a b, (ro_created_at a.2 <=? ro_created_at b.2)%Z)
    (List.filter (λ kr, bool_decide (ro_state kr.2 = "active") &&
        match tenants d !! ro_tenant kr.2 with Some t => negb (tn_suspended t) | None => false end)
      (map_to_list (agent_rollouts d))).

(** ** Targets and progress *)

(** A device the rollout aims at: in its tenant, not revoked, in one of its groups
    (an empty list: any). *)
Definition targeted (r : Rollout) (v : Device) : bool :=
  bool_decide (dv_tenant v = ro_tenant r) && negb (dv_revoked v) &&
  (bool_decide (ro_group_ids r = []) ||
   match dv_group v with Some g => bool_decide (g ∈ ro_group_ids r) | None => false end).
Definition current (r : Rollout) (v : Device) : bool := bool_decide (dv_agent_version v = ro_version r).
(** The rollout has not acted on the device. *)
Definition untouched (d : db) (id dev : uuid) : bool :=
  bool_decide (agent_rollout_devices d !! (id, dev) = None).

Definition candidate (d : db) (id : uuid) (r : Rollout) (kv : uuid * Device) : bool :=
  targeted r kv.2 && negb (current r kv.2) && untouched d id kv.1.

(** [ORDER BY hostname, id]. *)
Definition by_hostname (a b : uuid * Device) : bool :=
  if bool_decide (dv_hostname a.2 = dv_hostname b.2) then (a.1 <=? b.1)%N
  else String.leb (dv_hostname a.2) (dv_hostname b.2).

Definition RolloutCandidates (tenantID id : uuid) (d : db) : list uuid :=
  match agent_rollouts d !! id with
  | Some r =>
      if bool_decide (ro_tenant r = tenantID)
      then (order_by by_hostname (List.filter (candidate d id r) (map_to_list (devices d)))).*1
      else []
  | None => []
  end.

Definition AddRolloutDevice (rolloutID deviceID commandID : uuid) (now : time) : M db unit :=
  λ d,
    if bool_decide (is_Some (agent_rollout_devices d !! (rolloutID, deviceID))) then (d, Err (conflict PgUnique))
    else if bool_decide (agent_rollouts d !! rolloutID = None) || bool_decide (devices d !! deviceID = None)
    then (d, Err (conflict PgForeignKey))
    else (set_agent_rollout_devices
            (<[(rolloutID, deviceID) := mkRolloutDevice commandID "issued" "" now None]> (agent_rollout_devices d)) d,
          Ok tt).

(** The progress rows of a rollout, each with its device's hostname. *)
Definition ListRolloutDevices (tenantID id : uuid) (d : db) : list (uuid * string * RolloutDevice) :=
  match agent_rollouts d !! id with
  | Some r =>
      if bool_decide (ro_tenant r = tenantID) then
        order_by (λ a b, if bool_decide (rd_issued_at a.2 = rd_issued_at b.2) then String.leb a.1.2 b.1.2
                         else (rd_issued_at a.2 <=? rd_issued_at b.2)%Z)
          (omap (λ kr, if bool_decide (kr.1.1 = id)
                       then (λ v, (kr.1.2, dv_hostname v, kr.2)) <$> devices d !! kr.1.2
                       else None) (map_to_list (agent_rollout_devices d)))
      else []
  | None => []
  end.

(** The two [CASE]s of [ResolveRolloutDevices]: the new state and detail of an
    issued row, if it is resolved. *)
Definition resolved_state (cutoff : time) (r : Rollout) (v : Device) (c : Command) : option (string * string) :=
  if dv_revoked v then Some ("cancelled", "device revoked")
  else if current r v then Some ("updated", "")
  else if bool_decide (cm_state c = "failed") || bool_decide (cm_state c = "expired")
  then Some ("failed", cm_state c +:+ ": " +:+ cm_result c)
  else if bool_decide (cm_state c = "succeeded") &&
          match cm_completed_at c with Some t => (t <=? cutoff)%Z | None => false end
  then Some ("failed", "agent did not report " +:+ ro_version r +:+ " after the update command succeeded")
  else None.

(** The row of the inner query, joined: what an issued progress row of this rollout
    resolves to, if anything. *)
Definition resolution (d : db) (tenantID id : uuid) (cutoff : time) (key : uuid * uuid) (rd : RolloutDevice)
    : option (string * string) :=
  if bool_decide (key.1 = id) && bool_decide (rd_state rd = "issued") then
    match agent_rollouts d !! id, devices d !! key.2, commands d !! rd_command rd with
    | Some r, Some v, Some c =>
        if bool_decide (ro_tenant r = tenantID) then resolved_state cutoff r v c else None
    | _, _, _ => None
    end
  else None.

Definition resolve_row (d : db) (tenantID id : uuid) (cutoff now : time) (key : uuid * uuid) (rd : RolloutDevice)
    : RolloutDevice :=
  match resolution d tenantID id cutoff key rd with
  | Some (s, detail) => rd_set_state s (rd_set_detail detail (rd_set_resolved_at (Some now) rd))
  | None => rd
  end.

Definition count_resolved (s : string) (d : db) (tenantID id : uuid) (cutoff : time) : nat :=
  count (λ kr, match resolution d tenantID id cutoff kr.1 kr.2 with
               | Some (s', _) => bool_decide (s' = s)
               | None => false
               end) (map_to_list (agent_rollout_devices d)).

Definition ResolveRolloutDevices (tenantID id : uuid) (now : time) (confirmTimeout : duration) : M db (nat * nat) :=
  λ d,
    let cutoff := (now - confirmTimeout)%Z in
    (set_agent_rollout_devices
       (map_imap (λ k rd, Some (resolve_row d tenantID id cutoff now k rd)) (agent_rollout_devices d)) d,
     Ok (count_resolved "updated" d tenantID id cutoff, count_resolved "failed" d tenantID id cutoff)).

Record RolloutSummary := mkRolloutSummary {
  su_targeted : Z; su_already_current : Z; su_issued : Z; su_updated : Z; su_failed : Z; su_remaining : Z;
}.

(** Progress rows in a state, over devices that are not revoked. *)
Definition progress (d : db) (id : uuid) (s : string) : nat :=
  count (λ kr : (uuid * uuid) * RolloutDevice,
          bool_decide (kr.1.1 = id) && bool_decide (rd_state kr.2 = s) &&
          match devices d !! kr.1.2 with Some v => negb (dv_revoked v) | None => false end)
    (map_to_list (agent_rollout_devices d)).

Definition summary_of (d : db) (id : uuid) (r : Rollout) : RolloutSummary :=
  let devs := map_to_list (devices d) in
  mkRolloutSummary
    (Z.of_nat (count (λ kv, targeted r kv.2) devs))
    (Z.of_nat (count (λ kv, targeted r kv.2 && untouched d id kv.1 && current r kv.2) devs))
    (Z.of_nat (progress d id "issued")) (Z.of_nat (progress d id "updated")) (Z.of_nat (progress d id "failed"))
    (Z.of_nat (count (λ kv, targeted r kv.2 && untouched d id kv.1 && negb (current r kv.2)) devs)).

(** Rollouts that are not in the tenant are absent from the map. *)
Definition RolloutSummaries (tenantID : uuid) (ids : list uuid) (d : db) : gmap uuid RolloutSummary :=
  list_to_map (omap (λ id, match agent_rollouts d !! id with
                           | Some r => if bool_decide (ro_tenant r = tenantID) then Some (id, summary_of d id r) else None
                           | None => None
                           end) ids).

Definition GetRolloutSummary (tenantID id : uuid) : M db RolloutSummary :=
  λ d, match RolloutSummaries tenantID [id] d !! id with
       | Some s => (d, Ok s)
       | None => (d, Err ErrNotFound)
       end.
