(* ===== verification/StoreNotify.v ===== *)
(** * Notification channels and the outbox

    Models [internal/server/store/notifications.go]: what a channel definition must
    look like, the channel table, and the delivery outbox with its leased claims. *)

From Stdlib Require Import Ascii.
From stdpp Require Import gmap strings list sorting.
From S2P Require Import Prelude GoStr Utf8 Db StoreCore.

(** ** Channel definitions *)

Definition EventKinds : list string :=
  ["alert.raised"; "alert.resolved"; "approval.new"; "rollout.auto_paused"; "rollout.completed"].

(** [net/url]: the parts of a parsed URL the program looks at (the lower-cased scheme,
    the host and the [format] query parameter), or no URL. *)
Record URL := mkURL { Scheme : string; Host : string; Query_format : string }.
Class UrlParser := url_Parse : string → option URL.

(** [store.NotificationChannel]; its id and times are kept by the table. *)
Record NotificationChannel := mkNotificationChannel {
  nc_kind : string; nc_name : string; nc_events : list string; nc_enabled : bool;
  nc_recipients : list string; nc_url : string; nc_secret : string;
}.

Definition known_event (e : string) : bool := existsb (λ k, bool_decide (k = e)) EventKinds.

Section channels.
Context `{UrlParser}.

Definition validate_webhook (url : string) : result unit :=
  match url_Parse url with
  | Some u =>
      if (bool_decide (Scheme u = "http") || bool_decide (Scheme u = "https")) && negb (bool_decide (Host u = ""))
      then Ok tt else Err (EValidation "webhook url must be http or https" [])
  | None => Err (EValidation "webhook url must be http or https" [])
  end.

Definition syslog_format_ok (f : string) : bool :=
  bool_decide (f = "") || bool_decide (f = "rfc5424") || bool_decide (f = "cef").

Definition validate_syslog (url : string) : result unit :=
  match url_Parse url with
  | Some u =>
      if (bool_decide (Scheme u = "udp") || bool_decide (Scheme u = "tcp")) && negb (bool_decide (Host u = ""))
      then if syslog_format_ok (ToLower (Query_format u)) then Ok tt
           else Err (EValidation "syslog format must be rfc5424 or cef" [])
      else Err (EValidation "syslog url must be udp://host:port or tcp://host:port" [])
  | None => Err (EValidation "syslog url must be udp://host:port or tcp://host:port" [])
  end.

(** The first element a loop rejects. *)
Definition first_bad (ok : string → bool) (msg : string) (l : list string) : result unit :=
  match List.find (λ x, negb (ok x)) l with
  | Some x => Err (EValidation msg [x])
  | None => Ok tt
  end.

Definition ValidateChannel (c : NotificationChannel) : result unit :=
  if bool_decide (TrimSpace (nc_name c) = "") then Err (EValidation "name is required" [])
  else if bool_decide (nc_events c = []) then Err (EValidation "subscribe to at least one event" [])
  else
    _ ← first_bad known_event "unknown event %q" (nc_events c);
    if bool_decide (nc_kind c = "webhook") then validate_webhook (nc_url c)
    else if bool_decide (nc_kind c = "syslog") then validate_syslog (nc_url c)
    else if bool_decide (nc_kind c = "email") then
      if bool_decide (nc_recipients c = []) then Err (EValidation "at least one recipient is required" [])
      else first_bad (λ r, Contains r "@") "invalid recipient %q" (nc_recipients c)
    else Err (EValidation "kind must be email, webhook or syslog" []).
End channels.

(** ** The channel table *)

(** The schema's [CHECK (kind IN ('email', 'webhook'))]. *)
Definition channel_kind_ok (k : string) : bool := bool_decide (k = "email") || bool_decide (k = "webhook").
(** [UNIQUE (tenant_id, name)]. *)
Definition channel_name_taken (tenantID id : uuid) (name : string) (d : db) : bool :=
  exists_row (λ k c, bool_decide (ch_tenant c = tenantID) && bool_decide (ch_name c = name) && negb (bool_decide (k = id)))
    (notification_channels d).

Definition CreateChannel (tenantID id : uuid) (c : NotificationChannel) : M db unit :=
  map_err conflict (stmt (λ d,
    if negb (channel_kind_ok (nc_kind c)) then (d, Err PgCheck)
    else if bool_decide (is_Some (notification_channels d !! id)) || channel_name_taken tenantID id (nc_name c) d
    then (d, Err PgUnique)
    else if negb (has_tenant tenantID d) then (d, Err PgForeignKey)
    else (set_notification_channels
            (<[id := mkChannel tenantID (nc_kind c) (nc_name c) (nc_events c) (nc_enabled c) (nc_recipients c)
                       (nc_url c) (nc_secret c) (pg_now d) (pg_now d)]> (notification_channels d)) d, Ok tt))).

Definition of_channel (c : Channel) : NotificationChannel :=
  mkNotificationChannel (ch_kind c) (ch_name c) (ch_events c) (ch_enabled c) (ch_recipients c) (ch_url c) (ch_secret c).

Definition GetChannel (tenantID id : uuid) : M db NotificationChannel :=
  λ d, match notification_channels d !! id with
       | Some c => if bool_decide (ch_tenant c = tenantID) then (d, Ok (of_channel c)) else (d, Err ErrNotFound)
       | None => (d, Err ErrNotFound)
       end.

Definition by_channel_name (a b : uuid * Channel) : bool := String.leb (ch_name a.2) (ch_name b.2).

Definition ListChannels (tenantID : uuid) (d : db) : list (uuid * Channel) :=
  order_by by_channel_name
    (List.filter (λ kc, bool_decide (ch_tenant kc.2 = tenantID)) (map_to_list (notification_channels d))).

(** The kind is not among the columns it replaces. *)
Definition UpdateChannel (tenantID id : uuid) (c : NotificationChannel) : M db unit :=
  λ d,
    match notification_channels d !! id with
    | Some row =>
        if bool_decide (ch_tenant row = tenantID) then
          if channel_name_taken tenantID id (nc_name c) d then (d, Err (conflict PgUnique))
          else (set_notification_channels
                 (<[id := mkChannel tenantID (ch_kind row) (nc_name c) (nc_events c) (nc_enabled c) (nc_recipients c)
                            (nc_url c) (nc_secret c) (ch_created_at row) (pg_now d)]> (notification_channels d)) d, Ok tt)
        else (d, Err ErrNotFound)
    | None => (d, Err ErrNotFound)
    end.

(** The deliveries of a deleted channel go with it ([ON DELETE CASCADE]). *)
Definition DeleteChannel (tenantID id : uuid) : M db unit :=
  oneRow notification_channels id (λ c, bool_decide (ch_tenant c = tenantID))
    (λ _ d, set_notification_deliveries (filter (λ kv, dl_channel kv.2 ≠ id) (notification_deliveries d))
              (set_notification_channels (delete id (notification_channels d)) d)).

Definition subscribed (tenantID : uuid) (kind : string) (c : Channel) : bool :=
  bool_decide (ch_tenant c = tenantID) && ch_enabled c && bool_decide (kind ∈ ch_events c).

Definition ChannelsForEvent (tenantID : uuid) (kind : string) (d : db) : list (uuid * Channel) :=
  match tenants d !! tenantID with
  | Some t =>
      if tn_suspended t then []
      else order_by by_channel_name
             (List.filter (λ kc, subscribed tenantID kind kc.2) (map_to_list (notification_channels d)))
  | None => []
  end.

(** ** The outbox *)

(** One row per channel, under fresh serial ids. *)
Fixpoint enqueue_rows (tenantID : uuid) (ids : list uuid) (kind payload : string) (now : time) (d : db) : db :=
  match ids with
  | [] => d
  | c :: ids' =>
      let n := (serial d + 1)%N in
      enqueue_rows tenantID ids' kind payload now
        (set_notification_deliveries
           (<[n := mkDelivery tenantID c kind payload "pending" 0 now "" (pg_now d) None]> (notification_deliveries d))
           (set_serial n d))
  end.

Definition EnqueueDeliveries (tenantID : uuid) (ids : list uuid) (kind payload : string) (now : time) : M db unit :=
  λ d,
    if bool_decide (ids = []) then (d, Ok tt)
    else if negb (has_tenant tenantID d) || existsb (λ c, bool_decide (notification_channels d !! c = None)) ids
    then (d, Err PgForeignKey)
    else (enqueue_rows tenantID ids kind payload now d, Ok tt).

Definition due (now : time) (v : Delivery) : bool :=
  bool_decide (dl_state v = "pending") && (dl_next_attempt_at v <=? now)%Z.

Definition by_id {A} (a b : N * A) : bool := (a.1 <=? b.1)%N.

(** The ids the claim takes: the oldest due rows. *)
Definition due_ids (now : time) (limit : nat) (d : db) : list N :=
  (take limit (order_by by_id (List.filter (λ kv, due now kv.2) (map_to_list (notification_deliveries d))))).*1.

Definition lease_row (until : time) (v : Delivery) : Delivery :=
  dl_set_attempts (dl_attempts v + 1) (dl_set_next_attempt_at until v).

(** [ClaimDeliveries]: the claimed rows, as the second query reads them. *)
Definition ClaimDeliveries (now : time) (lease : duration) (limit : nat) : M db (list (N * Delivery)) :=
  λ d,
    let ids := due_ids now limit d in
    let rows := foldr (λ i m, alter (lease_row (now + lease)%Z) i m) (notification_deliveries d) ids in
    (set_notification_deliveries rows d,
     Ok (omap (λ i, (λ v, (i, v)) <$> rows !! i) ids)).

(** Postgres takes only valid UTF-8 without zero bytes as text. *)
Definition pg_text (s : string) : bool :=
  ValidUTF8 s && all_bytes (λ c, negb (Ascii.eqb c "000"%char)) s.

(** The 500-byte limit on [last_error]. *)
Definition truncate_error (s : string) : string :=
  if (500 <? String.length s)%nat then ToValidUTF8 (of_list (take 500 (to_list s))) else s.

Definition delivery_state_ok (s : string) : bool :=
  bool_decide (s = "pending") || bool_decide (s = "sent") || bool_decide (s = "failed").

Definition FinishDelivery (id : N) (state lastError : string) (nextAttempt now : time) : M db unit :=
  let lastError := truncate_error lastError in
  let sentAt := if bool_decide (state = "sent") then Some now else None in
  let nextAttempt := if bool_decide (nextAttempt = 0%Z) then now else nextAttempt in
  λ d,
    if negb (pg_text lastError) then (d, Err (EMsg "invalid byte sequence for encoding UTF8"))
    else if negb (delivery_state_ok state) then (d, Err PgCheck)
    else oneRow notification_deliveries id (λ _, true)
      (λ v d, set_notification_deliveries
        (<[id := dl_set_state state (dl_set_last_error lastError (dl_set_next_attempt_at nextAttempt
                   (dl_set_sent_at sentAt v)))]> (notification_deliveries d)) d) d.

Definition ListDeliveries (tenantID : uuid) (limit : nat) (d : db) : list (N * Delivery) :=
  take limit (rev (order_by by_id
    (List.filter (λ kv, bool_decide (dl_tenant kv.2 = tenantID)) (map_to_list (notification_deliveries d))))).
