(* ===== verification/Syslog.v ===== *)
(** * Syslog and CEF records

    Models the formatters of [internal/server/notify/syslog.go]: the RFC 5424 and CEF
    records an event becomes, and the escaping that keeps an attacker-influenced
    field (a hostname, a file path) from forging records, header columns or keys. *)

From Stdlib Require Import Ascii.
From stdpp Require Import strings list pretty.
From S2P Require Import Prelude GoStr Db Hub World StoreCore Commands.

(** ** Times *)

Definition digit (n : Z) : ascii := ascii_of_nat (48 + Z.to_nat (n mod 10)).
(** [n] in [w] decimal digits. *)
Fixpoint pad (w : nat) (n : Z) : string :=
  match w with 0 => "" | S w' => pad w' (n / 10) +:+ String (digit n) "" end.

Definition leap (y : Z) : bool := (y mod 4 =? 0)%Z && (negb (y mod 100 =? 0)%Z || (y mod 400 =? 0)%Z).

(** Month and day, from the day of the year, walking the months. *)
Fixpoint month_day (lens : list Z) (m d : Z) : Z * Z :=
  match lens with
  | [] => (m, d)
  | l :: ls => if (d <? l)%Z then (m, d + 1)%Z else month_day ls (m + 1) (d - l)
  end.

(** The civil date of a day counted from 1 January of year 1. *)
Definition civil (n : Z) : Z * Z * Z :=
  let c400 := (n / 146097)%Z in let r := (n mod 146097)%Z in
  let c100 := Z.min 3 (r / 36524) in let r := (r - c100 * 36524)%Z in
  let c4 := (r / 1461)%Z in let r := (r mod 1461)%Z in
  let c1 := Z.min 3 (r / 365) in let r := (r - c1 * 365)%Z in
  let y := (400 * c400 + 100 * c100 + 4 * c4 + c1 + 1)%Z in
  let feb := if leap y then 29%Z else 28%Z in
  let '(m, d) := month_day [31; feb; 31; 30; 31; 30; 31; 31; 30; 31; 30; 31]%Z 1 r in
  (y, m, d).

(** [t.UTC().Format(time.RFC3339)], up to the year 9999. *)
Definition RFC3339 (t : time) : string :=
  let s := (t / Second)%Z in
  let '(y, m, d) := civil (s / 86400) in
  let r := (s mod 86400)%Z in
  pad 4 y +:+ "-" +:+ pad 2 m +:+ "-" +:+ pad 2 d +:+ "T" +:+
  pad 2 (r / 3600) +:+ ":" +:+ pad 2 (r / 60 mod 60) +:+ ":" +:+ pad 2 (r mod 60) +:+ "Z".

Example RFC3339_epoch : RFC3339 (of_unix 0) = "1970-01-01T00:00:00Z".
Proof. vm_compute. reflexivity. Qed.
Example RFC3339_leap : RFC3339 (of_unix 1709251199) = "2024-02-29T23:59:59Z".
Proof. vm_compute. reflexivity. Qed.

(** ** The formatters *)

Definition syslogFacility : Z := 13.
Definition syslogAppName : string := "freelocker".

Definition severityFor (kind : string) : Z :=
  if bool_decide (kind = "alert.raised") || bool_decide (kind = "rollout.auto_paused") then 4
  else if bool_decide (kind = "approval.new") then 5
  else 6.

Definition is_cr (c : ascii) : bool := Ascii.eqb c "013"%char.
Definition is_nl (c : ascii) : bool := Ascii.eqb c "010"%char.

Definition scrub (s : string) : string :=
  replacer (λ c, if is_cr c then Some " " else if is_nl c then Some " " else None) s.

Definition cefEscapeHeader (s : string) : string :=
  replacer (λ c, if Ascii.eqb c "\"%char then Some "\\" else if Ascii.eqb c "|"%char then Some "\|" else None) (scrub s).

Definition cefEscapeValue (s : string) : string :=
  replacer (λ c, if Ascii.eqb c "\"%char then Some "\\" else if Ascii.eqb c "="%char then Some "\=" else None) (scrub s).

(** [fmt.Sprint] of a detail value read back from its JSON (integers below 10^21). *)
Definition Sprint (v : jval) : string :=
  match v with
  | JNil => "<nil>"
  | JStr s => s
  | JInt n => pretty n
  | JBool b => if b then "true" else "false"
  | JList l => "[" +:+ Join l " " +:+ "]"
  end.

(** The keys of a map, after [sort.Strings]. *)
Definition sorted_detail (det : list (string * jval)) : list (string * jval) :=
  order_by (λ a b, String.leb a.1 b.1) det.

Section format.
Context `{UuidText}.
(** [json.Marshal] of a detail map, and [os.Getpid]. *)
Context (marshal_detail : list (string * jval) → option string) (pid : N).

Definition priority (e : Event) : Z := (syslogFacility * 8 + severityFor (ev_kind e))%Z.

Definition formatRFC5424 (e : Event) (hostname : string) : string :=
  let ts := RFC3339 (ev_at e) in
  let detail := if bool_decide (ev_detail e = []) then ""
                else match marshal_detail (ev_detail e) with Some b => " " +:+ b | None => "" end in
  let msg := scrub (ev_title e) in
  let msg := if bool_decide (ev_body e = "") then msg else msg +:+ " — " +:+ scrub (ev_body e) in
  let msg := msg +:+ scrub detail in
  let sd := xq "[freelocker@0 tenant='" +:+ uuid_string (ev_tenant e) +:+ xq "' event='" +:+ scrub (ev_kind e) +:+ xq "']" in
  "<" +:+ pretty (priority e) +:+ ">1 " +:+ ts +:+ " " +:+ hostname +:+ " " +:+ syslogAppName +:+ " " +:+
  pretty pid +:+ " " +:+ scrub (ev_kind e) +:+ " " +:+ sd +:+ " " +:+ msg.

Definition cef_severity (kind : string) : Z :=
  if bool_decide (severityFor kind = 4%Z) then 6 else if bool_decide (severityFor kind = 5%Z) then 4 else 3.

Definition cef_header (e : Event) : string :=
  "CEF:0|FreeLocker|FreeLocker|1|" +:+ cefEscapeHeader (ev_kind e) +:+ "|" +:+ cefEscapeHeader (ev_title e) +:+ "|" +:+
  pretty (cef_severity (ev_kind e)) +:+ "|".

Definition cef_extension (e : Event) : list string :=
  ["rt=" +:+ cefEscapeValue (RFC3339 (ev_at e)); "msg=" +:+ cefEscapeValue (ev_body e);
   "cs1Label=tenant"; "cs1=" +:+ cefEscapeValue (uuid_string (ev_tenant e))] ++
  ((λ kv, cefEscapeValue kv.1 +:+ "=" +:+ cefEscapeValue (Sprint kv.2)) <$> sorted_detail (ev_detail e)).

Definition formatCEF (e : Event) (hostname : string) : string :=
  "<" +:+ pretty (priority e) +:+ ">" +:+ RFC3339 (ev_at e) +:+ " " +:+ hostname +:+ " " +:+ syslogAppName +:+ " " +:+
  cef_header e +:+ Join (cef_extension e) " ".
End format.

(** ** One record per event *)

Definition one_line (s : string) : bool := all_bytes (λ c, negb (is_cr c || is_nl c)) s.

Lemma single_line_app s t : one_line (s +:+ t) = one_line s && one_line t.
Proof. apply all_bytes_app. Qed.
Lemma scrub_one_line s : one_line (scrub s) = true.
Proof.
  apply replacer_all_bytes. intros c. by destruct (is_cr c), (is_nl c).
Qed.
Lemma cefEscapeHeader_one_line s : one_line (cefEscapeHeader s) = true.
Proof. apply replacer_keeps, scrub_one_line. intros c r. by repeat case_match; intros [= <-]. Qed.
Lemma cefEscapeValue_one_line s : one_line (cefEscapeValue s) = true.
Proof. apply replacer_keeps, scrub_one_line. intros c r. by repeat case_match; intros [= <-]. Qed.

Lemma num_one_line s : all_bytes is_num s = true → one_line s = true.
Proof. apply all_bytes_impl. by intros [[][][][][][][][]]. Qed.
Lemma digit_num n : is_num (digit n) = true.
Proof.
  unfold digit. pose proof (Z.mod_pos_bound n 10 ltac:(lia)).
  assert (∀ k, k < 10 → is_num (ascii_of_nat (48 + k)) = true) as Hd.
  { intros k Hk. do 10 (destruct k as [|k]; [done|]). lia. }
  apply Hd. lia.
Qed.
Lemma pad_num w n : all_bytes is_num (pad w n) = true.
Proof.
  revert n. induction w as [|w IH]; intros n; [done|]. simpl pad.
  by rewrite all_bytes_app, IH, all_bytes_cons, digit_num.
Qed.

(** What a timestamp is made of. *)
Definition is_stamp (c : ascii) : bool :=
  is_num c || Ascii.eqb c "T"%char || Ascii.eqb c ":"%char || Ascii.eqb c "Z"%char.
Lemma pad_stamp w n : all_bytes is_stamp (pad w n) = true.
Proof. eapply all_bytes_impl, pad_num. intros c Hc. unfold is_stamp. by rewrite Hc. Qed.
Lemma RFC3339_stamp t : all_bytes is_stamp (RFC3339 t) = true.
Proof. unfold RFC3339. destruct (civil _) as [[y m] d]. by rewrite !all_bytes_app, !pad_stamp. Qed.
Lemma RFC3339_one_line t : one_line (RFC3339 t) = true.
Proof. eapply all_bytes_impl, RFC3339_stamp. by intros [[][][][][][][][]]. Qed.
#[export] Hint Rewrite single_line_app scrub_one_line cefEscapeHeader_one_line cefEscapeValue_one_line
  RFC3339_one_line : one_line.

Section one_record.
Context `{UuidText} (marshal_detail : list (string * jval) → option string) (pid : N).
(** A UUID's text is hexadecimal digits and dashes. *)
Hypothesis uuid_one_line : ∀ u, one_line (uuid_string u) = true.

Lemma pretty_one_line_Z (n : Z) : one_line (pretty n) = true.
Proof. apply num_one_line, pretty_Z_num. Qed.
Lemma pretty_one_line_N (n : N) : one_line (pretty n) = true.
Proof. apply num_one_line, pretty_N_num. Qed.

Lemma pair_one_line k v : one_line k = true → one_line (k +:+ cefEscapeValue v) = true.
Proof. intros Hk. by rewrite single_line_app, Hk, cefEscapeValue_one_line. Qed.

(** The log-injection guard: whatever an event carries in its kind, title, body and
    detail, its syslog record is one line, in both wire formats, so a receiver that
    frames on newlines reads exactly one record. *)
Theorem syslog_one_line e hostname :
  one_line (formatRFC5424 marshal_detail pid e (scrub hostname)) = true ∧
  one_line (formatCEF e (scrub hostname)) = true.
Proof.
  split.
  - unfold formatRFC5424. set (msg := (if bool_decide (ev_body e = "") then _ else _)).
    assert (one_line msg = true) as Hmsg.
    { unfold msg. case_bool_decide; by autorewrite with one_line. }
    rewrite !single_line_app, !RFC3339_one_line, !scrub_one_line, Hmsg, uuid_one_line,
      pretty_one_line_Z, pretty_one_line_N. done.
  - assert (one_line (Join (cef_extension e) " ") = true) as Hext.
    { apply Join_all_bytes; [done|]. apply Forall_app. split.
      - rewrite !Forall_cons, Forall_nil. split_and!; try done; by apply pair_one_line.
      - apply Forall_fmap, Forall_true. intros [k v].
        change (one_line (cefEscapeValue k +:+ "=" +:+ cefEscapeValue (Sprint v)) = true).
        by autorewrite with one_line. }
    unfold formatCEF, cef_header.
    by rewrite !single_line_app, !RFC3339_one_line, !scrub_one_line, !cefEscapeHeader_one_line, !pretty_one_line_Z, Hext.
Qed.
End one_record.

(** ** CEF cannot be forged

    The receiver's side: header columns are separated by bars, extension keys are
    followed by an equals sign, and a backslash takes the next byte literally. *)

(** The column at the head of the text, and what follows its bar. *)
Fixpoint cef_column (l : bytes) : option (bytes * bytes) :=
  match l with
  | [] => None
  | c :: l' =>
      if Ascii.eqb c "|"%char then Some ([], l')
      else if Ascii.eqb c "\"%char then
        match l' with
        | [] => None
        | d :: l'' => match cef_column l'' with Some (f, r) => Some (d :: f, r) | None => None end
        end
      else match cef_column l' with Some (f, r) => Some (c :: f, r) | None => None end
  end.
(** The first [n] columns. *)
Fixpoint cef_columns (n : nat) (l : bytes) : option (list string * bytes) :=
  match n with
  | 0 => Some ([], l)
  | S n' =>
      match cef_column l with
      | Some (f, r) => match cef_columns n' r with Some (fs, r') => Some (of_list f :: fs, r') | None => None end
      | None => None
      end
  end.

(** How many keys an extension has: its equals signs outside backslash pairs. *)
Fixpoint cef_keys (l : bytes) : nat :=
  match l with
  | [] => 0
  | c :: l' =>
      if Ascii.eqb c "\"%char then match l' with [] => 0 | _ :: l'' => cef_keys l'' end
      else (if Ascii.eqb c "="%char then 1 else 0) + cef_keys l'
  end.

Lemma cef_column_escaped s r :
  cef_column (to_list (cefEscapeHeader s) ++ "|"%char :: r) = Some (to_list (scrub s), r).
Proof.
  unfold cefEscapeHeader. induction (scrub s) as [|c t IH]; [done|]. rewrite replacer_cons.
  destruct (Ascii.eqb c "\"%char) eqn:E1; [|destruct (Ascii.eqb c "|"%char) eqn:E2].
  - apply Ascii.eqb_eq in E1 as ->. rewrite to_list_app. simpl. by rewrite IH.
  - apply Ascii.eqb_eq in E2 as ->. rewrite to_list_app. simpl. by rewrite IH.
  - simpl. by rewrite E1, E2, IH.
Qed.

(** Text without bars and backslashes is a column as it is. *)
Definition no_bar (s : string) : bool :=
  all_bytes (λ c, negb (Ascii.eqb c "|"%char) && negb (Ascii.eqb c "\"%char)) s.
Lemma cef_column_plain s r :
  no_bar s = true → cef_column (to_list s ++ "|"%char :: r) = Some (to_list s, r).
Proof.
  unfold no_bar. induction s as [|c s IH]; [done|]. rewrite all_bytes_cons, !andb_true_iff, !negb_true_iff.
  intros [[H1 H2] Hs]. simpl. by rewrite H1, H2, (IH Hs).
Qed.

Lemma cef_keys_value s r : cef_keys (to_list (cefEscapeValue s) ++ r) = cef_keys r.
Proof.
  unfold cefEscapeValue. induction (scrub s) as [|c t IH]; [done|]. rewrite replacer_cons.
  destruct (Ascii.eqb c "\"%char) eqn:E1; [|destruct (Ascii.eqb c "="%char) eqn:E2].
  - rewrite to_list_app. simpl. by rewrite IH.
  - rewrite to_list_app. simpl. by rewrite IH.
  - simpl. by rewrite E1, E2, IH.
Qed.

Definition no_eq (s : string) : bool :=
  all_bytes (λ c, negb (Ascii.eqb c "="%char) && negb (Ascii.eqb c "\"%char)) s.
Lemma cef_keys_plain s r : no_eq s = true → cef_keys (to_list s ++ r) = cef_keys r.
Proof.
  unfold no_eq. induction s as [|c s IH]; [done|]. rewrite all_bytes_cons, !andb_true_iff, !negb_true_iff.
  intros [[H1 H2] Hs]. simpl. by rewrite H1, H2, (IH Hs).
Qed.

(** A pair of an extension: one key, whatever its escaped parts are. *)
Definition one_key (s : string) : Prop := ∀ r, cef_keys (to_list s ++ r) = S (cef_keys r).
Lemma one_key_pair k v : no_eq k = true → one_key (k +:+ "=" +:+ cefEscapeValue v).
Proof.
  intros Hk r. rewrite !to_list_app, <- !(assoc_L (++)), cef_keys_plain by done.
  simpl. by rewrite cef_keys_value.
Qed.
Lemma one_key_escaped k v : one_key (cefEscapeValue k +:+ "=" +:+ cefEscapeValue v).
Proof. intros r. rewrite !to_list_app, <- !(assoc_L (++)), cef_keys_value. simpl. by rewrite cef_keys_value. Qed.

Lemma cef_keys_Join l : Forall one_key l → cef_keys (to_list (Join l " ")) = length l.
Proof.
  intros Hall.
  assert (∀ r, cef_keys r = 0 → cef_keys (to_list (Join l " ") ++ r) = length l) as Hr.
  { induction Hall as [|s l Hs Hall IH]; intros r Hr; [done|]. destruct l as [|s' l].
    - simpl. by rewrite Hs, Hr.
    - change (Join (s :: s' :: l) " ") with (s +:+ " " +:+ Join (s' :: l) " ").
      rewrite !to_list_app, <- !(assoc_L (++)), Hs. simpl length. f_equal.
      change (to_list " ") with [" "%char]. simpl. by apply IH. }
  rewrite <- (Hr [] eq_refl). by rewrite app_nil_r.
Qed.

Lemma cef_severity_no_bar e : no_bar (pretty (cef_severity (ev_kind e))) = true.
Proof. eapply all_bytes_impl, pretty_Z_num. by intros [[][][][][][][][]]. Qed.

(** CEF injection: a receiver splits the header into its seven columns, with the
    event's own kind and title in theirs, and finds in the extension exactly the
    keys the sender wrote, whatever bars, backslashes and equals signs the title,
    body and detail contain. *)
Theorem cef_not_forgeable `{UuidText} e rest :
  cef_columns 7 (to_list (cef_header e) ++ rest) =
    Some (["CEF:0"; "FreeLocker"; "FreeLocker"; "1"; scrub (ev_kind e); scrub (ev_title e);
           pretty (cef_severity (ev_kind e))], rest) ∧
  cef_keys (to_list (Join (cef_extension e) " ")) = 4 + length (ev_detail e).
Proof.
  split.
  - unfold cef_header. rewrite !to_list_app, <- !(assoc_L (++)).
    change (to_list "|") with ["|"%char].
    assert (∀ l, cef_columns 7 (to_list "CEF:0|FreeLocker|FreeLocker|1|" ++ l) =
      match cef_columns 3 l with
      | Some (fs, r) => Some ("CEF:0" :: "FreeLocker" :: "FreeLocker" :: "1" :: fs, r)
      | None => None end) as ->.
    { intros l. simpl. repeat case_match; by simplify_eq. }
    cbn [cef_columns app]. rewrite cef_column_escaped. cbn [app]. rewrite cef_column_escaped. cbn [app].
    rewrite cef_column_plain by apply cef_severity_no_bar. by rewrite !of_to_list.
  - assert (length (cef_extension e) = 4 + length (ev_detail e)) as <-.
    { unfold cef_extension. rewrite length_app, length_fmap. unfold sorted_detail.
      by rewrite (Permutation_length (order_by_perm _ _)). }
    apply cef_keys_Join. unfold cef_extension. apply Forall_app. split.
    + rewrite !Forall_cons, Forall_nil. split_and!; [..|done].
      * by apply (one_key_pair "rt").
      * by apply (one_key_pair "msg").
      * intros r. done.
      * by apply (one_key_pair "cs1").
    + apply Forall_fmap, Forall_true. intros [k v]. apply one_key_escaped.
Qed.

Section witnesses.
Import Toy.
Definition forged : Event :=
  mkEvent "alert.raised" 1 ("pc" +:+ nl +:+ "<13>1 forged|9|") ("a=b" +:+ nl +:+ "c") [("host", JStr "x cs1=2")] (of_unix 0).

Lemma syslog_one_line_witness :
  one_line (ev_title forged) = false ∧ one_line (formatCEF forged (scrub "srv")) = true.
Proof.
  split; [vm_compute; reflexivity|].
  apply (syslog_one_line (λ _, None) 7).
  intros u. unfold uuid_string, toy_uuid. induction (N.succ_pos u) as [p IH|p IH|]; [exact IH..|reflexivity].
Defined.
End witnesses.
