(* ===== verification/Notify.v ===== *)
(** * The notification service

    Models [internal/server/notify]: [notify.go] (fan-out of events to the outbox and
    its dispatcher), [webhook.go], the message composition of [email.go] and the
    channel side of [syslog.go]. *)

From Stdlib Require Import Ascii.
From stdpp Require Import gmap strings list pretty.
From S2P Require Import Prelude GoStr Utf8 Db Hub World StoreCore StoreNotify Syslog.

(** ** What the service calls *)

(** [encoding/json] on events, [crypto/hmac] with SHA-256 in hexadecimal, and
    [net/mail.ParseAddress] (the address of a From header). *)
Class Codec := {
  json_event : Event → option string;
  event_of_json : string → option Event;
  json_detail : list (string * jval) → option string;
  hmac_hex : string → string → string;
  mail_address : string → option string;
}.

(** [keys.Sealer]: sealing draws a nonce. *)
Class Sealer := { Seal : nat → string → string; Open : string → option string }.
Class SealerOk `{Sealer} : Prop := {
  Open_Seal : ∀ n s, Open (Seal n s) = Some s;
  Seal_nonempty : ∀ n s, Seal n s ≠ "";
}.

(** [config.SMTP]. *)
Record SMTP := mkSMTP {
  sm_Host : string; sm_Port : Z; sm_Username : string; sm_Password : string; sm_From : string; sm_STARTTLS : bool;
}.
Definition Configured (m : SMTP) : bool := negb (bool_decide (sm_Host m = "")) && negb (bool_decide (sm_From m = "")).

(** One webhook request. *)
Record request := mkRequest { rq_url : string; rq_headers : list (string * string); rq_body : string }.
(** One SMTP session: where to connect, how, and what to transmit. *)
Record smtp_session := mkSmtpSession {
  ss_addr : string * Z; ss_implicit_tls : bool; ss_starttls : bool; ss_auth : option (string * string);
  ss_from : string; ss_to : list string; ss_message : string;
}.

(** The network, at an instant: each attempt answers or fails with a message. A URL
    the HTTP client rejects before sending is the first case of a [post]. *)
Inductive http_result := HttpBadURL (msg : string) | HttpError (msg : string) | HttpStatus (code : Z).
Class Wire := {
  post : time → request → http_result;
  mail_session : time → smtp_session → option string;
  sock_send : time → string → string → string → option string;  (* network, host, bytes *)
  os_Hostname : string;
  os_Getpid : N;
  rfc1123 : time → string;
}.

Definition ClaimLease : duration := (10 * Minute)%Z.
Definition ClaimBatch : nat := 10.
Definition MaxAttempts : Z := 5.
Definition errNoSMTP : string := "smtp is not configured on this server".
Definition testKind : string := "notify.test".

Definition Backoff (attempt : Z) : duration * bool :=
  if (MaxAttempts <=? attempt)%Z then (0%Z, true)
  else if bool_decide (attempt = 1%Z) then (Minute, false)
  else if bool_decide (attempt = 2%Z) then ((5 * Minute)%Z, false)
  else ((30 * Minute)%Z, false).

(** The error of one send: a [permanentError] or any other. *)
Inductive send_err := permanentError (msg : string) | otherError (msg : string).
Definition send_msg (e : send_err) : string := match e with permanentError m | otherError m => m end.

Section notify.
Context `{UuidText, UrlParser, Codec, Sealer, Wire}.

(** ** webhook.go *)

Definition webhook_Sign (secret body : string) : string := "sha256=" +:+ hmac_hex secret body.

Definition postWebhook (t : time) (url secret : string) (e : Event) (deliveryID : string) : option send_err :=
  match json_event e with
  | None => Some (permanentError "marshal: unsupported value")
  | Some body =>
      let headers :=
        [("Content-Type", "application/json"); ("User-Agent", "FreeLocker-Notify/1");
         ("X-FreeLocker-Event", ev_kind e); ("X-FreeLocker-Delivery", deliveryID)] ++
        (if bool_decide (secret = "") then [] else [("X-FreeLocker-Signature", webhook_Sign secret body)]) in
      match post t (mkRequest url headers body) with
      | HttpBadURL m => Some (permanentError ("bad url: " +:+ m))
      | HttpError m => Some (otherError m)
      | HttpStatus code =>
          if (code <? 200)%Z || (300 <=? code)%Z then Some (otherError ("webhook returned " +:+ pretty code)) else None
      end
  end.

(** ** email.go *)

Definition formatEmailBody (e : Event) : string :=
  ev_body e +:+ nl +:+ nl +:+
  foldr (λ kv acc, kv.1 +:+ ": " +:+ Sprint kv.2 +:+ nl +:+ acc) "" (sorted_detail (ev_detail e)) +:+
  nl +:+ "Event: " +:+ ev_kind e +:+ " at " +:+ RFC3339 (ev_at e) +:+ nl.

Definition crlf : string := cr +:+ nl.

Definition mail_message (from : string) (to : list string) (subject date body : string) : string :=
  "From: " +:+ from +:+ crlf +:+ "To: " +:+ Join to ", " +:+ crlf +:+ "Subject: " +:+ subject +:+ crlf +:+
  "Date: " +:+ date +:+ crlf +:+ "MIME-Version: 1.0" +:+ crlf +:+ "Content-Type: text/plain; charset=utf-8" +:+ crlf +:+ crlf +:+
  ReplaceByte body "010"%char crlf.

Definition mailer_Send (cfg : SMTP) (t : time) (to : list string) (subject body : string) : option send_err :=
  let port := if bool_decide (sm_Port cfg = 0%Z) then 587%Z else sm_Port cfg in
  let fromAddr := default (sm_From cfg) (mail_address (sm_From cfg)) in
  let implicit := bool_decide (port = 465%Z) in
  otherError <$> mail_session t
    (mkSmtpSession (sm_Host cfg, port) implicit (negb implicit && sm_STARTTLS cfg)
       (if bool_decide (sm_Username cfg = "") then None else Some (sm_Username cfg, sm_Password cfg))
       fromAddr to (mail_message (sm_From cfg) to subject (rfc1123 t) body)).

(** ** syslog.go: sending *)

Definition sendSyslog (t : time) (rawURL : string) (e : Event) : option send_err :=
  match url_Parse rawURL with
  | None => Some (permanentError "syslog url is not a url")
  | Some u =>
      if negb (bool_decide (Scheme u = "udp")) && negb (bool_decide (Scheme u = "tcp"))
      then Some (permanentError ("syslog url scheme must be udp or tcp, got " +:+ Scheme u))
      else if bool_decide (Host u = "") then Some (permanentError "syslog url has no host")
      else
        let hostname := scrub (if bool_decide (os_Hostname = "") then "-" else os_Hostname) in
        let f := ToLower (Query_format u) in
        let msg :=
          if bool_decide (f = "") || bool_decide (f = "rfc5424") then Some (formatRFC5424 json_detail os_Getpid e hostname)
          else if bool_decide (f = "cef") then Some (formatCEF e hostname)
          else None in
        match msg with
        | None => Some (permanentError ("unknown syslog format " +:+ f))
        | Some m =>
            let m := if bool_decide (Scheme u = "tcp") then m +:+ nl else m in
            otherError <$> sock_send t (Scheme u) (Host u) m
        end
  end.

(** ** notify.go *)

Variable smtp : SMTP.

Definition send (t : time) (ch : NotificationChannel) (e : Event) (deliveryID : string) : option send_err :=
  if bool_decide (nc_kind ch = "webhook") then
    match (if bool_decide (nc_secret ch = "") then Some "" else Open (nc_secret ch)) with
    | None => Some (permanentError "cannot unseal webhook secret")
    | Some secret => postWebhook t (nc_url ch) secret e deliveryID
    end
  else if bool_decide (nc_kind ch = "syslog") then sendSyslog t (nc_url ch) e
  else if bool_decide (nc_kind ch = "email") then
    if negb (Configured smtp) then Some (permanentError errNoSMTP)
    else mailer_Send smtp t (nc_recipients ch) ("[FreeLocker] " +:+ ev_title e) (formatEmailBody e)
  else Some (permanentError ("unknown channel kind " +:+ nc_kind ch)).

(** [deliver]: the outcome of sending one claimed row. *)
Definition deliver (t : time) (id : N) (v : Delivery) (d : db) : option send_err :=
  match (GetChannel (dl_tenant v) (dl_channel v) d).2 with
  | Err ErrNotFound => Some (permanentError "channel was deleted")
  | Err _ => Some (otherError "database error")
  | Ok ch =>
      if negb (nc_enabled ch) then Some (permanentError "channel is disabled")
      else match event_of_json (dl_payload v) with
           | None => Some (permanentError "bad payload: invalid JSON")
           | Some e => send t ch e (pretty id)
           end
  end.

(** The bookkeeping of one outcome: how the row is finished, and the counters. *)
Definition finish (t : time) (id : N) (v : Delivery) (r : option send_err) (sf : nat * nat) : M db (nat * nat) :=
  match r with
  | None => _ ← attempt (FinishDelivery id "sent" "" 0 t); mret (S sf.1, sf.2)
  | Some e =>
      let '(next, giveUp) := Backoff (dl_attempts v) in
      if giveUp || match e with permanentError _ => true | otherError _ => false end
      then _ ← attempt (FinishDelivery id "failed" (send_msg e) 0 t); mret (sf.1, S sf.2)
      else _ ← attempt (FinishDelivery id "pending" (send_msg e) (t + next) t); mret sf
  end.

Fixpoint dispatch_rows (t : time) (rows : list (N * Delivery)) (sf : nat * nat) : M db (nat * nat) :=
  match rows with
  | [] => mret sf
  | (id, v) :: rows' =>
      r ← gets (deliver t id v);
      sf ← finish t id v r sf;
      dispatch_rows t rows' sf
  end.

(** [Dispatch]: how many were sent, and how many became terminally failed. *)
Definition Dispatch_at (t : time) : M db (nat * nat) :=
  rows ← ClaimDeliveries t ClaimLease ClaimBatch;
  dispatch_rows t rows (0, 0).
Definition Dispatch : M world (nat * nat) := t ← now; on_db (Dispatch_at t).

(** The inner loop of [Run], which a wake-up starts: [None] if [fuel] dispatches were
    not enough to drain the outbox. *)
Fixpoint drain (fuel : nat) : M world (option unit) :=
  match fuel with
  | 0 => mret None
  | S fuel' =>
      r ← attempt Dispatch;
      match r with
      | Err _ => mret (Some tt)
      | Ok (sent, failed) => if bool_decide (sent + failed = 0) then mret (Some tt) else drain fuel'
      end
  end.

(** [Emit]: errors are logged only. The wake-up of the dispatcher is not a state of
    the model: [drain] may run at any time. *)
Definition Service_Emit (e : Event) : M world unit :=
  t ← now;
  let e := if bool_decide (ev_at e = 0%Z) then mkEvent (ev_kind e) (ev_tenant e) (ev_title e) (ev_body e) (ev_detail e) t else e in
  chs ← gets (λ w, ChannelsForEvent (ev_tenant e) (ev_kind e) (w_db w));
  if bool_decide (chs = []) then mret tt
  else match json_event e with
       | None => mret tt
       | Some payload =>
           _ ← attempt (on_db (EnqueueDeliveries (ev_tenant e) chs.*1 (ev_kind e) payload t));
           mret tt
       end.

#[export] Instance Service_Emitter : Emitter := Service_Emit.

(** [Test]: a synthetic event, sent now; nothing is recorded. *)
Definition Test (t : time) (ch : NotificationChannel) : option send_err :=
  send t ch (mkEvent testKind 0 "Test notification from FreeLocker"
    (xq "If you can read this, the channel '" +:+ nc_name ch +:+ xq "' works.") [("channel", JStr (nc_name ch))] t) "test".
End notify.
