(* ===== verification/Outbox.v ===== *)
(** * The outbox does what it promises

    Properties of the notification outbox: each event reaches exactly the subscribed
    channels, a leased delivery is not claimed twice, a delivery is attempted a
    bounded number of times and its outcome is final, and the dispatcher's loop
    stops. *)

From Stdlib Require Import Ascii.
From stdpp Require Import gmap strings list pretty sorting.
From S2P Require Import Prelude GoStr Utf8 Db Hub World StoreCore StoreNotify Commands Syslog Notify.

(** ** Claims *)

Lemma foldr_alter_lookup {A} (f : A → A) ids (m : gmap N A) k :
  NoDup ids →
  foldr (λ i m, alter f i m) m ids !! k = (if decide (k ∈ ids) then f <$> m !! k else m !! k).
Proof.
  induction 1 as [|i ids Hi Hnd IH]; simpl; [done|].
  destruct (decide (k = i)) as [->|Hne].
  - rewrite lookup_alter_eq, IH, decide_False, decide_True by set_solver. done.
  - rewrite lookup_alter_ne by done. rewrite IH. repeat case_decide; set_solver.
Qed.

Lemma due_ids_spec t n d :
  NoDup (due_ids t n d) ∧ length (due_ids t n d) ≤ n ∧
  ∀ id, id ∈ due_ids t n d → ∃ v, notification_deliveries d !! id = Some v ∧ due t v = true.
Proof.
  unfold due_ids. set (l := List.filter _ _).
  assert (NoDup (order_by by_id l).*1) as Hnd.
  { rewrite (fmap_Permutation fst _ _ (order_by_perm by_id l)). apply NoDup_fmap_fst.
    - intros k a b Ha Hb. apply list_elem_of_In, filter_In in Ha as [Ha _], Hb as [Hb _].
      apply list_elem_of_In, elem_of_map_to_list in Ha, Hb. congruence.
    - apply NoDup_ListNoDup, List.NoDup_filter, NoDup_ListNoDup, NoDup_map_to_list. }
  split_and!.
  - rewrite fmap_take. eapply sublist_NoDup; [done | apply sublist_take].
  - rewrite length_fmap, length_take. lia.
  - intros id ([id' v] & -> & Hin)%list_elem_of_fmap.
    apply elem_of_take in Hin as (i & Hi & _). apply list_elem_of_lookup_2 in Hi.
    rewrite (order_by_perm by_id l) in Hi. apply list_elem_of_In, filter_In in Hi as [Hi Hd].
    apply list_elem_of_In, elem_of_map_to_list in Hi. eauto.
Qed.

(** The due rows the claim misses: only when the limit is reached. *)
Lemma due_ids_all t n d id v :
  notification_deliveries d !! id = Some v → due t v = true → id ∉ due_ids t n d → length (due_ids t n d) = n.
Proof.
  intros Hv Hd Hn. unfold due_ids in *. set (l := List.filter _ _) in *. rewrite length_fmap, length_take.
  destruct (decide (length (order_by by_id l) ≤ n)) as [Hle|]; [|lia].
  destruct Hn. rewrite take_ge by done. apply list_elem_of_fmap. exists (id, v). split; [done|].
  rewrite (order_by_perm by_id l). apply list_elem_of_In, filter_In. split; [|done].
  by apply list_elem_of_In, elem_of_map_to_list.
Qed.

(** What a claim returns and leaves. *)
Lemma ClaimDeliveries_spec t lease n d :
  ∃ d1 rows, ClaimDeliveries t lease n d = (d1, Ok rows) ∧ rows.*1 = due_ids t n d ∧
    (∀ id v, (id, v) ∈ rows → ∃ v0, notification_deliveries d !! id = Some v0 ∧ due t v0 = true ∧
       v = lease_row (t + lease) v0 ∧ notification_deliveries d1 !! id = Some v) ∧
    (∀ id, id ∉ due_ids t n d → notification_deliveries d1 !! id = notification_deliveries d !! id) ∧
    d1 = set_notification_deliveries (notification_deliveries d1) d.
Proof.
  destruct (due_ids_spec t n d) as (Hnd & _ & Hdue).
  set (m := foldr (λ i m, alter (lease_row (t + lease)%Z) i m) (notification_deliveries d) (due_ids t n d)).
  assert (∀ id, m !! id = if decide (id ∈ due_ids t n d) then lease_row (t + lease) <$> notification_deliveries d !! id
                          else notification_deliveries d !! id) as Hm
    by (intros id; by apply foldr_alter_lookup).
  eexists _, _. split; [reflexivity|]. fold m. split_and!.
  - assert (∀ ids, (∀ id, id ∈ ids → is_Some (m !! id)) → (omap (λ i, (λ v, (i, v)) <$> m !! i) ids).*1 = ids) as Hids.
    { induction ids as [|i ids IH]; intros Hall; [done|]. simpl.
      destruct (Hall i ltac:(set_solver)) as [v ->]. simpl. f_equal. apply IH. set_solver. }
    apply Hids. intros id Hid. destruct (Hdue id Hid) as (v & Hv & _).
    rewrite Hm, decide_True, Hv by done. by eexists.
  - intros id v. rewrite list_elem_of_omap. intros (i & Hi & Hv).
    destruct (Hdue i Hi) as (v0 & Hv0 & Hd). rewrite Hm, decide_True, Hv0 in Hv by done. simplify_eq/=.
    exists v0. split_and!; try done. by rewrite Hm, decide_True, Hv0.
  - intros id Hid. simpl. by rewrite Hm, decide_False.
  - done.
Qed.

(** C24. No double sending: while a lease runs, no claim of any instance returns a
    delivery that was claimed under it, as long as nobody else wrote the row. A
    claim takes due pending rows only, each once, and at most the batch limit. *)
Theorem ClaimDeliveries_exclusive t lease n d d1 rows d2 t' lease' n' d3 rows' :
  ClaimDeliveries t lease n d = (d1, Ok rows) →
  (∀ id, id ∈ rows.*1 → notification_deliveries d2 !! id = notification_deliveries d1 !! id) →
  (t' < t + lease)%Z →
  ClaimDeliveries t' lease' n' d2 = (d3, Ok rows') →
  NoDup (rows.*1 ++ rows'.*1) ∧ length rows ≤ n ∧ length rows' ≤ n' ∧
  ∀ id v, (id, v) ∈ rows → ∃ v0, notification_deliveries d !! id = Some v0 ∧ dl_state v0 = "pending" ∧
    (dl_next_attempt_at v0 ≤ t)%Z ∧ dl_attempts v = (dl_attempts v0 + 1)%Z.
Proof.
  intros Hc1 Hsame Ht Hc2.
  destruct (ClaimDeliveries_spec t lease n d) as (d1' & rows1 & Hs1 & Hids1 & Hrow1 & _ & _).
  rewrite Hc1 in Hs1. injection Hs1 as <- <-.
  destruct (ClaimDeliveries_spec t' lease' n' d2) as (d3' & rows3 & Hs2 & Hids2 & Hrow2 & _ & _).
  rewrite Hc2 in Hs2. injection Hs2 as <- <-.
  destruct (due_ids_spec t n d) as (Hnd1 & Hlen1 & _). destruct (due_ids_spec t' n' d2) as (Hnd2 & Hlen2 & Hdue2).
  rewrite <- Hids1 in Hnd1, Hlen1. rewrite <- Hids2 in Hnd2, Hlen2, Hdue2. rewrite length_fmap in Hlen1, Hlen2.
  split_and!; try done.
  - apply NoDup_app. split_and!; try done. intros id Hid Hid'.
    destruct (Hdue2 id Hid') as (v & Hv & Hd). rewrite Hsame in Hv by done.
    apply list_elem_of_fmap in Hid as ([i v1] & -> & Hin).
    destruct (Hrow1 _ _ Hin) as (v0 & _ & _ & -> & Hv1). simpl in Hv. rewrite Hv1 in Hv. injection Hv as <-.
    unfold due, lease_row in Hd. simpl in Hd. bool_cases. lia.
  - intros id v Hin. destruct (Hrow1 _ _ Hin) as (v0 & Hv0 & Hd & -> & _). exists v0.
    unfold due in Hd. by bool_cases.
Qed.

(** ** One dispatch *)

Section dispatch.
Context `{UuidText, UrlParser, Codec, Sealer, Wire} (smtp : SMTP).
Abbreviation deliver := (Notify.deliver smtp).

Lemma deliver_channels t id v d d' :
  notification_channels d' = notification_channels d → deliver t id v d' = deliver t id v d.
Proof. intros Hc. unfold Notify.deliver, GetChannel. rewrite Hc.
  destruct (notification_channels d !! dl_channel v); [|done]. by destruct (bool_decide _).
Qed.

(** What [FinishDelivery] makes of a row. *)
Definition finish_row (t : time) (state msg : string) (next : time) (v : Delivery) : Delivery :=
  dl_set_state state (dl_set_last_error (truncate_error msg) (dl_set_next_attempt_at next
    (dl_set_sent_at (if bool_decide (state = "sent") then Some t else None) v))).

(** A failed attempt is retried, at least a minute later, while attempts are left. *)
Lemma Backoff_retries n : (Backoff n).2 = false → (n < MaxAttempts)%Z ∧ (Minute ≤ (Backoff n).1)%Z.
Proof.
  unfold Backoff. destruct (MaxAttempts <=? n)%Z eqn:Hn; [done|]. intros _. bool_cases.
  repeat case_bool_decide; simpl; unfold Minute, Second; lia.
Qed.

(** What becomes of a claimed row, by the outcome of its send. An error text the
    database rejects leaves the row leased. *)
Definition finished (t : time) (v : Delivery) (r : option send_err) : Delivery :=
  match r with
  | None => finish_row t "sent" "" t v
  | Some e =>
      if negb (pg_text (truncate_error (send_msg e))) then v
      else if (Backoff (dl_attempts v)).2 || match e with permanentError _ => true | otherError _ => false end
      then finish_row t "failed" (send_msg e) t v
      else finish_row t "pending" (send_msg e)
             (let next := (t + (Backoff (dl_attempts v)).1)%Z in if bool_decide (next = 0%Z) then t else next) v
  end.

Lemma FinishDelivery_run id state msg next t d v :
  notification_deliveries d !! id = Some v → delivery_state_ok state = true →
  ∃ r, FinishDelivery id state msg next t d =
    (set_notification_deliveries
       (<[id := if pg_text (truncate_error msg)
                then finish_row t state msg (if bool_decide (next = 0%Z) then t else next) v else v]>
          (notification_deliveries d)) d, r).
Proof.
  intros Hv Hs. unfold FinishDelivery. destruct (pg_text (truncate_error msg)); simpl.
  - rewrite Hs. simpl. unfold oneRow. rewrite Hv. by eexists.
  - rewrite insert_id by done. exists (Err (EMsg "invalid byte sequence for encoding UTF8")). by destruct d.
Qed.

Lemma finish_spec t id v r sf d :
  notification_deliveries d !! id = Some v →
  ∃ sf', finish t id v r sf d =
    (set_notification_deliveries (<[id := finished t v r]> (notification_deliveries d)) d, Ok sf') ∧
    sf'.1 + sf'.2 ≤ S (sf.1 + sf.2).
Proof.
  intros Hv. unfold finish. destruct r as [e|].
  - destruct (Backoff (dl_attempts v)) as [next giveUp] eqn:Hb.
    unfold mbind, M_bind, attempt. destruct (_ || _) eqn:Hg.
    + destruct (FinishDelivery_run id "failed" (send_msg e) 0 t d v Hv eq_refl) as (rr & ->).
      exists (sf.1, S sf.2). split; [|simpl; lia]. unfold finished. rewrite Hb. cbn [fst snd]. rewrite Hg.
      by destruct (pg_text _).
    + destruct (FinishDelivery_run id "pending" (send_msg e) (t + next) t d v Hv eq_refl) as (rr & ->).
      exists sf. split; [|simpl; lia]. unfold finished. rewrite Hb. cbn [fst snd]. rewrite Hg.
      by destruct (pg_text _).
  - unfold mbind, M_bind, attempt.
    destruct (FinishDelivery_run id "sent" "" 0 t d v Hv eq_refl) as (rr & ->).
    exists (S sf.1, sf.2). split; [done|simpl; lia].
Qed.

Lemma dispatch_rows_spec t rows : ∀ sf d,
  NoDup rows.*1 → (∀ id v, (id, v) ∈ rows → notification_deliveries d !! id = Some v) →
  ∃ d' sf', dispatch_rows smtp t rows sf d = (d', Ok sf') ∧
    d' = set_notification_deliveries (notification_deliveries d') d ∧
    (∀ id v, (id, v) ∈ rows → notification_deliveries d' !! id = Some (finished t v (deliver t id v d))) ∧
    (∀ id, id ∉ rows.*1 → notification_deliveries d' !! id = notification_deliveries d !! id) ∧
    sf'.1 + sf'.2 ≤ sf.1 + sf.2 + length rows.
Proof.
  induction rows as [|[id v] rows IH]; intros sf d Hnd Hrows.
  - exists d, sf. split_and!; [done|by destruct d|set_solver|done|simpl; lia].
  - apply NoDup_cons in Hnd as [Hid Hnd]. simpl. unfold mbind at 1, M_bind at 1, gets.
    destruct (finish_spec t id v (deliver t id v d) sf d) as (sf1 & Hf & Hle); [apply Hrows; set_solver|].
    unfold mbind at 1, M_bind at 1. rewrite Hf.
    set (d1 := set_notification_deliveries _ d).
    destruct (IH sf1 d1 Hnd) as (d' & sf' & -> & Hd' & Hin & Hout & Hle').
    { intros id' v' Hin. simpl. rewrite lookup_insert_ne; [apply Hrows; set_solver|].
      intros ->. apply Hid. apply list_elem_of_fmap. by exists (id', v'). }
    exists d', sf'. split_and!; [done|by rewrite Hd'| | |simpl; lia].
    + intros id' v' [[= -> ->]|Hin']%elem_of_cons.
      * rewrite Hout by done. simpl. by rewrite lookup_insert_eq.
      * rewrite (Hin _ _ Hin'). do 2 f_equal. by apply deliver_channels.
    + intros id' Hn. apply not_elem_of_cons in Hn as [Hne Hn]. simpl in Hne. rewrite Hout by done. simpl.
      by rewrite lookup_insert_ne.
Qed.

(** [Dispatch]: the claimed rows go where their sends put them, the others stay. *)
Lemma Dispatch_at_spec t d :
  ∃ d' sf, Dispatch_at smtp t d = (d', Ok sf) ∧
    d' = set_notification_deliveries (notification_deliveries d') d ∧
    sf.1 + sf.2 ≤ length (due_ids t ClaimBatch d) ∧
    (∀ id v0, id ∈ due_ids t ClaimBatch d → notification_deliveries d !! id = Some v0 →
       let v := lease_row (t + ClaimLease) v0 in
       notification_deliveries d' !! id = Some (finished t v (deliver t id v d))) ∧
    (∀ id, id ∉ due_ids t ClaimBatch d → notification_deliveries d' !! id = notification_deliveries d !! id).
Proof.
  destruct (ClaimDeliveries_spec t ClaimLease ClaimBatch d) as (d1 & rows & Hc & Hids & Hrow & Hout & Hd1).
  destruct (due_ids_spec t ClaimBatch d) as (Hnd & _ & _). rewrite <- Hids in Hnd.
  destruct (dispatch_rows_spec t rows (0, 0) d1 Hnd) as (d' & sf & Hdr & Hd' & Hin & Hsame & Hle).
  { intros id v Hv. by destruct (Hrow id v Hv) as (? & _ & _ & _ & ?). }
  exists d', sf. split_and!.
  - unfold Dispatch_at, mbind, M_bind. by rewrite Hc.
  - rewrite Hd', Hd1. done.
  - rewrite <- Hids, length_fmap. simpl in Hle. lia.
  - intros id v0 Hid Hv0 v. rewrite <- Hids in Hid. apply list_elem_of_fmap in Hid as ([i v1] & -> & Hv1).
    destruct (Hrow _ _ Hv1) as (v0' & Hv0' & _ & -> & _). simpl in Hv0. rewrite Hv0 in Hv0'. injection Hv0' as <-.
    unfold v. simpl fst. rewrite (Hin _ _ Hv1). do 2 f_equal. apply deliver_channels. by rewrite Hd1.
  - intros id Hid. rewrite Hsame by by rewrite Hids. by apply Hout.
Qed.
End dispatch.

(** ** Fan-out *)

Lemma enqueue_rows_spec t ids kind p now d :
  let d' := enqueue_rows t ids kind p now d in
  d' = with_outbox d d' ∧ serial d' = (serial d + N.of_nat (length ids))%N ∧
  (∀ k, (k ≤ serial d)%N → notification_deliveries d' !! k = notification_deliveries d !! k) ∧
  (∀ i c, ids !! i = Some c → notification_deliveries d' !! (serial d + 1 + N.of_nat i)%N =
     Some (mkDelivery t c kind p "pending" 0 now "" (pg_now d) None)) ∧
  (∀ k, (serial d + N.of_nat (length ids) < k)%N → notification_deliveries d' !! k = notification_deliveries d !! k).
Proof.
  revert d. induction ids as [|c ids IH]; intros d; simpl.
  - split_and!; [by destruct d|lia|done|done|done].
  - set (d1 := set_notification_deliveries _ _). destruct (IH d1) as (H1 & H2 & H3 & H4 & H5).
    simpl in H2, H3, H4, H5. split_and!.
    + rewrite H1 at 1. unfold with_outbox, d1. by destruct d.
    + rewrite H2. lia.
    + intros k Hk. rewrite H3 by lia. rewrite lookup_insert_ne; [done|lia].
    + intros [|i] c'; simpl.
      * intros [= <-]. rewrite H3 by lia. rewrite N.add_0_r. by rewrite lookup_insert_eq.
      * intros Hi. specialize (H4 i c' Hi). rewrite <- H4. f_equal. lia.
    + intros k Hk. rewrite H5 by lia. rewrite lookup_insert_ne; [done|lia].
Qed.

Section fanout.
Context `{UuidText, UrlParser, Codec, Sealer, Wire} (smtp : SMTP).

(** What [Emit] does to the world. *)
Lemma Service_Emit_run e w :
  ∃ d', Service_Emit e w = (set_db (with_outbox (w_db w) d') w, Ok tt) ∧
   (with_outbox (w_db w) d' = w_db w ∨
    ∃ ids p, ids = (ChannelsForEvent (ev_tenant e) (ev_kind e) (w_db w)).*1 ∧
      with_outbox (w_db w) d' = enqueue_rows (ev_tenant e) ids (ev_kind e) p (w_now w) (w_db w)).
Proof.
  assert (∀ w : world, set_db (with_outbox (w_db w) (w_db w)) w = w) as Hid.
  { intros [[] h n k]. done. }
  assert (∀ d : db, with_outbox d d = d) as Hid' by by intros [].
  unfold Service_Emit, now, mbind, M_bind, gets. simpl.
  set (e' := if bool_decide (ev_at e = 0%Z) then _ else e).
  assert (ev_tenant e' = ev_tenant e ∧ ev_kind e' = ev_kind e) as [-> ->] by (unfold e'; by case_bool_decide).
  case_bool_decide as Hnil; [exists (w_db w); rewrite Hid; auto|].
  destruct (json_event e') as [p|]; [|exists (w_db w); rewrite Hid; auto].
  unfold attempt, on_db, EnqueueDeliveries.
  case_bool_decide as Hn; [by apply fmap_nil_inv in Hn|].
  destruct (_ || _); simpl.
  - exists (w_db w). rewrite Hid', set_db_id. auto.
  - pose proof (enqueue_rows_spec (ev_tenant e) (ChannelsForEvent (ev_tenant e) (ev_kind e) (w_db w)).*1
      (ev_kind e) p (w_now w) (w_db w)) as [Heq _].
    eexists. rewrite <- Heq. split; [done|]. right. eauto.
Qed.

(** The service keeps the promise producers rely on: it cannot fail and touches only
    the outbox. *)
#[export] Instance Service_EmitterOk : EmitterOk.
Proof.
  split; intros e w; destruct (Service_Emit_run e w) as (d' & Hr & Hd); [by exists d'|].
  change (Emit e w) with (Service_Emit e w). rewrite Hr. simpl. destruct Hd as [Hd|(ids & p & _ & Hd)].
  - apply (f_equal serial) in Hd. simpl in Hd. lia.
  - apply (f_equal serial) in Hd. simpl in Hd.
    destruct (enqueue_rows_spec (ev_tenant e) ids (ev_kind e) p (w_now w) (w_db w)) as (_ & Hs & _). lia.
Qed.

(** Ids are handed out in order. *)
Definition serial_ok (d : db) : Prop :=
  ∀ k v, notification_deliveries d !! k = Some v → (k ≤ serial d)%N.

(** The channels an event goes to are the tenant's subscribed ones, each once. *)
Lemma ChannelsForEvent_spec t kind d tn :
  tenants d !! t = Some tn → tn_suspended tn = false →
  (∀ id c, (id, c) ∈ ChannelsForEvent t kind d ↔
     notification_channels d !! id = Some c ∧ subscribed t kind c = true) ∧
  NoDup (ChannelsForEvent t kind d).*1.
Proof.
  intros Ht Hsus. assert (∀ id c, (id, c) ∈ ChannelsForEvent t kind d ↔
    notification_channels d !! id = Some c ∧ subscribed t kind c = true) as Hchs.
  { intros id c. unfold ChannelsForEvent. rewrite Ht, Hsus, (order_by_perm _ _), list_elem_of_In, filter_In,
      <- list_elem_of_In, elem_of_map_to_list. done. }
  split; [exact Hchs|]. apply NoDup_fmap_fst.
  - intros k a b [Ha _]%Hchs [Hb _]%Hchs. congruence.
  - unfold ChannelsForEvent. rewrite Ht, Hsus, (order_by_perm _ _).
    apply NoDup_ListNoDup, List.NoDup_filter, NoDup_ListNoDup, NoDup_map_to_list.
Qed.

(** An event that goes through is enqueued for those channels. *)
Lemma Service_Emit_enqueues e w payload tn :
  tenants (w_db w) !! ev_tenant e = Some tn → tn_suspended tn = false →
  ev_at e ≠ 0%Z → json_event e = Some payload →
  w_db (Service_Emit e w).1 =
    enqueue_rows (ev_tenant e) (ChannelsForEvent (ev_tenant e) (ev_kind e) (w_db w)).*1
      (ev_kind e) payload (w_now w) (w_db w).
Proof.
  intros Ht Hsus Hat Hp. destruct (ChannelsForEvent_spec _ (ev_kind e) _ _ Ht Hsus) as [Hchs _].
  unfold Service_Emit, now, mbind, M_bind, gets. simpl. rewrite (bool_decide_eq_false_2 (ev_at e = 0%Z)) by done.
  set (chs := ChannelsForEvent _ _ _) in *. case_bool_decide as Hnil; [by rewrite Hnil|].
  rewrite Hp. unfold attempt, on_db, EnqueueDeliveries.
  rewrite bool_decide_eq_false_2 by (intros ?%fmap_nil_inv; done).
  assert (negb (has_tenant (ev_tenant e) (w_db w)) ||
    existsb (λ c, bool_decide (notification_channels (w_db w) !! c = None)) chs.*1 = false) as ->; [|done].
  apply orb_false_iff. split; [apply negb_false_iff, bool_decide_eq_true; by eexists|].
  apply not_true_iff_false. intros (c & Hin & Hc)%existsb_exists. bool_cases.
  apply list_elem_of_In, list_elem_of_fmap in Hin as ([i x] & -> & Hx). apply Hchs in Hx as [Hx _].
  simpl in Hc. congruence.
Qed.

(** Every delivery [enqueue_rows] adds stands at one of the given channels. *)
Lemma enqueue_rows_inv t ids kind p now d k v :
  notification_deliveries (enqueue_rows t ids kind p now d) !! k = Some v →
  notification_deliveries d !! k = None →
  ∃ i c, k = (serial d + 1 + N.of_nat i)%N ∧ ids !! i = Some c ∧
    v = mkDelivery t c kind p "pending" 0 now "" (pg_now d) None.
Proof.
  intros Hk Hn. destruct (enqueue_rows_spec t ids kind p now d) as (_ & _ & Hold & Hnew & Hbig).
  destruct (decide (k ≤ serial d)%N) as [|Hgt]; [rewrite Hold in Hk by done; congruence|].
  destruct (decide (serial d + N.of_nat (length ids) < k)%N) as [|Hle]; [rewrite Hbig in Hk by done; congruence|].
  set (i := N.to_nat (k - serial d - 1)).
  assert (k = (serial d + 1 + N.of_nat i)%N) as Hki by lia.
  destruct (lookup_lt_is_Some_2 ids i) as [c Hc]; [lia|].
  exists i, c. split_and!; [done|done|]. specialize (Hnew i c Hc). rewrite <- Hki in Hnew. congruence.
Qed.

(** Fan-out: an event of a tenant that is not suspended adds exactly one pending
    delivery, never attempted, for each enabled channel of the tenant that subscribes
    to its kind, and for no other channel; existing deliveries are not touched. *)
Theorem Emit_fans_out e w payload tn :
  serial_ok (w_db w) →
  tenants (w_db w) !! ev_tenant e = Some tn → tn_suspended tn = false →
  ev_at e ≠ 0%Z → json_event e = Some payload →
  let w' := (Service_Emit e w).1 in
  (∀ k v, notification_deliveries (w_db w) !! k = Some v → notification_deliveries (w_db w') !! k = Some v) ∧
  (∀ k v, notification_deliveries (w_db w') !! k = Some v → notification_deliveries (w_db w) !! k = None →
     dl_tenant v = ev_tenant e ∧ dl_payload v = payload ∧ dl_state v = "pending" ∧ dl_attempts v = 0%Z ∧
     ∃ c, notification_channels (w_db w) !! dl_channel v = Some c ∧ subscribed (ev_tenant e) (ev_kind e) c = true) ∧
  (∀ id c, notification_channels (w_db w) !! id = Some c → subscribed (ev_tenant e) (ev_kind e) c = true →
     exists! k, ∃ v, notification_deliveries (w_db w') !! k = Some v ∧
       notification_deliveries (w_db w) !! k = None ∧ dl_channel v = id).
Proof.
  intros Hser Ht Hsus Hat Hp w'. subst w'.
  destruct (ChannelsForEvent_spec _ (ev_kind e) _ _ Ht Hsus) as [Hchs Hnd].
  rewrite (Service_Emit_enqueues e w payload tn) by done.
  set (chs := ChannelsForEvent (ev_tenant e) (ev_kind e) (w_db w)) in *.
  destruct (enqueue_rows_spec (ev_tenant e) chs.*1 (ev_kind e) payload (w_now w) (w_db w))
    as (_ & _ & Hold & Hnew & _).
  pose proof (enqueue_rows_inv (ev_tenant e) chs.*1 (ev_kind e) payload (w_now w) (w_db w)) as Hinv.
  set (d' := enqueue_rows _ _ _ _ _ _) in *.
  split_and!.
  - intros k v Hk. rewrite Hold; [done|]. by eapply Hser.
  - intros k v Hk Hn. destruct (Hinv k v Hk Hn) as (i & c & _ & Hc & ->). simpl. split_and!; try done.
    apply list_elem_of_lookup_2, list_elem_of_fmap in Hc as ([c' x] & -> & Hx). apply Hchs in Hx as [? ?]. eauto.
  - intros id c Hc Hs. assert (id ∈ chs.*1) as Hin.
    { apply list_elem_of_fmap. exists (id, c). split; [done|]. by apply Hchs. }
    apply list_elem_of_lookup_1 in Hin as [i Hi].
    exists (serial (w_db w) + 1 + N.of_nat i)%N. split.
    + eexists. split_and!; [by apply Hnew| |done].
      destruct (notification_deliveries (w_db w) !! _) as [v|] eqn:E; [|done]. apply Hser in E. lia.
    + intros k (v & Hk & Hn & Hv). destruct (Hinv k v Hk Hn) as (j & c' & -> & Hj & ->). simpl in Hv. subst c'.
      by rewrite (NoDup_lookup _ _ _ _ Hnd Hi Hj).
Qed.
End fanout.

(** ** The life of a delivery *)

(** A waiting delivery has attempts left; a closed one was attempted at least once and
    at most five times, and has a sending time exactly if it was sent. *)
Definition delivery_ok (v : Delivery) : Prop :=
  dl_state v = "pending" ∧ (0 ≤ dl_attempts v < MaxAttempts)%Z ∧ dl_sent_at v = None ∨
  dl_state v = "sent" ∧ (1 ≤ dl_attempts v ≤ MaxAttempts)%Z ∧ is_Some (dl_sent_at v) ∨
  dl_state v = "failed" ∧ (1 ≤ dl_attempts v ≤ MaxAttempts)%Z ∧ dl_sent_at v = None.

Definition outbox_ok (d : db) : Prop :=
  serial_ok d ∧ ∀ k v, notification_deliveries d !! k = Some v → delivery_ok v.

(** How the outbox may change: ids are not reused, attempts do not go back, and a
    closed delivery stays as it is for as long as it exists. *)
Definition delivery_next (v v' : Delivery) : Prop :=
  dl_channel v' = dl_channel v ∧ dl_payload v' = dl_payload v ∧ (dl_attempts v ≤ dl_attempts v')%Z ∧
  (dl_state v ≠ "pending" → v' = v).
Definition outbox_next (d d' : db) : Prop :=
  (serial d ≤ serial d')%N ∧
  ∀ k v', (k ≤ serial d)%N → notification_deliveries d' !! k = Some v' →
    ∃ v, notification_deliveries d !! k = Some v ∧ delivery_next v v'.

Lemma delivery_next_refl v : delivery_next v v.
Proof. by repeat split. Qed.
Lemma delivery_next_trans v1 v2 v3 : delivery_next v1 v2 → delivery_next v2 v3 → delivery_next v1 v3.
Proof.
  intros (Hc1 & Hp1 & Ha1 & Hf1) (Hc2 & Hp2 & Ha2 & Hf2). split_and!; [congruence|congruence|lia|].
  intros Hs. specialize (Hf1 Hs). subst v2. auto.
Qed.

Section life.
Context `{UuidText, UrlParser, Codec, Sealer, Wire} (smtp : SMTP).
(** The error texts a dispatch from [d] can meet are ones the database takes once they
    are cut to 500 bytes. *)
Definition texts_ok (t : time) (d : db) : Prop :=
  ∀ id v e, Notify.deliver smtp t id v d = Some e → pg_text (truncate_error (send_msg e)) = true.

Inductive outbox_step : world → world → Prop :=
  | ob_emit e w : outbox_step w (Service_Emit e w).1
  | ob_dispatch w : texts_ok (w_now w) (w_db w) → outbox_step w (Dispatch smtp w).1
  | ob_delete t id w : outbox_step w (on_db (DeleteChannel t id) w).1
  | ob_other w w' : notification_deliveries (w_db w') = notification_deliveries (w_db w) →
      (serial (w_db w) ≤ serial (w_db w'))%N → outbox_step w w'.

Lemma finished_ok t v0 id d r :
  texts_ok t d → delivery_ok v0 → due t v0 = true →
  r = Notify.deliver smtp t id (lease_row (t + ClaimLease) v0) d →
  delivery_ok (finished t (lease_row (t + ClaimLease) v0) r) ∧
  delivery_next v0 (finished t (lease_row (t + ClaimLease) v0) r).
Proof.
  intros Htx Hok Hd Hr. unfold due in Hd. bool_cases.
  assert (0 ≤ dl_attempts v0 < MaxAttempts)%Z as Hatt.
  { unfold delivery_ok in Hok. destruct Hok as [(_ & ? & _)|[(? & _)|(? & _)]]; [done|congruence..]. }
  unfold MaxAttempts in Hatt.
  assert (∀ st msg next, dl_channel (finish_row t st msg next (lease_row (t + ClaimLease) v0)) = dl_channel v0 ∧
    dl_payload (finish_row t st msg next (lease_row (t + ClaimLease) v0)) = dl_payload v0 ∧
    dl_attempts (finish_row t st msg next (lease_row (t + ClaimLease) v0)) = (dl_attempts v0 + 1)%Z) as Hf by done.
  assert (∀ st msg next, delivery_next v0 (finish_row t st msg next (lease_row (t + ClaimLease) v0))) as Hn.
  { intros st msg next. unfold delivery_next. destruct (Hf st msg next) as (-> & -> & ->). split_and!; [done|done|lia|]. congruence. }
  destruct r as [e|]; unfold finished.
  - rewrite (Htx _ _ _ (eq_sym Hr)). simpl negb. cbv iota. destruct (_ || _) eqn:Hg.
    + split; [|apply Hn]. right; right. unfold MaxAttempts. simpl. split_and!; [done|lia|lia|done].
    + apply orb_false_iff in Hg as [Hg%Backoff_retries _]. split; [|apply Hn]. left.
      change (dl_attempts (lease_row _ v0)) with (dl_attempts v0 + 1)%Z in Hg.
      unfold MaxAttempts in *. simpl. split_and!; [done|lia|lia|done].
  - split; [|apply Hn]. right; left. unfold MaxAttempts. simpl. split_and!; [done|lia|lia|by eexists].
Qed.

Lemma outbox_step_next w w' :
  outbox_step w w' → outbox_ok (w_db w) → outbox_ok (w_db w') ∧ outbox_next (w_db w) (w_db w').
Proof.
  intros Hs [Hser Hok].
  assert (∀ d', notification_deliveries d' = notification_deliveries (w_db w) → (serial (w_db w) ≤ serial d')%N →
    outbox_ok d' ∧ outbox_next (w_db w) d') as Hsame.
  { intros d' Hd' Hle. unfold outbox_ok, serial_ok, outbox_next. rewrite Hd'. split_and!; try done.
    - intros k v Hk. pose proof (Hser k v Hk). lia.
    - intros k v' _ Hk. exists v'. split; [done|]. apply delivery_next_refl. }
  destruct Hs as [e w|w Htx|t id w|w w' Hd Hle]; [| | |by apply Hsame].
  - destruct (Service_Emit_run e w) as (d' & -> & [Heq|(ids & p & _ & Heq)]); simpl; rewrite Heq; [by apply Hsame|].
    destruct (enqueue_rows_spec (ev_tenant e) ids (ev_kind e) p (w_now w) (w_db w)) as (_ & Hs & Hold & Hnew & Hbig).
    set (d2 := enqueue_rows _ _ _ _ _ _) in *.
    assert (∀ k v, notification_deliveries d2 !! k = Some v →
      (k ≤ serial d2)%N ∧ (notification_deliveries (w_db w) !! k = Some v ∨
       ∃ c, v = mkDelivery (ev_tenant e) c (ev_kind e) p "pending" 0 (w_now w) "" (pg_now (w_db w)) None)) as Hinv.
    { intros k v Hk. destruct (decide (k ≤ serial (w_db w))%N).
      { rewrite Hold in Hk by done. split; [lia|by left]. }
      destruct (decide (serial (w_db w) + N.of_nat (length ids) < k)%N).
      { rewrite Hbig in Hk by done. apply Hser in Hk. lia. }
      set (i := N.to_nat (k - serial (w_db w) - 1)).
      destruct (lookup_lt_is_Some_2 ids i) as [c Hc]; [lia|]. specialize (Hnew i c Hc).
      replace (serial (w_db w) + 1 + N.of_nat i)%N with k in Hnew by lia. split; [lia|]. right. exists c. congruence. }
    unfold outbox_ok, serial_ok, outbox_next. split_and!.
    + intros k v Hk. by apply Hinv in Hk as [? _].
    + intros k v Hk. destruct (Hinv k v Hk) as [_ [Hk'|(c & ->)]]; [by eapply Hok|]. left. done.
    + lia.
    + intros k v' Hle Hk. rewrite Hold in Hk by done. exists v'. split; [done|]. apply delivery_next_refl.
  - destruct (Dispatch_at_spec smtp (w_now w) (w_db w)) as (d' & sf & Hd & Hd' & _ & Hin & Hout).
    destruct (due_ids_spec (w_now w) ClaimBatch (w_db w)) as (_ & _ & Hdue).
    assert (w_db (Dispatch smtp w).1 = d') as ->.
    { unfold Dispatch, now, mbind, M_bind, on_db. simpl. by rewrite Hd. }
    assert (serial d' = serial (w_db w)) as Hser' by by rewrite Hd'.
    assert (∀ k v', notification_deliveries d' !! k = Some v' →
      ∃ v, notification_deliveries (w_db w) !! k = Some v ∧ delivery_ok v' ∧ delivery_next v v') as Hinv.
    { intros k v' Hk. destruct (decide (k ∈ due_ids (w_now w) ClaimBatch (w_db w))) as [Hk'|Hk'].
      - destruct (Hdue k Hk') as (v0 & Hv0 & Hdv). rewrite (Hin k v0 Hk' Hv0) in Hk. injection Hk as <-.
        exists v0. split; [done|]. eapply finished_ok; eauto.
      - rewrite Hout in Hk by done. exists v'. split_and!; [done|by eapply Hok|apply delivery_next_refl]. }
    unfold outbox_ok, serial_ok, outbox_next. split_and!.
    + intros k v' Hk. destruct (Hinv k v' Hk) as (v & Hv & _). rewrite Hser'. by eapply Hser.
    + intros k v' Hk. by destruct (Hinv k v' Hk) as (_ & _ & ? & _).
    + lia.
    + intros k v' _ Hk. destruct (Hinv k v' Hk) as (v & ? & _ & ?). eauto.
  - unfold on_db, DeleteChannel, oneRow. destruct (notification_channels (w_db w) !! id) as [c|]; [|by apply Hsame].
    destruct (bool_decide _); [|by apply Hsame].
    assert (∀ k v, notification_deliveries (w_db w) !! k = Some v ∧ dl_channel v ≠ id →
      notification_deliveries (w_db w) !! k = Some v) as Hf by naive_solver.
    unfold outbox_ok, serial_ok, outbox_next. split_and!; simpl.
    + intros k v [Hk _]%map_lookup_filter_Some. by eapply Hser.
    + intros k v [Hk _]%map_lookup_filter_Some. by eapply Hok.
    + done.
    + intros k v' _ [Hk _]%map_lookup_filter_Some. exists v'. split; [done|]. apply delivery_next_refl.
Qed.

Lemma outbox_next_trans d1 d2 d3 : outbox_next d1 d2 → outbox_next d2 d3 → outbox_next d1 d3.
Proof.
  intros [Hs1 Hn1] [Hs2 Hn2]. split; [lia|]. intros k v3 Hk Hv3.
  destruct (Hn2 k v3 ltac:(lia) Hv3) as (v2 & Hv2 & ?). destruct (Hn1 k v2 Hk Hv2) as (v1 & ? & ?).
  eauto using delivery_next_trans.
Qed.

(** C20. A delivery is attempted at most five times and its outcome is final: along any
    interleaving of emissions, dispatches and channel deletions (whose error texts the
    database accepts) the outbox invariant holds, and a delivery that was sent or given up is never attempted, altered or
    replaced again (it can only disappear with its channel). *)
Theorem outbox_history w w' :
  rtc outbox_step w w' → outbox_ok (w_db w) →
  outbox_ok (w_db w') ∧
  ∀ k v v', notification_deliveries (w_db w) !! k = Some v → notification_deliveries (w_db w') !! k = Some v' →
    dl_channel v' = dl_channel v ∧ dl_payload v' = dl_payload v ∧ (dl_attempts v ≤ dl_attempts v')%Z ∧
    (dl_state v ≠ "pending" → v' = v).
Proof.
  intros Hs Hok.
  assert (outbox_ok (w_db w') ∧ outbox_next (w_db w) (w_db w')) as [Hok' Hn].
  { revert Hok. induction Hs as [w|w w1 w2 Hstep _ IH]; intros Hok.
    - split; [done|]. split; [done|]. intros k v' _ Hk. exists v'. split; [done|]. apply delivery_next_refl.
    - destruct (outbox_step_next _ _ Hstep Hok) as [Hok1 Hn1]. destruct (IH Hok1). eauto using outbox_next_trans. }
  split; [done|]. intros k v v' Hk Hk'. destruct Hok as [Hser _].
  destruct Hn as [_ Hn]. destruct (Hn k v' (Hser k v Hk) Hk') as (v0 & Hv0 & Hnext).
  rewrite Hk in Hv0. injection Hv0 as <-. exact Hnext.
Qed.
End life.

(** ** Draining stops *)

Section drain.
Context `{UuidText, UrlParser, Codec, Sealer, Wire} (smtp : SMTP).

Definition due_set (t : time) (d : db) : gset N :=
  dom (filter (λ kv : N * Delivery, due t kv.2 = true) (notification_deliveries d)).

Lemma elem_of_due_set t d k :
  k ∈ due_set t d ↔ ∃ v, notification_deliveries d !! k = Some v ∧ due t v = true.
Proof.
  unfold due_set. rewrite elem_of_dom. split.
  - intros [v [Hv Hd]%map_lookup_filter_Some]. eauto.
  - intros (v & Hv & Hd). exists v. by apply map_lookup_filter_Some.
Qed.

(** A row a dispatch handled is not due any more at that time. *)
Lemma finished_not_due t v0 r : (0 < t)%Z → due t (finished t (lease_row (t + ClaimLease) v0) r) = false.
Proof.
  intros Ht. unfold due, finished. destruct r as [e|]; [|done].
  destruct (negb (pg_text _)); [|destruct (_ || _) eqn:Hg; [done|]].
  - simpl. apply andb_false_iff. right. apply Z.leb_gt. unfold ClaimLease, Minute, Second. lia.
  - apply orb_false_iff in Hg as [[_ Hb]%Backoff_retries _].
    simpl. rewrite bool_decide_eq_false_2.
    + apply Z.leb_gt. unfold Minute, Second in *. simpl in Hb. lia.
    + unfold Minute, Second in *. simpl in Hb. lia.
Qed.

Lemma Dispatch_shrinks w sf w' :
  (0 < w_now w)%Z → Dispatch smtp w = (w', Ok sf) →
  w_now w' = w_now w ∧ (sf.1 + sf.2 ≠ 0 → size (due_set (w_now w) (w_db w')) < size (due_set (w_now w) (w_db w))).
Proof.
  intros Ht Hd. destruct (Dispatch_at_spec smtp (w_now w) (w_db w)) as (d' & sf' & Hda & _ & Hle & Hin & Hout).
  destruct (due_ids_spec (w_now w) ClaimBatch (w_db w)) as (_ & _ & Hdue).
  unfold Dispatch, now, mbind, M_bind, on_db in Hd. simpl in Hd. rewrite Hda in Hd. injection Hd as <- <-.
  split; [done|]. simpl. intros Hpos. apply subset_size.
  destruct (due_ids (w_now w) ClaimBatch (w_db w)) as [|k ks] eqn:Hids; [simpl in Hle; lia|].
  assert (∀ x, x ∈ due_set (w_now w) d' → x ∈ due_set (w_now w) (w_db w) ∧ x ≠ k) as Hsub.
  { intros x (v & Hv & Hx)%elem_of_due_set. destruct (decide (x ∈ k :: ks)) as [Hxk|Hxk].
    - destruct (Hdue x Hxk) as (v0 & Hv0 & _). rewrite (Hin x v0 Hxk Hv0) in Hv. injection Hv as <-.
      by rewrite finished_not_due in Hx.
    - rewrite Hout in Hv by done. split; [apply elem_of_due_set; eauto | set_solver]. }
  assert (k ∈ due_set (w_now w) (w_db w)) as Hk.
  { apply elem_of_due_set, Hdue. set_solver. }
  split; [intros x Hx; by apply Hsub|]. intros Hall. by destruct (Hsub k (Hall k Hk)).
Qed.

(** The dispatcher's inner loop stops: however the sends turn out, as many rounds as
    there are due deliveries (and one more) are enough, because a handled delivery,
    sent, given up, put off or left leased, is not due again at that time. *)
Theorem drain_terminates fuel w :
  (0 < w_now w)%Z → size (due_set (w_now w) (w_db w)) < fuel → ∃ w', drain smtp fuel w = (w', Ok (Some tt)).
Proof.
  revert w. induction fuel as [|fuel IH]; intros w Ht Hf; [lia|].
  simpl. unfold mbind at 1, M_bind at 1, attempt.
  destruct (Dispatch smtp w) as [w1 [[sent failed]|e]] eqn:Hd; [|by eexists].
  destruct (Dispatch_shrinks w (sent, failed) w1 Ht Hd) as [Hn Hlt]. simpl in Hlt.
  case_bool_decide as Hz; [by eexists|]. apply IH; rewrite Hn; [done|]. specialize (Hlt Hz). lia.
Qed.
End drain.

(** ** A concrete setting *)

Module Post.
(** URLs are udp or https by their first letters; events travel as their title; the
    network answers every webhook with 503 and fails nothing else. *)
#[export] Instance post_urls : UrlParser :=
  λ s, Some (mkURL (if has_prefix s "udp://" then "udp" else "https") s "").
#[export] Instance post_codec : Codec := {
  json_event e := Some (ev_title e);
  event_of_json s := Some (mkEvent "alert.raised" 1 s "" [] 1);
  json_detail _ := None;
  hmac_hex _ _ := "00";
  mail_address _ := None;
}.
#[export] Instance post_sealer : Sealer := { Seal _ s := "x" +:+ s; Open s := Some (TrimPrefix s "x") }.
#[export] Instance post_wire : Wire := {
  post _ _ := HttpStatus 503; mail_session _ _ := None; sock_send _ _ _ _ := None;
  os_Hostname := "srv"; os_Getpid := 7; rfc1123 _ := "";
}.
Definition no_smtp : SMTP := mkSMTP "" 587 "" "" "" true.
(** Tenant 1 with a webhook subscribed to alerts. *)
Definition hook : Channel := mkChannel 1 "webhook" "ops" ["alert.raised"] true [] "https://siem" "" 1 1.
Definition hook_world : world := set_db (set_notification_channels {[70%N := hook]} Toy.lab_db) Toy.lab.
Definition alarm : Event := mkEvent "alert.raised" 1 "disk full" "" [] 9.
Definition emitted : world := (@Service_Emit post_codec alarm hook_world).1.
End Post.

Section witnesses.
Import Toy Post.

Lemma ClaimDeliveries_exclusive_witness :
  ∃ d1 rows d3 rows', ClaimDeliveries 20 ClaimLease 10 (w_db emitted) = (d1, Ok rows) ∧ rows ≠ [] ∧
    ClaimDeliveries 21 ClaimLease 10 d1 = (d3, Ok rows') ∧ NoDup (rows.*1 ++ rows'.*1).
Proof.
  destruct (ClaimDeliveries 20 ClaimLease 10 (w_db emitted)) as [d1 [rows|e]] eqn:H1; [|discriminate H1].
  destruct (ClaimDeliveries 21 ClaimLease 10 d1) as [d3 [rows'|e]] eqn:H2; [|discriminate H2].
  destruct (ClaimDeliveries_exclusive 20 ClaimLease 10 (w_db emitted) d1 rows d1 21 ClaimLease 10 d3 rows' H1)
    as [Hnd _]; [done|unfold ClaimLease, Minute, Second; lia|exact H2|].
  exists d1, rows, d3, rows'. split; [reflexivity|]. split; [|split; [exact H2|exact Hnd]].
  intros ->. vm_compute in H1. discriminate H1.
Defined.

Lemma hook_serial : serial_ok (w_db hook_world).
Proof. intros k v Hk. vm_compute in Hk. discriminate. Qed.

Lemma Emit_fans_out_witness :
  exists! k, ∃ v, notification_deliveries (w_db emitted) !! k = Some v ∧
    notification_deliveries (w_db hook_world) !! k = None ∧ dl_channel v = 70%N.
Proof.
  destruct (Emit_fans_out alarm hook_world "disk full" (mkTenant "acme" false 1) hook_serial
    ltac:(vm_compute; reflexivity) eq_refl ltac:(discriminate) eq_refl) as (_ & _ & Hone).
  apply (Hone 70%N hook); vm_compute; reflexivity.
Defined.

Lemma post_texts t : texts_ok no_smtp t (w_db emitted).
Proof.
  intros id v e. unfold Notify.deliver, GetChannel.
  assert (notification_channels (w_db emitted) = {[70%N := hook]}) as -> by (vm_compute; reflexivity).
  destruct (decide (dl_channel v = 70%N)) as [->|Hne].
  - rewrite lookup_singleton_eq. destruct (bool_decide _); simpl; intros [= <-]; vm_compute; reflexivity.
  - rewrite lookup_singleton_ne by done. simpl. intros [= <-]. vm_compute. reflexivity.
Qed.

(** Emitted, then dispatched once: the webhook answers 503, so the delivery waits. *)
Lemma outbox_history_witness :
  outbox_ok (w_db (Dispatch no_smtp emitted).1) ∧
  ∃ v, notification_deliveries (w_db (Dispatch no_smtp emitted).1) !! 1%N = Some v ∧ dl_attempts v = 1%Z.
Proof.
  split.
  - apply (outbox_history no_smtp hook_world).
    + eapply rtc_l; [apply (ob_emit no_smtp alarm)|]. apply rtc_once. apply ob_dispatch. apply post_texts.
    + split; [apply hook_serial|]. intros k v Hk. vm_compute in Hk. discriminate.
  - eexists. split; vm_compute; reflexivity.
Defined.

Lemma drain_terminates_witness : ∃ w', drain no_smtp 2 emitted = (w', Ok (Some tt)).
Proof. apply (drain_terminates no_smtp 2 emitted); vm_compute; [reflexivity | lia]. Defined.
End witnesses.
