(* ===== verification/Http.v ===== *)
(** * Shared pieces of the console API

    Models the helpers of [internal/server/httpapi] that every handler uses
    ([json.go], [routes.go], [API.audit] of [api.go]). A handler is a [M world]
    computation that always answers: its result is the response it writes. The
    JSON request body, already decoded, is the handler's argument. *)

From Stdlib Require Import SpecFloat.
From stdpp Require Import gmap strings list.
From S2P Require Import Prelude Db World StoreCore.

Inductive json :=
  | JNull
  | JS (s : string)
  | JFmt (format : string) (args : list string)  (* what [fmt.Sprintf] makes of them *)
  | JN (n : Z)
  | JF (f : spec_float)
  | JB (b : bool)
  | JA (l : list json)
  | JO (l : list (string * json)).

(** A time and a nullable field in a body. *)
Definition jtime (t : time) : json := JN t.
Definition jopt {A} (f : A → json) (o : option A) : json := match o with Some a => f a | None => JNull end.

Record response := mkResponse { rs_code : Z; rs_body : json }.

(** The authenticated caller ([principal]), with the request's remote address. *)
Record principal := mkPrincipal {
  p_tenant : uuid; p_admin : uuid; p_email : string; p_role : string; p_provider : bool; p_ip : string;
}.

Definition writeErr {S} (code : Z) (msg : string) : M S response :=
  mret (mkResponse code (JO [("error", JS msg)])).
Definition writeJSON {S} (code : Z) (v : json) : M S response := mret (mkResponse code v).
Definition writeHeader {S} (code : Z) : M S response := mret (mkResponse code JNull).

(** The message of an error made by [errors.New] or [fmt.Errorf]. *)
Definition err_json (e : err) : json :=
  match e with EMsg m => JS m | EFmt f args => JFmt f args | _ => JNull end.
Definition writeErrOf {S} (code : Z) (e : err) : M S response := writeJSON code (JO [("error", err_json e)]).

Fixpoint is_err (target e : err) : bool :=
  bool_decide (e = target) || match e with EWrap _ e' => is_err target e' | _ => false end.

Definition storeErr {S} (e : err) : M S response :=
  if is_err ErrNotFound e then writeErr 404 "not found"
  else if is_err ErrConflict e then writeErr 409 "already exists"
  else writeErr 500 "internal error".

(** [if err := m; err != nil { a.storeErr(w, err); return }]. *)
Definition or_storeErr {A} (m : M world A) (k : A → M world response) : M world response :=
  r ← attempt m;
  match r with Ok a => k a | Err e => storeErr e end.

Lemma or_storeErr_run {A} (m : M world A) k w :
  or_storeErr m k w = match m w with (w', Ok a) => k a w' | (w', Err e) => storeErr e w' end.
Proof. unfold or_storeErr, attempt, mbind, M_bind. by destruct (m w) as [w' [a|e]]. Qed.

(** An error response does not touch the state, and its code tells it apart. *)
Lemma storeErr_code {S} e (w : S) :
  ∃ resp, storeErr e w = (w, Ok resp) ∧
    (rs_code resp = 404 ∨ rs_code resp = 409 ∨ rs_code resp = 500)%Z.
Proof. unfold storeErr, writeErr. repeat case_match; eexists; simpl; eauto. Qed.

(** What a request gets back: a JSON answer, or a file with its name and content. *)
Inductive reply := Answer (r : response) | File (name content : string).
Definition answer {S} (m : M S response) : M S reply := r ← m; mret (Answer r).

Section http.
Context `{UuidText}.

(** [pathID]: the id in the route, or a 400. *)
Definition with_pathID (raw : string) (k : uuid → M world response) : M world response :=
  match uuid_parse raw with
  | None => writeErr 400 "invalid id"
  | Some id => k id
  end.

(** [queryInt]: an optional integer ([None]: absent or unparsable), clamped. *)
Definition queryInt (v : option Z) (def max : Z) : Z :=
  match v with
  | Some n => if (n <? 1)%Z then def else Z.min n max
  | None => def
  end.

(** [API.audit]: a failed audit write is logged, never reported. *)
Definition audit_any (p : principal) (action target_type target_id : string) (detail : list (string * aval))
    (result : string) : M world unit :=
  _ ← attempt (on_db (AppendAudit (p_tenant p) ("admin:" +:+ p_email p) action target_type target_id
                        detail (p_ip p) result));
  mret tt.
Definition audit (p : principal) (action target_type target_id : string) (detail : list (string * jval))
    (result : string) : M world unit :=
  audit_any p action target_type target_id (plain detail) result.
End http.

Lemma queryInt_bounds v def max : (1 ≤ def ≤ max)%Z → (1 ≤ queryInt v def max ≤ max)%Z.
Proof. unfold queryInt. intros. destruct v as [n|]; [|done]. destruct (n <? 1)%Z eqn:E; bool_cases; lia. Qed.

(** A console handler takes the steps of the calls it makes. *)
Ltac http_steps := unfold with_pathID, or_storeErr, storeErr, writeErrOf, writeErr, writeJSON, writeHeader; steps.
