(* ===== verification/StorePolicies.v ===== *)
(** * Application-control policies and approvals in the store

    Models [internal/server/store/policies.go] and [approvals.go]: policies with their
    rules, compiled versions and assignments, and the approval requests that block events
    turn into. *)

From stdpp Require Import gmap strings list sorting.
From S2P Require Import Prelude Db StoreCore.

(** ** policies.go *)

Definition policy_mode_ok (m : string) : bool := bool_decide (m = "audit") || bool_decide (m = "enforce").
Definition rule_kind_ok (k : string) : bool :=
  bool_decide (k = "hash") || bool_decide (k = "publisher") || bool_decide (k = "path").

Definition policy_name_taken (tenantID : uuid) (name : string) (d : db) : bool :=
  exists_row (λ _ p, bool_decide (po_tenant p = tenantID) && bool_decide (po_name p = name)) (policies d).

Definition CreatePolicy (id tenantID : uuid) (name mode : string) : M db uuid :=
  let mode := if bool_decide (mode = "") then "audit" else mode in
  map_err conflict (stmt (λ d,
    if negb (policy_mode_ok mode) then (d, Err PgCheck)
    else if bool_decide (is_Some (policies d !! id)) || policy_name_taken tenantID name d then (d, Err PgUnique)
    else if negb (has_tenant tenantID d) then (d, Err PgForeignKey)
    else (set_policies (<[id := mkAppPolicy tenantID name mode (pg_now d)]> (policies d)) d, Ok id))).

Definition ListPolicies (tenantID : uuid) (d : db) : list (uuid * AppPolicy) :=
  order_by (λ a b, String.leb (po_name a.2) (po_name b.2))
    (List.filter (λ kv, bool_decide (po_tenant kv.2 = tenantID)) (map_to_list (policies d))).

Definition GetPolicy (tenantID id : uuid) : M db AppPolicy :=
  λ d, match policies d !! id with
       | Some p => if bool_decide (po_tenant p = tenantID) then (d, Ok p) else (d, Err ErrNotFound)
       | None => (d, Err ErrNotFound)
       end.

Definition SetPolicyMode (tenantID id : uuid) (mode : string) : M db unit :=
  λ d,
    match policies d !! id with
    | Some p =>
        if negb (bool_decide (po_tenant p = tenantID)) then (d, Err ErrNotFound)
        else if negb (policy_mode_ok mode) then (d, Err PgCheck)
        else (set_policies (<[id := po_set_mode mode p]> (policies d)) d, Ok tt)
    | None => (d, Err ErrNotFound)
    end.

(** Deleting a policy takes its rules, versions, assignments and approval requests
    with it. *)
Definition cascade_policy (id : uuid) (d : db) : db :=
  let gone := dom (filter (λ kv : uuid * ApprovalRequest, ar_policy kv.2 = id) (approval_requests d)) in
  set_policy_rules (filter (λ kv, pr_policy kv.2 ≠ id) (policy_rules d))
  (set_policy_versions (filter (λ kv, kv.1.1 ≠ id) (policy_versions d))
  (set_policy_assignments (filter (λ kv, pa_policy kv.2 ≠ id) (policy_assignments d))
  (set_approval_requests (filter (λ kv, ar_policy kv.2 ≠ id) (approval_requests d))
  (set_approval_request_devices (filter (λ rd, rd.1 ∉ gone) (approval_request_devices d)) d)))).

Definition DeletePolicy (tenantID id : uuid) : M db unit :=
  oneRow policies id (λ p, bool_decide (po_tenant p = tenantID))
    (λ _ d, cascade_policy id (set_policies (delete id (policies d)) d)).

(** The parts of a rule the caller supplies ([store.PolicyRule]). *)
Record RuleText := mkRuleText { rt_kind : string; rt_value : string; rt_publisher_name : string; rt_description : string }.

(** [UNIQUE (policy_id, kind, value)]: the tenant is not part of it. *)
Definition rule_taken (policyID : uuid) (kind value : string) (d : db) : bool :=
  exists_row (λ _ r, bool_decide (pr_policy r = policyID) && bool_decide (pr_kind r = kind) && bool_decide (pr_value r = value))
    (policy_rules d).

Definition AddRule (id tenantID policyID : uuid) (r : RuleText) (addedBy : option uuid) : M db uuid :=
  map_err conflict (stmt (λ d,
    if negb (rule_kind_ok (rt_kind r)) then (d, Err PgCheck)
    else if bool_decide (is_Some (policy_rules d !! id)) || rule_taken policyID (rt_kind r) (rt_value r) d
    then (d, Err PgUnique)
    else if negb (has_tenant tenantID d) || bool_decide (policies d !! policyID = None)
            || match addedBy with Some a => bool_decide (admins d !! a = None) | None => false end
    then (d, Err PgForeignKey)
    else (set_policy_rules (<[id := mkPolicyRule tenantID policyID (rt_kind r) (rt_value r) (rt_publisher_name r)
                                  (rt_description r) addedBy (pg_now d)]> (policy_rules d)) d, Ok id))).

Definition by_kind_value (a b : uuid * PolicyRule) : bool :=
  if bool_decide (pr_kind a.2 = pr_kind b.2) then String.leb (pr_value a.2) (pr_value b.2)
  else String.leb (pr_kind a.2) (pr_kind b.2).
Definition ListRules (tenantID policyID : uuid) (d : db) : list (uuid * PolicyRule) :=
  order_by by_kind_value
    (List.filter (λ kv, bool_decide (pr_tenant kv.2 = tenantID) && bool_decide (pr_policy kv.2 = policyID))
       (map_to_list (policy_rules d))).

Definition DeleteRule (tenantID policyID ruleID : uuid) : M db unit :=
  oneRow policy_rules ruleID (λ r, bool_decide (pr_tenant r = tenantID) && bool_decide (pr_policy r = policyID))
    (λ _ d, set_policy_rules (delete ruleID (policy_rules d)) d).

Definition PutPolicyVersion (tenantID policyID : uuid) (version mode xml signature : string) : M db unit :=
  λ d, match policy_versions d !! (policyID, version) with
       | Some v => (set_policy_versions (<[(policyID, version) := mkPolicyVersion (pv_tenant v) mode xml signature (pg_now d)]>
                      (policy_versions d)) d, Ok tt)
       | None =>
           if negb (has_tenant tenantID d) || bool_decide (policies d !! policyID = None) then (d, Err PgForeignKey)
           else (set_policy_versions (<[(policyID, version) := mkPolicyVersion tenantID mode xml signature (pg_now d)]>
                   (policy_versions d)) d, Ok tt)
       end.

(** The versions of a policy, latest first; each with its version string. *)
Definition versions_of (tenantID policyID : uuid) (d : db) : list (string * PolicyVersion) :=
  order_by (λ a b, (pv_created_at b.2 <=? pv_created_at a.2)%Z)
    (omap (λ kv : (uuid * string) * PolicyVersion,
             if bool_decide (kv.1.1 = policyID) && bool_decide (pv_tenant kv.2 = tenantID) then Some (kv.1.2, kv.2) else None)
       (map_to_list (policy_versions d))).

Definition LatestPolicyVersion (tenantID policyID : uuid) : M db (string * PolicyVersion) :=
  λ d, match versions_of tenantID policyID d with v :: _ => (d, Ok v) | [] => (d, Err ErrNotFound) end.

Definition AssignPolicy (tenantID groupID policyID : uuid) : M db unit :=
  λ d,
    let own_group := match device_groups d !! groupID with Some g => bool_decide (gr_tenant g = tenantID) | None => false end in
    let own_policy := match policies d !! policyID with Some p => bool_decide (po_tenant p = tenantID) | None => false end in
    if own_group && own_policy then
      match policy_assignments d !! groupID with
      | Some a =>
          if bool_decide (pa_tenant a = tenantID)
          then (set_policy_assignments (<[groupID := mkPolicyAssignment (pa_tenant a) policyID]> (policy_assignments d)) d, Ok tt)
          else (d, Err ErrNotFound)
      | None => (set_policy_assignments (<[groupID := mkPolicyAssignment tenantID policyID]> (policy_assignments d)) d, Ok tt)
      end
    else (d, Err ErrNotFound).

(** The policy a device's group is assigned, in its tenant. *)
Definition assigned_policy (tenantID deviceID : uuid) (d : db) : option uuid :=
  v ← devices d !! deviceID;
  g ← dv_group v;
  a ← policy_assignments d !! g;
  if bool_decide (dv_tenant v = tenantID) && bool_decide (pa_tenant a = tenantID) then Some (pa_policy a) else None.

(** The version's row, with the policy and version it is keyed by. *)
Definition EffectivePolicyForDevice (tenantID deviceID : uuid) : M db (uuid * string * PolicyVersion) :=
  assigned ← gets (assigned_policy tenantID deviceID);
  match assigned with
  | Some p => v ← LatestPolicyVersion tenantID p; mret (p, v.1, v.2)
  | None => fail ErrNotFound
  end.

(** ** approvals.go *)

(** A block event as the agent reports it ([store.BlockEvent] on its way in). *)
Record BlockReport := mkBlockReport {
  br_sha256 : string; br_path : string; br_signer : string; br_signer_tbs : string; br_signer_verified : bool;
  br_blocked : bool; br_at : time;
}.

Record agg := mkAgg {
  ag_path : string; ag_signer : string; ag_signer_tbs : string; ag_signer_verified : bool; ag_n : Z;
  ag_first : time; ag_last : time;
}.

(** An empty field takes the new value. *)
Definition fill (old new : string) : string := if bool_decide (old = "") then new else old.

(** One round of the aggregation loop; [now] stands for [time.Now()]. *)
Definition add_event (now : time) (acc : gmap string agg * list string) (e : BlockReport) : gmap string agg * list string :=
  let '(byHash, order) := acc in
  if bool_decide (br_sha256 e = "") then acc
  else
    let at_ := if bool_decide (br_at e = 0%Z) then now else br_at e in
    let '(a, order) := match byHash !! br_sha256 e with
                       | Some a => (a, order)
                       | None => (mkAgg "" "" "" false 0 at_ at_, order ++ [br_sha256 e])
                       end in
    let a := mkAgg (fill (ag_path a) (br_path e)) (fill (ag_signer a) (br_signer e)) (fill (ag_signer_tbs a) (br_signer_tbs e))
               (ag_signer_verified a || br_signer_verified e) (ag_n a + 1)
               (if (at_ <? ag_first a)%Z then at_ else ag_first a) (if (ag_last a <? at_)%Z then at_ else ag_last a) in
    (<[br_sha256 e := a]> byHash, order).

Definition request_for (policyID : uuid) (hash : string) (d : db) : option (uuid * ApprovalRequest) :=
  find_row (λ _ r, bool_decide (ar_policy r = policyID) && bool_decide (ar_sha256 r = hash)) (approval_requests d).

(** The [ON CONFLICT] branch of the upsert. *)
Definition merge_request (a : agg) (r : ApprovalRequest) : ApprovalRequest :=
  mkApprovalRequest (ar_tenant r) (ar_policy r) (ar_sha256 r) (fill (ar_path r) (ag_path a)) (fill (ar_signer r) (ag_signer a))
    (fill (ar_signer_tbs r) (ag_signer_tbs a)) (ar_signer_verified r || ag_signer_verified a) (ar_status r)
    (ar_device_count r) (ar_event_count r + ag_n a) (Z.min (ar_first_seen r) (ag_first a)) (Z.max (ar_last_seen r) (ag_last a))
    (ar_decided_by r) (ar_decided_at r).

(** The upsert of one hash, under a fresh [id]: the row's id and whether it is new. *)
Definition upsert_request (id tenantID policyID : uuid) (hash : string) (a : agg) : M db (uuid * bool) :=
  λ d,
    match request_for policyID hash d with
    | Some (k, r) => (set_approval_requests (<[k := merge_request a r]> (approval_requests d)) d, Ok (k, false))
    | None =>
        if bool_decide (is_Some (approval_requests d !! id)) then (d, Err PgUnique)
        else if negb (has_tenant tenantID d) || bool_decide (policies d !! policyID = None) then (d, Err PgForeignKey)
        else (set_approval_requests
                (<[id := mkApprovalRequest tenantID policyID hash (ag_path a) (ag_signer a) (ag_signer_tbs a)
                           (ag_signer_verified a) "pending" 0 (ag_n a) (ag_first a) (ag_last a) None None]> (approval_requests d)) d,
              Ok (id, true))
    end.

(** The device row and the counter that follows it. *)
Definition note_device (requestID deviceID : uuid) : M db unit :=
  λ d,
    if bool_decide ((requestID, deviceID) ∈ approval_request_devices d) then (d, Ok tt)
    else if bool_decide (devices d !! deviceID = None) || bool_decide (approval_requests d !! requestID = None)
    then (d, Err PgForeignKey)
    else (set_approval_requests
            (alter (λ r, ar_set_device_count (ar_device_count r + 1) r) requestID (approval_requests d))
            (set_approval_request_devices ({[(requestID, deviceID)]} ∪ approval_request_devices d) d), Ok tt).

(** The statements of the transaction, hash by hash; [ids] are the fresh ids. *)
Fixpoint upsert_all (tenantID policyID deviceID : uuid) (byHash : gmap string agg) (hs : list (string * uuid)) : M db (list uuid) :=
  match hs with
  | [] => mret []
  | (h, id) :: hs' =>
      r ← upsert_request id tenantID policyID h (default (mkAgg "" "" "" false 0 0 0) (byHash !! h));
      _ ← note_device r.1 deviceID;
      rest ← upsert_all tenantID policyID deviceID byHash hs';
      mret (if (r : uuid * bool).2 then r.1 :: rest else rest)
  end.

(** [fresh n] is the [n]th identifier the call draws. *)
Definition UpsertApprovalRequests (fresh : nat → uuid) (tenantID policyID deviceID : uuid) (events : list BlockReport) (now : time)
    : M db (list uuid) :=
  let '(byHash, order) := foldl (add_event now) (∅, []) events in
  if bool_decide (order = []) then mret []
  else transaction (upsert_all tenantID policyID deviceID byHash (zip order (fresh <$> seq 0 (length order)))).

Definition ListApprovalRequests (tenantID : uuid) (status : string) (limit : nat) (d : db) : list (uuid * ApprovalRequest) :=
  take limit (order_by (λ a b, (ar_last_seen b.2 <=? ar_last_seen a.2)%Z)
    (List.filter (λ kv, bool_decide (ar_tenant kv.2 = tenantID) && (bool_decide (status = "") || bool_decide (ar_status kv.2 = status)))
       (map_to_list (approval_requests d)))).

Definition GetApprovalRequest (tenantID id : uuid) : M db ApprovalRequest :=
  λ d, match approval_requests d !! id with
       | Some r => if bool_decide (ar_tenant r = tenantID) then (d, Ok r) else (d, Err ErrNotFound)
       | None => (d, Err ErrNotFound)
       end.

Definition request_status_ok (s : string) : bool :=
  bool_decide (s = "pending") || bool_decide (s = "approved") || bool_decide (s = "denied") || bool_decide (s = "expired").

Definition DecideApprovalRequest (tenantID id : uuid) (status : string) (adminID : uuid) (now : time) : M db unit :=
  λ d,
    match approval_requests d !! id with
    | Some r =>
        if bool_decide (ar_tenant r = tenantID) && bool_decide (ar_status r = "pending") then
          if negb (request_status_ok status) then (d, Err PgCheck)
          else if bool_decide (admins d !! adminID = None) then (d, Err PgForeignKey)
          else (set_approval_requests
                  (<[id := ar_set_status status (ar_set_decided_by (Some adminID) (ar_set_decided_at (Some now) r))]>
                     (approval_requests d)) d, Ok tt)
        else (_ ← GetApprovalRequest tenantID id; fail ErrConflict) d
    | None => (d, Err ErrNotFound)
    end.

Definition CountPendingApprovals (tenantID : uuid) (d : db) : nat :=
  count (λ r, bool_decide (ar_tenant r = tenantID) && bool_decide (ar_status r = "pending")) (rows (approval_requests d)).

Definition stale_request (before : time) (r : ApprovalRequest) : bool :=
  bool_decide (ar_status r = "pending") && (ar_last_seen r <? before)%Z.
Definition ExpireApprovalRequests (before : time) : M db nat :=
  λ d, (set_approval_requests ((λ r, if stale_request before r then ar_set_status "expired" r else r) <$> approval_requests d) d,
        Ok (count (stale_request before) (rows (approval_requests d)))).
