(* ===== verification/StoreTelemetry.v ===== *)
(** * What agents report, and device controls, in the store

    Models [internal/server/store/observations.go], [events.go] and [controls.go]:
    learning observations, block and device events, and the device controls of groups
    with their per-device overrides. *)

From stdpp Require Import gmap strings list sorting.
From S2P Require Import Prelude Db StoreCore StorePolicies.

(** ** observations.go *)

(** The fields of [store.Observation] a report carries. *)
Record Seen := mkSeen {
  sn_sha256 : string; sn_path : string; sn_signer : string; sn_signer_tbs : string; sn_signer_verified : bool;
  sn_downloaded : option bool; sn_download_source : string;
}.

(** The [ON CONFLICT] branch of the upsert. *)
Definition see_again (o : Seen) (now : time) (r : Observation) : Observation :=
  mkObservation (ob_tenant r) (fill (ob_signer r) (sn_signer o)) (fill (ob_signer_tbs r) (sn_signer_tbs o))
    (ob_signer_verified r || sn_signer_verified o) (ob_first_seen r) now (ob_count r + 1)
    (match sn_downloaded o with Some b => Some b | None => ob_downloaded r end)
    (fill (sn_download_source o) (ob_download_source r)).

Definition RecordObservation (tenantID deviceID : uuid) (o : Seen) (now : time) : M db unit :=
  λ d,
    let k := (deviceID, sn_sha256 o, sn_path o) in
    match observations d !! k with
    | Some r => (set_observations (<[k := see_again o now r]> (observations d)) d, Ok tt)
    | None =>
        if negb (has_tenant tenantID d) || bool_decide (devices d !! deviceID = None) then (d, Err PgForeignKey)
        else (set_observations (<[k := mkObservation tenantID (sn_signer o) (sn_signer_tbs o) (sn_signer_verified o) now now 1
                                         (sn_downloaded o) (sn_download_source o)]> (observations d)) d, Ok tt)
    end.

Definition ListObservations (tenantID deviceID : uuid) (limit : nat) (d : db) : list ((uuid * string * string) * Observation) :=
  take limit (order_by (λ a b, (ob_last_seen b.2 <=? ob_last_seen a.2)%Z)
    (List.filter (λ kv, bool_decide (ob_tenant kv.2 = tenantID) && bool_decide (kv.1.1.1 = deviceID))
       (map_to_list (observations d)))).

(** Verified first, then the most recent. *)
Definition by_identity (a b : (uuid * string * string) * Observation) : bool :=
  if bool_decide (ob_signer_verified a.2 = ob_signer_verified b.2) then (ob_last_seen b.2 <=? ob_last_seen a.2)%Z
  else ob_signer_verified a.2.
Definition ObservationPublisher (tenantID : uuid) (sha256 : string) : M db (string * string * bool) :=
  λ d, match order_by by_identity
               (List.filter (λ kv, bool_decide (ob_tenant kv.2 = tenantID) && bool_decide (kv.1.1.2 = sha256))
                  (map_to_list (observations d))) with
       | (_, r) :: _ => (d, Ok (ob_signer_tbs r, ob_signer r, ob_signer_verified r))
       | [] => (d, Err ErrNotFound)
       end.

(** A zero time is replaced by the clock's. *)
Definition at_or (now t : time) : time := if bool_decide (t = 0%Z) then now else t.

(** A batch sent outside a transaction runs as one: either all rows or none. *)
Definition RecordBlockEvents (tenantID deviceID : uuid) (events : list BlockReport) (now : time) : M db unit :=
  transaction (for_each events (λ e, stmt (λ d,
    if negb (has_tenant tenantID d) || bool_decide (devices d !! deviceID = None) then (d, Err PgForeignKey)
    else (set_block_events (block_events d ++
            [((serial d + 1)%N, mkBlockEvent tenantID deviceID (br_sha256 e) (br_path e) (br_signer e) (br_signer_tbs e)
                (br_signer_verified e) (br_blocked e) (at_or now (br_at e)))]) (set_serial (serial d + 1) d), Ok tt)))).

Definition ListBlockEvents (tenantID : uuid) (limit : nat) (d : db) : list (N * BlockEvent) :=
  take limit (order_by (λ a b, (be_at b.2 <=? be_at a.2)%Z)
    (List.filter (λ kv, bool_decide (be_tenant kv.2 = tenantID)) (block_events d))).

(** ** events.go *)

Record DeviceReport := mkDeviceReport { dr_kind : string; dr_summary : string; dr_at : time }.

Definition RecordDeviceEvents (tenantID deviceID : uuid) (events : list DeviceReport) (now : time) : M db unit :=
  transaction (for_each events (λ e, stmt (λ d,
    if negb (has_tenant tenantID d) || bool_decide (devices d !! deviceID = None) then (d, Err PgForeignKey)
    else (set_device_events (device_events d ++
            [((serial d + 1)%N, mkDeviceEvent tenantID deviceID (dr_kind e) (dr_summary e) (at_or now (dr_at e)))])
            (set_serial (serial d + 1) d), Ok tt)))).

Definition ListDeviceEvents (tenantID : uuid) (kind : string) (limit : nat) (d : db) : list (N * DeviceEvent) :=
  take limit (order_by (λ a b, (de_at b.2 <=? de_at a.2)%Z)
    (List.filter (λ kv, bool_decide (de_tenant kv.2 = tenantID) && (bool_decide (kind = "") || bool_decide (de_kind kv.2 = kind)))
       (device_events d))).

(** ** controls.go *)

Record DeviceControls := mkDeviceControls { USBStorageBlocked : bool; NetworkBlocked : bool; ElevationBlocked : bool }.
(** [None]: inherit from the group. *)
Record DeviceControlOverrides := mkDeviceControlOverrides {
  USBStorageOverride : option bool; NetworkOverride : option bool; ElevationOverride : option bool;
}.
Definition inherit_all : DeviceControlOverrides := mkDeviceControlOverrides None None None.

Definition empty (o : DeviceControlOverrides) : bool :=
  match o with mkDeviceControlOverrides None None None => true | _ => false end.

Definition of_overrides (o : Overrides) : DeviceControlOverrides :=
  mkDeviceControlOverrides (ov_usb_storage_blocked o) (ov_network_blocked o) (ov_elevation_blocked o).
Definition of_controls (c : Controls) : DeviceControls :=
  mkDeviceControls (dc_usb_storage_blocked c) (dc_network_blocked c) (dc_elevation_blocked c).

Definition own_device (tenantID deviceID : uuid) (d : db) : bool :=
  match devices d !! deviceID with Some v => bool_decide (dv_tenant v = tenantID) | None => false end.

Definition GetDeviceOverrides (tenantID deviceID : uuid) : M db DeviceControlOverrides :=
  λ d, if own_device tenantID deviceID d
       then (d, Ok (match device_control_overrides d !! deviceID with Some o => of_overrides o | None => inherit_all end))
       else (d, Err ErrNotFound).

Definition SetDeviceOverrides (tenantID deviceID : uuid) (o : DeviceControlOverrides) : M db unit :=
  λ d,
    if negb (own_device tenantID deviceID d) then (d, Err ErrNotFound)
    else if empty o then
      (set_device_control_overrides
         (filter (λ kv, ¬ (kv.1 = deviceID ∧ ov_tenant kv.2 = tenantID)) (device_control_overrides d)) d, Ok tt)
    else if negb (has_tenant tenantID d) then (d, Err PgForeignKey)
    else
      let t := match device_control_overrides d !! deviceID with Some old => ov_tenant old | None => tenantID end in
      (set_device_control_overrides
         (<[deviceID := mkOverrides t (USBStorageOverride o) (NetworkOverride o) (ElevationOverride o) (pg_now d)]>
            (device_control_overrides d)) d, Ok tt).

Definition SetControls (tenantID groupID : uuid) (c : DeviceControls) : M db unit :=
  λ d,
    let row := mkControls tenantID (USBStorageBlocked c) (NetworkBlocked c) (ElevationBlocked c) (pg_now d) in
    if match device_groups d !! groupID with Some g => bool_decide (gr_tenant g = tenantID) | None => false end then
      match device_controls d !! groupID with
      | Some old =>
          if bool_decide (dc_tenant old = tenantID)
          then (set_device_controls (<[groupID := row]> (device_controls d)) d, Ok tt)
          else (d, Err ErrNotFound)
      | None => (set_device_controls (<[groupID := row]> (device_controls d)) d, Ok tt)
      end
    else (d, Err ErrNotFound).

Definition GetControls (tenantID groupID : uuid) : M db DeviceControls :=
  λ d, match device_controls d !! groupID with
       | Some c => if bool_decide (dc_tenant c = tenantID) then (d, Ok (of_controls c)) else (d, Err ErrNotFound)
       | None => (d, Err ErrNotFound)
       end.

(** [COALESCE(override, group, false)]. *)
Definition coalesce (o g : option bool) : bool := default (default false g) o.

(** The row of the group's controls the join picks: of the device's own tenant. *)
Definition joined_controls (v : Device) (d : db) : option Controls :=
  g ← dv_group v;
  c ← device_controls d !! g;
  if bool_decide (dc_tenant c = dv_tenant v) then Some c else None.

Definition EffectiveControlsForDevice (tenantID deviceID : uuid) : M db DeviceControls :=
  λ d, match devices d !! deviceID with
       | Some v =>
           if bool_decide (dv_tenant v = tenantID) then
             let c := joined_controls v d in
             let o := device_control_overrides d !! deviceID in
             (d, Ok (mkDeviceControls (coalesce (o ≫= ov_usb_storage_blocked) (dc_usb_storage_blocked <$> c))
                       (coalesce (o ≫= ov_network_blocked) (dc_network_blocked <$> c))
                       (coalesce (o ≫= ov_elevation_blocked) (dc_elevation_blocked <$> c))))
           else (d, Err ErrNotFound)
       | None => (d, Err ErrNotFound)
       end.
