(* ===== verification/StoreMetrics.v ===== *)
(** * Metrics, alert rules and alerts in the store

    Models [internal/server/store/metrics.go], the breach onsets of [ratelimit.go] and
    [retention.go]. A float64 is a [spec_float] of the Standard Library; a [real] column
    keeps it at single precision. *)

From Stdlib Require Import SpecFloat.
From stdpp Require Import gmap strings list sorting pretty.
From S2P Require Import Prelude Db StoreCore StorePolicies StoreTelemetry.

(** ** Floating point *)

(** A float at a given precision: rounded to nearest, to infinity when out of range. *)
Definition at_precision (prec emax : Z) (f : spec_float) : spec_float :=
  match f with
  | S754_finite s m e => binary_normalize prec emax (if s then Z.neg m else Z.pos m) e s
  | f => f
  end.
(** What a [real] column makes of a float64: 24 bits, read back as a float64. *)
Definition to_real (f : spec_float) : spec_float := at_precision 53 1024 (at_precision 24 128 f).

(** Go's [x > y] and [x < y]: false on a NaN. (Both sides have 53 bits.) *)
Definition float_gt (x y : spec_float) : bool := SFltb y x.
Definition float_lt (x y : spec_float) : bool := SFltb x y.

(** [m * 2^e] rounded to an integer, ties to even. *)
Definition round_even (m : positive) (e : Z) : Z :=
  if (0 <=? e)%Z then (Z.pos m * 2 ^ e)%Z
  else
    let q := (Z.pos m / 2 ^ (- e))%Z in
    let r2 := (2 * (Z.pos m mod 2 ^ (- e)))%Z in
    if (r2 <? 2 ^ (- e))%Z || (bool_decide (r2 = 2 ^ (- e))%Z && Z.even q) then q else (q + 1)%Z.

(** The verb [%.0f]. *)
Definition fmt_f0 (f : spec_float) : string :=
  match f with
  | S754_nan => "NaN"
  | S754_infinity s => if s then "-Inf" else "+Inf"
  | S754_zero s => if s then "-0" else "0"
  | S754_finite s m e => (if s then "-" else "") +:+ pretty (round_even m e)
  end.

(** ** Metrics *)

Record MetricSample := mkSample { ms_at : time; CPUPct : spec_float; MemPct : spec_float; DiskPct : spec_float }.

Definition RecordMetrics (tenantID deviceID : uuid) (m : MetricSample) (now : time) : M db unit :=
  λ d,
    if negb (has_tenant tenantID d) || bool_decide (devices d !! deviceID = None) then (d, Err PgForeignKey)
    else (set_device_metrics (device_metrics d ++
            [mkMetric tenantID deviceID (at_or now (ms_at m)) (to_real (CPUPct m)) (to_real (MemPct m)) (to_real (DiskPct m))]) d,
          Ok tt).

Definition ListMetrics (tenantID deviceID : uuid) (since : time) (limit : nat) (d : db) : list Metric :=
  take limit (order_by (λ a b, (dm_at b <=? dm_at a)%Z)
    (List.filter (λ m, bool_decide (dm_tenant m = tenantID) && bool_decide (dm_device m = deviceID) && (since <=? dm_at m)%Z)
       (device_metrics d))).

(** ** Alert rules *)

(** The fields of [store.AlertRule] the caller fills in. *)
Record RuleFields := mkRuleFields {
  ru_Name : string; ru_Metric : string; ru_Op : string; ru_Threshold : spec_float; ru_DurationSeconds : Z; ru_Enabled : bool;
}.

Definition metric_ok (m : string) : bool := bool_decide (m = "cpu") || bool_decide (m = "mem") || bool_decide (m = "disk").
Definition op_ok (o : string) : bool := bool_decide (o = "gt") || bool_decide (o = "lt").

(** The [CHECK]s of the table and the range of its [int] column. *)
Definition rule_check {A} (r : RuleFields) (ok : A) : result A :=
  if negb (int4 (ru_DurationSeconds r)) then Err (EMsg "value out of range for int4")
  else if negb (metric_ok (ru_Metric r) && op_ok (ru_Op r)) then Err PgCheck
  else Ok ok.

Definition CreateAlertRule (id tenantID : uuid) (r : RuleFields) : M db uuid :=
  λ d,
    match rule_check r tt with
    | Err e => (d, Err e)
    | Ok _ =>
        if bool_decide (is_Some (alert_rules d !! id)) then (d, Err PgUnique)
        else if negb (has_tenant tenantID d) then (d, Err PgForeignKey)
        else (set_alert_rules (<[id := mkAlertRule tenantID (ru_Name r) (ru_Metric r) (ru_Op r) (to_real (ru_Threshold r))
                                         (ru_DurationSeconds r) (ru_Enabled r) (pg_now d)]> (alert_rules d)) d, Ok id)
    end.

Definition ListAlertRules (tenantID : uuid) (d : db) : list (uuid * AlertRule) :=
  order_by (λ a b, (al_created_at a.2 <=? al_created_at b.2)%Z)
    (List.filter (λ kv, bool_decide (al_tenant kv.2 = tenantID)) (map_to_list (alert_rules d))).
Definition ListEnabledAlertRules (tenantID : uuid) (d : db) : list (uuid * AlertRule) :=
  List.filter (λ kv, al_enabled kv.2) (ListAlertRules tenantID d).

Definition edit_rule (r : RuleFields) (a : AlertRule) : AlertRule :=
  mkAlertRule (al_tenant a) (ru_Name r) (ru_Metric r) (ru_Op r) (to_real (ru_Threshold r)) (ru_DurationSeconds r) (ru_Enabled r)
    (al_created_at a).

Definition UpdateAlertRule (tenantID id : uuid) (r : RuleFields) : M db unit :=
  transaction (
    _ ← stmt (λ d,
      if negb (int4 (ru_DurationSeconds r)) then (d, Err (EMsg "value out of range for int4"))
      else match alert_rules d !! id with
      | Some a =>
          if negb (bool_decide (al_tenant a = tenantID)) then (d, Err ErrNotFound)
          else match rule_check r tt with
          | Err e => (d, Err e)
          | Ok _ => (set_alert_rules (<[id := edit_rule r a]> (alert_rules d)) d, Ok tt)
          end
      | None => (d, Err ErrNotFound)
      end);
    modify (λ d, set_alert_breaches
      (filter (λ kv, ¬ (br_tenant kv.2 = tenantID ∧ kv.1.2 = id)) (alert_breaches d)) d)).

(** Deleting a rule takes its alerts and onsets with it. *)
Definition DeleteAlertRule (tenantID id : uuid) : M db unit :=
  oneRow alert_rules id (λ a, bool_decide (al_tenant a = tenantID))
    (λ _ d, set_alerts (filter (λ kv, at_rule kv.2 ≠ id) (alerts d))
              (set_alert_breaches (filter (λ kv, kv.1.2 ≠ id) (alert_breaches d))
                 (set_alert_rules (delete id (alert_rules d)) d))).

(** ** Alerts *)

Definition unresolved (a : Alert) : bool := bool_decide (at_resolved_at a = None).

Definition open_for (tenantID deviceID ruleID : uuid) (a : Alert) : bool :=
  bool_decide (at_tenant a = tenantID) && bool_decide (at_device a = deviceID) && bool_decide (at_rule a = ruleID) && unresolved a.

Definition OpenAlertFor (tenantID deviceID ruleID : uuid) : M db (N * Alert) :=
  λ d, match find_row (λ _ a, open_for tenantID deviceID ruleID a) (alerts d) with
       | Some r => (d, Ok r)
       | None => (d, Err ErrNotFound)
       end.

(** The partial unique index [alerts_one_open]: an open alert of the device and rule. *)
Definition one_open (deviceID ruleID : uuid) (d : db) : bool :=
  exists_row (λ _ a, bool_decide (at_device a = deviceID) && bool_decide (at_rule a = ruleID) && unresolved a) (alerts d).

(** The foreign keys of alerts and of breach onsets. *)
Definition dangling (tenantID deviceID ruleID : uuid) (d : db) : bool :=
  negb (has_tenant tenantID d) || bool_decide (devices d !! deviceID = None) || bool_decide (alert_rules d !! ruleID = None).

Definition RaiseAlert (tenantID deviceID ruleID : uuid) (metric message : string) (now : time) : M db bool :=
  λ d,
    if one_open deviceID ruleID d then (d, Ok false)
    else if dangling tenantID deviceID ruleID d then (d, Err PgForeignKey)
    else (set_alerts (<[(serial d + 1)%N := mkAlert tenantID deviceID ruleID metric message now None]> (alerts d))
            (set_serial (serial d + 1) d), Ok true).

Definition resolve_alert (tenantID deviceID ruleID : uuid) (now : time) (a : Alert) : Alert :=
  if open_for tenantID deviceID ruleID a then at_set_resolved_at (Some now) a else a.
Definition ResolveAlert (tenantID deviceID ruleID : uuid) (now : time) : M db bool :=
  λ d, (set_alerts (resolve_alert tenantID deviceID ruleID now <$> alerts d) d,
        Ok (bool_decide (count (λ kv, open_for tenantID deviceID ruleID kv.2) (map_to_list (alerts d)) = 1))).

(** Open alerts first, then the latest. *)
Definition by_open (a b : N * Alert) : bool :=
  if bool_decide (unresolved a.2 = unresolved b.2) then (at_at b.2 <=? at_at a.2)%Z else unresolved a.2.
Definition ListAlerts (tenantID : uuid) (limit : nat) (d : db) : list (N * Alert) :=
  take limit (order_by by_open (List.filter (λ kv, bool_decide (at_tenant kv.2 = tenantID)) (map_to_list (alerts d)))).

(** ** ratelimit.go: breach onsets *)

Definition MarkBreach (tenantID deviceID ruleID : uuid) (now : time) : M db time :=
  λ d, match alert_breaches d !! (deviceID, ruleID) with
       | Some b => (d, Ok (br_since b))
       | None =>
           if dangling tenantID deviceID ruleID d then (d, Err PgForeignKey)
           else (set_alert_breaches (<[(deviceID, ruleID) := mkBreach tenantID now]> (alert_breaches d)) d, Ok now)
       end.

Definition ClearBreach (tenantID deviceID ruleID : uuid) : M db unit :=
  modify (λ d, set_alert_breaches
    (filter (λ kv, ¬ (kv.1 = (deviceID, ruleID) ∧ br_tenant kv.2 = tenantID)) (alert_breaches d)) d).

(** ** retention.go *)

Definition old_alert (before : time) (a : Alert) : bool :=
  match at_resolved_at a with Some t => (t <? before)%Z | None => false end.

Definition Retention (before : time) : M db nat :=
  λ d, (set_device_metrics (List.filter (λ m, negb (dm_at m <? before)%Z) (device_metrics d))
         (set_block_events (List.filter (λ e, negb (be_at e.2 <? before)%Z) (block_events d))
           (set_alerts (filter (λ kv, old_alert before kv.2 = false) (alerts d)) d)),
        Ok (count (λ m, (dm_at m <? before)%Z) (device_metrics d)
            + count (λ e, (be_at e.2 <? before)%Z) (block_events d)
            + count (λ kv, old_alert before kv.2) (map_to_list (alerts d)))).

(** ** Examples *)

(** 99.5 and 0.1, from their float64 bits. *)
Definition f99_5 : spec_float := S754_finite false 7001690045677568 (-46).
Definition f0_1 : spec_float := S754_finite false 7205759403792794 (-56).

Example fmt_ties : fmt_f0 f99_5 = "100" ∧ fmt_f0 (S754_finite false 5 (-1)) = "2" ∧ fmt_f0 f0_1 = "0".
Proof. by vm_compute. Qed.
(** A threshold of 0.1 is not kept exactly. *)
Example real_0_1 : to_real f0_1 = S754_finite false 7205759511166976 (-56) ∧ float_gt (to_real f0_1) f0_1 = true.
Proof. by vm_compute. Qed.
