(* ===== verification/StoreRingfence.v ===== *)
(** * Ringfences in the store

    Models [internal/server/store/ringfence.go]: ringfences with their programs and ASR
    protections, their assignment to groups, what a device has to enforce with its content
    hash, and the events devices report. *)

From stdpp Require Import gmap strings list sorting.
From S2P Require Import Prelude GoStr Db World StoreCore StorePolicies.

(** ** Ringfences *)

Definition ringfence_name_taken (tenantID : uuid) (name : string) (except : option uuid) (d : db) : bool :=
  exists_row (λ id r, bool_decide (rf_tenant r = tenantID) && bool_decide (rf_name r = name) &&
                      negb (bool_decide (except = Some id))) (ringfence_policies d).

Definition CreateRingfence (tenantID id : uuid) (name mode : string) : M db unit :=
  let mode := if bool_decide (mode = "") then "audit" else mode in
  map_err conflict (stmt (λ d,
    if negb (policy_mode_ok mode) then (d, Err PgCheck)
    else if bool_decide (is_Some (ringfence_policies d !! id)) || ringfence_name_taken tenantID name None d then (d, Err PgUnique)
    else if negb (has_tenant tenantID d) then (d, Err PgForeignKey)
    else (set_ringfence_policies (<[id := mkRingfencePolicy tenantID name mode (pg_now d)]> (ringfence_policies d)) d, Ok tt))).

(** The row of the tenant, if the ringfence is the tenant's. *)
Definition own_ringfence (tenantID id : uuid) (d : db) : option RingfencePolicy :=
  r ← ringfence_policies d !! id;
  if bool_decide (rf_tenant r = tenantID) then Some r else None.

Lemma own_ringfence_Some t id d r :
  own_ringfence t id d = Some r ↔ ringfence_policies d !! id = Some r ∧ rf_tenant r = t.
Proof.
  unfold own_ringfence. destruct (ringfence_policies d !! id) as [r'|]; simpl; [|naive_solver].
  case_bool_decide; naive_solver.
Qed.

Definition GetRingfence (tenantID id : uuid) : M db RingfencePolicy :=
  λ d, match own_ringfence tenantID id d with Some r => (d, Ok r) | None => (d, Err ErrNotFound) end.

Definition ListRingfences (tenantID : uuid) (d : db) : list (uuid * RingfencePolicy) :=
  order_by (λ a b, String.leb (rf_name a.2) (rf_name b.2))
    (List.filter (λ kv, bool_decide (rf_tenant kv.2 = tenantID)) (map_to_list (ringfence_policies d))).

(** The error of the unique index is not mapped. *)
Definition RenameRingfence (tenantID id : uuid) (name : string) : M db unit :=
  λ d, match own_ringfence tenantID id d with
       | None => (d, Err ErrNotFound)
       | Some r =>
           if ringfence_name_taken tenantID name (Some id) d then (d, Err PgUnique)
           else (set_ringfence_policies (<[id := rf_set_name name r]> (ringfence_policies d)) d, Ok tt)
       end.

Definition SetRingfenceMode (tenantID id : uuid) (mode : string) : M db unit :=
  λ d, match own_ringfence tenantID id d with
       | None => (d, Err ErrNotFound)
       | Some r =>
           if negb (policy_mode_ok mode) then (d, Err PgCheck)
           else (set_ringfence_policies (<[id := rf_set_mode mode r]> (ringfence_policies d)) d, Ok tt)
       end.

(** Programs, protections and assignments go with their ringfence. *)
Definition cascade_ringfence (id : uuid) (d : db) : db :=
  set_ringfence_programs (filter (λ kv, rp_ringfence kv.2 ≠ id) (ringfence_programs d))
    (set_ringfence_protections (filter (λ kv, kv.1.1 ≠ id) (ringfence_protections d))
      (set_ringfence_assignments (filter (λ kv, ra_ringfence kv.2 ≠ id) (ringfence_assignments d)) d)).
Definition DeleteRingfence (tenantID id : uuid) : M db unit :=
  oneRow ringfence_policies id (λ r, bool_decide (rf_tenant r = tenantID))
    (λ _ d, cascade_ringfence id (set_ringfence_policies (delete id (ringfence_policies d)) d)).

(** ** Programs and protections *)

Definition program_taken (ringfenceID : uuid) (path : string) (d : db) : bool :=
  exists_row (λ _ p, bool_decide (rp_ringfence p = ringfenceID) && bool_decide (rp_path p = path)) (ringfence_programs d).

Definition AddRingfenceProgram (tenantID ringfenceID id : uuid) (path : string) (network_blocked : bool) (note : string) : M db unit :=
  map_err conflict (stmt (λ d,
    match own_ringfence tenantID ringfenceID d with
    | None => (d, Err ErrNotFound)
    | Some _ =>
        if bool_decide (is_Some (ringfence_programs d !! id)) || program_taken ringfenceID path d then (d, Err PgUnique)
        else if negb (has_tenant tenantID d) then (d, Err PgForeignKey)
        else (set_ringfence_programs (<[id := mkRingfenceProgram tenantID ringfenceID path network_blocked note]>
                (ringfence_programs d)) d, Ok tt)
    end)).

Definition DeleteRingfenceProgram (tenantID ringfenceID programID : uuid) : M db unit :=
  oneRow ringfence_programs programID (λ p, bool_decide (rp_tenant p = tenantID) && bool_decide (rp_ringfence p = ringfenceID))
    (λ _ d, set_ringfence_programs (delete programID (ringfence_programs d)) d).

Definition ListRingfencePrograms (tenantID ringfenceID : uuid) (d : db) : list (uuid * RingfenceProgram) :=
  order_by (λ a b, String.leb (rp_path a.2) (rp_path b.2))
    (List.filter (λ kv, bool_decide (rp_tenant kv.2 = tenantID) && bool_decide (rp_ringfence kv.2 = ringfenceID))
       (map_to_list (ringfence_programs d))).

Definition action_ok (a : string) : bool := bool_decide (a = "audit") || bool_decide (a = "block").

Definition SetRingfenceProtection (tenantID ringfenceID : uuid) (asrRule action : string) : M db unit :=
  let k := (ringfenceID, asrRule) in
  if bool_decide (action = "off") then
    modify (λ d, set_ringfence_protections (filter (λ kv, ¬ (kv.1 = k ∧ rt_tenant kv.2 = tenantID)) (ringfence_protections d)) d)
  else map_err conflict (stmt (λ d,
    match own_ringfence tenantID ringfenceID d with
    | None => (d, Err ErrNotFound)
    | Some _ =>
        if negb (action_ok action) then (d, Err PgCheck)
        else match ringfence_protections d !! k with
        | Some old => (set_ringfence_protections (<[k := rt_set_action action old]> (ringfence_protections d)) d, Ok tt)
        | None =>
            if negb (has_tenant tenantID d) then (d, Err PgForeignKey)
            else (set_ringfence_protections (<[k := mkRingfenceProtection tenantID action]> (ringfence_protections d)) d, Ok tt)
        end
    end)).

Definition ListRingfenceProtections (tenantID ringfenceID : uuid) (d : db) : list ((uuid * string) * RingfenceProtection) :=
  order_by (λ a b, String.leb a.1.2 b.1.2)
    (List.filter (λ kv, bool_decide (rt_tenant kv.2 = tenantID) && bool_decide (kv.1.1 = ringfenceID))
       (map_to_list (ringfence_protections d))).

(** ** Assignment *)

Definition own_group (tenantID id : uuid) (d : db) : bool :=
  match device_groups d !! id with Some g => bool_decide (gr_tenant g = tenantID) | None => false end.

Definition AssignRingfence (tenantID groupID ringfenceID : uuid) : M db unit :=
  map_err conflict (stmt (λ d,
    if negb (own_group tenantID groupID d) || bool_decide (own_ringfence tenantID ringfenceID d = None)
    then (d, Err ErrNotFound)
    else match ringfence_assignments d !! groupID with
    | Some old =>
        if bool_decide (ra_tenant old = tenantID)
        then (set_ringfence_assignments (<[groupID := ra_set_ringfence ringfenceID old]> (ringfence_assignments d)) d, Ok tt)
        else (d, Err ErrNotFound)
    | None =>
        if negb (has_tenant tenantID d) then (d, Err PgForeignKey)
        else (set_ringfence_assignments (<[groupID := mkRingfenceAssignment tenantID ringfenceID]> (ringfence_assignments d)) d, Ok tt)
    end)).

Definition UnassignRingfence (tenantID groupID : uuid) : M db unit :=
  oneRow ringfence_assignments groupID (λ a, bool_decide (ra_tenant a = tenantID))
    (λ _ d, set_ringfence_assignments (delete groupID (ringfence_assignments d)) d).

Definition GroupRingfenceID (tenantID groupID : uuid) : M db uuid :=
  λ d, match ringfence_assignments d !! groupID with
       | Some a => if bool_decide (ra_tenant a = tenantID) then (d, Ok (ra_ringfence a)) else (d, Err ErrNotFound)
       | None => (d, Err ErrNotFound)
       end.

(** The names of the groups a ringfence is applied to, in order. *)
Definition assigned_groups (tenantID : uuid) (d : db) : list (uuid * string) :=
  order_by (λ a b, String.leb a.2 b.2)
    (omap (λ kv : uuid * RingfenceAssignment,
       g ← device_groups d !! kv.1;
       if bool_decide (ra_tenant kv.2 = tenantID) && bool_decide (gr_tenant g = ra_tenant kv.2)
       then Some (ra_ringfence kv.2, gr_name g) else None) (map_to_list (ringfence_assignments d))).
Definition RingfenceAssignedGroups (tenantID id : uuid) (d : db) : list string :=
  snd <$> List.filter (λ ig, bool_decide (ig.1 = id)) (assigned_groups tenantID d).

(** The join of devices, assignments and ringfences. *)
Definition device_ringfence (tenantID deviceID : uuid) (d : db) : option (uuid * RingfencePolicy) :=
  v ← devices d !! deviceID;
  if negb (bool_decide (dv_tenant v = tenantID)) then None
  else
    g ← dv_group v;
    a ← ringfence_assignments d !! g;
    if negb (bool_decide (ra_tenant a = dv_tenant v)) then None
    else r ← own_ringfence tenantID (ra_ringfence a) d; Some (ra_ringfence a, r).
Definition DeviceRingfence (tenantID deviceID : uuid) : M db (uuid * RingfencePolicy) :=
  λ d, match device_ringfence tenantID deviceID d with Some r => (d, Ok r) | None => (d, Err ErrNotFound) end.

(** ** What a device enforces *)

Record ResolvedRingfence := mkResolved {
  rr_Version : string; rr_Mode : string;
  rr_Programs : list (string * bool);       (* path, network blocked *)
  rr_Protections : list (string * string);  (* ASR rule, action *)
}.

Section version.
Context `{Hasher}.

Definition program_line (p : string * bool) : string :=
  "prog=" +:+ p.1 +:+ "|" +:+ (if p.2 then "true" else "false") +:+ nl.
Definition protection_line (p : string * string) : string := "prot=" +:+ p.1 +:+ "|" +:+ p.2 +:+ nl.

Definition lines (ls : list string) : string := foldr String.append "" ls.
(** What [ringfenceVersion] hashes. *)
Definition version_text (mode : string) (programs : list (string * bool)) (protections : list (string * string)) : string :=
  "mode=" +:+ mode +:+ nl +:+ lines (program_line <$> programs) +:+ lines (protection_line <$> protections).
Definition ringfenceVersion (mode : string) (programs : list (string * bool)) (protections : list (string * string)) : string :=
  String.substring 0 32 (sha256_hex (version_text mode programs protections)).

Definition programs_of (tenantID id : uuid) (d : db) : list (string * bool) :=
  (λ kv, (rp_path kv.2, rp_network_blocked kv.2)) <$> ListRingfencePrograms tenantID id d.
Definition protections_of (tenantID id : uuid) (d : db) : list (string * string) :=
  (λ kv, (kv.1.2, rt_action kv.2)) <$> ListRingfenceProtections tenantID id d.

Definition RingfenceForDevice (tenantID deviceID : uuid) : M db ResolvedRingfence :=
  λ d, match device_ringfence tenantID deviceID d with
       | None => (d, Err ErrNotFound)
       | Some (id, r) =>
           let programs := programs_of tenantID id d in
           let protections := protections_of tenantID id d in
           (d, Ok (mkResolved (ringfenceVersion (rf_mode r) programs protections) (rf_mode r) programs protections))
       end.
End version.

(** ** Events *)

Record RingfenceEvent := mkRingfenceEvent { ve_Kind : string; ve_Program : string; ve_Detail : string; ve_Enforced : bool; ve_At : time }.

Definition event_kind_ok (k : string) : bool := bool_decide (k = "network") || bool_decide (k = "child_process").

Definition AppendRingfenceEvents (tenantID deviceID : uuid) (evs : list RingfenceEvent) : M db unit :=
  transaction (for_each evs (λ e, stmt (λ d,
    if negb (event_kind_ok (ve_Kind e)) then (d, Err PgCheck)
    else if negb (has_tenant tenantID d) || bool_decide (devices d !! deviceID = None) then (d, Err PgForeignKey)
    else (set_ringfence_events (ringfence_events d ++
            [((serial d + 1)%N, mkRingfenceEventRow tenantID deviceID (ve_Kind e) (ve_Program e) (ve_Detail e) (ve_Enforced e) (ve_At e))])
            (set_serial (serial d + 1) d), Ok tt)))).

(** With the hostname of the device; [None]: every device. *)
Definition ListRingfenceEvents (tenantID : uuid) (limit : nat) (deviceID : option uuid) (d : db) : list (N * RingfenceEventRow * string) :=
  take limit (order_by (λ a b, (re_at b.1.2 <=? re_at a.1.2)%Z)
    (omap (λ e : N * RingfenceEventRow,
       v ← devices d !! re_device e.2;
       if bool_decide (re_tenant e.2 = tenantID) && match deviceID with Some i => bool_decide (re_device e.2 = i) | None => true end
       then Some (e, dv_hostname v) else None) (ringfence_events d))).
