(* ===== verification/StoreAdmins.v ===== *)
(** * Administrators, sessions and login failures in the store

    Models [internal/server/store/admins.go] and the login failures of [ratelimit.go]. *)

From stdpp Require Import gmap strings list sorting.
From S2P Require Import Prelude GoStr Db StoreCore.

(** ** Administrators *)

Definition role_ok (r : string) : bool := bool_decide (r ∈ ["owner"; "admin"; "readonly"]).

(** [UNIQUE (email)], over all tenants. *)
Definition email_taken (email : string) (d : db) : bool :=
  exists_row (λ _ a, bool_decide (ad_email a = email)) (admins d).

(** The fields of [store.Admin] a creation uses. *)
Record NewAdmin := mkNewAdmin { na_Email : string; na_PasswordHash : string; na_Role : string; na_Provider : bool }.

Definition CreateAdmin (id tenantID : uuid) (a : NewAdmin) : M db uuid :=
  map_err conflict (stmt (λ d,
    let email := ToLower (na_Email a) in
    if negb (role_ok (na_Role a)) then (d, Err PgCheck)
    else if bool_decide (is_Some (admins d !! id)) || email_taken email d then (d, Err PgUnique)
    else if negb (has_tenant tenantID d) then (d, Err PgForeignKey)
    else (set_admins (<[id := mkAdmin tenantID email (na_PasswordHash a) None false (na_Role a) false (na_Provider a) (pg_now d)]>
            (admins d)) d, Ok id))).

Definition GetAdmin (tenantID id : uuid) : M db Admin :=
  λ d, match admins d !! id with
       | Some a => if bool_decide (ad_tenant a = tenantID) then (d, Ok a) else (d, Err ErrNotFound)
       | None => (d, Err ErrNotFound)
       end.

Definition GetAdminByEmail (tenantID : uuid) (email : string) : M db (uuid * Admin) :=
  λ d, match find_row (λ _ a, bool_decide (ad_tenant a = tenantID) && bool_decide (ad_email a = ToLower email)) (admins d) with
       | Some r => (d, Ok r)
       | None => (d, Err ErrNotFound)
       end.

Definition GetAdminByEmailGlobal (email : string) : M db (uuid * Admin) :=
  λ d, match find_row (λ _ a, bool_decide (ad_email a = ToLower email)) (admins d) with
       | Some r => (d, Ok r)
       | None => (d, Err ErrNotFound)
       end.

Definition ListAdmins (tenantID : uuid) (d : db) : list (uuid * Admin) :=
  order_by (λ a b, String.leb (ad_email a.2) (ad_email b.2))
    (List.filter (λ kv, bool_decide (ad_tenant kv.2 = tenantID)) (map_to_list (admins d))).

(** [UPDATE admins SET … WHERE tenant_id = $1 AND id = $2]. *)
Definition upd_admin (tenantID id : uuid) (f : Admin → Admin) : M db unit :=
  oneRow admins id (λ a, bool_decide (ad_tenant a = tenantID)) (λ a d, set_admins (<[id := f a]> (admins d)) d).

Definition SetAdminTOTP (tenantID id : uuid) (secretEnc : option string) (confirmed : bool) : M db unit :=
  upd_admin tenantID id (λ a, ad_set_totp_secret_enc secretEnc (ad_set_totp_confirmed confirmed a)).
Definition SetAdminDisabled (tenantID id : uuid) (disabled : bool) : M db unit :=
  upd_admin tenantID id (ad_set_disabled disabled).
Definition SetAdminRole (tenantID id : uuid) (role : string) : M db unit :=
  λ d, match admins d !! id with
       | Some a =>
           if negb (bool_decide (ad_tenant a = tenantID)) then (d, Err ErrNotFound)
           else if negb (role_ok role) then (d, Err PgCheck)
           else (set_admins (<[id := ad_set_role role a]> (admins d)) d, Ok tt)
       | None => (d, Err ErrNotFound)
       end.

(** ** Sessions *)

Definition CreateSession (id : string) (s : Session) : M db unit :=
  λ d,
    if bool_decide (is_Some (sessions d !! id)) then (d, Err PgUnique)
    else if negb (has_tenant (se_tenant s) d) || bool_decide (admins d !! se_admin s = None) then (d, Err PgForeignKey)
    else (set_sessions (<[id := s]> (sessions d)) d, Ok tt).

Definition GetSession (id : string) (now : time) : M db Session :=
  λ d, match sessions d !! id with
       | Some s => if (now <? se_expires_at s)%Z then (d, Ok s) else (d, Err ErrNotFound)
       | None => (d, Err ErrNotFound)
       end.

Definition MarkSessionMFA (id : string) : M db unit :=
  oneRow sessions id (λ _, true) (λ s d, set_sessions (<[id := se_set_mfa_passed true s]> (sessions d)) d).
Definition DeleteSession (id : string) : M db unit := modify (λ d, set_sessions (delete id (sessions d)) d).
Definition DeleteAdminSessions (tenantID adminID : uuid) : M db unit :=
  modify (λ d, set_sessions (filter (λ kv, ¬ (se_tenant kv.2 = tenantID ∧ se_admin kv.2 = adminID)) (sessions d)) d).

(** ** ratelimit.go: login failures *)

Definition RecordLoginFailure (tenantID : uuid) (key : string) (at_ : time) : M db unit :=
  λ d, if negb (has_tenant tenantID d) then (d, Err PgForeignKey)
       else (set_login_failures (login_failures d ++ [mkLoginFailure tenantID key at_]) d, Ok tt).

Definition failure_of (tenantID : uuid) (key : string) (f : LoginFailure) : bool :=
  bool_decide (lf_tenant f = tenantID) && bool_decide (lf_key f = key).
Definition CountLoginFailures (tenantID : uuid) (key : string) (since : time) : M db nat :=
  gets (λ d, count (λ f, failure_of tenantID key f && (since <=? lf_at f)%Z) (login_failures d)).
Definition ClearLoginFailures (tenantID : uuid) (key : string) : M db unit :=
  modify (λ d, set_login_failures (List.filter (λ f, negb (failure_of tenantID key f)) (login_failures d)) d).
Definition PruneLoginFailures (before : time) : M db nat :=
  λ d, (set_login_failures (List.filter (λ f, negb (lf_at f <? before)%Z) (login_failures d)) d,
        Ok (count (λ f, (lf_at f <? before)%Z) (login_failures d))).
