(* ===== verification/Policies.v ===== *)
(** * Policies: compiling, resolving, approving

    Models [internal/server/policysvc/policysvc.go] and the console handlers of
    [internal/server/httpapi/policies.go] and [approvals.go]: turning a policy's rules
    into a signed WDAC version, finding the version a device must apply, and
    deciding approval requests. *)

From stdpp Require Import gmap strings list sorting.
From S2P Require Import Prelude GoStr Rules Wdac Db Hub World StoreCore Commands Http StorePolicies.

Definition ContentHash `{Hasher} (xml : string) : string := sha256_hex xml.

Section policysvc.
Context `{UuidText, UuidSource, Crypto, Hasher}.
(** [sort.Slice] and the keys of a tenant. *)
Context (sort : ∀ A, (A → A → bool) → list A → list A) (keys : uuid → result Keys).

Definition to_rule (r : PolicyRule) : Rule := mkRule (pr_kind r) (pr_value r) (pr_publisher_name r) (pr_description r).

(** [Compile] and [ContentHash] of a mode and rules, and the signed hash. *)
Definition compiled (mode : string) (rs : list Rule) : result (string * string) :=
  match Compile sort (mkPolicy mode rs) with
  | Ok xml => Ok (ContentHash xml, xml)
  | Err e => Err e
  end.
Definition sign_version (k : Keys) (version : string) : string := ed_sign (UpdateKey k) version.

Definition Recompile (tenantID policyID : uuid) : M db string :=
  p ← GetPolicy tenantID policyID;
  stored ← gets (ListRules tenantID policyID);
  vx ← match compiled (po_mode p) ((λ kv, to_rule kv.2) <$> stored) with
       | Ok vx => mret vx
       | Err e => fail (EWrap "compile policy" e)
       end;
  k ← of_result (keys tenantID);
  _ ← PutPolicyVersion tenantID policyID vx.1 (po_mode p) vx.2 (sign_version k vx.1);
  mret vx.1.

(** [RecompileAll]: how many succeeded, and the first error. *)
Fixpoint recompile_list (tenantID : uuid) (ps : list (uuid * AppPolicy)) (n : nat) (first : option err) : M db (nat * option err) :=
  match ps with
  | [] => mret (n, first)
  | p :: ps' =>
      r ← attempt (Recompile tenantID p.1);
      match r with
      | Ok _ => recompile_list tenantID ps' (S n) first
      | Err e =>
          recompile_list tenantID ps' n
            (match first with
             | None => Some (EWrap ("recompile policy " +:+ po_name p.2) e)
             | Some e0 => Some e0
             end)
      end
  end.
Definition RecompileAll (tenantID : uuid) : M db (nat * option err) :=
  ps ← gets (ListPolicies tenantID);
  recompile_list tenantID ps 0 None.

(** [policysvc.Effective]. *)
Record Effective := mkEffective { ef_Version : string; ef_Mode : string; ef_XML : string; ef_Signature : string }.

Definition denyAll (tenantID : uuid) : M db Effective :=
  vx ← of_result (compiled "audit" []);
  k ← of_result (keys tenantID);
  mret (mkEffective vx.1 "audit" vx.2 (sign_version k vx.1)).

Definition Effective_for (tenantID deviceID : uuid) : M db Effective :=
  r ← attempt (EffectivePolicyForDevice tenantID deviceID);
  match r with
  | Ok (_, version, v) => mret (mkEffective version (pv_mode v) (pv_xml v) (pv_signature v))
  | Err ErrNotFound => denyAll tenantID
  | Err e => fail e
  end.

Definition Verify_policy (pub version signature : string) : bool := ed_verify pub version signature.

(** ** httpapi/policies.go *)

Definition policyJSON (kp : uuid * AppPolicy) : json :=
  JO [("id", JS (uuid_string kp.1)); ("name", JS (po_name kp.2)); ("mode", JS (po_mode kp.2));
      ("created_at", jtime (po_created_at kp.2))].

Definition listPolicies (p : principal) : M world response :=
  ps ← gets (λ w, ListPolicies (p_tenant p) (w_db w));
  writeJSON 200 (JA (policyJSON <$> ps)).

Definition createPolicy (p : principal) (name mode : string) : M world response :=
  let name := TrimSpace name in
  if bool_decide (name = "") then writeErr 400 "name is required"
  else if negb (bool_decide (mode = "")) && negb (policy_mode_ok mode) then writeErr 400 "mode must be audit or enforce"
  else
    id ← uuid_New;
    or_storeErr (on_db (CreatePolicy id (p_tenant p) name mode)) (λ id,
      _ ← attempt (on_db (Recompile (p_tenant p) id));
      _ ← audit p "policy.create" "policy" (uuid_string id) [("name", JStr name)] "success";
      writeJSON 201 (JO [("id", JS (uuid_string id))])).

Definition getPolicy (p : principal) (rawID : string) : M world response :=
  with_pathID rawID (λ id,
    or_storeErr (on_db (GetPolicy (p_tenant p) id)) (λ pol,
      rs ← gets (λ w, ListRules (p_tenant p) id (w_db w));
      v ← attempt (on_db (LatestPolicyVersion (p_tenant p) id));
      writeJSON 200 (JO [("policy", policyJSON (id, pol));
        ("rules", JA ((λ kr : uuid * PolicyRule,
           JO [("id", JS (uuid_string kr.1)); ("kind", JS (pr_kind kr.2)); ("value", JS (pr_value kr.2));
               ("publisher_name", JS (pr_publisher_name kr.2)); ("description", JS (pr_description kr.2))]) <$> rs));
        ("version", JS (match v with Ok (version, _) => version | Err _ => "" end))]))).

Definition setPolicyMode (p : principal) (rawID mode : string) : M world response :=
  with_pathID rawID (λ id,
    if negb (policy_mode_ok mode) then writeErr 400 "mode must be audit or enforce"
    else or_storeErr (on_db (SetPolicyMode (p_tenant p) id mode)) (λ _,
      _ ← attempt (on_db (Recompile (p_tenant p) id));
      _ ← audit p "policy.set_mode" "policy" (uuid_string id) [("mode", JStr mode)] "success";
      writeHeader 204)).

Definition deletePolicy (p : principal) (rawID : string) : M world response :=
  with_pathID rawID (λ id,
    or_storeErr (on_db (DeletePolicy (p_tenant p) id)) (λ _,
      _ ← audit p "policy.delete" "policy" (uuid_string id) [] "success";
      writeHeader 204)).

Definition text_of (r : Rule) : RuleText := mkRuleText (Kind r) (Value r) (PublisherName r) (Description r).

Definition addRule (p : principal) (rawID : string) (req : Rule) : M world response :=
  with_pathID rawID (λ id,
    match Normalize req with
    | Err e => writeErrOf 400 e
    | Ok norm =>
        rid ← uuid_New;
        or_storeErr (on_db (AddRule rid (p_tenant p) id (text_of norm) (Some (p_admin p)))) (λ rid,
          or_storeErr (on_db (Recompile (p_tenant p) id)) (λ version,
            _ ← audit p "policy.add_rule" "policy" (uuid_string id) [("kind", JStr (Kind norm)); ("value", JStr (Value norm))] "success";
            writeJSON 201 (JO [("id", JS (uuid_string rid)); ("version", JS version)])))
    end).

Definition deleteRule (p : principal) (rawID rawRule : string) : M world response :=
  with_pathID rawID (λ id,
    match uuid_parse rawRule with
    | None => writeErr 400 "invalid rule id"
    | Some ruleID =>
        or_storeErr (on_db (DeleteRule (p_tenant p) id ruleID)) (λ _,
          _ ← attempt (on_db (Recompile (p_tenant p) id));
          _ ← audit p "policy.delete_rule" "policy" (uuid_string id) [("rule_id", JStr (uuid_string ruleID))] "success";
          writeHeader 204)
    end).

Definition assignPolicy (p : principal) (rawID rawGroup : string) : M world response :=
  with_pathID rawID (λ id,
    match uuid_parse rawGroup with
    | None => writeErr 400 "invalid group_id"
    | Some gid =>
        or_storeErr (on_db (AssignPolicy (p_tenant p) gid id)) (λ _,
          _ ← audit p "policy.assign" "policy" (uuid_string id) [("group_id", JStr (uuid_string gid))] "success";
          writeHeader 204)
    end).

Definition recompilePolicy (p : principal) (rawID : string) : M world response :=
  with_pathID rawID (λ id,
    or_storeErr (on_db (Recompile (p_tenant p) id)) (λ version, writeJSON 200 (JO [("version", JS version)]))).

(** [addPolicyRule]: an identical rule already there is not an error. *)
Definition addPolicyRule (p : principal) (policyID : uuid) (rule : Rule) : M world string :=
  rid ← uuid_New;
  r ← attempt (on_db (AddRule rid (p_tenant p) policyID (text_of rule) (Some (p_admin p))));
  match r with
  | Err e => if is_err ErrConflict e then on_db (Recompile (p_tenant p) policyID) else fail e
  | Ok _ => on_db (Recompile (p_tenant p) policyID)
  end.

(** ** httpapi/approvals.go *)

Definition toApprovalJSON (d : db) (kr : uuid * ApprovalRequest) : json :=
  let r := kr.2 in
  JO [("id", JS (uuid_string kr.1)); ("policy_id", JS (uuid_string (ar_policy r)));
      ("policy_name", JS (match policies d !! ar_policy r with Some p => po_name p | None => "" end));
      ("sha256", JS (ar_sha256 r)); ("path", JS (ar_path r)); ("signer", JS (ar_signer r));
      ("signer_tbs", JS (ar_signer_tbs r)); ("signer_verified", JB (ar_signer_verified r)); ("status", JS (ar_status r));
      ("device_count", JN (ar_device_count r)); ("event_count", JN (ar_event_count r));
      ("first_seen", jtime (ar_first_seen r)); ("last_seen", jtime (ar_last_seen r)); ("decided_at", jopt jtime (ar_decided_at r))].

Definition approval_statuses : list string := [""; "pending"; "approved"; "denied"; "expired"].

Definition listApprovals (p : principal) (status : string) (limit : option Z) : M world response :=
  if bool_decide (status ∈ approval_statuses) then
    d ← gets w_db;
    writeJSON 200 (JA (toApprovalJSON d <$> ListApprovalRequests (p_tenant p) status (Z.to_nat (queryInt limit 200 1000)) d))
  else writeErr 400 "status must be pending, approved, denied, or expired".

Definition countApprovals (p : principal) : M world response :=
  n ← gets (λ w, CountPendingApprovals (p_tenant p) (w_db w));
  writeJSON 200 (JO [("pending", JN (Z.of_nat n))]).

(** The rule an approval asks for, by the body's [kind], or the message of the 400. *)
Definition approval_rule (id : uuid) (req : ApprovalRequest) (kind : string) : Rule + string :=
  let rule k v pub := mkRule k v pub ("approved from request " +:+ uuid_string id +:+ " (" +:+ ar_path req +:+ ")") in
  if bool_decide (kind = "") || bool_decide (kind = "hash") then inl (rule Hash (ar_sha256 req) "")
  else if bool_decide (kind = "path") then
    if bool_decide (ar_path req = "") then inr "cannot approve by path: this request has no path"
    else inl (rule Path (ar_path req) "")
  else if bool_decide (kind = "publisher") then
    if bool_decide (ar_signer_tbs req = "") || negb (ar_signer_verified req)
    then inr "cannot approve by publisher: no verified signature for this program"
    else inl (rule Publisher (ar_signer_tbs req) (ar_signer req))
  else inr "kind must be hash, path, or publisher".

(** The last part of [decideApproval]. *)
Definition record_decision (p : principal) (id : uuid) (req : ApprovalRequest) (status : string) (kind : string)
    : M world response :=
  t ← now;
  r ← attempt (on_db (DecideApprovalRequest (p_tenant p) id status (p_admin p) t));
  match r with
  | Err e => if is_err ErrConflict e then writeErr 409 "request already decided" else storeErr e
  | Ok _ =>
      _ ← audit p (if bool_decide (status = "denied") then "approval.deny" else "approval.approve") "approval" (uuid_string id)
            ([("policy_id", JStr (uuid_string (ar_policy req))); ("sha256", JStr (ar_sha256 req))] ++
             (if bool_decide (status = "approved") then [("kind", JStr kind)] else [])) "success";
      writeHeader 204
  end.

Definition decideApproval (p : principal) (rawID : string) (kind : string) (status : string) : M world response :=
  with_pathID rawID (λ id,
    or_storeErr (on_db (GetApprovalRequest (p_tenant p) id)) (λ req,
      if negb (bool_decide (ar_status req = "pending")) then writeErr 409 "request already decided"
      else if bool_decide (status = "approved") then
        match approval_rule id req kind with
        | inr msg => writeErr 400 msg
        | inl rule =>
            match Normalize rule with
            | Err e => writeErrOf 400 e
            | Ok norm => or_storeErr (addPolicyRule p (ar_policy req) norm) (λ _, record_decision p id req status (Kind norm))
            end
        end
      else record_decision p id req status Hash)).

Definition approveApproval (p : principal) (rawID kind : string) := decideApproval p rawID kind "approved".
Definition denyApproval (p : principal) (rawID : string) := decideApproval p rawID "" "denied".
End policysvc.
