(* ===== verification/Telemetry.v ===== *)
(** * Learning, blocks and device controls in the console

    Models the handlers of [internal/server/httpapi/telemetry.go] for device controls
    and device events, and those of [policies.go] for learning observations and block
    events; and shows that controls never cross tenants. *)

From stdpp Require Import gmap strings list.
From S2P Require Import Prelude GoStr Rules Wdac Db Hub World StoreCore Commands Http StorePolicies StoreTelemetry Policies.

Section telemetry.
Context `{UuidText, UuidSource, Crypto, Hasher}.
Context (sort : ∀ A, (A → A → bool) → list A → list A) (keys : uuid → result Keys).

(** ** Observations and blocks *)

Definition observationJSON (kv : (uuid * string * string) * Observation) : json :=
  let '((_, sha256, path), o) := kv in
  JO [("sha256", JS sha256); ("path", JS path); ("signer", JS (ob_signer o)); ("signer_tbs", JS (ob_signer_tbs o));
      ("signer_verified", JB (ob_signer_verified o)); ("count", JN (ob_count o)); ("first_seen", jtime (ob_first_seen o));
      ("last_seen", jtime (ob_last_seen o)); ("downloaded", jopt JB (ob_downloaded o)); ("download_source", JS (ob_download_source o))].

Definition listObservations (p : principal) (rawID : string) (limit : option Z) : M world response :=
  with_pathID rawID (λ id,
    obs ← gets (λ w, ListObservations (p_tenant p) id (Z.to_nat (queryInt limit 200 1000)) (w_db w));
    writeJSON 200 (JA (observationJSON <$> obs))).

(** The rule a promotion asks for: by hash, or by the publisher the store has seen. *)
Definition promoted_rule (p : principal) (sha256 kind description : string) (k : Rule → M world response) : M world response :=
  if bool_decide (kind = "") || bool_decide (kind = "hash") then k (mkRule Hash sha256 "" description)
  else if bool_decide (kind = "publisher") then
    or_storeErr (on_db (ObservationPublisher (p_tenant p) sha256)) (λ '(tbs, name, verified),
      if bool_decide (tbs = "") || negb verified
      then writeErr 400 "this program has no verified publisher; allow it by hash instead"
      else k (mkRule Publisher tbs name description))
  else writeErr 400 "kind must be hash or publisher".

Definition promoteObservation (p : principal) (policy_id sha256 kind description : string) : M world response :=
  match uuid_parse policy_id with
  | None => writeErr 400 "invalid policy_id"
  | Some pid =>
      promoted_rule p sha256 kind description (λ rule,
        match Normalize rule with
        | Err e => writeErrOf 400 e
        | Ok norm =>
            or_storeErr (addPolicyRule sort keys p pid norm) (λ version,
              _ ← audit p "policy.add_rule" "policy" (uuid_string pid)
                    [("kind", JStr (Kind norm)); ("value", JStr (Value norm)); ("via", JStr "learning")] "success";
              writeJSON 201 (JO [("version", JS version)]))
        end)
  end.

Definition blockJSON (kv : N * BlockEvent) : json :=
  let e := kv.2 in
  JO [("id", JN (Z.of_N kv.1)); ("device_id", JS (uuid_string (be_device e))); ("sha256", JS (be_sha256 e)); ("path", JS (be_path e));
      ("signer", JS (be_signer e)); ("signer_tbs", JS (be_signer_tbs e)); ("signer_verified", JB (be_signer_verified e));
      ("blocked", JB (be_blocked e)); ("at", jtime (be_at e))].

Definition listBlocks (p : principal) (limit : option Z) : M world response :=
  events ← gets (λ w, ListBlockEvents (p_tenant p) (Z.to_nat (queryInt limit 200 1000)) (w_db w));
  writeJSON 200 (JA (blockJSON <$> events)).

(** ** Controls *)

Definition controlsJSON (c : DeviceControls) : json :=
  JO [("usb_storage_blocked", JB (USBStorageBlocked c)); ("network_blocked", JB (NetworkBlocked c));
      ("elevation_blocked", JB (ElevationBlocked c))].
Definition overridesJSON (o : DeviceControlOverrides) : json :=
  JO [("usb_storage_blocked", jopt JB (USBStorageOverride o)); ("network_blocked", jopt JB (NetworkOverride o));
      ("elevation_blocked", jopt JB (ElevationOverride o))].
Definition no_controls : DeviceControls := mkDeviceControls false false false.

Definition getControls (p : principal) (rawID : string) : M world response :=
  with_pathID rawID (λ id,
    r ← attempt (on_db (GetControls (p_tenant p) id));
    match r with
    | Ok c => writeJSON 200 (controlsJSON c)
    | Err e => if bool_decide (e = ErrNotFound) then writeJSON 200 (controlsJSON no_controls) else storeErr e
    end).

Definition setControls (p : principal) (rawID : string) (c : DeviceControls) : M world response :=
  with_pathID rawID (λ id,
    or_storeErr (on_db (SetControls (p_tenant p) id c)) (λ _,
      _ ← audit p "controls.set" "group" (uuid_string id)
            [("usb_storage_blocked", JBool (USBStorageBlocked c)); ("network_blocked", JBool (NetworkBlocked c));
             ("elevation_blocked", JBool (ElevationBlocked c))] "success";
      writeHeader 204)).

(** The group's controls, nothing blocked when it has none. *)
Definition group_controls (tenantID : uuid) (v : Device) : M world (result DeviceControls) :=
  match dv_group v with
  | None => mret (Ok no_controls)
  | Some g =>
      r ← attempt (on_db (GetControls tenantID g));
      mret (match r with Err ErrNotFound => Ok no_controls | r => r end)
  end.

Definition getDeviceControls (p : principal) (rawID : string) : M world response :=
  with_pathID rawID (λ id,
    or_storeErr (on_db (GetDeviceOverrides (p_tenant p) id)) (λ o,
      or_storeErr (on_db (GetDevice (p_tenant p) id)) (λ d,
        g ← group_controls (p_tenant p) d;
        match g with
        | Err e => storeErr e
        | Ok group =>
            or_storeErr (on_db (EffectiveControlsForDevice (p_tenant p) id)) (λ eff,
              writeJSON 200 (JO [("overrides", overridesJSON o); ("group", controlsJSON group); ("effective", controlsJSON eff)]))
        end))).

Definition jval_opt (b : option bool) : jval := match b with Some b => JBool b | None => JNil end.
Definition setDeviceControls (p : principal) (rawID : string) (o : DeviceControlOverrides) : M world response :=
  with_pathID rawID (λ id,
    or_storeErr (on_db (SetDeviceOverrides (p_tenant p) id o)) (λ _,
      _ ← audit p "device.controls" "device" (uuid_string id)
            [("usb_storage_blocked", jval_opt (USBStorageOverride o)); ("network_blocked", jval_opt (NetworkOverride o));
             ("elevation_blocked", jval_opt (ElevationOverride o))] "success";
      writeHeader 204)).

Definition listDeviceEvents (p : principal) (kind : string) (limit : option Z) : M world response :=
  events ← gets (λ w, ListDeviceEvents (p_tenant p) kind (Z.to_nat (queryInt limit 200 1000)) (w_db w));
  writeJSON 200 (JA ((λ kv : N * DeviceEvent,
    JO [("id", JN (Z.of_N kv.1)); ("device_id", JS (uuid_string (de_device kv.2))); ("kind", JS (de_kind kv.2));
        ("summary", JS (de_summary kv.2)); ("at", jtime (de_at kv.2))]) <$> events)).
End telemetry.

(** ** Controls stay in the tenant *)

(** What a device of a tenant is told to block. *)
Definition effective (tenantID deviceID : uuid) (d : db) : result DeviceControls :=
  (EffectiveControlsForDevice tenantID deviceID d).2.
Definition overrides_of (deviceID : uuid) (d : db) : DeviceControlOverrides :=
  match device_control_overrides d !! deviceID with Some o => of_overrides o | None => inherit_all end.
Definition override (o : DeviceControlOverrides) (c : DeviceControls) : DeviceControls :=
  mkDeviceControls (default (USBStorageBlocked c) (USBStorageOverride o)) (default (NetworkBlocked c) (NetworkOverride o))
    (default (ElevationBlocked c) (ElevationOverride o)).

Lemma effective_override t dev v d :
  devices d !! dev = Some v → dv_tenant v = t →
  effective t dev d = Ok (override (overrides_of dev d)
    (match joined_controls v d with Some c => of_controls c | None => no_controls end)).
Proof.
  intros Hv Ht. unfold effective, EffectiveControlsForDevice, overrides_of, override. rewrite Hv, bool_decide_eq_true_2 by done.
  simpl. by destruct (joined_controls v d), (device_control_overrides d !! dev).
Qed.

(** The devices a change of a group's controls concerns. *)
Definition in_group (t g dev : uuid) (d : db) : bool :=
  match devices d !! dev with Some v => bool_decide (dv_tenant v = t) && bool_decide (dv_group v = Some g) | None => false end.

(** Setting a group's controls succeeds exactly for a group of the caller's
    tenant whose row is not another tenant's. Afterwards a device is told to block
    what the controls say, with its own overrides taking precedence control by
    control, if it is in that group and tenant; every other device of any tenant is
    told what it was told before. A refused request changes nothing. *)
Theorem SetControls_spec t g c d :
  let '(d', r) := SetControls t g c d in
  match r with
  | Ok _ => (∃ gr, device_groups d !! g = Some gr ∧ gr_tenant gr = t) ∧
      ∀ t' dev, effective t' dev d' =
        if in_group t g dev d && bool_decide (t' = t) then Ok (override (overrides_of dev d) c) else effective t' dev d
  | Err e => e = ErrNotFound ∧ d' = d
  end.
Proof.
  assert ((∃ gr, device_groups d !! g = Some gr ∧ gr_tenant gr = t) →
    (∀ old, device_controls d !! g = Some old → dc_tenant old = t) →
    let row := mkControls t (USBStorageBlocked c) (NetworkBlocked c) (ElevationBlocked c) (pg_now d) in
    let d' := set_device_controls (<[g := row]> (device_controls d)) d in
    ∀ t' dev, effective t' dev d' =
        if in_group t g dev d && bool_decide (t' = t) then Ok (override (overrides_of dev d) c) else effective t' dev d) as Hset.
  { intros Hg Hold row d' t' dev. unfold in_group. destruct (devices d !! dev) as [v|] eqn:Hv.
    2: { unfold effective, EffectiveControlsForDevice. simpl. by rewrite Hv. }
    destruct (decide (dv_tenant v = t')) as [Ht'|Ht'].
    2: { unfold effective, EffectiveControlsForDevice. simpl. rewrite Hv, (bool_decide_eq_false_2 (_ = t')) by done. simpl.
      destruct (decide (t' = t)) as [->|]; [by rewrite bool_decide_eq_false_2|].
      by rewrite (bool_decide_eq_false_2 (t' = t)), andb_false_r. }
    rewrite (effective_override t' dev v d'), (effective_override t' dev v d) by done. subst t'.
    change (overrides_of dev d') with (overrides_of dev d).
    destruct (decide (dv_tenant v = t ∧ dv_group v = Some g)) as [[Ht Hgr]|Hno].
    - rewrite !bool_decide_eq_true_2 by done. simpl. unfold joined_controls. rewrite Hgr. simpl. rewrite lookup_insert_eq.
      simpl. rewrite bool_decide_eq_true_2 by done. by destruct c.
    - assert (bool_decide (dv_tenant v = t) && bool_decide (dv_group v = Some g) = false) as ->
        by (apply not_true_false; by rewrite andb_true_iff, !bool_decide_eq_true).
      simpl. do 2 f_equal. unfold joined_controls. destruct (dv_group v) as [g'|]; [|done]. simpl.
      destruct (decide (g' = g)) as [->|]; [|by rewrite lookup_insert_ne].
      rewrite lookup_insert_eq. simpl. rewrite bool_decide_eq_false_2 by naive_solver.
      destruct (device_controls d !! g) as [old|] eqn:Hc; [|done]. simpl. rewrite bool_decide_eq_false_2; [done|].
      rewrite (Hold _ eq_refl). naive_solver. }
  unfold SetControls. destruct (device_groups d !! g) as [gr|] eqn:Hg; [|done].
  case_bool_decide as Ht; [|done]. destruct (device_controls d !! g) as [old|] eqn:Hc.
  - case_bool_decide as Ho; [|done]. split; [eauto|]. apply Hset; [eauto|]. intros ? [= <-]. done.
  - split; [eauto|]. apply Hset; [eauto | done].
Qed.

(** Every override row is of its device's tenant. *)
Definition overrides_owned (d : db) : Prop :=
  ∀ dev o v, device_control_overrides d !! dev = Some o → devices d !! dev = Some v → ov_tenant o = dv_tenant v.

Lemma empty_inherits o : empty o = true → o = inherit_all.
Proof. by destruct o as [[] [] []]. Qed.

(** Another device is told the same whatever one device's override row becomes. *)
Lemma effective_overrides_ext t dev m d :
  m !! dev = device_control_overrides d !! dev → effective t dev (set_device_control_overrides m d) = effective t dev d.
Proof.
  intros Hm. unfold effective, EffectiveControlsForDevice, joined_controls. simpl. rewrite Hm.
  destruct (devices d !! dev) as [v|]; [destruct (bool_decide _)|]; reflexivity.
Qed.

(** Overrides round-trip and stay with their device: setting them succeeds only for
    a device of the caller's tenant, reading them back gives what was set (inheriting
    all three removes the row), what every other device is told is unchanged, and a
    refused request changes nothing. *)
Theorem SetDeviceOverrides_roundtrip t dev o d :
  overrides_owned d →
  let '(d', r) := SetDeviceOverrides t dev o d in
  match r with
  | Ok _ => overrides_owned d' ∧ GetDeviceOverrides t dev d' = (d', Ok o) ∧
      ∀ t' dev', dev' ≠ dev → effective t' dev' d' = effective t' dev' d
  | Err _ => d' = d
  end.
Proof.
  intros Hown. unfold SetDeviceOverrides. destruct (own_device t dev d) eqn:Hdev; [|done]. simpl.
  unfold own_device in Hdev. destruct (devices d !! dev) as [v|] eqn:Hv; [|done]. bool_cases.
  destruct (empty o) eqn:He.
  - apply empty_inherits in He as ->. set (m := filter _ _). split_and!.
    + intros dev' o' v' [Ho' _]%map_lookup_filter_Some. simpl. eauto.
    + unfold GetDeviceOverrides, own_device. simpl. rewrite Hv, bool_decide_eq_true_2 by done.
      destruct (m !! dev) as [o|] eqn:Ho; [|done]. apply map_lookup_filter_Some in Ho as [Ho Hne].
      destruct Hne. split; [done|]. simpl. rewrite (Hown _ _ _ Ho Hv). done.
    + intros t' dev' Hne. apply effective_overrides_ext. apply option_eq. intros o. unfold m.
      rewrite map_lookup_filter_Some. naive_solver.
  - destruct (negb (has_tenant t d)); [done|].
    set (t0 := match device_control_overrides d !! dev with Some old => ov_tenant old | None => t end).
    assert (t0 = t) as ->.
    { unfold t0. destruct (device_control_overrides d !! dev) as [old|] eqn:Ho; [|done].
      rewrite (Hown _ _ _ Ho Hv). done. }
    split_and!.
    + intros dev' o' v'. simpl. intros [[<- <-]|[_ Ho']]%lookup_insert_Some; simpl; [|eauto]. intros. simplify_eq. done.
    + unfold GetDeviceOverrides, own_device. simpl. rewrite Hv, bool_decide_eq_true_2, lookup_insert_eq by done.
      by destruct o.
    + intros t' dev' Hne. apply effective_overrides_ext. by rewrite lookup_insert_ne.
Qed.

Module Lab.
Import Toy.
(** Device 9 of tenant 1, overriding one control. *)
Definition lab_overrides : DeviceControlOverrides := mkDeviceControlOverrides (Some true) None (Some false).
Definition overridden : db := (SetDeviceOverrides 1 9 lab_overrides lab_db).1.
Lemma lab_owned : overrides_owned lab_db.
Proof. by intros dev o v. Qed.
End Lab.

Lemma SetDeviceOverrides_roundtrip_witness :
  GetDeviceOverrides 1 9 Lab.overridden = (Lab.overridden, Ok Lab.lab_overrides) ∧
  effective 1 9 Lab.overridden = Ok (mkDeviceControls true false false).
Proof.
  split; [|vm_compute; reflexivity].
  pose proof (SetDeviceOverrides_roundtrip 1 9 Lab.lab_overrides Toy.lab_db Lab.lab_owned) as Hs.
  unfold Lab.overridden. destruct (SetDeviceOverrides 1 9 Lab.lab_overrides Toy.lab_db) as [d' r] eqn:E.
  assert (r = Ok tt) as -> by (change r with (d', r).2; rewrite <- E; vm_compute; reflexivity).
  exact (proj1 (proj2 Hs)).
Defined.
