(* ===== verification/Alerting.v ===== *)
(** * Alerting

    Models [internal/server/alerting/alerting.go]: a metric sample against the alert
    rules of the tenant; and the handlers of [internal/server/httpapi/telemetry.go] for
    metrics, alert rules and alerts. *)

From Stdlib Require Import SpecFloat.
From stdpp Require Import gmap strings list pretty.
From S2P Require Import Prelude GoStr Db Hub World StoreCore StoreTelemetry StoreMetrics Http.

Definition metricValue (m : string) (sample : MetricSample) : option spec_float :=
  if bool_decide (m = "cpu") then Some (CPUPct sample)
  else if bool_decide (m = "mem") then Some (MemPct sample)
  else if bool_decide (m = "disk") then Some (DiskPct sample)
  else None.

Definition breaching (op : string) (value threshold : spec_float) : bool :=
  if bool_decide (op = "gt") then float_gt value threshold
  else if bool_decide (op = "lt") then float_lt value threshold
  else false.

Definition opWord (op : string) : string := if bool_decide (op = "lt") then "<" else ">".

(** [now.Sub(since)], which stops at the bounds of [time.Duration]. *)
Definition time_sub (t u : time) : duration := Z.max (- 2 ^ 63) (Z.min (2 ^ 63 - 1) (t - u)).

(** An [int] of seconds as a [time.Duration], at 64 bits. *)
Definition wrap64 (n : Z) : Z := ((n + 2 ^ 63) mod 2 ^ 64 - 2 ^ 63)%Z.
Definition seconds (n : Z) : duration := wrap64 (n * Second).

Section alerting.
Context `{UuidText}.
(** [Service.Notify]. *)
Context (notify : option Emitter).

Definition emit (build : M world Event) : M world unit :=
  match notify with
  | Some em => e ← build; Emit (Emitter := em) e
  | None => mret tt
  end.

Definition alertEvent (kind : string) (tenantID deviceID ruleID : uuid) (r : AlertRule) (msg : string) (now : time) : M world Event :=
  d ← attempt (on_db (GetDevice tenantID deviceID));
  let host := match d with
              | Ok v => if bool_decide (dv_hostname v = "") then uuid_string deviceID else dv_hostname v
              | Err _ => uuid_string deviceID
              end in
  let resolved := bool_decide (kind = "alert.resolved") in
  let state := if bool_decide (kind = "alert.raised") then "breaching" else if resolved then "resolved" else "" in
  mret (mkEvent kind tenantID
    ((if resolved then "Resolved: " else "Alert: ") +:+ al_name r +:+ " on " +:+ host)
    (al_name r +:+ " is " +:+ state +:+ " on " +:+ host +:+ "." +:+ (if bool_decide (msg = "") then "" else nl +:+ msg))
    [("device_id", JStr (uuid_string deviceID)); ("hostname", JStr host); ("rule_id", JStr (uuid_string ruleID));
     ("rule_name", JStr (al_name r)); ("metric", JStr (al_metric r)); ("message", JStr msg)]
    now).

Definition sustained (tenantID deviceID ruleID : uuid) (durationSeconds : Z) (now : time) : M world bool :=
  if (durationSeconds <=? 0)%Z then mret true
  else
    since ← on_db (MarkBreach tenantID deviceID ruleID now);
    mret (seconds durationSeconds <=? time_sub now since)%Z.

Definition alert_message (r : AlertRule) (value : spec_float) : string :=
  al_metric r +:+ " " +:+ fmt_f0 value +:+ "% " +:+ opWord (al_op r) +:+ " " +:+ fmt_f0 (al_threshold r) +:+ "%".

(** The body of the loop over the rules. *)
Definition evaluate_rule (tenantID deviceID : uuid) (sample : MetricSample) (now : time) (kr : uuid * AlertRule) : M world unit :=
  let '(id, r) := kr in
  match metricValue (al_metric r) sample with
  | None => mret tt
  | Some value =>
      if breaching (al_op r) value (al_threshold r) then
        s ← sustained tenantID deviceID id (al_duration_seconds r) now;
        if negb s then mret tt
        else
          let msg := alert_message r value in
          created ← on_db (RaiseAlert tenantID deviceID id (al_metric r) msg now);
          if negb created then mret tt
          else emit (alertEvent "alert.raised" tenantID deviceID id r msg now)
      else
        _ ← on_db (ClearBreach tenantID deviceID id);
        closed ← on_db (ResolveAlert tenantID deviceID id now);
        if negb closed then mret tt
        else emit (alertEvent "alert.resolved" tenantID deviceID id r "" now)
  end.

Definition Evaluate (tenantID deviceID : uuid) (sample : MetricSample) (now : time) : M world unit :=
  rules ← gets (λ w, ListEnabledAlertRules tenantID (w_db w));
  for_each rules (evaluate_rule tenantID deviceID sample now).
End alerting.

(** ** The console handlers *)

Section console.
Context `{UuidText, UuidSource}.

Definition metricJSON (m : Metric) : json :=
  JO [("at", jtime (dm_at m)); ("cpu_pct", JF (dm_cpu_pct m)); ("mem_pct", JF (dm_mem_pct m)); ("disk_pct", JF (dm_disk_pct m))].

(** [since]: the parsed query parameter, if it is a valid time. *)
Definition listMetrics (p : principal) (rawID : string) (since : option time) (limit : option Z) : M world response :=
  with_pathID rawID (λ id,
    t ← now;
    samples ← gets (λ w, ListMetrics (p_tenant p) id (default (t - 6 * Hour)%Z since) (Z.to_nat (queryInt limit 500 5000)) (w_db w));
    writeJSON 200 (JA (metricJSON <$> samples))).

Definition ruleJSON (kr : uuid * AlertRule) : json :=
  let '(id, r) := kr in
  JO [("id", JS (uuid_string id)); ("name", JS (al_name r)); ("metric", JS (al_metric r)); ("op", JS (al_op r));
      ("threshold", JF (al_threshold r)); ("duration_seconds", JN (al_duration_seconds r)); ("enabled", JB (al_enabled r))].
Definition listAlertRules (p : principal) : M world response :=
  rules ← gets (λ w, ListAlertRules (p_tenant p) (w_db w));
  writeJSON 200 (JA (ruleJSON <$> rules)).

Definition f100 : spec_float := S754_finite false 7036874417766400 (-46).
Definition validAlertRule (r : RuleFields) : bool :=
  negb (bool_decide (ru_Name r = "") || negb (metric_ok (ru_Metric r)) || negb (op_ok (ru_Op r)) ||
        float_lt (ru_Threshold r) (S754_zero false) || float_gt (ru_Threshold r) f100 || (ru_DurationSeconds r <? 0)%Z).
Definition invalid_rule : string :=
  "name, metric (cpu|mem|disk), op (gt|lt), threshold 0-100, and non-negative duration are required".

(** The request as the body decodes, its name trimmed; a new rule is enabled. *)
Definition trimmed (r : RuleFields) : RuleFields :=
  mkRuleFields (TrimSpace (ru_Name r)) (ru_Metric r) (ru_Op r) (ru_Threshold r) (ru_DurationSeconds r) (ru_Enabled r).
Definition enabled (r : RuleFields) : RuleFields :=
  mkRuleFields (ru_Name r) (ru_Metric r) (ru_Op r) (ru_Threshold r) (ru_DurationSeconds r) true.

Definition createAlertRule (p : principal) (req : RuleFields) : M world response :=
  let rule := enabled (trimmed req) in
  if negb (validAlertRule rule) then writeErr 400 invalid_rule
  else
    id ← uuid_New;
    or_storeErr (on_db (CreateAlertRule id (p_tenant p) rule)) (λ id,
      _ ← audit_any p "alert_rule.create" "alert_rule" (uuid_string id)
            [("metric", AJ (JStr (ru_Metric req))); ("op", AJ (JStr (ru_Op req))); ("threshold", AF (ru_Threshold req))] "success";
      writeJSON 201 (JO [("id", JS (uuid_string id))])).

Definition updateAlertRule (p : principal) (rawID : string) (req : RuleFields) : M world response :=
  with_pathID rawID (λ id,
    let rule := trimmed req in
    if negb (validAlertRule rule) then writeErr 400 invalid_rule
    else or_storeErr (on_db (UpdateAlertRule (p_tenant p) id rule)) (λ _,
      _ ← audit_any p "alert_rule.update" "alert_rule" (uuid_string id)
            [("metric", AJ (JStr (ru_Metric rule))); ("op", AJ (JStr (ru_Op rule))); ("threshold", AF (ru_Threshold rule));
             ("enabled", AJ (JBool (ru_Enabled rule)))] "success";
      writeHeader 204)).

Definition deleteAlertRule (p : principal) (rawID : string) : M world response :=
  with_pathID rawID (λ id,
    or_storeErr (on_db (DeleteAlertRule (p_tenant p) id)) (λ _,
      _ ← audit p "alert_rule.delete" "alert_rule" (uuid_string id) [] "success";
      writeHeader 204)).

Definition alertJSON (ka : N * Alert) : json :=
  let '(id, a) := ka in
  JO [("id", JN (Z.of_N id)); ("device_id", JS (uuid_string (at_device a))); ("metric", JS (at_metric a));
      ("message", JS (at_message a)); ("at", jtime (at_at a)); ("resolved_at", jopt jtime (at_resolved_at a))].
Definition listAlerts (p : principal) (limit : option Z) : M world response :=
  alerts ← gets (λ w, ListAlerts (p_tenant p) (Z.to_nat (queryInt limit 200 1000)) (w_db w));
  writeJSON 200 (JA (alertJSON <$> alerts)).
End console.
