(* ===== verification/Ringfences.v ===== *)
(** * Ringfences in the console

    Models [internal/server/httpapi/ringfences.go]. *)

From stdpp Require Import gmap strings list.
From S2P Require Import Prelude GoStr Db Hub World StoreCore StorePolicies StoreRingfence Http.

(** The identifiers of [asrRules]. *)
Definition asrRules : list string := [
  "D4F940AB-401B-4EFC-AADC-AD5F3C50688A"; "3B576869-A4EC-4529-8536-B80A7769E899"; "D3E037E1-3EB8-44C8-A917-57927947596D";
  "5BEB7EFE-FD9A-4556-801D-275E5FFC04CC"; "92E97FA1-2EDF-4476-BDD6-9DD0B4DDDC7B"; "D1E49AAC-8F56-4280-B9BA-993A6D77406C"].

Section console.
Context `{UuidText, UuidSource}.

Definition ringfenceJSON (id : uuid) (r : RingfencePolicy) (groups : list string) : json :=
  JO [("id", JS (uuid_string id)); ("name", JS (rf_name r)); ("mode", JS (rf_mode r)); ("created_at", jtime (rf_created_at r));
      ("groups", JA (JS <$> groups))].

Definition listRingfences (p : principal) : M world response :=
  d ← gets w_db;
  writeJSON 200 (JA ((λ kr, ringfenceJSON kr.1 kr.2 (RingfenceAssignedGroups (p_tenant p) kr.1 d)) <$> ListRingfences (p_tenant p) d)).

Definition programJSON (kv : uuid * RingfenceProgram) : json :=
  JO [("id", JS (uuid_string kv.1)); ("path", JS (rp_path kv.2)); ("network_blocked", JB (rp_network_blocked kv.2));
      ("note", JS (rp_note kv.2))].
Definition protectionJSON (kv : (uuid * string) * RingfenceProtection) : json :=
  JO [("asr_rule", JS kv.1.2); ("action", JS (rt_action kv.2))].
(** A ringfence with what it contains. *)
Definition fullJSON (tenantID id : uuid) (r : RingfencePolicy) (d : db) : json :=
  JO [("ringfence", ringfenceJSON id r []); ("programs", JA (programJSON <$> ListRingfencePrograms tenantID id d));
      ("protections", JA (protectionJSON <$> ListRingfenceProtections tenantID id d))].

Definition getRingfence (p : principal) (rawID : string) : M world response :=
  with_pathID rawID (λ id,
    or_storeErr (on_db (GetRingfence (p_tenant p) id)) (λ rf,
      d ← gets w_db;
      writeJSON 200 (fullJSON (p_tenant p) id rf d))).

Definition createRingfence (p : principal) (name : string) : M world response :=
  let name := TrimSpace name in
  if bool_decide (name = "") then writeErr 400 "name is required"
  else
    id ← uuid_New;
    or_storeErr (on_db (CreateRingfence (p_tenant p) id name "audit")) (λ _,
      _ ← audit p "ringfence.create" "ringfence" (uuid_string id) [("name", JStr name)] "success";
      writeJSON 201 (JO [("id", JS (uuid_string id))])).

Definition renameRingfence (p : principal) (rawID name : string) : M world response :=
  with_pathID rawID (λ id,
    let name := TrimSpace name in
    if bool_decide (name = "") then writeErr 400 "name is required"
    else or_storeErr (on_db (RenameRingfence (p_tenant p) id name)) (λ _,
      _ ← audit p "ringfence.rename" "ringfence" (uuid_string id) [("name", JStr name)] "success";
      writeHeader 204)).

Definition setRingfenceMode (p : principal) (rawID mode : string) : M world response :=
  with_pathID rawID (λ id,
    if negb (bool_decide (mode = "audit") || bool_decide (mode = "enforce")) then writeErr 400 "mode must be audit or enforce"
    else or_storeErr (on_db (SetRingfenceMode (p_tenant p) id mode)) (λ _,
      _ ← audit p "ringfence.mode" "ringfence" (uuid_string id) [("mode", JStr mode)] "success";
      writeHeader 204)).

Definition deleteRingfence (p : principal) (rawID : string) : M world response :=
  with_pathID rawID (λ id,
    or_storeErr (on_db (DeleteRingfence (p_tenant p) id)) (λ _,
      _ ← audit p "ringfence.delete" "ringfence" (uuid_string id) [] "success";
      writeHeader 204)).

(** [network_blocked] may be absent. *)
Definition addRingfenceProgram (p : principal) (rawID path : string) (network_blocked : option bool) (note : string) : M world response :=
  with_pathID rawID (λ id,
    let path := TrimSpace path in
    if bool_decide (path = "") then writeErr 400 "path is required"
    else
      let networkBlocked := default true network_blocked in
      progID ← uuid_New;
      or_storeErr (on_db (AddRingfenceProgram (p_tenant p) id progID path networkBlocked note)) (λ _,
        _ ← audit p "ringfence.program" "ringfence" (uuid_string id)
              [("path", JStr path); ("network_blocked", JBool networkBlocked)] "success";
        writeJSON 201 (JO [("id", JS (uuid_string progID))]))).

Definition deleteRingfenceProgram (p : principal) (rawID rawProgramID : string) : M world response :=
  with_pathID rawID (λ id,
    match uuid_parse rawProgramID with
    | None => writeErr 400 "invalid program id"
    | Some progID =>
        or_storeErr (on_db (DeleteRingfenceProgram (p_tenant p) id progID)) (λ _,
          _ ← audit p "ringfence.program" "ringfence" (uuid_string id)
                [("program_id", JStr (uuid_string progID)); ("action", JStr "delete")] "success";
          writeHeader 204)
    end).

Definition setRingfenceProtection (p : principal) (rawID asr_rule action : string) : M world response :=
  with_pathID rawID (λ id,
    if negb (bool_decide (ToUpper asr_rule ∈ asrRules)) then writeErr 400 "asr_rule is not in the curated set"
    else if negb (action_ok action || bool_decide (action = "off")) then writeErr 400 "action must be audit, block, or off"
    else or_storeErr (on_db (SetRingfenceProtection (p_tenant p) id (ToUpper asr_rule) action)) (λ _,
      _ ← audit p "ringfence.protection" "ringfence" (uuid_string id)
            [("asr_rule", JStr asr_rule); ("action", JStr action)] "success";
      writeHeader 204)).

Definition assignRingfence (p : principal) (rawID group_id : string) : M world response :=
  with_pathID rawID (λ id,
    match uuid_parse group_id with
    | None => writeErr 400 "invalid group_id"
    | Some gid =>
        or_storeErr (on_db (AssignRingfence (p_tenant p) gid id)) (λ _,
          _ ← audit p "ringfence.assign" "ringfence" (uuid_string id) [("group_id", JStr (uuid_string gid))] "success";
          writeHeader 204)
    end).

(** [ringfence_id]: the query parameter, empty when absent. *)
Definition unassignRingfence (p : principal) (rawGroupID ringfence_id : string) : M world response :=
  with_pathID rawGroupID (λ groupID,
    let rfParam := TrimSpace ringfence_id in
    if bool_decide (rfParam = "") then writeErr 400 "ringfence_id is required"
    else match uuid_parse rfParam with
    | None => writeErr 400 "invalid ringfence_id"
    | Some rfID =>
        or_storeErr (on_db (GroupRingfenceID (p_tenant p) groupID)) (λ current,
          if negb (bool_decide (current = rfID)) then writeErr 409 "group is no longer assigned to this ringfence"
          else or_storeErr (on_db (UnassignRingfence (p_tenant p) groupID)) (λ _,
            _ ← audit p "ringfence.unassign" "ringfence" (uuid_string rfID) [("group_id", JStr (uuid_string groupID))] "success";
            writeHeader 204))
    end).

Definition ringfenceEventJSON (e : N * RingfenceEventRow * string) : json :=
  let '(id, r, hostname) := e in
  JO [("id", JN (Z.of_N id)); ("device_id", JS (uuid_string (re_device r))); ("hostname", JS hostname); ("kind", JS (re_kind r));
      ("program", JS (re_program r)); ("detail", JS (re_detail r)); ("enforced", JB (re_enforced r)); ("at", jtime (re_at r))].
Definition listRingfenceEvents (p : principal) (device_id : string) (limit : option Z) : M world response :=
  let list deviceID :=
    events ← gets (λ w, ListRingfenceEvents (p_tenant p) (Z.to_nat (queryInt limit 200 1000)) deviceID (w_db w));
    writeJSON 200 (JA (ringfenceEventJSON <$> events)) in
  let q := TrimSpace device_id in
  if bool_decide (q = "") then list None
  else match uuid_parse q with
       | None => writeErr 400 "invalid device_id"
       | Some id => list (Some id)
       end.

Definition no_ringfence : json := JO [("ringfence", JNull); ("programs", JA []); ("protections", JA [])].
Definition getDeviceRingfence (p : principal) (rawID : string) : M world response :=
  with_pathID rawID (λ id,
    or_storeErr (on_db (GetDevice (p_tenant p) id)) (λ _,
      r ← attempt (on_db (DeviceRingfence (p_tenant p) id));
      match r with
      | Ok (rfID, rf) => d ← gets w_db; writeJSON 200 (fullJSON (p_tenant p) rfID rf d)
      | Err e => if is_err ErrNotFound e then writeJSON 200 no_ringfence else storeErr e
      end)).
End console.
