(* ===== verification/Authn.v ===== *)
(** * Who may use the console

    Models [internal/server/auth] (passwords, TOTP, roles, sessions), and of
    [internal/server/httpapi] the login rate limit ([limiter.go]), the guards and the
    login, MFA and account handlers ([authn.go]) and the administrators' page
    ([admins.go]). *)

From stdpp Require Import gmap strings list.
From S2P Require Import Prelude GoStr Db Hub World StoreCore StoreAdmins Commands Enroll Notify Http.

(** ** Libraries *)

(** [bcrypt], with the salt it draws, and [pquerna/otp]. *)
Class Passwords := {
  bcrypt_generate : nat → string → result string;
  bcrypt_compare : string → string → bool; (* hash, password *)
  totp_generate : nat → string → result (string * string); (* secret and URL *)
  totp_validate : string → string → time → bool; (* code, secret *)
}.
(** What their documentation promises: a hash compares equal to its own password. *)
Class PasswordsOk `{Passwords} : Prop :=
  bcrypt_roundtrip : ∀ n pw h, bcrypt_generate n pw = Ok h → bcrypt_compare h pw = true.

(** ** password.go *)

Definition MinPasswordLen : nat := 12.

Section password.
Context `{Passwords}.
Definition HashPassword (n : nat) (pw : string) : result string :=
  if (String.length pw <? MinPasswordLen)%nat then Err (EFmt "password must be at least %d characters" ["12"])
  else bcrypt_generate n pw.
(** [None]: the dummy comparison, whose outcome is dropped. *)
Definition CheckPasswordOrDummy (hash : option string) (pw : string) : bool :=
  match hash with None => false | Some h => bcrypt_compare h pw end.
End password.

Definition Roles : list string := ["owner"; "admin"; "readonly"].
Definition roleRank (role : string) : option nat :=
  if bool_decide (role = "readonly") then Some 1
  else if bool_decide (role = "admin") then Some 2
  else if bool_decide (role = "owner") then Some 3
  else None.
(** A missing key of the Go map reads as 0. *)
Definition Allows (role required : string) : bool :=
  match roleRank role with Some r => (default 0 (roleRank required) <=? r)%nat | None => false end.

(** ** Requests *)

(** What the guards look at: whether the method is GET, the session cookie, the CSRF
    header, the client's address and user agent. *)
Record Request := mkReq {
  rq_get : bool; rq_cookie : option string; rq_csrf : string; rq_ip : string; rq_agent : string;
}.
(** [Set-Cookie] of the session: a new token, or its removal. *)
Inductive cookie := SetCookie (token : string) (expires : time) | ClearCookie.

(** [principal]: the administrator and the session, with their keys. *)
Record Caller := mkCaller { cl_id : uuid; cl_admin : Admin; cl_sid : string; cl_session : Session }.
Definition principal_of (rq : Request) (c : Caller) : principal :=
  mkPrincipal (se_tenant (cl_session c)) (cl_id c) (ad_email (cl_admin c)) (ad_role (cl_admin c)) (ad_provider (cl_admin c)) (rq_ip rq).

Section authn.
Context `{UuidText, UuidSource, Pki, Hasher, Passwords} (totp : Sealer).
(** The first tenant, from the runtime's keys. *)
Context (default_tenant : uuid).

(** ** sessions.go *)

Definition SessionTTL : duration := (12 * Hour)%Z.
Definition randToken : M world string := n ← draw; mret (base64_url (rand_bytes n 32)).
Definition hashToken (tok : string) : string := sha256_hex tok.

Definition Sessions_Create (rq : Request) (tenantID adminID : uuid) : M world (Session * cookie) :=
  tok ← randToken;
  csrf ← randToken;
  t ← now;
  let sess := mkSession tenantID adminID csrf false (t + SessionTTL)%Z (rq_ip rq) (rq_agent rq) in
  _ ← on_db (CreateSession (hashToken tok) sess);
  mret (sess, SetCookie tok (se_expires_at sess)).

Definition Sessions_Load (rq : Request) : M world (string * Session) :=
  match rq_cookie rq with
  | None => fail ErrNotFound
  | Some v =>
      if bool_decide (v = "") then fail ErrNotFound
      else t ← now; s ← on_db (GetSession (hashToken v) t); mret (hashToken v, s)
  end.

Definition Sessions_Destroy (rq : Request) : M world cookie :=
  match rq_cookie rq with
  | Some v => _ ← attempt (on_db (DeleteSession (hashToken v))); mret ClearCookie
  | None => mret ClearCookie
  end.

(** ** limiter.go *)

Definition maxFailures : nat := 5.
Definition failWindow : duration := (15 * Minute)%Z.

Definition allow (tenantID : uuid) (key : string) (t : time) : M world bool :=
  r ← attempt (on_db (CountLoginFailures tenantID key (t - failWindow)%Z));
  mret (match r with Ok n => (n <? maxFailures)%nat | Err _ => true end).
Definition limiter_fail (tenantID : uuid) (key : string) (t : time) : M world unit :=
  _ ← attempt (on_db (RecordLoginFailure tenantID key t)); mret tt.
Definition limiter_reset (tenantID : uuid) (key : string) : M world unit :=
  _ ← attempt (on_db (ClearLoginFailures tenantID key)); mret tt.

(** ** authn.go: the guards *)

Definition tenantSuspended (tenantID : uuid) : M world bool :=
  r ← attempt (on_db (TenantSuspended tenantID));
  mret (match r with Ok sus => sus | Err _ => true end).

Definition refused (code : Z) (msg : string) : M world (response + Caller) := mret (inl (mkResponse code (JO [("error", JS msg)]))).
Definition not_logged_in : M world (response + Caller) := refused 401 "not logged in".

(** What [withSession] decides before it calls the next handler. *)
Definition session_check (requireMFA : bool) (rq : Request) : M world (response + Caller) :=
  r ← attempt (Sessions_Load rq);
  match r with
  | Err _ => not_logged_in
  | Ok (sid, sess) =>
      r ← attempt (on_db (GetAdmin (se_tenant sess) (se_admin sess)));
      match r with
      | Err _ => not_logged_in
      | Ok admin =>
          if ad_disabled admin then not_logged_in
          else
            sus ← tenantSuspended (se_tenant sess);
            if (sus : bool) then not_logged_in
            else if negb (rq_get rq) && negb (bool_decide (rq_csrf rq = se_csrf sess)) then refused 403 "bad CSRF token"
            else if requireMFA && negb (se_mfa_passed sess) then refused 403 "mfa_required"
            else mret (inr (mkCaller (se_admin sess) admin sid sess))
      end
  end.
Definition withSession (requireMFA : bool) (rq : Request) (next : Caller → M world response) : M world response :=
  r ← session_check requireMFA rq;
  match r with inl resp => mret resp | inr c => next c end.

Definition requireRole {S} (role : string) (c : Caller) (next : M S reply) : M S reply :=
  if negb (Allows (ad_role (cl_admin c)) role) then answer (writeErr 403 ("requires role " +:+ role)) else next.

(** ** authn.go: the handlers *)

(** The hash to compare with: none for an unknown, disabled or suspended account. *)
Definition login_hash (found : result (uuid * Admin)) : M world (option string) :=
  match found with
  | Err _ => mret None
  | Ok (_, a) =>
      if ad_disabled a then mret None
      else sus ← tenantSuspended (ad_tenant a); mret (if (sus : bool) then None else Some (ad_password_hash a))
  end.

Definition bad_login : response := mkResponse 401 (JO [("error", JS "invalid email or password")]).
Definition too_many : response := mkResponse 429 (JO [("error", JS "too many failed attempts; try again later")]).

Definition login (rq : Request) (rawEmail password : string) : M world (response * option cookie) :=
  let email := ToLower (TrimSpace rawEmail) in
  t ← now;
  found ← attempt (on_db (GetAdminByEmailGlobal email));
  let tenant := match found with Ok (_, a) => ad_tenant a | Err _ => default_tenant end in
  let key := rq_ip rq +:+ "|" +:+ email in
  ok ← allow tenant key t;
  if negb ok then mret (too_many, None)
  else
    hash ← login_hash found;
    if negb (CheckPasswordOrDummy hash password) then
      _ ← limiter_fail tenant key t;
      _ ← audit (mkPrincipal tenant 0 email "" false (rq_ip rq)) "admin.login" "admin" "" [("stage", JStr "password")] "failure";
      mret (bad_login, None)
    else
      _ ← limiter_reset tenant key;
      match found with
      | Err e => fail e (* a password matched *)
      | Ok (id, a) =>
          r ← attempt (Sessions_Create rq tenant id);
          match r with
          | Err _ => mret (mkResponse 500 (JO [("error", JS "could not create session")]), None)
          | Ok (sess, c) =>
              mret (mkResponse 200 (JO [("csrf_token", JS (se_csrf sess)); ("mfa_enrolled", JB (ad_totp_confirmed a))]), Some c)
          end
      end.

Definition logout (rq : Request) : M world (response * option cookie) :=
  c ← Sessions_Destroy rq; mret (mkResponse 204 JNull, Some c).

Definition mfaSetup (c : Caller) : M world response :=
  if ad_totp_confirmed (cl_admin c) then writeErr 409 "MFA already enrolled"
  else
    n ← draw;
    match totp_generate n (ad_email (cl_admin c)) with
    | Err _ => writeErr 500 "could not create TOTP secret"
    | Ok (secret, url) =>
        m ← draw;
        r ← attempt (on_db (SetAdminTOTP (se_tenant (cl_session c)) (cl_id c) (Some (Seal (Sealer := totp) m secret)) false));
        match r with
        | Err _ => writeErr 500 "could not store TOTP secret"
        | Ok _ => writeJSON 200 (JO [("secret", JS secret); ("otpauth_url", JS url)])
        end
    end.

(** The code is right for the sealed secret. *)
Definition code_ok (sealed code : string) (t : time) : bool :=
  match Open (Sealer := totp) sealed with Some secret => totp_validate (TrimSpace code) secret t | None => false end.

(** The first verified code confirms the secret. *)
Definition confirm_totp (c : Caller) (sealed : string) : M world unit :=
  if ad_totp_confirmed (cl_admin c) then mret tt
  else on_db (SetAdminTOTP (se_tenant (cl_session c)) (cl_id c) (Some sealed) true).

Definition mfaVerify (rq : Request) (c : Caller) (code : string) : M world response :=
  let p := principal_of rq c in
  match ad_totp_secret_enc (cl_admin c) with
  | None => writeErr 400 "MFA not set up; call /api/mfa/setup first"
  | Some sealed =>
      let key := "mfa|" +:+ cl_sid c in
      t ← now;
      ok ← allow (p_tenant p) key t;
      if negb ok then mret too_many
      else if negb (code_ok sealed code t) then
        _ ← limiter_fail (p_tenant p) key t;
        _ ← audit p "admin.login" "admin" (uuid_string (cl_id c)) [("stage", JStr "mfa")] "failure";
        writeErr 401 "invalid code"
      else
        _ ← limiter_reset (p_tenant p) key;
        r ← attempt (confirm_totp c sealed);
        match r with
        | Err _ => writeErr 500 "could not confirm MFA"
        | Ok _ =>
            r ← attempt (on_db (MarkSessionMFA (cl_sid c)));
            match r with
            | Err _ => writeErr 500 "could not update session"
            | Ok _ =>
                _ ← audit p "admin.login" "admin" (uuid_string (cl_id c)) [] "success";
                writeHeader 204
            end
        end
  end.

Definition me (p : principal) : M world response :=
  writeJSON 200 (JO [("id", JS (uuid_string (p_admin p))); ("email", JS (p_email p)); ("role", JS (p_role p)); ("provider", JB (p_provider p))]).

(** ** admins.go *)

Definition adminJSON (ka : uuid * Admin) : json :=
  let '(id, a) := ka in
  JO [("id", JS (uuid_string id)); ("email", JS (ad_email a)); ("role", JS (ad_role a)); ("disabled", JB (ad_disabled a));
      ("mfa_enrolled", JB (ad_totp_confirmed a)); ("created_at", jtime (ad_created_at a))].
Definition listAdmins (p : principal) : M world response :=
  admins ← gets (λ w, ListAdmins (p_tenant p) (w_db w));
  writeJSON 200 (JA (adminJSON <$> admins)).

Definition createAdmin (p : principal) (rawEmail password role : string) : M world response :=
  let email := ToLower (TrimSpace rawEmail) in
  if negb (Contains email "@") || negb (bool_decide (role ∈ Roles)) then writeErr 400 "a valid email and role (owner, admin, readonly) are required"
  else
    n ← draw;
    match HashPassword n password with
    | Err e => writeErrOf 400 e
    | Ok hash =>
        id ← uuid_New;
        or_storeErr (on_db (CreateAdmin id (p_tenant p) (mkNewAdmin email hash role false))) (λ id,
          _ ← audit p "admin.create" "admin" (uuid_string id) [("email", JStr email); ("role", JStr role)] "success";
          writeJSON 201 (JO [("id", JS (uuid_string id))]))
    end.

Definition disableAdmin (p : principal) (rawID : string) : M world response :=
  with_pathID rawID (λ id,
    if bool_decide (id = p_admin p) then writeErr 400 "cannot disable yourself"
    else or_storeErr (on_db (SetAdminDisabled (p_tenant p) id true)) (λ _,
      or_storeErr (on_db (DeleteAdminSessions (p_tenant p) id)) (λ _,
        _ ← audit p "admin.disable" "admin" (uuid_string id) [] "success";
        writeHeader 204))).

Definition enableAdmin (p : principal) (rawID : string) : M world response :=
  with_pathID rawID (λ id,
    or_storeErr (on_db (SetAdminDisabled (p_tenant p) id false)) (λ _,
      _ ← audit p "admin.enable" "admin" (uuid_string id) [] "success";
      writeHeader 204)).

Definition setAdminRole (p : principal) (rawID role : string) : M world response :=
  with_pathID rawID (λ id,
    if bool_decide (id = p_admin p) then writeErr 400 "cannot change your own role"
    else if negb (bool_decide (role ∈ Roles)) then writeErr 400 "role must be owner, admin, or readonly"
    else or_storeErr (on_db (SetAdminRole (p_tenant p) id role)) (λ _,
      _ ← audit p "admin.role" "admin" (uuid_string id) [("role", JStr role)] "success";
      writeHeader 204)).
End authn.
