(* ===== verification/AgentApi.v ===== *)
(** * What agents ask and report

    Models [internal/server/agentapi]: the messages of a connected agent ([agent.go])
    and the calls of [policy.go] for the application policy, learning, block reports,
    device controls, device events, ringfences and metrics. A device is the one its certificate named. *)

From Stdlib Require Import Ascii SpecFloat.
From stdpp Require Import gmap strings list sorting.
From S2P Require Import Prelude GoStr Rules Wdac Db Hub World StoreCore Commands Enroll StorePolicies StoreTelemetry StoreMetrics StoreRingfence Alerting Policies.

(** [baseName]: what follows the last slash or backslash. *)
Definition is_slash (c : ascii) : bool := Ascii.eqb c "\"%char || Ascii.eqb c "/"%char.
Fixpoint after_slash (s : string) : option string :=
  match s with
  | EmptyString => None
  | String c s' =>
      match after_slash s' with
      | Some t => Some t
      | None => if is_slash c then Some s' else None
      end
  end.
Definition baseName (p : string) : string := default p (after_slash p).

Section agentapi.
Context `{UuidText, UuidSource, Crypto, Hasher}.
Context (sort : ∀ A, (A → A → bool) → list A → list A) (keys : uuid → result Keys).
(** [Deps]: the optional services. *)
Context (commands_on policy_on : bool) (notify : option Emitter).

(** ** agent.go *)

(** [flv1.AgentMessage]; a heartbeat carries the inventory and the policy version. *)
Inductive AgentMessage :=
  | Heartbeat (inv : Inventory) (policy_version : string)
  | CommandResultMsg (r : CommandResult)
  | Goodbye.

(** [handle]: failures are logged only. The clock-skew test only logs as well. *)
Definition handle (dev : device) (m : AgentMessage) : M world unit :=
  t ← now;
  match m with
  | Heartbeat inv pv =>
      _ ← attempt (on_db (RecordHeartbeat (dev_TenantID dev) (dev_ID dev) inv t));
      if bool_decide (pv = "") then mret tt
      else _ ← attempt (on_db (SetDevicePolicyVersion (dev_TenantID dev) (dev_ID dev) pv)); mret tt
  | CommandResultMsg r =>
      if negb commands_on then mret tt
      else _ ← attempt (Complete (dev_TenantID dev) (dev_ID dev) r); mret tt
  | Goodbye => _ ← attempt (on_db (MarkCleanShutdown (dev_TenantID dev) (dev_ID dev))); mret tt
  end.

(** What [Connect] does before it starts to forward messages, and when it ends. *)
Definition Connect_start (dev : device) : M world N :=
  p ← (λ w, let '(p, h) := Register (dev_ID dev) (w_hub w) in (set_hub h w, Ok p));
  _ ← (if commands_on then attempt (DeliverPending keys (dev_TenantID dev) (dev_ID dev)) else mret (Ok tt));
  mret p.
Definition Connect_end (dev : device) (p : N) : M world unit := modify (λ w, set_hub (Unregister (dev_ID dev) p (w_hub w)) w).

(** ** policy.go *)

Definition GetPolicy_rpc (dev : device) : M world (rpc_error + Effective) :=
  if negb policy_on then refuse Unavailable "application control not enabled"
  else
    r ← attempt (on_db (Effective_for sort keys (dev_TenantID dev) (dev_ID dev)));
    match r with
    | Ok eff => mret (inr eff)
    | Err _ => refuse Internal "could not resolve policy"
    end.

(** [flv1.ObservedApp] has the fields of an observation. *)
Fixpoint observe_all (dev : device) (t : time) (apps : list Seen) : M world (rpc_error + unit) :=
  match apps with
  | [] => mret (inr tt)
  | a :: apps' =>
      if bool_decide (sn_sha256 a = "") || bool_decide (sn_path a = "") then observe_all dev t apps'
      else
        r ← attempt (on_db (RecordObservation (dev_TenantID dev) (dev_ID dev) a t));
        match r with
        | Ok _ => observe_all dev t apps'
        | Err _ => refuse Internal "could not record observations"
        end
  end.
Definition Observe (dev : device) (apps : list Seen) : M world (rpc_error + unit) :=
  t ← now; observe_all dev t apps.

(** [flv1.BlockEvent]; the time is in Unix seconds. *)
Record BlockMsg := mkBlockMsg {
  bm_sha256 : string; bm_path : string; bm_signer : string; bm_blocked : bool; bm_at_unix : Z; bm_signer_tbs : string;
  bm_signer_verified : bool;
}.
Definition at_unix (now : time) (s : Z) : time := if bool_decide (s = 0%Z) then now else of_unix s.
Definition to_report (now : time) (e : BlockMsg) : BlockReport :=
  mkBlockReport (bm_sha256 e) (bm_path e) (bm_signer e) (bm_signer_tbs e) (bm_signer_verified e) (bm_blocked e)
    (at_unix now (bm_at_unix e)).

(** [UpsertApprovalRequests] with the identifiers it draws, one per distinct hash. *)
Definition upsert_requests (tenantID policyID deviceID : uuid) (events : list BlockReport) : M world (list uuid) :=
  λ w,
    let '(d, r) := UpsertApprovalRequests (λ n, uuid_at (w_drawn w + n)) tenantID policyID deviceID events (w_now w) (w_db w) in
    (mkWorld d (w_hub w) (w_now w) (w_drawn w + length (foldl (add_event (w_now w)) (∅, []) events).2), r).

Definition approval_event (tenantID deviceID : uuid) (host : string) (d : db) (id : uuid) (r : ApprovalRequest) : Event :=
  let policy_name := match policies d !! ar_policy r with Some p => po_name p | None => "" end in
  mkEvent "approval.new" tenantID
    ("Approval requested: " +:+ baseName (ar_path r) +:+ " on " +:+ host)
    (baseName (ar_path r) +:+ " was blocked on " +:+ host +:+ " by policy " +:+ policy_name +:+
       " and is waiting for approval." +:+ nl +:+ "Path: " +:+ ar_path r +:+ nl +:+ "Signer: " +:+ ar_signer r)
    [("request_id", JStr (uuid_string id)); ("policy_id", JStr (uuid_string (ar_policy r))); ("policy_name", JStr policy_name);
     ("sha256", JStr (ar_sha256 r)); ("path", JStr (ar_path r)); ("signer", JStr (ar_signer r));
     ("device_id", JStr (uuid_string deviceID)); ("hostname", JStr host)]
    (ar_first_seen r).

Definition announce (em : Emitter) (tenantID deviceID : uuid) (host : string) (id : uuid) : M world unit :=
  r ← attempt (on_db (GetApprovalRequest tenantID id));
  match r with
  | Err _ => mret tt
  | Ok req => d ← gets w_db; Emit (Emitter := em) (approval_event tenantID deviceID host d id req)
  end.

Definition host_of (tenantID deviceID : uuid) : M world string :=
  r ← attempt (on_db (GetDevice tenantID deviceID));
  mret (match r with
        | Ok v => if bool_decide (dv_hostname v = "") then uuid_string deviceID else dv_hostname v
        | Err _ => uuid_string deviceID
        end).

(** [queueApprovals]: failures are logged only. *)
Definition queueApprovals (tenantID deviceID : uuid) (events : list BlockReport) : M world unit :=
  pv ← attempt (on_db (EffectivePolicyForDevice tenantID deviceID));
  match pv with
  | Err _ => mret tt
  | Ok (policyID, _, _) =>
      ids ← attempt (upsert_requests tenantID policyID deviceID events);
      match ids, notify with
      | Ok (id :: ids'), Some em =>
          host ← host_of tenantID deviceID;
          for_each (id :: ids') (announce em tenantID deviceID host)
      | _, _ => mret tt
      end
  end.

Definition ReportBlocks (dev : device) (msgs : list BlockMsg) : M world (rpc_error + unit) :=
  t ← now;
  let events := to_report t <$> msgs in
  r ← attempt (on_db (RecordBlockEvents (dev_TenantID dev) (dev_ID dev) events t));
  match r with
  | Err _ => refuse Internal "could not record block events"
  | Ok _ => _ ← queueApprovals (dev_TenantID dev) (dev_ID dev) events; mret (inr tt)
  end.

Definition GetControls_rpc (dev : device) : M world (rpc_error + DeviceControls) :=
  r ← attempt (on_db (EffectiveControlsForDevice (dev_TenantID dev) (dev_ID dev)));
  match r with
  | Ok c => mret (inr c)
  | Err e => if bool_decide (e = ErrNotFound) then mret (inr (mkDeviceControls false false false))
             else refuse Internal "could not resolve controls"
  end.

(** The events of a report that have a kind. *)
Definition to_events (now : time) (msgs : list (string * string * Z)) : list DeviceReport :=
  omap (λ m : string * string * Z, let '((kind, summary), at_) := m in
          if bool_decide (kind = "") then None else Some (mkDeviceReport kind summary (at_unix now at_))) msgs.
Definition ReportEvents (dev : device) (msgs : list (string * string * Z)) : M world (rpc_error + unit) :=
  t ← now;
  r ← attempt (on_db (RecordDeviceEvents (dev_TenantID dev) (dev_ID dev) (to_events t msgs) t));
  match r with
  | Ok _ => mret (inr tt)
  | Err _ => refuse Internal "could not record events"
  end.

Definition no_rules : ResolvedRingfence := mkResolved "" "" [] [].
Definition GetRingfence_rpc (dev : device) : M world (rpc_error + ResolvedRingfence) :=
  r ← attempt (on_db (RingfenceForDevice (dev_TenantID dev) (dev_ID dev)));
  match r with
  | Ok rf => mret (inr rf)
  | Err e => if bool_decide (e = ErrNotFound) then mret (inr no_rules) else refuse Internal "could not resolve ringfence"
  end.

(** [flv1.RingfenceEvent]: kind, program, detail, enforced and Unix seconds. *)
Definition RingfenceMsg : Type := string * string * string * bool * Z.
Definition to_ringfence_event (t : time) (m : RingfenceMsg) : option RingfenceEvent :=
  let '(kind, program, detail, enforced, at_) := m in
  if event_kind_ok kind then Some (mkRingfenceEvent kind program detail enforced (at_unix t at_)) else None.
Definition ReportRingfenceEvents (dev : device) (msgs : list RingfenceMsg) (asr_available : bool) : M world (rpc_error + unit) :=
  t ← now;
  r ← attempt (on_db (AppendRingfenceEvents (dev_TenantID dev) (dev_ID dev) (omap (to_ringfence_event t) msgs)));
  match r with
  | Err _ => refuse Internal "could not record events"
  | Ok _ =>
      r ← attempt (on_db (SetDeviceASRAvailable (dev_TenantID dev) (dev_ID dev) asr_available));
      match r with
      | Err _ => refuse Internal "could not record events"
      | Ok _ => mret (inr tt)
      end
  end.

(** [alerting]: the alerting service, with its own notifier. *)
Definition ReportMetrics (alerting : option (option Emitter)) (dev : device) (cpu mem disk : spec_float)
    : M world (rpc_error + unit) :=
  t ← now;
  let sample := mkSample t cpu mem disk in
  r ← attempt (on_db (RecordMetrics (dev_TenantID dev) (dev_ID dev) sample t));
  match r with
  | Err _ => refuse Internal "could not record metrics"
  | Ok _ =>
      _ ← match alerting with
          | Some em => attempt (Evaluate em (dev_TenantID dev) (dev_ID dev) sample t)
          | None => mret (Ok tt)
          end;
      mret (inr tt)
  end.
End agentapi.
