(* ===== verification/Bootstrap.v ===== *)
(** * Key material of a tenant

    Models [internal/server/keys/sealer.go] (key derivation and sealing at rest), the
    authority of [ca/ca.go] that [Enroll.v] leaves out, the server keys of
    [store/tenants.go], [bootstrap/bootstrap.go] (first run, provisioning, loading) and the
    cache of [keyset/keyset.go]. *)

From stdpp Require Import gmap strings list.
From S2P Require Import Prelude GoStr Db Hub World StoreCore Commands Enroll Notify Http.

(** ** Libraries *)

(** HKDF, AES-GCM with its nonces, and the key and certificate encodings of
    [crypto/x509]. *)
Class KeyLib := {
  hkdf_key : string → string → result string;       (* secret, info *)
  gcm_seal : string → string → string → string;     (* key, nonce, plaintext *)
  gcm_open : string → string → string → option string;
  ec_generate : nat → result string;                (* an ECDSA private key *)
  ec_public : string → string;
  ed_generate : nat → result string;                (* an Ed25519 private key *)
  CreateRoot : Template → string → string → result string; (* public key, private key: self-signed *)
  ParseCertificate : string → result string;        (* the raw bytes of the certificate *)
  MarshalPKCS8 : string → result string;
  ParsePKCS8 : string → result (option string);     (* None: not an ECDSA key *)
}.
Definition NonceSize : nat := 12.
(** What their documentation promises. *)
Class KeyLibOk `{KeyLib, Pki} : Prop := {
  hkdf_total : ∀ secret info, is_ok (hkdf_key secret info) = true;
  gcm_roundtrip : ∀ k n p, gcm_open k n (gcm_seal k n p) = Some p;
  rand_length : ∀ n k, String.length (rand_bytes n k) = k;
  parse_created : ∀ t pub key der, CreateRoot t pub key = Ok der → ParseCertificate der = Ok der;
  parse_marshalled : ∀ key der, MarshalPKCS8 key = Ok der → ParsePKCS8 der = Ok (Some key);
}.

(** ** sealer.go *)

Definition masterLen : nat := 32.

Section sealer.
Context `{KeyLib, Pki}.

Definition Derive (master purpose : string) : result string :=
  if (String.length master <? masterLen)%nat then Err (EFmt "master secret must be at least %d bytes" ["32"])
  else hkdf_key master purpose.

(** A [*Sealer] is its derived key. *)
Definition NewSealer (master purpose : string) : result string := Derive master purpose.
Definition Sealer_Seal (key : string) (n : nat) (plain : string) : string :=
  let nonce := rand_bytes n NonceSize in nonce +:+ gcm_seal key nonce plain.
Definition Sealer_Open (key sealed : string) : result string :=
  if (String.length sealed <? NonceSize)%nat then Err (EMsg "sealed value too short")
  else match gcm_open key (String.substring 0 NonceSize sealed) (String.substring NonceSize (String.length sealed - NonceSize) sealed) with
       | Some plain => Ok plain
       | None => Err (EMsg "cipher: message authentication failed")
       end.

(** What the services use for the channel secrets and the TOTP secrets. *)
Definition keyed (key : string) : Sealer := 
  {| Seal := Sealer_Seal key; Open := λ sealed, match Sealer_Open key sealed with Ok plain => Some plain | Err _ => None end |}.
End sealer.

(** ** The authority *)

Definition caValidity : duration := (10 * 365 * 24 * Hour)%Z.

Record CA := mkCA { ca_Cert : string; ca_key : string }.

Section ca.
Context `{KeyLib, Pki}.

Definition ca_New (commonName : string) (now : time) : M world CA :=
  n ← draw;
  key ← of_result (ec_generate n);
  m ← draw;
  let tmpl := mkTemplate (rand_serial m) commonName (now - backdate) (now + caValidity) false in
  der ← of_result (CreateRoot tmpl (ec_public key) key);
  cert ← of_result (ParseCertificate der);
  mret (mkCA cert key).

Definition ca_Load (certDER keyDER : string) : result CA :=
  match ParseCertificate certDER with
  | Err e => Err (EWrap "parse CA cert" e)
  | Ok cert =>
      match ParsePKCS8 keyDER with
      | Err e => Err (EWrap "parse CA key" e)
      | Ok None => Err (EMsg "CA key is not ECDSA")
      | Ok (Some k) => Ok (mkCA cert k)
      end
  end.

Definition MarshalKey (c : CA) : result string := MarshalPKCS8 (ca_key c).
End ca.

(** [PinFromCert]: the first half of the hash, in hexadecimal. *)
Definition PinFromCert `{Hasher} (der : string) : string := String.substring 0 32 (sha256_hex der).

(** ** store/tenants.go: the server keys *)

Definition PutServerKey (tenantID : uuid) (name publicDER privateEnc : string) : M db unit :=
  λ d,
    if bool_decide (is_Some (server_keys d !! (tenantID, name))) then (d, Err PgUnique)
    else if negb (has_tenant tenantID d) then (d, Err PgForeignKey)
    else (set_server_keys (<[(tenantID, name) := mkServerKey publicDER privateEnc]> (server_keys d)) d, Ok tt).
Definition GetServerKey (tenantID : uuid) (name : string) : M db (string * string) :=
  λ d, match server_keys d !! (tenantID, name) with
       | Some k => (d, Ok (sk_public_der k, sk_private_enc k))
       | None => (d, Err ErrNotFound)
       end.

(** ** bootstrap.go *)

Definition ErrAlreadyInitialized : err := EMsg "server already initialized".
Definition sealPurpose : string := "server-keys".
Definition uninstallPurpose : string := "uninstall-code".
Definition keyCA : string := "ca".
Definition keyCommand : string := "command-signing".
Definition keyUpdate : string := "update-signing".

(** The cache of [keyset.Provider]. *)
Abbreviation cache := (gmap uuid Keys).

Section bootstrap.
Context `{UuidSource, Crypto, Pki, KeyLib} (master : string).

(** One Ed25519 key pair, stored. *)
Definition put_signing_key (sealer : string) (tenant : uuid) (name : string) : M world unit :=
  n ← draw;
  priv ← of_result (ed_generate n);
  m ← draw;
  on_db (PutServerKey tenant name (ed_public priv) (Sealer_Seal sealer m priv)).

Definition ProvisionTenant (tenantName : string) (now : time) : M world uuid :=
  sealer ← of_result (NewSealer master sealPurpose);
  id ← uuid_New;
  tenant ← on_db (CreateTenant id tenantName);
  authority ← ca_New (tenantName +:+ " FreeLocker CA") now;
  caKey ← of_result (MarshalKey authority);
  m ← draw;
  _ ← on_db (PutServerKey tenant keyCA (ca_Cert authority) (Sealer_Seal sealer m caKey));
  _ ← for_each [keyCommand; keyUpdate] (put_signing_key sealer tenant);
  mret tenant.

Definition Init (tenantName : string) (now : time) : M world uuid :=
  r ← attempt (on_db FirstTenant);
  match r with
  | Ok _ => fail ErrAlreadyInitialized
  | Err e => if is_err ErrNotFound e then ProvisionTenant tenantName now else fail e
  end.

(** The [open] of [LoadForTenant]. *)
Definition open_key (sealer : string) (tenant : uuid) (name : string) : M db (string * string) :=
  r ← attempt (GetServerKey tenant name);
  match r with
  | Err e => fail (EWrap ("load key " +:+ name) e)
  | Ok (pub, sealed) =>
      match Sealer_Open sealer sealed with
      | Err e => fail (EWrap ("decrypt key " +:+ name +:+ " (wrong master secret?)") e)
      | Ok priv => mret (pub, priv)
      end
  end.

Definition LoadForTenant (tenant : uuid) : M db Keys :=
  sealer ← of_result (NewSealer master sealPurpose);
  '(certDER, caKey) ← open_key sealer tenant keyCA;
  authority ← of_result (ca_Load certDER caKey);
  '(_, cmdKey) ← open_key sealer tenant keyCommand;
  '(_, updKey) ← open_key sealer tenant keyUpdate;
  uk ← of_result (Derive master uninstallPurpose);
  mret (mkKeys cmdKey updKey (ca_Cert authority) (ca_key authority) uk).

(** The keys and the tenant they belong to. *)
Definition Load : M db (uuid * Keys) :=
  r ← attempt FirstTenant;
  match r with
  | Err e => fail (EWrap "load tenant (run `freelocker-server init` first?)" e)
  | Ok tenant => k ← LoadForTenant tenant; mret (tenant, k)
  end.

(** ** keyset.go *)

Definition Provider_For (tenantID : uuid) : M (db * cache) Keys :=
  λ '(d, c),
    match c !! tenantID with
    | Some k => ((d, c), Ok k)
    | None =>
        match LoadForTenant tenantID d with
        | (d', Ok k) => ((d', <[tenantID := k]> c), Ok k)
        | (d', Err e) => ((d', c), Err e)
        end
    end.
End bootstrap.
