(* ===== verification/PolicyFacts.v ===== *)
(** * Policies reach the devices

    Properties of the policy service: a recompiled policy is what its devices are given,
    signed; an unassigned device gets the audit-mode baseline; and what the console's policy
    and approval pages keep of the tables of policies. *)

From stdpp Require Import gmap strings list sorting pretty.
From S2P Require Import Prelude GoStr Rules Wdac Db Hub World StoreCore Commands Http StorePolicies Policies.

(** ** Latest first *)

#[export] Instance PolicyVersion_eq_dec : EqDecision PolicyVersion.
Proof. solve_decision. Defined.

Definition newest {A} (stamp : A → time) (a b : string * A) : bool := (stamp b.2 <=? stamp a.2)%Z.

(** The head of a newest-first list is the row every other row is older than. *)
Lemma order_by_newest {A} `{EqDecision A} (stamp : A → time) (l : list (string * A)) x :
  x ∈ l → (∀ y, y ∈ l → y ≠ x → (stamp y.2 < stamp x.2)%Z) → ∃ l', order_by (newest stamp) l = x :: l'.
Proof.
  intros Hx Hmax.
  assert (StronglySorted (by_leb (newest stamp)) (order_by (newest stamp) l)) as Hs.
  { apply StronglySorted_merge_sort; unfold by_leb, newest.
    - intros a b c. rewrite !Z.leb_le. lia.
    - intros a b. rewrite !Z.leb_le. lia. }
  pose proof (order_by_perm (newest stamp) l) as Hp. destruct (order_by (newest stamp) l) as [|y l'] eqn:E.
  { apply Permutation_nil_l in Hp. subst. set_solver. }
  exists l'. f_equal. assert (y ∈ l) as Hy by (rewrite <- Hp; set_solver).
  assert (x ∈ y :: l') as Hx' by (by rewrite Hp). apply elem_of_cons in Hx' as [->|Hx']; [done|].
  apply StronglySorted_inv in Hs as [_ Hall]. rewrite Forall_forall in Hall. specialize (Hall x Hx').
  unfold by_leb, newest in Hall. apply Z.leb_le in Hall.
  destruct (decide (y = x)) as [|Hne]; [done|]. specialize (Hmax y Hy Hne). lia.
Qed.

(** A console handler takes the steps of the calls it makes. *)
Ltac handler := unfold with_pathID, or_storeErr, writeErr, writeErrOf, writeJSON, writeHeader; steps.

(** ** The version a policy's devices are given *)

Section policies.
Context `{UuidText, UuidSource, CryptoOk, Hasher}.
Context (sort : ∀ A, (A → A → bool) → list A → list A) (keys : uuid → result Keys).

(** The rules of a policy, as [Recompile] hands them to the compiler. *)
Definition rules_of (tenantID policyID : uuid) (d : db) : list Rule :=
  (λ kv, to_rule kv.2) <$> ListRules tenantID policyID d.

Definition put_version (tenantID policyID : uuid) (version : string) (pv : PolicyVersion) (d : db) : db :=
  set_policy_versions (<[(policyID, version) := pv]> (policy_versions d)) d.

Lemma GetPolicy_Ok tenantID id d d' p :
  GetPolicy tenantID id d = (d', Ok p) ↔ d' = d ∧ policies d !! id = Some p ∧ po_tenant p = tenantID.
Proof. unfold GetPolicy. destruct (policies d !! id); [case_bool_decide|]; naive_solver. Qed.

(** Every branch of [Recompile] that succeeds writes one row, stamped with the
    database clock, whatever the version's earlier row was. *)
Lemma Recompile_Ok tenantID policyID d d' version :
  Recompile sort keys tenantID policyID d = (d', Ok version) →
  ∃ p xml k t, policies d !! policyID = Some p ∧ po_tenant p = tenantID ∧
    Compile sort (mkPolicy (po_mode p) (rules_of tenantID policyID d)) = Ok xml ∧ version = sha256_hex xml ∧
    keys tenantID = Ok k ∧
    t = match policy_versions d !! (policyID, version) with Some v => pv_tenant v | None => tenantID end ∧
    d' = put_version tenantID policyID version (mkPolicyVersion t (po_mode p) xml (sign_version k version) (pg_now d)) d.
Proof.
  unfold Recompile. intros (p & d1 & (-> & Hp & Ht)%GetPolicy_Ok & Hr)%bind_Ok. exists p.
  apply bind_Ok in Hr as (rs & ? & [= <- <-] & Hr). unfold compiled in Hr. fold (rules_of tenantID policyID d) in Hr.
  destruct (Compile sort _) as [xml|e] eqn:Hc; [|done].
  apply bind_Ok in Hr as (vx & ? & [= <- <-] & Hr). apply bind_Ok in Hr as (k & ? & [= <- Hk] & Hr).
  apply bind_Ok in Hr as (u & ? & Hv & [= <- <-]). unfold PutPolicyVersion, ContentHash in Hv. simpl in *.
  exists xml, k. destruct (policy_versions d !! (policyID, _)); [|case_match; [done|]]; injection Hv as <-; eauto 10.
Qed.

(** ** What the policy tables hold *)

(** A row of [policy_versions] is a signed compilation. *)
Definition published (version : string) (pv : PolicyVersion) : Prop :=
  ∃ k rs, keys (pv_tenant pv) = Ok k ∧ Compile sort (mkPolicy (pv_mode pv) rs) = Ok (pv_xml pv) ∧
    version = sha256_hex (pv_xml pv) ∧ pv_signature pv = sign_version k version.

Record PolicyTables := mkPolicyTables {
  pt_policies : gmap uuid AppPolicy;
  pt_versions : gmap (uuid * string) PolicyVersion;
  pt_assignments : gmap uuid PolicyAssignment;
}.
Definition policy_tables (d : db) : PolicyTables := mkPolicyTables (policies d) (policy_versions d) (policy_assignments d).

(** A row that names a policy is of the policy's tenant, and every version is
    published. *)
Definition owned (P : gmap uuid AppPolicy) (id t : uuid) : Prop := ∃ p, P !! id = Some p ∧ po_tenant p = t.
Record policies_ok (T : PolicyTables) : Prop := {
  ok_versions : ∀ id v pv, pt_versions T !! (id, v) = Some pv → owned (pt_policies T) id (pv_tenant pv) ∧ published v pv;
  ok_assignments : ∀ g a, pt_assignments T !! g = Some a → owned (pt_policies T) (pa_policy a) (pa_tenant a);
}.
Definition still_ok (T T' : PolicyTables) : Prop := policies_ok T → policies_ok T'.
#[export] Instance still_ok_preorder : PreOrder still_ok.
Proof. split; [intros T HT; exact HT | intros T1 T2 T3 HT1 HT2 HT; eauto]. Qed.

Abbreviation safe := (via policy_tables still_ok).
Abbreviation safeW := (via (dbv policy_tables) still_ok).

Lemma safe_refl d : safe d d.
Proof. reflexivity. Qed.
#[local] Hint Resolve safe_refl : fl.

(** A policy added under a fresh id, or one whose mode changes. *)
Lemma safe_policies P d :
  (∀ id t, owned (policies d) id t → owned P id t) → safe d (set_policies P d).
Proof. intros HP [Hv Ha]. split; simpl in *; [naive_solver | eauto]. Qed.

#[export] Instance keeps_safe {A} (m : M db A) : Steps (keeps policy_tables) m → Steps safe m | 50.
Proof. intros Hm d. unfold via. by rewrite (Hm d). Qed.

#[export] Instance CreatePolicy_safe id t n mo : Steps safe (CreatePolicy id t n mo).
Proof.
  apply map_err_steps. intros d. unfold stmt. generalize (if bool_decide (mo = "") then "audit" else mo) as m.
  intros m. repeat (case_match; [auto with fl|]). bool_cases. apply safe_policies. intros id' t' (p & Hp & Ht). exists p. split; [|done].
  rewrite lookup_insert_ne; [done|]. naive_solver.
Qed.
#[export] Instance SetPolicyMode_safe t id mo : Steps safe (SetPolicyMode t id mo).
Proof.
  intros d. unfold SetPolicyMode. destruct (policies d !! id) as [p|] eqn:Hp; [|auto with fl].
  repeat (case_match; [auto with fl|]). apply safe_policies. intros id' t' (p' & Hp' & <-).
  destruct (decide (id = id')) as [<-|]; [|exists p'; by rewrite lookup_insert_ne].
  exists (po_set_mode mo p). rewrite lookup_insert_eq. by simplify_eq.
Qed.
#[export] Instance DeletePolicy_safe t id : Steps safe (DeletePolicy t id).
Proof.
  intros d. unfold DeletePolicy, oneRow. repeat (case_match; [|auto with fl]).
  intros [Hv Ha]. simpl in *.
  assert (∀ i t', i ≠ id → owned (policies d) i t' → owned (delete id (policies d)) i t') as Hdel.
  { intros i t' Hne (p & Hp & Ht). exists p. by rewrite lookup_delete_ne. }
  split; simpl.
  - intros i v pv [Hpv Hne]%map_lookup_filter_Some. destruct (Hv _ _ _ Hpv). eauto.
  - intros g a' [Ha' Hne]%map_lookup_filter_Some. eauto.
Qed.
#[export] Instance AddRule_safe i t p r a : Steps safe (AddRule i t p r a).
Proof. apply keeps_safe, map_err_steps. intros d. unfold stmt. by repeat case_match. Qed.
#[export] Instance DeleteRule_safe t p r : Steps safe (DeleteRule t p r).
Proof. apply keeps_safe. intros d. unfold DeleteRule, oneRow. by repeat case_match. Qed.
#[export] Instance AppendAudit_safe t a b c x det ip r : Steps safe (AppendAudit t a b c x det ip r).
Proof. apply keeps_safe. intros d. unfold AppendAudit. by case_match. Qed.
#[export] Instance AssignPolicy_safe t g id : Steps safe (AssignPolicy t g id).
Proof.
  intros d. unfold AssignPolicy. destruct (_ && _) eqn:Hg; [|auto with fl]. bool_cases.
  destruct (policies d !! id) as [p|] eqn:Hp; [|done]. bool_cases.
  assert (∀ t', t' = t → safe d (set_policy_assignments (<[g := mkPolicyAssignment t' id]> (policy_assignments d)) d)) as Hs.
  { intros t' -> [Hv Ha]. split; simpl in *; [done|]. intros g' a'. rewrite lookup_insert_Some.
    intros [[<- <-]|[_ Hg']]; [by exists p | eauto]. }
  repeat case_match; first [done | apply Hs; bool_cases; done].
Qed.

#[export] Instance Recompile_safe t id : Steps safe (Recompile sort keys t id).
Proof.
  intros d. destruct (Recompile sort keys t id d) as [d' [v|e]] eqn:Hr.
  - apply Recompile_Ok in Hr as (p & xml & k & t' & Hp & Ht & Hc & -> & Hk & -> & ->). intros [Hv Ha].
    split; simpl in *; [|done]. intros i w pv. rewrite lookup_insert_Some. intros [[[= <- <-] <-]|[_ Hi]]; [|eauto].
    simpl. assert (match policy_versions d !! (id, sha256_hex xml) with Some v => pv_tenant v | None => t end = t) as ->.
    { destruct (policy_versions d !! _) as [pv|] eqn:Hpv; [|done].
      destruct (Hv _ _ _ Hpv) as [(p' & Hp' & <-) _]. by simplify_eq. }
    split; [by exists p|]. exists k, (rules_of t id d). eauto.
  - assert (d' = d) as ->; [|auto with fl]. revert Hr.
    unfold Recompile, PutPolicyVersion, GetPolicy, compiled, mbind, M_bind, mret, M_ret, gets, of_result, fail. simpl.
    intros Hr. repeat (case_match; simplify_eq/=; try done).
Qed.

#[export] Instance recompile_list_safe t ps n e : Steps safe (recompile_list sort keys t ps n e).
Proof. revert n e. induction ps; intros; simpl; steps. Qed.
#[export] Instance RecompileAll_safe t : Steps safe (RecompileAll sort keys t).
Proof. unfold RecompileAll. steps. Qed.

#[export] Instance GetApprovalRequest_read_only t id : ReadOnly (GetApprovalRequest t id).
Proof. intros d. unfold GetApprovalRequest. by repeat case_match. Qed.
#[export] Instance DecideApprovalRequest_safe t id s a n : Steps safe (DecideApprovalRequest t id s a n).
Proof.
  apply keeps_safe. intros d. unfold DecideApprovalRequest. destruct (approval_requests d !! id) eqn:E; [|done].
  destruct (_ && _); [by repeat case_match | apply steps_of].
Qed.

(** ** The console handlers *)

#[export] Instance storeErr_safe e : Steps safeW (storeErr e).
Proof. unfold storeErr, writeErr. steps. Qed.
#[export] Instance audit_safe p a b c x r : Steps safeW (audit p a b c x r).
Proof. unfold audit. steps. Qed.

#[export] Instance createPolicy_safe p n mo : Steps safeW (createPolicy sort keys p n mo).
Proof. unfold createPolicy. handler. Qed.
#[export] Instance setPolicyMode_safe p raw mo : Steps safeW (setPolicyMode sort keys p raw mo).
Proof. unfold setPolicyMode. handler. Qed.
#[export] Instance deletePolicy_safe p raw : Steps safeW (deletePolicy p raw).
Proof. unfold deletePolicy. handler. Qed.
#[export] Instance addRule_safe p raw r : Steps safeW (addRule sort keys p raw r).
Proof. unfold addRule. handler. Qed.
#[export] Instance deleteRule_safe p raw r : Steps safeW (deleteRule sort keys p raw r).
Proof. unfold deleteRule. handler. Qed.
#[export] Instance assignPolicy_safe p raw g : Steps safeW (assignPolicy p raw g).
Proof. unfold assignPolicy. handler. Qed.
#[export] Instance recompilePolicy_safe p raw : Steps safeW (recompilePolicy sort keys p raw).
Proof. unfold recompilePolicy. handler. Qed.
#[export] Instance decideApproval_safe p raw kind s : Steps safeW (decideApproval sort keys p raw kind s).
Proof. unfold decideApproval, record_decision, addPolicyRule. handler. Qed.

(** One request to the console's policy and approval pages, or the startup task, or
    anything that does not write the three tables. *)
Inductive policy_step : world → world → Prop :=
  | do_createPolicy p n mo w : policy_step w (createPolicy sort keys p n mo w).1
  | do_setPolicyMode p raw mo w : policy_step w (setPolicyMode sort keys p raw mo w).1
  | do_deletePolicy p raw w : policy_step w (deletePolicy p raw w).1
  | do_addRule p raw r w : policy_step w (addRule sort keys p raw r w).1
  | do_deleteRule p raw r w : policy_step w (deleteRule sort keys p raw r w).1
  | do_assignPolicy p raw g w : policy_step w (assignPolicy p raw g w).1
  | do_recompilePolicy p raw w : policy_step w (recompilePolicy sort keys p raw w).1
  | do_decideApproval p raw kind s w : policy_step w (decideApproval sort keys p raw kind s w).1
  | do_recompileAll t w : policy_step w (on_db (RecompileAll sort keys t) w).1
  | do_nothing w w' : dbv policy_tables w' = dbv policy_tables w → policy_step w w'.

Lemma policy_step_safe w w' : policy_step w w' → safeW w w'.
Proof.
  destruct 1 as [p n mo w|p raw mo w|p raw w|p raw r w|p raw r w|p raw g w|p raw w|p raw kind s w|t w|w w' He];
    [| | | | | | | | |unfold via; rewrite He; reflexivity].
  - apply createPolicy_safe.
  - apply setPolicyMode_safe.
  - apply deletePolicy_safe.
  - apply addRule_safe.
  - apply deleteRule_safe.
  - apply assignPolicy_safe.
  - apply recompilePolicy_safe.
  - apply decideApproval_safe.
  - apply on_db_steps, RecompileAll_safe.
Qed.

Lemma policy_steps_safe w w' : rtc policy_step w w' → safeW w w'.
Proof. induction 1; [reflexivity|]. etrans; [by apply policy_step_safe | done]. Qed.

(** However console requests that edit policies interleave (create, change the
    mode, delete, add and delete rules, assign, recompile, approve), the tables stay
    sound if they were: each stored version belongs to its policy's tenant, is the
    compilation of some rules under the mode the row records, is named by the hash of
    its XML and signed by the tenant's update key; each assignment names a policy of
    its own tenant. *)
Theorem policies_invariant w w' :
  rtc policy_step w w' → policies_ok (policy_tables (w_db w)) → policies_ok (policy_tables (w_db w')).
Proof. intros Hs. apply (policy_steps_safe _ _ Hs). Qed.

(** ** What a device is given *)

Lemma versions_of_elem t id d v pv :
  (v, pv) ∈ omap (λ kv : (uuid * string) * PolicyVersion,
     if bool_decide (kv.1.1 = id) && bool_decide (pv_tenant kv.2 = t) then Some (kv.1.2, kv.2) else None)
     (map_to_list (policy_versions d)) ↔
  policy_versions d !! (id, v) = Some pv ∧ pv_tenant pv = t.
Proof.
  rewrite list_elem_of_omap. split.
  - intros ([[i w] pv'] & Hin & Hc). apply elem_of_map_to_list in Hin. simpl in Hc.
    destruct (_ && _) eqn:Hb; [|done]. bool_cases. by simplify_eq.
  - intros [Hv <-]. exists ((id, v), pv). rewrite elem_of_map_to_list. split; [done|]. simpl.
    by rewrite !bool_decide_eq_true_2.
Qed.

Lemma LatestPolicyVersion_Ok t id d d' v pv :
  LatestPolicyVersion t id d = (d', Ok (v, pv)) → d' = d ∧ policy_versions d !! (id, v) = Some pv ∧ pv_tenant pv = t.
Proof.
  unfold LatestPolicyVersion. destruct (versions_of t id d) as [|x l] eqn:E; [done|]. intros [= <- ->].
  split; [done|]. apply versions_of_elem. unfold versions_of in E.
  rewrite <- (order_by_perm (newest pv_created_at)). unfold newest. rewrite E. set_solver.
Qed.

Lemma EffectivePolicyForDevice_run t dev d :
  EffectivePolicyForDevice t dev d =
  match assigned_policy t dev d with
  | Some p => match LatestPolicyVersion t p d with
              | (d', Ok v) => (d', Ok (p, v.1, v.2)) | (d', Err e) => (d', Err e) end
  | None => (d, Err ErrNotFound)
  end.
Proof. unfold EffectivePolicyForDevice, mbind, M_bind, gets. by destruct (assigned_policy t dev d). Qed.

(** The baseline always compiles. *)
Lemma compiled_audit : compiled sort "audit" [] = Ok (sha256_hex (render "audit" (foldl add_rule baseline_builders (sort Rule rule_less [])))
    , render "audit" (foldl add_rule baseline_builders (sort Rule rule_less []))).
Proof. done. Qed.

(** A device that asks for its policy always gets one when its tenant's keys
    resolve, and the answer does not change the database: a signature that verifies
    under the tenant's update key, over the hash of the very XML it is given, which
    is a compilation under the mode it is told. With no policy assigned to its group
    it is the compilation of no rules in audit mode. *)
Theorem Effective_signed t dev d k :
  policies_ok (policy_tables d) → keys t = Ok k →
  ∃ e rs, Effective_for sort keys t dev d = (d, Ok e) ∧
    Verify_policy (ed_public (UpdateKey k)) (ef_Version e) (ef_Signature e) = true ∧
    ef_Version e = sha256_hex (ef_XML e) ∧ Compile sort (mkPolicy (ef_Mode e) rs) = Ok (ef_XML e) ∧
    (assigned_policy t dev d = None → ef_Mode e = "audit" ∧ rs = []).
Proof.
  intros [Hv Ha] Hk. unfold Effective_for, attempt, mbind, M_bind. rewrite EffectivePolicyForDevice_run.
  assert (∃ e, denyAll sort keys t d = (d, Ok e) ∧
    Verify_policy (ed_public (UpdateKey k)) (ef_Version e) (ef_Signature e) = true ∧
    ef_Version e = sha256_hex (ef_XML e) ∧ Compile sort (mkPolicy (ef_Mode e) []) = Ok (ef_XML e) ∧
    ef_Mode e = "audit") as (e & He & Hsig & Hver & Hc & Hm).
  { unfold denyAll. rewrite compiled_audit. unfold of_result, mbind, M_bind. rewrite Hk.
    eexists. split; [done|]. split; [apply ed_sign_verify | done]. }
  destruct (assigned_policy t dev d) as [id|] eqn:Has; [|exists e, []; by rewrite He].
  destruct (LatestPolicyVersion t id d) as [d' [[v pv]|er]] eqn:Hl.
  - apply LatestPolicyVersion_Ok in Hl as (-> & Hpv & <-). destruct (Hv _ _ _ Hpv) as [_ (k' & rs & Hk' & Hc' & Hv' & Hs)].
    assert (k' = k) as -> by congruence.
    exists (mkEffective v (pv_mode pv) (pv_xml pv) (pv_signature pv)), rs. split; [done|]. simpl.
    split; [|done]. rewrite Hs. apply ed_sign_verify.
  - exists e, []. unfold LatestPolicyVersion in Hl. destruct (versions_of t id d); [|done]. injection Hl as <- <-.
    by rewrite He.
Qed.

(** A successful recompile is what the devices of the policy are given next, as
    long as the database clock has moved since the earlier versions: the
    compilation of the rules the policy has now under its current mode, signed, and
    this also when the rules are back to an earlier state, whose version row then
    exists already. *)
Theorem Recompile_reaches_devices t id dev d d' version k :
  policies_ok (policy_tables d) → keys t = Ok k → assigned_policy t dev d = Some id →
  (∀ v pv, policy_versions d !! (id, v) = Some pv → (pv_created_at pv < pg_now d)%Z) →
  Recompile sort keys t id d = (d', Ok version) →
  ∃ p xml, policies d !! id = Some p ∧ Compile sort (mkPolicy (po_mode p) (rules_of t id d)) = Ok xml ∧
    version = sha256_hex xml ∧
    Effective_for sort keys t dev d' = (d', Ok (mkEffective version (po_mode p) xml (sign_version k version))).
Proof.
  intros [Hv _] Hk Has Hold (p & xml & k' & t' & Hp & Ht & Hc & Hver & Hk' & Ht' & ->)%Recompile_Ok.
  exists p, xml. split_and!; try done. assert (k' = k) as -> by congruence.
  assert (t' = t) as ->.
  { rewrite Ht'. destruct (policy_versions d !! _) as [pv|] eqn:Hpv; [|done].
    destruct (Hv _ _ _ Hpv) as [(p' & Hp' & <-) _]. simpl in Hp'. congruence. }
  unfold Effective_for, attempt, mbind, M_bind. rewrite EffectivePolicyForDevice_run.
  set (pv := mkPolicyVersion t (po_mode p) xml (sign_version k version) (pg_now d)).
  assert (assigned_policy t dev (put_version t id version pv d) = Some id) as -> by exact Has.
  unfold LatestPolicyVersion, versions_of.
  destruct (order_by_newest pv_created_at
    (omap (λ kv : (uuid * string) * PolicyVersion,
      if bool_decide (kv.1.1 = id) && bool_decide (pv_tenant kv.2 = t) then Some (kv.1.2, kv.2) else None)
      (map_to_list (policy_versions (put_version t id version pv d)))) (version, pv)) as [l' Hl].
  - apply versions_of_elem. simpl. by rewrite lookup_insert_eq.
  - intros [v pv'] Hin Hne. apply versions_of_elem in Hin as [Hin _]. simpl in *.
    apply lookup_insert_Some in Hin as [[[= <-] <-]|[_ Hin]]; [done|]. simpl. eauto.
  - unfold newest in Hl. by rewrite Hl.
Qed.
End policies.

(** ** A concrete office

    Tenant 1 with one administrator, a group 5 and its device 9. *)
Module Office.
Import Toy.
#[export] Instance toy_hash : Hasher := λ s, pretty (N.of_nat (String.length s)).

Definition office_db : db :=
  set_devices {[9%N := mkDevice 1 "pc" "" (Some 5%N) "s" 0 "" "1.0" [] "" 0 None false false 1 "" None]}
    (set_device_groups {[5%N := mkDeviceGroup 1 "ring0"]}
      (set_admins {[3%N := mkAdmin 1 "ops@acme.test" "" None true "admin" false false 1]}
        (set_tenants {[1%N := mkTenant "acme" false 1]} empty_db))).
Definition office : world := mkWorld office_db (Register 9 New).2 5 0.
Definition boss : principal := mkPrincipal 1 3 "ops@acme.test" "admin" false "10.0.0.1".
Definition any_app : Rule := mkRule Path "C:\App\*" "" "".

(** The policy gets id 100, the rule 101. *)
Definition created : world := (createPolicy insertion_sort lab_keys boss "web" "enforce" office).1.
Definition with_rule : world := (addRule insertion_sort lab_keys boss (uuid_string 100) any_app created).1.
Definition assigned : world := (assignPolicy boss (uuid_string 100) (uuid_string 5) with_rule).1.
(** The next day the rule is taken off again. *)
Definition tomorrow (w : world) : world := set_db (set_pg_now 2 (w_db w)) w.
Definition next_day : db := (DeleteRule 1 100 101 (w_db (tomorrow assigned))).1.

Lemma office_run : rtc (policy_step insertion_sort lab_keys) office assigned.
Proof.
  apply (rtc_l _ _ created); [apply do_createPolicy|].
  apply (rtc_l _ _ with_rule); [apply do_addRule|].
  apply (rtc_l _ _ assigned); [apply do_assignPolicy|].
  apply rtc_refl.
Qed.
Lemma office_ok : policies_ok insertion_sort lab_keys (policy_tables office_db).
Proof. by split. Qed.
Lemma assigned_ok : policies_ok insertion_sort lab_keys (policy_tables (w_db assigned)).
Proof. exact (policy_steps_safe insertion_sort lab_keys office assigned office_run office_ok). Qed.
Lemma tomorrow_tables w : policy_tables (w_db (tomorrow w)) = policy_tables (w_db w).
Proof. done. Qed.
Lemma next_day_ok : policies_ok insertion_sort lab_keys (policy_tables next_day).
Proof.
  assert (∀ d, policies_ok insertion_sort lab_keys (policy_tables d) →
    policies_ok insertion_sort lab_keys (policy_tables (DeleteRule 1 100 101 d).1)) as Hd
    by (intros d; apply (DeleteRule_safe insertion_sort lab_keys 1 100 101 d)).
  unfold next_day. apply Hd. rewrite tomorrow_tables. apply assigned_ok.
Qed.
End Office.

Section witnesses.
Import Toy Office.

Lemma policies_invariant_witness :
  rtc (policy_step insertion_sort lab_keys) office assigned ∧ policies_ok insertion_sort lab_keys (policy_tables (w_db assigned)).
Proof.
  split; [exact office_run|].
  exact (policies_invariant insertion_sort lab_keys office assigned office_run office_ok).
Defined.

(** The device of the group is given the policy, the one without a group the
    baseline. *)
Lemma Effective_signed_witness :
  (∃ e, Effective_for insertion_sort lab_keys 1 9 next_day = (next_day, Ok e) ∧ Verify_policy "uk" (ef_Version e) (ef_Signature e) = true) ∧
  (Effective_for insertion_sort lab_keys 1 9 next_day).2 ≠ (denyAll insertion_sort lab_keys 1 next_day).2.
Proof.
  split.
  - destruct (Effective_signed insertion_sort lab_keys 1 9 next_day (mkKeys "ck" "uk" "ca" "cak" "unk") next_day_ok eq_refl)
      as (e & rs & He & Hv & _). exists e. exact (conj He Hv).
  - vm_compute. discriminate.
Defined.

(** The rule is gone again, and the version without it, first stored when the
    policy was created, is what the device is given. *)
Lemma next_day_versions v pv : policy_versions next_day !! (100%N, v) = Some pv → (pv_created_at pv < pg_now next_day)%Z.
Proof.
  intros Hpv. assert (forallb (λ kv : (uuid * string) * PolicyVersion, (pv_created_at kv.2 <? 2)%Z)
    (map_to_list (policy_versions next_day)) = true) as Hall by (vm_compute; reflexivity).
  rewrite forallb_forall in Hall. apply elem_of_map_to_list, list_elem_of_In in Hpv.
  specialize (Hall _ Hpv). apply Z.ltb_lt in Hall. exact Hall.
Qed.
Lemma Recompile_reaches_devices_witness :
  is_Some (policy_versions next_day !! (100%N, "8781")) ∧
  ∃ e, (Effective_for insertion_sort lab_keys 1 9 (Recompile insertion_sort lab_keys 1 100 next_day).1).2 = Ok e ∧
    ef_Version e = "8781" ∧ ef_Mode e = "enforce".
Proof.
  split; [vm_compute; eexists; reflexivity|].
  destruct (Recompile insertion_sort lab_keys 1 100 next_day) as [d' r] eqn:Hr.
  assert (r = Ok "8781") as -> by (change r with (d', r).2; rewrite <- Hr; vm_compute; reflexivity).
  destruct (Recompile_reaches_devices insertion_sort lab_keys 1 100 9 next_day d' "8781" (mkKeys "ck" "uk" "ca" "cak" "unk")
    next_day_ok eq_refl) as (p & xml & Hp & _ & _ & He); [vm_compute; reflexivity | apply next_day_versions | exact Hr|].
  eexists. cbn [fst]. rewrite He. split; [reflexivity|]. split; [reflexivity|]. cbn [ef_Mode].
  assert (po_mode <$> policies next_day !! 100%N = Some "enforce") as Hm by (vm_compute; reflexivity).
  rewrite Hp in Hm. by injection Hm.
Defined.
End witnesses.
