(* ===== verification/ApprovalFacts.v ===== *)
(** * Approval requests count the blocks and stay decided

    Properties of the approval queue: a request is only ever decided once, its
    counters agree with the block events and the devices that reported them, and
    approving it puts the rule it asked for on the policy. *)

From stdpp Require Import gmap strings list.
From S2P Require Import Prelude GoStr Rules Wdac Db Hub World StoreCore Commands Http StorePolicies Policies PolicyFacts.

Record ApprovalTables := mkApprovalTables {
  at_requests : gmap uuid ApprovalRequest;
  at_devices : gset (uuid * uuid);
}.
Definition approval_tables (d : db) : ApprovalTables := mkApprovalTables (approval_requests d) (approval_request_devices d).

(** ** Soundness of the tables *)

(** The device rows of a request. *)
Definition reporters (V : gset (uuid * uuid)) (id : uuid) : gset (uuid * uuid) := filter (λ rd, rd.1 = id) V.

Definition decided (r : ApprovalRequest) : Prop := ar_status r = "approved" ∨ ar_status r = "denied".
Record request_ok (r : ApprovalRequest) : Prop := {
  rok_seen : (ar_first_seen r ≤ ar_last_seen r)%Z;
  rok_events : (1 ≤ ar_event_count r)%Z;
  rok_decided : is_Some (ar_decided_by r) ↔ decided r;
}.
Record approvals_ok (T : ApprovalTables) : Prop := {
  aok_rows : ∀ id r, at_requests T !! id = Some r →
    request_ok r ∧ ar_device_count r = Z.of_nat (size (reporters (at_devices T) id));
  aok_devices : ∀ id dev, (id, dev) ∈ at_devices T → is_Some (at_requests T !! id);
  aok_unique : ∀ i j r s, at_requests T !! i = Some r → at_requests T !! j = Some s →
    ar_policy r = ar_policy s → ar_sha256 r = ar_sha256 s → i = j;
}.

(** ** What happens to a request over time *)

Definition text_next (s s' : string) : Prop := s = "" ∨ s' = s.
Record request_next (r r' : ApprovalRequest) : Prop := {
  rn_key : ar_tenant r' = ar_tenant r ∧ ar_policy r' = ar_policy r ∧ ar_sha256 r' = ar_sha256 r;
  rn_final : ar_status r ≠ "pending" →
    ar_status r' = ar_status r ∧ ar_decided_by r' = ar_decided_by r ∧ ar_decided_at r' = ar_decided_at r;
  rn_counts : (ar_device_count r ≤ ar_device_count r')%Z ∧ (ar_event_count r ≤ ar_event_count r')%Z;
  rn_seen : (ar_first_seen r' ≤ ar_first_seen r)%Z ∧ (ar_last_seen r ≤ ar_last_seen r')%Z;
  rn_texts : text_next (ar_path r) (ar_path r') ∧ text_next (ar_signer r) (ar_signer r') ∧
    text_next (ar_signer_tbs r) (ar_signer_tbs r');
}.
#[export] Instance text_next_preorder : PreOrder text_next.
Proof. unfold text_next. split; [by right|]. intros x y z. naive_solver. Qed.
#[export] Instance request_next_preorder : PreOrder request_next.
Proof.
  split.
  - intros r. split; split_and?; try done; try lia; reflexivity.
  - intros r1 r2 r3 [[? [? ?]] F1 [? ?] [? ?] [? [? ?]]] [[? [? ?]] F2 [? ?] [? ?] [? [? ?]]]. split.
    + split_and!; congruence.
    + intros Hp. destruct (F1 Hp) as (Hs & ? & ?). destruct F2 as (? & ? & ?); [by rewrite Hs|]. split_and!; congruence.
    + split; lia.
    + split; lia.
    + split_and!; by etrans.
Qed.

Definition requests_le (R R' : gmap uuid ApprovalRequest) : Prop :=
  ∀ id r, R !! id = Some r → ∃ r', R' !! id = Some r' ∧ request_next r r'.
#[export] Instance requests_le_preorder : PreOrder requests_le.
Proof.
  split; [intros R id r Hr; exists r; split; [done | reflexivity]|].
  intros R1 R2 R3 L1 L2 id r Hr. destruct (L1 _ _ Hr) as (r2 & Hr2 & Hn2). destruct (L2 _ _ Hr2) as (r3 & Hr3 & Hn3).
  exists r3. split; [done | by etrans].
Qed.

(** A step from sound tables leads to sound tables, and no request goes back. *)
Definition goes_on (T T' : ApprovalTables) : Prop :=
  approvals_ok T → approvals_ok T' ∧ requests_le (at_requests T) (at_requests T').
#[export] Instance goes_on_preorder : PreOrder goes_on.
Proof.
  split; [intros T HT; split; [done | reflexivity]|].
  intros T1 T2 T3 G1 G2 HT. destruct (G1 HT) as [HT2 L1]. destruct (G2 HT2) as [HT3 L2]. split; [done | by etrans].
Qed.
Abbreviation moves := (via approval_tables goes_on).
Abbreviation movesW := (via (dbv approval_tables) goes_on).

Lemma moves_refl d : moves d d.
Proof. reflexivity. Qed.
#[local] Hint Resolve moves_refl : fl.

Lemma requests_le_insert R k r r' : R !! k = Some r → request_next r r' → requests_le R (<[k := r']> R).
Proof.
  intros Hr Hn i s Hs. destruct (decide (i = k)) as [->|Hne].
  - exists r'. rewrite lookup_insert_eq. simplify_eq. done.
  - exists s. rewrite lookup_insert_ne by done. split; [done | reflexivity].
Qed.

(** A row replaced by a later version of itself with the same device counter. *)
Lemma goes_on_row T k r r' :
  at_requests T !! k = Some r → request_next r r' → (request_ok r → request_ok r') → ar_device_count r' = ar_device_count r →
  goes_on T (mkApprovalTables (<[k := r']> (at_requests T)) (at_devices T)).
Proof.
  intros Hr Hn Hok Hdc [Hrows Hdev Huni]. split; [|by eapply requests_le_insert].
  destruct (rn_key _ _ Hn) as (_ & Hp & Hs). split; simpl.
  - intros i s [[<- <-]|[_ Hi]]%lookup_insert_Some; [|eauto]. destruct (Hrows _ _ Hr) as [Hr0 <-]. split; [by apply Hok | done].
  - intros i dev Hi. apply lookup_insert_is_Some'. right. eauto.
  - intros i j s1 s2 [[<- <-]|[Hi1 Hi]]%lookup_insert_Some [[<- <-]|[Hj1 Hj]]%lookup_insert_Some; rewrite ?Hp, ?Hs; eauto.
Qed.

#[export] Instance keeps_moves {A} (m : M db A) : Steps (keeps approval_tables) m → Steps moves m | 50.
Proof. intros Hm d. unfold via. by rewrite (Hm d). Qed.

#[export] Instance DecideApprovalRequest_moves t id s a n :
  s = "approved" ∨ s = "denied" → Steps moves (DecideApprovalRequest t id s a n).
Proof.
  intros Hs d. unfold DecideApprovalRequest. destruct (approval_requests d !! id) as [r|] eqn:Hr; [|auto with fl].
  destruct (_ && _) eqn:Hg; [|apply steps_of]. bool_cases. repeat (case_match; [auto with fl|]).
  apply (goes_on_row (approval_tables d) id r); simpl; [done | | | done].
  - split; simpl; [done | congruence | lia | lia | split_and!; by right].
  - intros [Hseen Hev Hdec]. split; simpl; [done..|]. split; [done | by eexists].
Qed.

Lemma stale_next before r : stale_request before r = true → request_next r (ar_set_status "expired" r).
Proof.
  unfold stale_request. intros Hs. bool_cases.
  split; simpl; [done | congruence | lia | lia | split_and!; by right].
Qed.
#[export] Instance ExpireApprovalRequests_moves before : Steps moves (ExpireApprovalRequests before).
Proof.
  intros d [Hrows Hdev Huni]. unfold ExpireApprovalRequests. simpl in *.
  set (f r := if stale_request before r then ar_set_status "expired" r else r).
  assert (∀ r, ar_policy (f r) = ar_policy r ∧ ar_sha256 (f r) = ar_sha256 r ∧ ar_device_count (f r) = ar_device_count r) as Hf
    by (intros r; unfold f; by case_match).
  assert (∀ r, request_next r (f r)) as Hn.
  { intros r. unfold f. destruct (stale_request before r) eqn:E; [by eapply stale_next | reflexivity]. }
  split; [split; simpl|].
  - intros id r' (r & <- & Hr)%lookup_fmap_Some. destruct (Hrows _ _ Hr) as [Hok Hdc].
    split; [|by destruct (Hf r) as (_ & _ & ->)]. unfold f. destruct (stale_request before r) eqn:E; [|done].
    unfold stale_request in E. bool_cases. destruct Hok as [? ? Hd]. split; simpl; [done..|].
    rewrite Hd. unfold decided. simpl. rewrite H. naive_solver.
  - intros id dev Hin. rewrite lookup_fmap. apply fmap_is_Some. eauto.
  - intros i j r' s' (r & <- & Hr)%lookup_fmap_Some (s & <- & Hs)%lookup_fmap_Some.
    destruct (Hf r) as (-> & -> & _), (Hf s) as (-> & -> & _). eauto.
  - intros id r Hr. exists (f r). by rewrite lookup_fmap, Hr.
Qed.

(** ** The upsert *)

Definition agg_ok (a : agg) : Prop := (ag_first a ≤ ag_last a)%Z ∧ (1 ≤ ag_n a)%Z.

Lemma fill_next s s' : text_next s (fill s s').
Proof. unfold text_next, fill. case_bool_decide; naive_solver. Qed.
Lemma merge_next a r : agg_ok a → request_next r (merge_request a r).
Proof. intros [? ?]. split; simpl; [done.. | lia | lia | split_and!; apply fill_next]. Qed.
Lemma merge_ok a r : agg_ok a → request_ok r → request_ok (merge_request a r).
Proof. intros [? ?] [? ? ?]. split; simpl; [lia..|done]. Qed.

Lemma request_for_None d p h :
  request_for p h d = None → ∀ k r, approval_requests d !! k = Some r → ar_policy r = p → ar_sha256 r = h → False.
Proof.
  unfold request_for. rewrite find_row_None. intros Hn k r Hr <- <-. specialize (Hn _ _ Hr).
  by rewrite !bool_decide_eq_true_2 in Hn.
Qed.
Lemma request_for_Some d p h k r :
  request_for p h d = Some (k, r) → approval_requests d !! k = Some r ∧ ar_policy r = p ∧ ar_sha256 r = h.
Proof. unfold request_for. intros [Hk Hp]%find_row_Some. by bool_cases. Qed.

Lemma reporters_none V id : (∀ dev, (id, dev) ∉ V) → reporters V id = ∅.
Proof. intros Hn. apply set_eq. intros [i v]. unfold reporters. rewrite elem_of_filter. set_solver. Qed.

#[export] Instance upsert_request_moves id t p h a : agg_ok a → Steps moves (upsert_request id t p h a).
Proof.
  intros Ha d. unfold upsert_request. destruct (request_for p h d) as [[k r]|] eqn:Hf.
  - apply request_for_Some in Hf as (Hr & _ & _).
    by apply (goes_on_row (approval_tables d) k r); auto using merge_next, merge_ok.
  - repeat (case_match; [auto with fl|]). bool_cases. intros [Hrows Hdev Huni]. simpl in *.
    assert (approval_requests d !! id = None) as Hid by (by apply eq_None_not_Some).
    split; [split; simpl|].
    + intros i r [[<- <-]|[_ Hi]]%lookup_insert_Some; [|eauto]. split.
      * destruct Ha. split; simpl; [done..|]. unfold decided. simpl. naive_solver.
      * simpl. rewrite reporters_none; [done|]. intros dev Hin. destruct (Hdev _ _ Hin). congruence.
    + intros i dev Hin. apply lookup_insert_is_Some'. right. eauto.
    + intros i j r s [[<- <-]|[Hi1 Hi]]%lookup_insert_Some [[<- <-]|[Hj1 Hj]]%lookup_insert_Some; simpl; try done; eauto;
        intros; exfalso; eauto using request_for_None.
    + intros i r Hi. exists r. rewrite lookup_insert_ne by congruence. split; [done | reflexivity].
Qed.

Lemma reporters_add_same V id dev : (id, dev) ∉ V → size (reporters ({[(id, dev)]} ∪ V) id) = S (size (reporters V id)).
Proof.
  intros Hn. assert (reporters ({[(id, dev)]} ∪ V) id = {[(id, dev)]} ∪ reporters V id) as ->.
  { apply set_eq. intros [i v]. unfold reporters. rewrite elem_of_union, !elem_of_filter, elem_of_union, elem_of_singleton.
    naive_solver. }
  rewrite size_union, size_singleton; [done|]. unfold reporters. apply disjoint_singleton_l.
  rewrite elem_of_filter. naive_solver.
Qed.
Lemma reporters_add_other V id dev id' : id' ≠ id → reporters ({[(id, dev)]} ∪ V) id' = reporters V id'.
Proof.
  intros Hne. apply set_eq. intros [i v]. unfold reporters.
  rewrite !elem_of_filter, elem_of_union, elem_of_singleton. naive_solver.
Qed.

#[export] Instance note_device_moves id dev : Steps moves (note_device id dev).
Proof.
  intros d. unfold note_device. case_bool_decide as Hin; [auto with fl|].
  destruct (_ || _) eqn:Hex; [auto with fl|]. bool_cases.
  intros [Hrows Hdev Huni]. simpl in *.
  assert (∀ i r', alter (λ r, ar_set_device_count (ar_device_count r + 1) r) id (approval_requests d) !! i = Some r' →
    ∃ r, approval_requests d !! i = Some r ∧ r' = if decide (i = id) then ar_set_device_count (ar_device_count r + 1) r else r) as Halt.
  { intros i r'. destruct (decide (i = id)) as [->|Hne].
    - rewrite lookup_alter_eq. intros (r & -> & Hr)%fmap_Some. eauto.
    - rewrite lookup_alter_ne by done. eauto. }
  split; [split; simpl|].
  - intros i r' (r & Hr & ->)%Halt. destruct (Hrows _ _ Hr) as [[? ? ?] Hdc]. case_decide as Hi.
    + subst i. split; [by split|]. simpl. rewrite reporters_add_same, Hdc by done. lia.
    + by rewrite reporters_add_other.
  - intros i v Hiv. rewrite lookup_alter_is_Some. apply elem_of_union in Hiv as [[= -> ->]%elem_of_singleton|Hiv]; [|eauto].
    by apply not_eq_None_Some.
  - intros i j r' s' (r & Hr & ->)%Halt (s & Hs & ->)%Halt. intros Hp Hh. eapply Huni; [done..| |].
    + by repeat case_decide.
    + by repeat case_decide.
  - intros i r Hr. destruct (decide (i = id)) as [->|Hne].
    + eexists. rewrite lookup_alter_eq, Hr. split; [done|].
      split; simpl; [done | done | lia | lia | split_and!; by right].
    + exists r. rewrite lookup_alter_ne by done. split; [done | reflexivity].
Qed.

Definition no_agg : agg := mkAgg "" "" "" false 0 0 0.
#[export] Instance upsert_all_moves t p dev byHash hs :
  Forall (λ h, agg_ok (default no_agg (byHash !! h))) hs.*1 → Steps moves (upsert_all t p dev byHash hs).
Proof.
  induction hs as [|[h id] hs IH]; simpl; [apply _|]. intros [Ha Hall]%Forall_cons.
  apply bind_steps; [by apply upsert_request_moves|]. intros r. specialize (IH Hall). steps.
Qed.

(** ** The aggregation *)

(** How many of the events are of a hash. *)
Definition blocks_of (h : string) (events : list BlockReport) : nat := count (λ e, bool_decide (br_sha256 e = h)) events.

(** What the loop has collected after some events. *)
Record collected (events : list BlockReport) (acc : gmap string agg * list string) : Prop := {
  col_order : NoDup acc.2;
  col_dom : ∀ h, h ∈ acc.2 ↔ is_Some (acc.1 !! h);
  col_agg : ∀ h a, acc.1 !! h = Some a → h ≠ "" ∧ agg_ok a ∧ ag_n a = Z.of_nat (blocks_of h events);
  col_none : ∀ h, acc.1 !! h = None → h = "" ∨ blocks_of h events = 0;
}.

Lemma blocks_of_snoc h events e :
  blocks_of h (events ++ [e]) = blocks_of h events + (if decide (br_sha256 e = h) then 1 else 0).
Proof. unfold blocks_of. rewrite count_app, count_cons. simpl. case_bool_decide; case_decide; simpl; try done; lia. Qed.

Lemma add_event_collected now events acc e : collected events acc → collected (events ++ [e]) (add_event now acc e).
Proof.
  destruct acc as [byHash order]. intros [Hnd Hdom Hagg Hnone]. simpl in *. unfold add_event.
  case_bool_decide as He.
  { split; simpl; try done.
    - intros h a Ha. destruct (Hagg _ _ Ha) as (Hh & ? & Hn). rewrite blocks_of_snoc, decide_False by congruence.
      split_and!; try done. lia.
    - intros h Hh. rewrite blocks_of_snoc. destruct (Hnone h Hh); [by left|]. case_decide; [left; congruence | right; lia]. }
  set (at_ := if bool_decide (br_at e = 0%Z) then now else br_at e).
  destruct (byHash !! br_sha256 e) as [a|] eqn:Ha.
  - destruct (Hagg _ _ Ha) as (_ & [Hfl Hn1] & Hn). split; simpl.
    + done.
    + intros h. rewrite Hdom, lookup_insert_is_Some'. naive_solver.
    + intros h b. rewrite blocks_of_snoc. intros [[<- <-]|[Hne Hb]]%lookup_insert_Some.
      * rewrite decide_True by done. unfold agg_ok. simpl. split_and!; try done; try lia.
        destruct (at_ <? ag_first a)%Z eqn:E1, (ag_last a <? at_)%Z eqn:E2; lia.
      * rewrite decide_False by done. rewrite Nat.add_0_r. eauto.
    + intros h [Hb Hne]%lookup_insert_None. rewrite blocks_of_snoc, decide_False, Nat.add_0_r by congruence. eauto.
  - assert (br_sha256 e ∉ order) as Hfresh by (rewrite Hdom, Ha; by intros [? [=]]).
    split; simpl.
    + apply NoDup_app. split_and!; [done | set_solver | apply NoDup_singleton].
    + intros h. rewrite elem_of_app, list_elem_of_singleton, Hdom, lookup_insert_is_Some'. naive_solver.
    + intros h b. rewrite blocks_of_snoc. intros [[<- <-]|[Hne Hb]]%lookup_insert_Some.
      * rewrite decide_True by done. destruct (Hnone _ Ha) as [|Hz]; [done|]. unfold agg_ok. simpl. rewrite Hz.
        rewrite Z.ltb_irrefl. split_and!; try done; lia.
      * rewrite decide_False by done. rewrite Nat.add_0_r. eauto.
    + intros h [Hb Hne]%lookup_insert_None. rewrite blocks_of_snoc, decide_False, Nat.add_0_r by congruence. eauto.
Qed.

Lemma foldl_collected now events : collected events (foldl (add_event now) (∅, []) events).
Proof.
  induction events as [|e events IH] using rev_ind.
  - split; simpl; [apply NoDup_nil_2 | | done | by right].
    intros h. rewrite lookup_empty, elem_of_nil. split; [done | by intros []].
  - rewrite foldl_app. by apply add_event_collected.
Qed.

#[export] Instance UpsertApprovalRequests_moves fresh t p dev events now :
  Steps moves (UpsertApprovalRequests fresh t p dev events now).
Proof.
  unfold UpsertApprovalRequests. destruct (foldl _ _ events) as [byHash order] eqn:Hf.
  pose proof (foldl_collected now events) as [_ Hdom Hagg _]. rewrite Hf in *. simpl in *.
  case_bool_decide; [apply _|]. apply transaction_steps, upsert_all_moves.
  rewrite Forall_forall. intros h ([h' i] & -> & Hin)%list_elem_of_fmap.
  apply elem_of_zip_l, Hdom in Hin as [a Ha]. simpl. rewrite Ha. by apply Hagg in Ha as (_ & ? & _).
Qed.

(** ** The console and the reports *)

Section approvals.
Context `{UuidText, UuidSource, CryptoOk, Hasher}.
Context (sort : ∀ A, (A → A → bool) → list A → list A) (keys : uuid → result Keys).

#[export] Instance AddRule_off_approvals i t p r a : Steps (keeps approval_tables) (AddRule i t p r a).
Proof. apply map_err_steps. intros d. unfold stmt. by repeat case_match. Qed.
#[export] Instance PutPolicyVersion_off_approvals t p v m x s : Steps (keeps approval_tables) (PutPolicyVersion t p v m x s).
Proof. intros d. unfold PutPolicyVersion. by repeat case_match. Qed.
#[export] Instance GetPolicy_read_only t id : ReadOnly (GetPolicy t id).
Proof. intros d. unfold GetPolicy. by repeat case_match. Qed.
#[export] Instance of_result_read_only {S A} (r : result A) : ReadOnly (of_result r : M S A).
Proof. done. Qed.
#[export] Instance Recompile_off_approvals t p : Steps (keeps approval_tables) (Recompile sort keys t p).
Proof. unfold Recompile. steps. Qed.
#[export] Instance AppendAudit_off_approvals t a b c x det ip r :
  Steps (keeps approval_tables) (AppendAudit t a b c x det ip r).
Proof. intros d. unfold AppendAudit. by case_match. Qed.

#[export] Instance addPolicyRule_off_approvals p id r :
  Steps (keeps (dbv approval_tables)) (addPolicyRule sort keys p id r).
Proof. unfold addPolicyRule. steps. Qed.
#[export] Instance audit_off_approvals p a b c x r : Steps (keeps (dbv approval_tables)) (audit p a b c x r).
Proof. unfold audit. steps. Qed.

#[export] Instance keeps_movesW {A} (m : M world A) : Steps (keeps (dbv approval_tables)) m → Steps movesW m | 50.
Proof. intros Hm w. unfold via. by rewrite (Hm w). Qed.

#[export] Instance storeErr_moves e : Steps movesW (storeErr e).
Proof. unfold storeErr, writeErr. steps. Qed.
Lemma decideApproval_moves p raw kind s :
  s = "approved" ∨ s = "denied" → Steps movesW (decideApproval sort keys p raw kind s).
Proof.
  intros Hs. unfold decideApproval, record_decision.
  assert (∀ t id a n, Steps moves (DecideApprovalRequest t id s a n)) by (intros; by apply DecideApprovalRequest_moves).
  handler.
Qed.

(** A device reporting block events, a decision, the expiry task, or anything that
    does not write the two tables. *)
Inductive approval_step : world → world → Prop :=
  | do_report fresh t p dev events n w : approval_step w (on_db (UpsertApprovalRequests fresh t p dev events n) w).1
  | do_approve p raw kind w : approval_step w (approveApproval sort keys p raw kind w).1
  | do_deny p raw w : approval_step w (denyApproval sort keys p raw w).1
  | do_expire before w : approval_step w (on_db (ExpireApprovalRequests before) w).1
  | do_elsewhere w w' : dbv approval_tables w' = dbv approval_tables w → approval_step w w'.

Lemma approval_step_moves w w' : approval_step w w' → movesW w w'.
Proof.
  destruct 1 as [fresh t p dev events n w|p raw kind w|p raw w|before w|w w' He].
  - apply on_db_steps, UpsertApprovalRequests_moves.
  - apply decideApproval_moves. by left.
  - apply decideApproval_moves. by right.
  - apply on_db_steps, ExpireApprovalRequests_moves.
  - unfold via. rewrite He. reflexivity.
Qed.
Lemma approval_steps_move w w' : rtc approval_step w w' → movesW w w'.
Proof. induction 1; [reflexivity|]. etrans; [by apply approval_step_moves | done]. Qed.

(** The approval queue stays consistent under any sequence of block reports,
    decisions and expiries: one request per policy and hash; each counts exactly the
    devices recorded for it; it has a deciding administrator exactly when it is
    approved or denied; its first sighting is not after its last. *)
Theorem approvals_invariant w w' :
  rtc approval_step w w' → approvals_ok (approval_tables (w_db w)) → approvals_ok (approval_tables (w_db w')).
Proof. intros Hs Hok. by destruct (approval_steps_move _ _ Hs Hok). Qed.

(** C25. A request is decided once: after any such sequence it is still there, for the
    same policy and hash; if it was no longer pending, its status, its decider and the
    time of the decision are what they were, whatever is reported or asked later; its
    counters only grow and its time span only widens. *)
Theorem approval_history w w' id r :
  rtc approval_step w w' → approvals_ok (approval_tables (w_db w)) → approval_requests (w_db w) !! id = Some r →
  ∃ r', approval_requests (w_db w') !! id = Some r' ∧ request_next r r'.
Proof. intros Hs Hok. destruct (approval_steps_move _ _ Hs Hok) as [_ Hle]. apply Hle. Qed.
End approvals.

(** ** Every block is counted *)

(** The block events a policy's request for a hash has counted. *)
Definition seen (p : uuid) (h : string) (d : db) : Z :=
  match request_for p h d with Some (_, r) => ar_event_count r | None => 0 end.

Lemma seen_row d p h k r :
  approvals_ok (approval_tables d) → approval_requests d !! k = Some r → ar_policy r = p → ar_sha256 r = h →
  seen p h d = ar_event_count r.
Proof.
  intros [_ _ Huni] Hr Hp Hh. unfold seen. destruct (request_for p h d) as [[k' r']|] eqn:E.
  - apply request_for_Some in E as (Hr' & Hp' & Hh'). assert (k' = k) as -> by (eapply Huni; eauto; congruence).
    by simplify_eq.
  - by destruct (request_for_None _ _ _ E k r).
Qed.
(** Only the rows of the pair matter, and of them only the count. *)
Lemma seen_ext d d' p h :
  approvals_ok (approval_tables d) → approvals_ok (approval_tables d') →
  (∀ k r, approval_requests d !! k = Some r → ar_policy r = p → ar_sha256 r = h →
    ∃ r', approval_requests d' !! k = Some r' ∧ ar_policy r' = p ∧ ar_sha256 r' = h ∧ ar_event_count r' = ar_event_count r) →
  (∀ k r', approval_requests d' !! k = Some r' → ar_policy r' = p → ar_sha256 r' = h →
    ∃ r, approval_requests d !! k = Some r ∧ ar_policy r = p ∧ ar_sha256 r = h) →
  seen p h d' = seen p h d.
Proof.
  intros Hok Hok' Hto Hfrom. unfold seen at 1. destruct (request_for p h d') as [[k r']|] eqn:E.
  - apply request_for_Some in E as (Hr' & Hp' & Hh'). destruct (Hfrom _ _ Hr' Hp' Hh') as (r & Hr & Hp & Hh).
    destruct (Hto _ _ Hr Hp Hh) as (r2 & Hr2 & _ & _ & Hc). rewrite (seen_row d p h k r) by done. congruence.
  - unfold seen. destruct (request_for p h d) as [[k r]|] eqn:E'; [|done].
    apply request_for_Some in E' as (Hr & Hp & Hh). destruct (Hto _ _ Hr Hp Hh) as (r' & Hr' & Hp' & Hh' & _).
    by destruct (request_for_None _ _ _ E k r').
Qed.

Lemma upsert_request_counts id t p h a d d' k new :
  agg_ok a → approvals_ok (approval_tables d) → upsert_request id t p h a d = (d', Ok (k, new)) →
  approvals_ok (approval_tables d') ∧
  ∀ p' h', seen p' h' d' = (seen p' h' d + if decide (p' = p ∧ h' = h) then ag_n a else 0)%Z.
Proof.
  intros Ha Hok Hu.
  assert (approvals_ok (approval_tables d')) as Hok'.
  { pose proof (upsert_request_moves id t p h a Ha d Hok) as [Hok' _]. by rewrite Hu in Hok'. }
  split; [done|].
  assert (∃ r', approval_requests d' = <[k := r']> (approval_requests d) ∧ ar_policy r' = p ∧ ar_sha256 r' = h ∧
    ar_event_count r' = (seen p h d + ag_n a)%Z ∧
    (∀ r, approval_requests d !! k = Some r → ar_policy r = p ∧ ar_sha256 r = h)) as (r' & Hd & Hp & Hh & Hc & Hold).
  { unfold upsert_request, seen in *. destruct (request_for p h d) as [[k0 r]|] eqn:E.
    - injection Hu as <- <- <-. apply request_for_Some in E as (Hr & Hp & Hh). eexists. split; [done|]. simpl.
      split_and!; try done. intros r2 Hr2. by simplify_eq.
    - repeat (case_match; [done|]). injection Hu as <- <- <-. bool_cases. eexists. split; [done|]. simpl.
      split_and!; try done. intros r2 Hr2. destruct H. by eexists. }
  intros p' h'. case_decide as Hph.
  - destruct Hph as [-> ->]. rewrite (seen_row d' p h k r'); [done | done | | done..].
    rewrite Hd. apply lookup_insert_eq.
  - rewrite Z.add_0_r. apply seen_ext; try done.
    + intros i r Hr Hrp Hrh. destruct (decide (i = k)) as [->|Hne]; [destruct (Hold _ Hr); naive_solver|].
      exists r. by rewrite Hd, lookup_insert_ne.
    + intros i r. rewrite Hd. intros [[<- <-]|[Hne Hr]]%lookup_insert_Some Hrp Hrh; [naive_solver | eauto].
Qed.

Lemma note_device_counts id dev d d' :
  approvals_ok (approval_tables d) → note_device id dev d = (d', Ok tt) →
  approvals_ok (approval_tables d') ∧ ∀ p h, seen p h d' = seen p h d.
Proof.
  intros Hok Hu. assert (approvals_ok (approval_tables d')) as Hok'.
  { pose proof (note_device_moves id dev d Hok) as [Hok' _]. by rewrite Hu in Hok'. }
  split; [done|]. intros p h. unfold note_device in Hu. case_bool_decide; [by simplify_eq|].
  destruct (_ || _); [done|]. injection Hu as <-. apply seen_ext; try done; simpl.
  - intros k r Hr <- <-. destruct (decide (k = id)) as [->|Hne].
    + eexists. by rewrite lookup_alter_eq, Hr.
    + exists r. by rewrite lookup_alter_ne.
  - intros k r'. destruct (decide (k = id)) as [->|Hne].
    + rewrite lookup_alter_eq. intros (r & -> & ->)%fmap_Some <- <-. eauto.
    + rewrite lookup_alter_ne by done. eauto.
Qed.

Lemma upsert_all_counts t p dev byHash hs d d' ids :
  Forall (λ h, agg_ok (default no_agg (byHash !! h))) hs.*1 → NoDup hs.*1 → approvals_ok (approval_tables d) →
  upsert_all t p dev byHash hs d = (d', Ok ids) →
  ∀ p' h', seen p' h' d' =
    (seen p' h' d + if decide (p' = p ∧ h' ∈ hs.*1) then ag_n (default no_agg (byHash !! h')) else 0)%Z.
Proof.
  revert d ids. induction hs as [|[h id] hs IH]; intros d ids Hall Hnd Hok Hu p' h'; simpl in *.
  { injection Hu as <- <-. case_decide as Hin; [set_solver | lia]. }
  apply Forall_cons in Hall as [Ha Hall]. apply NoDup_cons in Hnd as [Hh Hnd].
  apply bind_Ok in Hu as ([k new] & d1 & Hu1 & Hu). apply bind_Ok in Hu as ([] & d2 & Hu2 & Hu).
  apply bind_Ok in Hu as (rest & d3 & Hu3 & [= <- _]).
  destruct (upsert_request_counts _ _ _ _ _ _ _ _ _ Ha Hok Hu1) as [Hok1 Hc1].
  destruct (note_device_counts _ _ _ _ Hok1 Hu2) as [Hok2 Hc2].
  rewrite (IH d2 rest Hall Hnd Hok2 Hu3), Hc2, Hc1. fold no_agg.
  destruct (decide (p' = p)) as [->|]; [|rewrite !decide_False by naive_solver; lia].
  destruct (decide (h' = h)) as [->|].
  - rewrite (decide_True (P := p = p ∧ h = h)), decide_False, decide_True by (set_solver || naive_solver). lia.
  - rewrite (decide_False (P := p = p ∧ h' = h)) by naive_solver.
    destruct (decide (h' ∈ hs.*1)); [rewrite !decide_True by set_solver | rewrite !decide_False by set_solver]; lia.
Qed.

(** A report turned into requests counts each of its blocks once; one that fails
    changes nothing. *)
Lemma UpsertApprovalRequests_counts fresh t p dev events now d d' r :
  approvals_ok (approval_tables d) → UpsertApprovalRequests fresh t p dev events now d = (d', r) →
  match r with
  | Ok _ => ∀ p' h, seen p' h d' =
      (seen p' h d + if decide (p' = p ∧ h ≠ "") then Z.of_nat (blocks_of h events) else 0)%Z
  | Err _ => d' = d
  end.
Proof.
  intros Hok. unfold UpsertApprovalRequests. destruct (foldl _ _ events) as [byHash order] eqn:Hf.
  pose proof (foldl_collected now events) as [Hnd Hdom Hagg Hnone]. rewrite Hf in *. simpl in *.
  case_bool_decide as Ho.
  { intros [= <- <-] p' h. case_decide as Hph; [|lia]. destruct (byHash !! h) as [a|] eqn:E.
    - assert (h ∈ order) as Hin by (apply Hdom; eauto). rewrite Ho in Hin. set_solver.
    - destruct (Hnone _ E) as [|Hz]; [naive_solver | rewrite Hz; lia]. }
  unfold transaction. destruct (upsert_all _ _ _ _ _ d) as [d1 [ids|e]] eqn:Hu; intros [= <- <-]; [|done].
  assert ((zip order (fresh <$> seq 0 (length order))).*1 = order) as Hz.
  { apply fst_zip. by rewrite length_fmap, length_seq. }
  intros p' h.
  assert (Forall (λ h, agg_ok (default no_agg (byHash !! h))) order) as Hall.
  { apply Forall_forall. intros h' [a Ha]%Hdom. rewrite Ha. by apply Hagg in Ha as (_ & ? & _). }
  rewrite <- Hz in Hall, Hnd. rewrite (upsert_all_counts t p dev byHash _ _ _ _ Hall Hnd Hok Hu p' h), Hz. f_equal.
  destruct (decide (p' = p)) as [->|]; [|by rewrite !decide_False by naive_solver].
  destruct (byHash !! h) as [a|] eqn:E.
  - destruct (Hagg _ _ E) as (Hne & _ & <-). rewrite !decide_True; [done | done |]. split; [done | apply Hdom; eauto].
  - rewrite decide_False by (intros [_ [? [=]]%Hdom]; congruence). case_decide as Hh; [|done].
    destruct (Hnone _ E) as [|Hb]; [naive_solver | by rewrite Hb].
Qed.

(** ** Approving *)

Lemma DecideApprovalRequest_run t id s a n d :
  s = "approved" ∨ s = "denied" →
  match DecideApprovalRequest t id s a n d with
  | (d', Ok _) => ∃ r, approval_requests d !! id = Some r ∧ ar_tenant r = t ∧ ar_status r = "pending" ∧
      d' = set_approval_requests
             (<[id := ar_set_status s (ar_set_decided_by (Some a) (ar_set_decided_at (Some n) r))]> (approval_requests d)) d
  | (d', Err _) => d' = d
  end.
Proof.
  intros Hs. unfold DecideApprovalRequest. destruct (approval_requests d !! id) as [r|] eqn:Hr; [|done].
  destruct (_ && _) eqn:Hg.
  - bool_cases. repeat case_match; simplify_eq/=; try done. eauto.
  - unfold mbind, M_bind, GetApprovalRequest, fail. rewrite Hr. by destruct (bool_decide _).
Qed.

Section approving.
Context `{UuidText, UuidSource, CryptoOk, Hasher}.
Context (sort : ∀ A, (A → A → bool) → list A → list A) (keys : uuid → result Keys).

(** The rule is in the table for the policy. *)
Definition has_rule (id : uuid) (r : Rule) (d : db) : Prop :=
  ∃ k pr, policy_rules d !! k = Some pr ∧ pr_policy pr = id ∧ pr_kind pr = Kind r ∧ pr_value pr = Value r.
Definition rule_tables (d : db) : gmap uuid PolicyRule := policy_rules d.

Lemma AddRule_has_rule i t id r a d d' res :
  AddRule i t id (text_of r) a d = (d', res) → policy_rules d !! i = None →
  match res with Ok _ => has_rule id r d' | Err e => is_err ErrConflict e = true → has_rule id r d' end.
Proof.
  unfold AddRule, map_err, stmt. intros Ha Hi. destruct (negb _); [by simplify_eq/=|].
  destruct (_ || rule_taken _ _ _ _) eqn:Hc.
  - injection Ha as <- <-. intros _. apply orb_true_iff in Hc as [Hs|Ht].
    { bool_cases. rewrite Hi in Hs. by destruct Hs. }
    unfold rule_taken in Ht. apply exists_row_true in Ht as (k & pr & Hk & Hp). bool_cases. by exists k, pr.
  - destruct (_ || _) in Ha; injection Ha as <- <-; [done|]. eexists i, _. simpl. by rewrite lookup_insert_eq.
Qed.

#[export] Instance Recompile_keeps_rules t p : Steps (keeps rule_tables) (Recompile sort keys t p).
Proof.
  assert (∀ v m x s, Steps (keeps rule_tables) (PutPolicyVersion t p v m x s))
    by (intros v m x s d; unfold PutPolicyVersion; by repeat case_match).
  unfold Recompile. steps.
Qed.
#[export] Instance AppendAudit_keeps_rules t a b c x det ip r : Steps (keeps rule_tables) (AppendAudit t a b c x det ip r).
Proof. intros d. unfold AppendAudit. by case_match. Qed.

(** [uuid.New] has not been drawn as a rule id before. *)
Definition fresh_rule (w : world) : Prop := policy_rules (w_db w) !! uuid_at (w_drawn w) = None.

Lemma addPolicyRule_run p id r w w' v :
  fresh_rule w → addPolicyRule sort keys p id r w = (w', Ok v) →
  has_rule id r (w_db w') ∧ approval_requests (w_db w') = approval_requests (w_db w).
Proof.
  intros Hf Ha. pose proof (steps_of (R := keeps (dbv approval_tables)) (m := addPolicyRule sort keys p id r) w) as Hk.
  rewrite Ha in Hk. unfold via, dbv, approval_tables in Hk. simpl in Hk. split; [|by injection Hk].
  unfold addPolicyRule in Ha. apply bind_Ok in Ha as (rid & w1 & [= <- <-] & Ha).
  apply bind_Ok in Ha as (res & w2 & Hadd & Ha). unfold attempt, on_db in Hadd. simpl in Hadd.
  destruct (AddRule _ _ _ _ _ _) as [d1 res'] eqn:Hr. injection Hadd as <- ->. apply AddRule_has_rule in Hr; [|done].
  set (w2 := set_db d1 _) in Ha.
  assert (on_db (Recompile sort keys (p_tenant p) id) w2 = (w', Ok v) ∧ has_rule id r d1) as [Hre (k & pr & Hpr)].
  { destruct res as [a|e]; [done|]. destruct (is_err ErrConflict e); [by auto | done]. }
  pose proof (steps_of (R := keeps (dbv rule_tables)) (m := on_db (Recompile sort keys (p_tenant p) id)) w2) as Hkr.
  rewrite Hre in Hkr. unfold via, dbv, rule_tables in Hkr. simpl in Hkr. exists k, pr. by rewrite <- Hkr.
Qed.

Definition decision_tables (d : db) := (approval_requests d, policy_rules d).
#[export] Instance audit_keeps_decisions p a b c x r : Steps (keeps (dbv decision_tables)) (audit p a b c x r).
Proof.
  assert (∀ t a b c x det ip r, Steps (keeps decision_tables) (AppendAudit t a b c x det ip r))
    by (intros t a' b' c' x' det ip r' d; unfold AppendAudit; by case_match).
  unfold audit. steps.
Qed.

Definition decide_row (status : string) (admin : uuid) (n : time) (r : ApprovalRequest) : ApprovalRequest :=
  ar_set_status status (ar_set_decided_by (Some admin) (ar_set_decided_at (Some n) r)).

Lemma record_decision_run p id req s kind w w' resp :
  s = "approved" ∨ s = "denied" → record_decision p id req s kind w = (w', Ok resp) →
  policy_rules (w_db w') = policy_rules (w_db w) ∧
  if (rs_code resp =? 204)%Z
  then ∃ r, approval_requests (w_db w) !! id = Some r ∧ ar_tenant r = p_tenant p ∧ ar_status r = "pending" ∧
    approval_requests (w_db w') = <[id := decide_row s (p_admin p) (w_now w) r]> (approval_requests (w_db w))
  else approval_requests (w_db w') = approval_requests (w_db w).
Proof.
  intros Hs. unfold record_decision. intros (t & w1 & [= <- <-] & Hr)%bind_Ok.
  apply bind_Ok in Hr as (res & w2 & Hd & Hr). unfold attempt, on_db in Hd.
  pose proof (DecideApprovalRequest_run (p_tenant p) id s (p_admin p) (w_now w) (w_db w) Hs) as Hrun.
  destruct (DecideApprovalRequest _ _ _ _ _ _) as [d1 res']. injection Hd as <- ->. destruct res as [[]|e].
  - apply bind_Ok in Hr as ([] & w3 & Ha & [= <- <-]). simpl.
    destruct Hrun as (r & Hr & Ht & Hp & ->).
    match type of Ha with audit ?p ?a ?b ?c ?x ?r ?w = _ =>
      pose proof (steps_of (R := keeps (dbv decision_tables)) (m := audit p a b c x r) w) as Hk end.
    rewrite Ha in Hk. unfold via, dbv, decision_tables in Hk. simpl in Hk. injection Hk as Hk1 Hk2.
    split; [done|]. exists r. rewrite <- Hk1. done.
  - subst d1. rewrite set_db_id in Hr. destruct (is_err ErrConflict e); [by injection Hr as <- <-|].
    destruct (storeErr_code e w) as (resp' & He & Hcode). rewrite He in Hr. injection Hr as <- <-.
    split; [done|]. destruct (Z.eqb_spec (rs_code resp') 204); [lia | done].
Qed.

(** The clock a request runs under. *)
#[export] Instance on_db_clock {A} (m : M db A) : Steps (keeps w_now) (on_db m).
Proof. intros w. unfold on_db. by destruct (m (w_db w)). Qed.
#[export] Instance addPolicyRule_clock p id r : Steps (keeps w_now) (addPolicyRule sort keys p id r).
Proof. unfold addPolicyRule. apply bind_steps; [done|]. steps. Qed.

(** Approving a request answers 204 only if it was the caller's tenant's and
    pending; it is then approved by the caller, nothing else in the queue has
    changed, and the normalized rule the request and the chosen kind ask for (its
    hash, its path, or its verified publisher) is on the policy, whether it was
    added now or was there before. Any other answer leaves the whole queue as it
    was, so the request can be tried again. *)
Theorem approveApproval_spec p raw kind w w' resp :
  fresh_rule w → approveApproval sort keys p raw kind w = (w', Ok resp) →
  if (rs_code resp =? 204)%Z
  then ∃ id r asked rule, uuid_parse raw = Some id ∧ approval_requests (w_db w) !! id = Some r ∧
    ar_tenant r = p_tenant p ∧ ar_status r = "pending" ∧
    approval_requests (w_db w') = <[id := decide_row "approved" (p_admin p) (w_now w) r]> (approval_requests (w_db w)) ∧
    approval_rule id r kind = inl asked ∧ Normalize asked = Ok rule ∧ has_rule (ar_policy r) rule (w_db w')
  else approval_requests (w_db w') = approval_requests (w_db w).
Proof.
  intros Hf. unfold approveApproval, decideApproval, with_pathID. destruct (uuid_parse raw) as [id|]; [|by intros [= <- <-]].
  rewrite or_storeErr_run, on_db_query by apply _. unfold GetApprovalRequest.
  assert (∀ e w0, storeErr e w0 = (w', Ok resp) → w' = w0 ∧ rs_code resp ≠ 204%Z) as Herr.
  { intros e w0 He. destruct (storeErr_code e w0) as (r' & He' & Hc). rewrite He' in He. injection He as <- <-. split; [done | lia]. }
  assert (∀ P, approval_requests (w_db w') = approval_requests (w_db w) ∧ rs_code resp ≠ 204%Z →
    if (rs_code resp =? 204)%Z then P else approval_requests (w_db w') = approval_requests (w_db w)) as Hno.
  { intros P [Hr Hc]. destruct (Z.eqb_spec (rs_code resp) 204); done. }
  destruct (approval_requests (w_db w) !! id) as [r|] eqn:Hr; simpl; [|intros [-> ?]%Herr; by apply Hno].
  case_bool_decide as Ht; simpl; [|intros [-> ?]%Herr; by apply Hno].
  case_bool_decide as Hp; simpl; [|by intros [= <- <-]].
  destruct (approval_rule id r kind) as [asked|msg] eqn:Hk; [|by intros [= <- <-]].
  destruct (Normalize asked) as [rule|e] eqn:Hn; [|by intros [= <- <-]].
  pose proof (steps_of (R := keeps (dbv approval_tables)) (m := addPolicyRule sort keys p (ar_policy r) rule) w) as Hkt.
  pose proof (steps_of (R := keeps w_now) (m := addPolicyRule sort keys p (ar_policy r) rule) w) as Hkl.
  rewrite or_storeErr_run. destruct (addPolicyRule sort keys p (ar_policy r) rule w) as [w1 [v|e]] eqn:Hadd.
  - apply addPolicyRule_run in Hadd as [(k & pr & Hpr) Hreq]; [|done]. intros [Hpol Hd]%record_decision_run; [|by left].
    rewrite Hreq in Hd. destruct (rs_code resp =? 204)%Z; [|done]. destruct Hd as (r' & Hr' & _ & _ & Hd).
    simplify_eq. exists id, r, asked, rule. rewrite Hd. split_and!; try done.
    + unfold via in Hkl. simpl in Hkl. by rewrite Hkl.
    + exists k, pr. by rewrite Hpol.
  - intros [-> ?]%Herr. apply Hno. unfold via, dbv, approval_tables in Hkt. simpl in Hkt. split; [|done]. by injection Hkt.
Qed.
End approving.

(** ** A concrete queue

    The office of [PolicyFacts], whose device 9 reports three blocks of one program
    and one event without a hash; the requests get ids from 200 on. *)
Module Queue.
Import Toy Office.
Definition app_hash : string := "AAAAAAAAAAAAAAAAAAAAAAAAAAAAAAAAAAAAAAAAAAAAAAAAAAAAAAAAAAAAAAAA".
Definition block (tbs : string) (verified : bool) (t : time) : BlockReport :=
  mkBlockReport app_hash "C:\Tools\app.exe" "ACME" tbs verified true t.
Definition blocks : list BlockReport :=
  [block "" false 30; block "" false 20; mkBlockReport "" "C:\x.exe" "" "" false true 25; block "" false 40].
Definition ids (n : nat) : uuid := (200 + N.of_nat n)%N.

Definition reported : world := (on_db (UpsertApprovalRequests ids 1 100 9 blocks 50) assigned).1.
Definition approved : world := (approveApproval insertion_sort lab_keys boss (uuid_string 200) "" reported).1.
Definition reported_again : world := (on_db (UpsertApprovalRequests ids 1 100 9 blocks 60) approved).1.

Lemma queue_run : rtc (approval_step insertion_sort lab_keys) assigned reported_again.
Proof.
  apply (rtc_l _ _ reported); [apply do_report|].
  apply (rtc_l _ _ approved); [apply do_approve|].
  apply (rtc_l _ _ reported_again); [apply do_report|].
  apply rtc_refl.
Qed.
Lemma approved_run : rtc (approval_step insertion_sort lab_keys) approved reported_again.
Proof. apply (rtc_l _ _ reported_again); [apply do_report | apply rtc_refl]. Qed.
Lemma assigned_queue_ok : approvals_ok (approval_tables (w_db assigned)).
Proof.
  assert (approval_tables (w_db assigned) = mkApprovalTables ∅ ∅) as -> by (vm_compute; reflexivity).
  split; simpl; [done.. |]. done.
Qed.
Lemma approved_queue_ok : approvals_ok (approval_tables (w_db approved)).
Proof.
  assert (rtc (approval_step insertion_sort lab_keys) assigned approved) as Hrun.
  { apply (rtc_l _ _ reported); [apply do_report|]. apply (rtc_l _ _ approved); [apply do_approve | apply rtc_refl]. }
  by destruct (approval_steps_move insertion_sort lab_keys _ _ Hrun assigned_queue_ok).
Qed.
End Queue.

Section approval_witnesses.
Import Toy Office Queue.

Lemma approvals_invariant_witness :
  rtc (approval_step insertion_sort lab_keys) assigned reported_again ∧ approvals_ok (approval_tables (w_db reported_again)).
Proof.
  split; [exact queue_run|].
  exact (approvals_invariant insertion_sort lab_keys assigned reported_again queue_run assigned_queue_ok).
Defined.

(** Approved, then blocked again on a stale device: still approved, and counted. *)
Lemma approval_history_witness :
  ∃ r r', approval_requests (w_db approved) !! 200%N = Some r ∧ approval_requests (w_db reported_again) !! 200%N = Some r' ∧
    ar_status r = "approved" ∧ request_next r r' ∧ ar_event_count r = 3%Z ∧ ar_event_count r' = 6%Z.
Proof.
  destruct (approval_requests (w_db approved) !! 200%N) as [r|] eqn:Hr; [|vm_compute in Hr; discriminate].
  destruct (approval_history insertion_sort lab_keys approved reported_again 200 r approved_run approved_queue_ok Hr)
    as (r' & Hr' & Hn).
  exists r, r'. split; [reflexivity|]. split; [exact Hr'|].
  assert ((λ r, (ar_status r, ar_event_count r)) <$> approval_requests (w_db approved) !! 200%N = Some ("approved", 3%Z)) as He
    by (vm_compute; reflexivity).
  assert (ar_event_count <$> approval_requests (w_db reported_again) !! 200%N = Some 6%Z) as He' by (vm_compute; reflexivity).
  rewrite Hr in He. rewrite Hr' in He'. injection He as Hs Hc. injection He' as Hc'. auto.
Defined.

Lemma approveApproval_spec_witness :
  ∃ w' resp, approveApproval insertion_sort lab_keys boss (uuid_string 200) "" reported = (w', Ok resp) ∧
    rs_code resp = 204%Z ∧ has_rule 100 (mkRule Hash app_hash "" "") (w_db w').
Proof.
  destruct (approveApproval insertion_sort lab_keys boss (uuid_string 200) "" reported) as [w' r] eqn:Ha.
  assert (r = Ok (mkResponse 204 JNull)) as -> by (change r with (w', r).2; rewrite <- Ha; vm_compute; reflexivity).
  exists w', (mkResponse 204 JNull). split; [reflexivity|]. split; [reflexivity|].
  assert (fresh_rule reported) as Hf by (vm_compute; reflexivity).
  destruct (approveApproval_spec insertion_sort lab_keys boss (uuid_string 200) "" reported w' _ Hf Ha)
    as (id & q & asked & rule & Hid & Hq & _ & _ & _ & Hk & Hn & k & pr & Hpr & Hp & Hpk & Hpv).
  assert (id = 200%N) as -> by (rewrite toy_uuid_ok in Hid; congruence).
  assert ((λ r, (ar_policy r, ar_sha256 r)) <$> approval_requests (w_db reported) !! 200%N = Some (100%N, app_hash)) as Hs
    by (vm_compute; reflexivity).
  rewrite Hq in Hs. injection Hs as Hs1 Hs2. exists k, pr. split; [exact Hpr|].
  injection Hk as <-. rewrite Hs2 in Hn. split; [congruence|].
  injection Hn as <-. split; [exact Hpk | exact Hpv].
Defined.
End approval_witnesses.

(** Two behaviours worth knowing, on the same office. The merged request keeps the
    first signing identity it saw and the union of the verified flags, so that an
    identity no device ever verified is offered, and accepted, as a verified
    publisher. And a rule is unique per policy whatever its tenant: an administrator of
    tenant 2 can put a rule on tenant 1's policy; the answer is a 404, but the row
    stays, so that tenant 1's own request for the rule conflicts while its listing does
    not show it. *)
Section surprises.
Import Toy Office Queue.

Definition forged : string := "BBBBBBBBBBBBBBBBBBBBBBBBBBBBBBBBBBBBBBBBBBBBBBBBBBBBBBBBBBBBBBBB".
Definition genuine : string := "CCCCCCCCCCCCCCCCCCCCCCCCCCCCCCCCCCCCCCCCCCCCCCCCCCCCCCCCCCCCCCCC".
Example verified_flag_of_another_identity :
  let w := (on_db (UpsertApprovalRequests ids 1 100 9 [block forged false 20; block genuine true 30] 50) assigned).1 in
  (λ r, (ar_signer_tbs r, ar_signer_verified r)) <$> approval_requests (w_db w) !! 200%N = Some (forged, true) ∧
  (approveApproval insertion_sort lab_keys boss (uuid_string 200) "publisher" w).2 = Ok (mkResponse 204 JNull).
Proof. vm_compute. done. Qed.

Definition two_tenants : world :=
  set_db (set_tenants (<[2%N := mkTenant "other" false 1]> (tenants (w_db assigned)))
    (set_admins (<[4%N := mkAdmin 2 "eve@other.test" "" None true "admin" false false 1]> (admins (w_db assigned))) (w_db assigned)))
    assigned.
Definition outsider : principal := mkPrincipal 2 4 "eve@other.test" "admin" false "10.0.0.2".
Definition tool : Rule := mkRule Hash app_hash "" "".
Definition code_of (r : result response) : Z := match r with Ok x => rs_code x | Err _ => 0 end.
Example rule_of_another_tenant :
  let '(w1, r1) := addRule insertion_sort lab_keys outsider (uuid_string 100) tool two_tenants in
  let '(w2, r2) := addRule insertion_sort lab_keys boss (uuid_string 100) tool w1 in
  code_of r1 = 404%Z ∧ code_of r2 = 409%Z ∧
  (λ kv, pr_value kv.2) <$> ListRules 1 100 (w_db w2) = ["C:\App\*"].
Proof. vm_compute. done. Qed.
End surprises.
