(* ===== verification/AgentFacts.v ===== *)
(** * A block report is recorded, and counted once

    What a device's report of blocked programs does to the block log and to the
    approval queue. *)

From stdpp Require Import gmap strings list.
From S2P Require Import Prelude GoStr Rules Wdac Db Hub World StoreCore Commands Http Enroll StorePolicies StoreTelemetry Policies PolicyFacts ApprovalFacts AgentApi.

(** ** The block log *)

Definition block_row (t dev : uuid) (now : time) (e : BlockReport) : BlockEvent :=
  mkBlockEvent t dev (br_sha256 e) (br_path e) (br_signer e) (br_signer_tbs e) (br_signer_verified e) (br_blocked e)
    (at_or now (br_at e)).

(** The log with more rows, and nothing else but the serial counter. *)
Definition logged (rows : list BlockEvent) (d d' : db) : Prop :=
  ∃ s kept, d' = set_block_events (block_events d ++ kept) (set_serial s d) ∧ kept.*2 = rows.

Lemma logged_nil d : logged [] d d.
Proof. exists (serial d), []. split; [|done]. rewrite app_nil_r. by destruct d. Qed.
Lemma logged_trans r1 r2 d d1 d2 : logged r1 d d1 → logged r2 d1 d2 → logged (r1 ++ r2) d d2.
Proof.
  intros (s1 & k1 & -> & <-) (s2 & k2 & -> & <-). exists s2, (k1 ++ k2). rewrite fmap_app.
  split; [|done]. simpl. by rewrite app_assoc.
Qed.

Lemma RecordBlockEvents_run t dev events now d :
  match RecordBlockEvents t dev events now d with
  | (d', Ok _) => logged (block_row t dev now <$> events) d d'
  | (d', Err _) => d' = d
  end.
Proof.
  unfold RecordBlockEvents, transaction. destruct (for_each _ _ d) as [d' [[]|e]] eqn:E; [|done].
  revert d E. induction events as [|e events IH]; intros d E; simpl in E; [injection E as <-; apply logged_nil|].
  apply bind_Ok in E as ([] & d1 & E1 & E). unfold stmt in E1. case_match; [done|]. injection E1 as <-.
  apply (logged_trans [_] _ _ _ _) with (2 := IH _ E). eexists _, [_]. done.
Qed.

Section reports.
Context `{UuidText, UuidSource}.
Context (notify : option Emitter).
Hypothesis notify_ok : ∀ em, notify = Some em → @EmitterOk em.

Definition block_log (d : db) := block_events d.
Definition report_tables (d : db) := (block_events d, approval_tables d).

Lemma announce_keeps em t dev host id :
  notify = Some em → Steps (keeps (dbv report_tables)) (announce em t dev host id).
Proof.
  intros Hem. pose proof (notify_ok em Hem) as Hok.
  assert (∀ e, Steps (keeps (dbv report_tables)) (Emit (Emitter := em) e)) as He.
  { intros e w. destruct (@Emit_frame em Hok e w) as [d' ->]. done. }
  unfold announce. steps.
Qed.

Lemma host_of_read_only t dev : ReadOnly (host_of t dev).
Proof.
  intros w. unfold host_of, mbind, M_bind, attempt. rewrite on_db_query by apply _. done.
Qed.

Lemma UpsertApprovalRequests_log fresh t p dev events now : Steps (keeps block_log) (UpsertApprovalRequests fresh t p dev events now).
Proof.
  assert (∀ id h a, Steps (keeps block_log) (upsert_request id t p h a)) as Hu
    by (intros id h a d; unfold upsert_request; by repeat case_match).
  assert (∀ id, Steps (keeps block_log) (note_device id dev)) as Hn
    by (intros id d; unfold note_device; by repeat case_match).
  assert (∀ byHash hs, Steps (keeps block_log) (upsert_all t p dev byHash hs)) as Ha
    by (intros byHash hs; induction hs as [|[h id] hs IH]; simpl; steps).
  unfold UpsertApprovalRequests. destruct (foldl _ _ events). steps.
Qed.

(** The block log does not matter for the policy. *)
Lemma EffectivePolicyForDevice_logged t dev B s d :
  (EffectivePolicyForDevice t dev (set_block_events B (set_serial s d))).2 = (EffectivePolicyForDevice t dev d).2.
Proof.
  rewrite !EffectivePolicyForDevice_run. change (assigned_policy t dev (set_block_events B (set_serial s d))) with (assigned_policy t dev d).
  destruct (assigned_policy t dev d) as [p|]; [|done]. unfold LatestPolicyVersion.
  change (versions_of t p (set_block_events B (set_serial s d))) with (versions_of t p d). by destruct (versions_of t p d).
Qed.

(** What queueing does: nothing, or every block of the report counted against the
    effective policy. *)
Lemma queueApprovals_run t dev events w :
  approvals_ok (approval_tables (w_db w)) →
  let w' := (queueApprovals notify t dev events w).1 in
  block_events (w_db w') = block_events (w_db w) ∧
  (approval_requests (w_db w') = approval_requests (w_db w) ∨
   ∃ p v pv, (EffectivePolicyForDevice t dev (w_db w)).2 = Ok (p, v, pv) ∧
     ∀ p' h, seen p' h (w_db w') =
       (seen p' h (w_db w) + if decide (p' = p ∧ h ≠ "") then Z.of_nat (blocks_of h events) else 0)%Z).
Proof.
  intros Hok. pose proof announce_keeps as Hann. unfold queueApprovals, mbind, M_bind, attempt, on_db.
  assert (ReadOnly (EffectivePolicyForDevice t dev)) as Hro.
  { intros d. rewrite EffectivePolicyForDevice_run. unfold LatestPolicyVersion. repeat case_match; by simplify_eq/=. }
  specialize (Hro (w_db w)). destruct (EffectivePolicyForDevice t dev (w_db w)) as [d0 r] eqn:Heff. simpl in Hro. subst d0.
  rewrite set_db_id. destruct r as [[[p v] pv]|e]; [|split; [done | by left]].
  unfold upsert_requests. pose proof (UpsertApprovalRequests_log (λ n, uuid_at (w_drawn w + n)) t p dev events (w_now w) (w_db w)) as Hlog.
  destruct (UpsertApprovalRequests _ t p dev events _ _) as [d1 res] eqn:Hu. unfold via, block_log in Hlog. simpl in Hlog.
  apply UpsertApprovalRequests_counts in Hu; [|done]. simpl.
  set (w1 := mkWorld d1 _ _ _).
  assert (∀ w2, report_tables (w_db w2) = report_tables d1 → block_events (w_db w2) = block_events (w_db w) ∧
    (approval_requests (w_db w2) = approval_requests (w_db w) ∨
     ∃ p0 v0 pv0, Ok (p, v, pv) = Ok (p0, v0, pv0) ∧
       ∀ p' h, seen p' h (w_db w2) = (seen p' h (w_db w) + if decide (p' = p0 ∧ h ≠ "") then Z.of_nat (blocks_of h events) else 0)%Z)) as Hfin.
  { intros w2 Hw2. injection Hw2 as Hb Hr _. split; [congruence|]. destruct res as [ids|e].
    - right. exists p, v, pv. split; [done|]. intros p' h. rewrite <- Hu. unfold seen, request_for. by rewrite Hr.
    - left. congruence. }
  destruct res as [[|id ids]|e]; [by apply Hfin| |by apply Hfin].
  destruct notify as [em|] eqn:Hem; [|by apply Hfin].
  pose proof (host_of_read_only t dev w1) as Hh. destruct (host_of t dev w1) as [w2 [host|e]]; simpl in Hh; subst w2; [|by apply Hfin].
  apply Hfin. symmetry.
  assert (∀ id, Steps (keeps (dbv report_tables)) (announce em t dev host id)) as Han by (intros i; by apply Hann).
  exact (for_each_steps (R := keeps (dbv report_tables)) (id :: ids) (announce em t dev host) Han w1).
Qed.

(** A device's report of blocks is either refused, and then nothing is recorded, or
    it is acknowledged, and then every event is in the block log, in order, under the
    device and its tenant with its own time or the server's. The approval queue then
    either stays as it is or, for a device with an effective policy, the request of
    that policy for each hash has counted exactly that many more events as the report
    has of the hash, and no other count moves. *)
Theorem ReportBlocks_counts dev msgs w w' ans :
  approvals_ok (approval_tables (w_db w)) → ReportBlocks notify dev msgs w = (w', Ok ans) →
  let events := to_report (w_now w) <$> msgs in
  match ans with
  | inl _ => w_db w' = w_db w
  | inr _ =>
      (∃ rows, block_events (w_db w') = block_events (w_db w) ++ rows ∧
        rows.*2 = block_row (dev_TenantID dev) (dev_ID dev) (w_now w) <$> events) ∧
      (approval_requests (w_db w') = approval_requests (w_db w) ∨
       ∃ p v pv, (EffectivePolicyForDevice (dev_TenantID dev) (dev_ID dev) (w_db w)).2 = Ok (p, v, pv) ∧
         ∀ p' h, seen p' h (w_db w') =
           (seen p' h (w_db w) + if decide (p' = p ∧ h ≠ "") then Z.of_nat (blocks_of h events) else 0)%Z)
  end.
Proof.
  intros Hok Hr events. unfold ReportBlocks in Hr. apply bind_Ok in Hr as (t & w0 & [= <- <-] & Hr).
  fold events in Hr. apply bind_Ok in Hr as (r & w1 & Hrec & Hr). unfold attempt, on_db in Hrec.
  pose proof (RecordBlockEvents_run (dev_TenantID dev) (dev_ID dev) events (w_now w) (w_db w)) as Hrun.
  destruct (RecordBlockEvents _ _ _ _ _) as [d1 res]. injection Hrec as <- ->. destruct r as [[]|e].
  - apply bind_Ok in Hr as ([] & w2 & Hq & [= <- <-]). destruct Hrun as (s & kept & -> & Hk).
    set (w1 := set_db _ w) in Hq. destruct (queueApprovals_run (dev_TenantID dev) (dev_ID dev) events w1 Hok) as [Hb Hcase].
    rewrite Hq in Hb, Hcase. simpl in Hb, Hcase. setoid_rewrite EffectivePolicyForDevice_logged in Hcase.
    split; [by exists kept | exact Hcase].
  - injection Hr as <- <-. by subst.
Qed.
End reports.

(** ** Results *)

(** The result of an open command of the device closes its row. *)
Lemma handle_result `{UuidText} dev k cm res w :
  uuid_parse (cr_id res) = Some k → commands (w_db w) !! k = Some cm → cm_tenant cm = dev_TenantID dev → cm_device cm = dev_ID dev →
  command_open cm = true →
  ∃ w' cm', handle true dev (CommandResultMsg res) w = (w', Ok tt) ∧ commands (w_db w') !! k = Some cm' ∧
    cm_state cm' = (if cr_success res then "succeeded" else "failed") ∧ cm_result cm' = cr_message res ∧
    cm_type cm' = cm_type cm ∧ cm_payload cm' = cm_payload cm.
Proof.
  intros Hp Hk Ht Hd Ho. unfold handle, Complete, now, gets, mbind, M_bind, attempt. simpl. rewrite Hp.
  unfold on_db, CompleteCommand, oneRow. simpl. rewrite Hk, Ht, Hd, Ho, !bool_decide_eq_true_2 by done. simpl.
  unfold AppendAudit. destruct (has_tenant _ _); simpl; eexists _, _; (split; [reflexivity|]);
    (split; [apply lookup_insert_eq|]); by destruct cm.
Qed.

Section report_witness.
Import Toy Office Queue.
Definition dev9 : device := mkDeviceRef 9 1.
Definition msg (at_ : Z) : BlockMsg := mkBlockMsg app_hash "C:\Tools\app.exe" "ACME" true at_ "" false.

Lemma ReportBlocks_counts_witness :
  ∃ w', ReportBlocks None dev9 [msg 0; msg 7] assigned = (w', Ok (inr tt)) ∧
    (∃ rows, block_events (w_db w') = block_events (w_db assigned) ++ rows ∧ length rows = 2) ∧
    seen 100 app_hash (w_db w') = 2%Z.
Proof.
  destruct (ReportBlocks None dev9 [msg 0; msg 7] assigned) as [w' r] eqn:Hr.
  assert (r = Ok (inr tt)) as -> by (change r with (w', r).2; rewrite <- Hr; vm_compute; reflexivity).
  assert (∀ em : Emitter, None = Some em → EmitterOk) as Hno by discriminate.
  destruct (ReportBlocks_counts None Hno dev9 [msg 0; msg 7] assigned w' (inr tt) assigned_queue_ok Hr) as [(rows & Hb & Hrows) _].
  exists w'. split; [reflexivity|]. split.
  - exists rows. split; [exact Hb|]. rewrite <- (length_fmap snd rows), Hrows. reflexivity.
  - replace w' with (ReportBlocks None dev9 [msg 0; msg 7] assigned).1 by (rewrite Hr; reflexivity).
    vm_compute. reflexivity.
Defined.
End report_witness.
