(* ===== verification/AlertFacts.v ===== *)
(** * Alerts follow the samples

    Shows that the alert of a device and a rule is open exactly when the recent samples
    say so, whatever the other rules and devices do in between, and that there is never
    more than one. *)

From Stdlib Require Import SpecFloat.
From stdpp Require Import gmap strings list sorting pretty.
From S2P Require Import Prelude GoStr Db Hub World StoreCore Commands Enroll StoreTelemetry StoreMetrics Alerting AgentApi.

(** ** The duration test *)

Lemma wrap64_id n : (- 2 ^ 63 ≤ n < 2 ^ 63)%Z → wrap64 n = n.
Proof. unfold wrap64. intros Hn. rewrite Z.mod_small; lia. Qed.

(** Neither the product nor the difference loses anything for a duration that fits its
    column. *)
Lemma duration_test n t u :
  int4 n = true → (0 < n)%Z → (seconds n <=? time_sub t u)%Z = (n * Second <=? t - u)%Z.
Proof.
  unfold int4, seconds, time_sub, Second. intros Hn Hp. bool_cases. rewrite wrap64_id by lia.
  apply eq_true_iff_eq. rewrite !Z.leb_le. lia.
Qed.

(** ** The alert tables *)

Definition same_pair (a b : Alert) : Prop := at_device a = at_device b ∧ at_rule a = at_rule b.

(** Ids are handed out in order, and a device and rule have at most one open alert. *)
Definition alerts_ok (d : db) : Prop :=
  (∀ k a, alerts d !! k = Some a → (k ≤ serial d)%N) ∧
  (∀ k k' a a', alerts d !! k = Some a → alerts d !! k' = Some a' →
     unresolved a = true → unresolved a' = true → same_pair a a' → k = k').

(** The tables an evaluation only reads. *)
Definition alert_base (d : db) := (tenants d, devices d, alert_rules d).

(** What the database says of a device and a rule. *)
Definition of_pair (dev rule : uuid) (kv : N * Alert) : Prop := at_device kv.2 = dev ∧ at_rule kv.2 = rule.
#[export] Instance of_pair_dec dev rule kv : Decision (of_pair dev rule kv).
Proof. unfold of_pair. apply _. Defined.
Definition pair_view (dev rule : uuid) (d : db) : option Breach * gmap N Alert :=
  (alert_breaches d !! (dev, rule), filter (of_pair dev rule) (alerts d)).

Definition alerts_sound (d d' : db) : Prop :=
  alert_base d' = alert_base d ∧ (alerts_ok d → alerts_ok d').
Definition off_pair (dev rule : uuid) (d d' : db) : Prop :=
  alert_base d' = alert_base d ∧ (alerts_ok d → alerts_ok d' ∧ pair_view dev rule d' = pair_view dev rule d).

#[export] Instance alerts_sound_preorder : PreOrder alerts_sound.
Proof. split; [by intros d|]. intros d1 d2 d3 [Hb1 Ho1] [Hb2 Ho2]. split; [congruence|auto]. Qed.
#[export] Instance off_pair_preorder dev rule : PreOrder (off_pair dev rule).
Proof.
  split; [by intros d|]. intros d1 d2 d3 [Hb1 Ho1] [Hb2 Ho2]. split; [congruence|].
  intros Hok. destruct (Ho1 Hok) as [Hok2 Hv]. destruct (Ho2 Hok2). split; [done|congruence].
Qed.

Lemma filter_other {A} (P : N * A → Prop) `{∀ x, Decision (P x)} (m m' : gmap N A) :
  (∀ k a, P (k, a) → m' !! k = Some a ↔ m !! k = Some a) → filter P m' = filter P m.
Proof.
  intros Hp. apply map_eq. intros k. apply option_eq. intros a.
  rewrite !map_lookup_filter_Some. naive_solver.
Qed.

(** *** The statements *)

Lemma one_open_true dev rule d :
  one_open dev rule d = true ↔
  ∃ k a, alerts d !! k = Some a ∧ at_device a = dev ∧ at_rule a = rule ∧ unresolved a = true.
Proof.
  unfold one_open. rewrite exists_row_true. split.
  - intros (k & a & Hk & Ha). bool_cases. exists k, a. by bool_cases.
  - intros (k & a & Hk & <- & <- & Hu). exists k, a. by rewrite Hu, !bool_decide_eq_true_2 by done.
Qed.

Lemma RaiseAlert_sound t dev rule m msg at_ : Steps alerts_sound (RaiseAlert t dev rule m msg at_).
Proof.
  intros d. unfold RaiseAlert. destruct (one_open dev rule d) eqn:Hone; [done|].
  destruct (dangling t dev rule d); [done|]. split; [done|]. intros [Hs Hu]. split; simpl.
  - intros k a [[<- _]|[_ Hk]]%lookup_insert_Some; [done|]. specialize (Hs _ _ Hk). lia.
  - assert (∀ k a, alerts d !! k = Some a → unresolved a = true →
      ¬ (at_device a = dev ∧ at_rule a = rule)) as Hno.
    { intros k a Hk Hua [<- <-]. assert (one_open (at_device a) (at_rule a) d = true); [|congruence].
      apply one_open_true. eauto 10. }
    intros k k' a a' [[<- <-]|[_ Hk]]%lookup_insert_Some [[<- <-]|[_ Hk']]%lookup_insert_Some Ha Ha' [Hd Hr];
      simpl in *; [done|by destruct (Hno _ _ Hk' Ha')|by destruct (Hno _ _ Hk Ha)|by eapply Hu].
Qed.
Lemma RaiseAlert_off t dev rule m msg at_ dev' rule' :
  (dev, rule) ≠ (dev', rule') → Steps (off_pair dev' rule') (RaiseAlert t dev rule m msg at_).
Proof.
  intros Hne d. destruct (RaiseAlert_sound t dev rule m msg at_ d) as [Hb Hok]. split; [done|].
  intros Hd. split; [auto|]. revert Hb Hok. unfold RaiseAlert. destruct (one_open _ _ _); [done|].
  destruct (dangling _ _ _ _); [done|]. intros _ _. unfold pair_view. simpl. f_equal.
  apply map_filter_insert_not'; [unfold of_pair; naive_solver|].
  intros a Ha. destruct Hd as [Hs _]. specialize (Hs _ _ Ha). lia.
Qed.

Lemma resolve_alert_keeps t dev rule at_ a :
  at_device (resolve_alert t dev rule at_ a) = at_device a ∧ at_rule (resolve_alert t dev rule at_ a) = at_rule a.
Proof. unfold resolve_alert. by case_match. Qed.
Lemma ResolveAlert_sound t dev rule at_ : Steps alerts_sound (ResolveAlert t dev rule at_).
Proof.
  intros d. split; [done|]. intros [Hs Hu]. split; simpl.
  - intros k a. rewrite lookup_fmap. destruct (alerts d !! k) eqn:Hk; [|done]. intros _. eauto.
  - intros k k' a a'. rewrite !lookup_fmap.
    destruct (alerts d !! k) as [b|] eqn:Hk, (alerts d !! k') as [b'|] eqn:Hk'; try done.
    intros [= <-] [= <-] Ha Ha' [Hd Hr]. rewrite !(proj1 (resolve_alert_keeps _ _ _ _ _)) in Hd.
    rewrite !(proj2 (resolve_alert_keeps _ _ _ _ _)) in Hr.
    apply (Hu k k' b b'); [done|done| | |done]; [revert Ha|revert Ha']; unfold resolve_alert;
      case_match eqn:Ho; try done; unfold open_for in Ho; by bool_cases.
Qed.
Lemma ResolveAlert_off t dev rule at_ dev' rule' :
  (dev, rule) ≠ (dev', rule') → Steps (off_pair dev' rule') (ResolveAlert t dev rule at_).
Proof.
  intros Hne d. destruct (ResolveAlert_sound t dev rule at_ d) as [Hb Hok]. split; [done|].
  intros Hd. split; [auto|]. unfold pair_view. simpl. f_equal. apply filter_other.
  intros k a [Hda Hra]. simpl in *. rewrite lookup_fmap_Some. unfold resolve_alert, open_for. split.
  - intros (b & Hb' & Hk). destruct (_ && _) eqn:Ho in Hb'; [|congruence]. bool_cases. subst a. simpl in *. congruence.
  - intros Hk. exists a. split; [|done]. destruct (_ && _) eqn:Ho; [|done]. bool_cases. congruence.
Qed.

Lemma set_breaches_sound f : Steps alerts_sound (modify (λ d, set_alert_breaches (f d) d)).
Proof. by intros d. Qed.
Lemma MarkBreach_off t dev rule at_ dev' rule' :
  (dev, rule) ≠ (dev', rule') → Steps (off_pair dev' rule') (MarkBreach t dev rule at_).
Proof.
  intros Hne d. unfold MarkBreach. destruct (alert_breaches d !! (dev, rule)); [done|].
  destruct (dangling _ _ _ _); [done|]. split; [done|]. intros Hd. split; [done|].
  unfold pair_view. simpl. f_equal. by rewrite lookup_insert_ne.
Qed.
Lemma ClearBreach_off t dev rule dev' rule' :
  (dev, rule) ≠ (dev', rule') → Steps (off_pair dev' rule') (ClearBreach t dev rule).
Proof.
  intros Hne d. split; [done|]. intros Hd. split; [done|]. unfold pair_view. simpl. f_equal.
  apply option_eq. intros b. rewrite map_lookup_filter_Some. naive_solver.
Qed.
Lemma MarkBreach_sound t dev rule at_ : Steps alerts_sound (MarkBreach t dev rule at_).
Proof.
  intros d. unfold MarkBreach. destruct (alert_breaches d !! (dev, rule)); [done|].
  by destruct (dangling _ _ _ _).
Qed.

(** *** Onset and alert of one pair *)

(** The onset [s] is stored, and an alert is open or not ([o]). *)
Definition pair_rel (t dev rule : uuid) (s : option time) (o : bool) (d : db) : Prop :=
  alert_breaches d !! (dev, rule) = mkBreach t <$> s ∧
  (∀ k a, alerts d !! k = Some a → of_pair dev rule (k, a) → unresolved a = true → at_tenant a = t) ∧
  one_open dev rule d = o.

Lemma pair_rel_view t dev rule s o d d' :
  pair_view dev rule d' = pair_view dev rule d → pair_rel t dev rule s o d → pair_rel t dev rule s o d'.
Proof.
  intros [= Hb Hf] (Hbr & Ht & Ho).
  assert (∀ k a, of_pair dev rule (k, a) → alerts d' !! k = Some a ↔ alerts d !! k = Some a) as Heq.
  { intros k a Hp. apply (f_equal (lookup k)) in Hf.
    split; intros Hk.
    - assert (filter (of_pair dev rule) (alerts d') !! k = Some a) as Hin by by apply map_lookup_filter_Some.
      rewrite Hf in Hin. by apply map_lookup_filter_Some in Hin as [? _].
    - assert (filter (of_pair dev rule) (alerts d) !! k = Some a) as Hin by by apply map_lookup_filter_Some.
      rewrite <- Hf in Hin. by apply map_lookup_filter_Some in Hin as [? _]. }
  split_and!; [congruence| |].
  - intros k a Hk Hp. apply (Ht k a); [by apply Heq|done].
  - rewrite <- Ho. apply eq_true_iff_eq. rewrite !one_open_true.
    split; intros (k & a & Hk & Hd & Hr & Hu); exists k, a; split_and!; try done; by apply Heq.
Qed.

Section pair.
Context (t dev rule : uuid).
Implicit Types (s : option time) (o : bool).

Lemma MarkBreach_pair s o at_ d :
  dangling t dev rule d = false → pair_rel t dev rule s o d →
  ∃ d', MarkBreach t dev rule at_ d = (d', Ok (default at_ s)) ∧ alert_base d' = alert_base d ∧
    (alerts_ok d → alerts_ok d') ∧ pair_rel t dev rule (Some (default at_ s)) o d'.
Proof.
  intros Hd (Hb & Ht & Ho). unfold MarkBreach. rewrite Hb, Hd. destruct s as [u|]; simpl in *; eexists; split_and!; try done.
  split_and!; [|done|done]. simpl. by rewrite lookup_insert_eq.
Qed.
Lemma ClearBreach_pair s o d :
  pair_rel t dev rule s o d →
  ∃ d', ClearBreach t dev rule d = (d', Ok tt) ∧ alert_base d' = alert_base d ∧
    (alerts_ok d → alerts_ok d') ∧ pair_rel t dev rule None o d'.
Proof.
  intros (Hb & Ht & Ho). eexists. split_and!; try done. split_and!; [|done|done]. simpl.
  apply map_lookup_filter_None. right. intros x Hx Hn. apply Hn. split; [done|].
  rewrite Hb in Hx. destruct s; simpl in Hx; [by injection Hx as <-|done].
Qed.
Lemma RaiseAlert_pair s o m msg at_ d :
  dangling t dev rule d = false → alerts_ok d → pair_rel t dev rule s o d →
  ∃ d', RaiseAlert t dev rule m msg at_ d = (d', Ok (negb o)) ∧ alert_base d' = alert_base d ∧
    alerts_ok d' ∧ pair_rel t dev rule s true d'.
Proof.
  intros Hd Hok (Hb & Ht & Ho). destruct (RaiseAlert_sound t dev rule m msg at_ d) as [Hbase Hsound].
  specialize (Hsound Hok). revert Hbase Hsound. unfold RaiseAlert. rewrite Ho. destruct o.
  { eexists. split_and!; try done. }
  rewrite Hd. intros Hbase Hsound. eexists. split_and!; [reflexivity|exact Hbase|exact Hsound|].
  split_and!; simpl; [done| |].
  - intros k a [[<- <-]|[_ Hk]]%lookup_insert_Some; [done|by apply Ht].
  - apply one_open_true. eexists _, _. split; [apply lookup_insert_eq|done].
Qed.
Lemma ResolveAlert_pair s o at_ d :
  alerts_ok d → pair_rel t dev rule s o d →
  ∃ d', ResolveAlert t dev rule at_ d = (d', Ok o) ∧ alert_base d' = alert_base d ∧
    alerts_ok d' ∧ pair_rel t dev rule s false d'.
Proof.
  intros Hok (Hb & Ht & Ho). destruct (ResolveAlert_sound t dev rule at_ d) as [Hbase Hsound].
  specialize (Hsound Hok). eexists. split; [|split; [exact Hbase|split; [exact Hsound|]]].
  - unfold ResolveAlert. f_equal. f_equal. destruct o.
    + apply one_open_true in Ho as (k & a & Hk & Hda & Hra & Hu). apply bool_decide_eq_true.
      rewrite (count_rows_flip _ (λ _, false) _ k a Hk);
        [by rewrite (proj2 (count_rows_zero _ _)) | | done |].
      * unfold open_for. simpl. rewrite (Ht k a Hk) by done. by rewrite Hu, !bool_decide_eq_true_2.
      * intros k' a' Hk' Hne. simpl. apply not_true_false. unfold open_for. intros Hopen. bool_cases.
        destruct Hne. eapply (proj2 Hok); [done|done|done|done|by split; congruence].
    + apply bool_decide_eq_false. rewrite (proj2 (count_rows_zero _ _)); [done|].
      intros k a Hk. simpl. apply not_true_false. unfold open_for. intros Hopen. bool_cases.
      apply not_true_iff_false in Ho. destruct Ho. apply one_open_true. exists k, a. by subst.
  - split_and!; simpl; [done| |].
    + intros k a Hk [Hda Hra] Hu. rewrite lookup_fmap_Some in Hk. destruct Hk as (b & <- & Hk). revert Hda Hra Hu.
      unfold resolve_alert. case_match; [done|]. intros. by apply (Ht k b).
    + apply not_true_false. rewrite one_open_true. intros (k & a & Hk & Hda & Hra & Hu). simpl in Hk.
      rewrite lookup_fmap_Some in Hk. destruct Hk as (b & <- & Hk). revert Hda Hra Hu. unfold resolve_alert.
      destruct (open_for t dev rule b) eqn:Hopen; [done|]. intros Hda Hra Hu. unfold open_for in Hopen.
      rewrite (Ht k b Hk) in Hopen by done. by rewrite Hu, !bool_decide_eq_true_2 in Hopen.
Qed.
End pair.

(** ** One rule *)

Section rule.
Context `{UuidText} (notify : option Emitter).
Hypothesis notify_ok : ∀ em, notify = Some em → @EmitterOk em.

Lemma alertEvent_run k t dev id r msg at_ w : ∃ e, alertEvent k t dev id r msg at_ w = (w, Ok e).
Proof.
  unfold alertEvent, attempt, on_db, mbind, M_bind, GetDevice. destruct (devices (w_db w) !! dev) as [v|].
  - destruct (bool_decide _); rewrite set_db_id; by eexists.
  - rewrite set_db_id. by eexists.
Qed.

(** Telling about an alert leaves the alert tables alone. *)
Lemma emit_run k t dev id r msg at_ w :
  ∃ d', emit notify (alertEvent k t dev id r msg at_) w = (set_db (with_outbox (w_db w) d') w, Ok tt) ∧
    (serial (w_db w) ≤ serial d')%N.
Proof.
  unfold emit. destruct notify as [em|] eqn:Hem.
  - destruct (alertEvent_run k t dev id r msg at_ w) as [e He]. unfold mbind, M_bind. rewrite He.
    destruct (notify_ok em eq_refl) as [Hframe Hser]. specialize (Hser e w).
    destruct (Hframe e w) as [d' Hd']. exists d'. rewrite Hd' in *. done.
  - exists (w_db w). split; [|done]. by destruct w as [[] h n m].
Qed.
Lemma with_outbox_off dev rule d d' : (serial d ≤ serial d')%N → off_pair dev rule d (with_outbox d d').
Proof. intros Hs. split; [done|]. intros [Hk Hu]. split; [|done]. split; [|done]. intros k a Ha. specialize (Hk _ _ Ha). simpl. lia. Qed.
Lemma emit_off k t dev id r msg at_ dev' rule' :
  Steps (via w_db (off_pair dev' rule')) (emit notify (alertEvent k t dev id r msg at_)).
Proof.
  intros w. destruct (emit_run k t dev id r msg at_ w) as (d' & -> & Hs). by apply with_outbox_off.
Qed.

(** The rules of other pairs keep out of the way. *)
Lemma evaluate_rule_off t dev sample at_ id r dev' rule' :
  (dev, id) ≠ (dev', rule') → Steps (via w_db (off_pair dev' rule')) (evaluate_rule notify t dev sample at_ (id, r)).
Proof.
  intros Hne. unfold evaluate_rule, sustained.
  pose proof (λ m s, RaiseAlert_off t dev id m s at_ dev' rule' Hne).
  pose proof (ResolveAlert_off t dev id at_ dev' rule' Hne).
  pose proof (MarkBreach_off t dev id at_ dev' rule' Hne).
  pose proof (ClearBreach_off t dev id dev' rule' Hne).
  pose proof (λ k msg, emit_off k t dev id r msg at_ dev' rule').
  steps.
Qed.

(** What a sample at [at_] makes of the onset and the alert of its rule. *)
Definition track (dur : Z) (s : option time) (o : bool) (at_ : time) (br : bool) : option time * bool :=
  if br then
    if (dur <=? 0)%Z then (s, true)
    else let u := default at_ s in (Some u, o || (dur * Second <=? at_ - u)%Z)
  else (None, false).

Section own.
Context (t dev rule : uuid) (r : AlertRule) (sample : MetricSample) (at_ : time) (v : spec_float).
Hypothesis Hint : int4 (al_duration_seconds r) = true.
Hypothesis Hval : metricValue (al_metric r) sample = Some v.

Lemma emit_pair k msg s o w :
  alerts_ok (w_db w) → pair_rel t dev rule s o (w_db w) →
  ∃ w', emit notify (alertEvent k t dev rule r msg at_) w = (w', Ok tt) ∧
    alert_base (w_db w') = alert_base (w_db w) ∧ alerts_ok (w_db w') ∧ pair_rel t dev rule s o (w_db w').
Proof.
  intros Hok Hp. destruct (emit_run k t dev rule r msg at_ w) as (d' & Hr & Hs).
  destruct (with_outbox_off dev rule (w_db w) d' Hs) as [Hb Hview]. destruct (Hview Hok) as [Hok' Hv].
  eexists. split; [exact Hr|]. split_and!; [done|done|]. by apply (pair_rel_view _ _ _ _ _ (w_db w)).
Qed.

Lemma sustained_pair s o w :
  dangling t dev rule (w_db w) = false → alerts_ok (w_db w) → pair_rel t dev rule s o (w_db w) →
  let dur := al_duration_seconds r in
  ∃ w', sustained t dev rule dur at_ w =
      (w', Ok ((dur <=? 0) || (dur * Second <=? at_ - default at_ s))%Z) ∧
    alert_base (w_db w') = alert_base (w_db w) ∧ alerts_ok (w_db w') ∧
    pair_rel t dev rule (if (dur <=? 0)%Z then s else Some (default at_ s)) o (w_db w').
Proof.
  intros Hd Hok Hp dur. unfold sustained. destruct (dur <=? 0)%Z eqn:Hdur; [by eexists|].
  destruct (MarkBreach_pair t dev rule s o at_ _ Hd Hp) as (d' & Hm & Hb & Hok' & Hp').
  unfold mbind, M_bind, on_db. rewrite Hm. exists (set_db d' w). split; [|split_and!; simpl; auto].
  simpl. rewrite duration_test; [done|done|]. by apply Z.leb_gt in Hdur.
Qed.

Lemma evaluate_rule_own s o w :
  dangling t dev rule (w_db w) = false → alerts_ok (w_db w) → pair_rel t dev rule s o (w_db w) →
  let so := track (al_duration_seconds r) s o at_ (breaching (al_op r) v (al_threshold r)) in
  ∃ w', evaluate_rule notify t dev sample at_ (rule, r) w = (w', Ok tt) ∧
    alert_base (w_db w') = alert_base (w_db w) ∧ alerts_ok (w_db w') ∧ pair_rel t dev rule so.1 so.2 (w_db w').
Proof.
  intros Hd Hok Hp so. unfold evaluate_rule. rewrite Hval. unfold so, track. clear so.
  destruct (breaching _ _ _).
  - destruct (sustained_pair s o w Hd Hok Hp) as (w1 & Hs & Hb1 & Hok1 & Hp1).
    set (dur := al_duration_seconds r) in *. unfold mbind at 1, M_bind at 1. rewrite Hs.
    destruct (_ || _) eqn:Hdue; cbn [negb].
    + assert (dangling t dev rule (w_db w1) = false) as Hd1.
      { revert Hd. unfold dangling, has_tenant. injection Hb1 as -> -> ->. done. }
      destruct (RaiseAlert_pair t dev rule _ _ (al_metric r) (alert_message r v) at_ _ Hd1 Hok1 Hp1)
        as (d2 & Hr & Hb2 & Hok2 & Hp2).
      unfold mbind at 1, M_bind at 1, on_db. rewrite Hr. cbn [fst snd].
      assert (∀ w', alert_base (w_db w') = alert_base (w_db w1) → alerts_ok (w_db w') →
        pair_rel t dev rule (if (dur <=? 0)%Z then s else Some (default at_ s)) true (w_db w') →
        alert_base (w_db w') = alert_base (w_db w) ∧ alerts_ok (w_db w') ∧
        pair_rel t dev rule (if (dur <=? 0)%Z then (s, true) else
          (Some (default at_ s), o || (dur * Second <=? at_ - default at_ s)%Z)).1
          (if (dur <=? 0)%Z then (s, true) else (Some (default at_ s), o || (dur * Second <=? at_ - default at_ s)%Z)).2
          (w_db w')) as Hfin.
      { intros w' Hb' Hok' Hp'. split_and!; [congruence|done|]. destruct (dur <=? 0)%Z; [done|].
        simpl in Hdue |- *. by rewrite Hdue, orb_true_r. }
      destruct o; cbn [negb]; [eexists; split; [done|by apply Hfin]|].
      destruct (emit_pair "alert.raised" (alert_message r v) _ _ (set_db d2 w1) Hok2 Hp2)
        as (w3 & He & Hb3 & Hok3 & Hp3).
      eexists. split; [exact He|]. apply Hfin; [|done..]. rewrite Hb3. exact Hb2.
    + eexists. split; [done|]. split_and!; [done|done|]. apply orb_false_iff in Hdue as [Hz Hlt].
      rewrite Hz in Hp1 |- *. simpl. by rewrite Hlt, orb_false_r.
  - destruct (ClearBreach_pair t dev rule s o _ Hp) as (d1 & Hc & Hb1 & Hok1 & Hp1). specialize (Hok1 Hok).
    destruct (ResolveAlert_pair t dev rule None o at_ d1 Hok1 Hp1) as (d2 & Hr & Hb2 & Hok2 & Hp2).
    unfold mbind, M_bind, on_db. rewrite Hc. cbn [w_db set_db fst snd]. rewrite Hr.
    destruct o; cbn [negb].
    + destruct (emit_pair "alert.resolved" "" _ _ (set_db d2 (set_db d1 w)) Hok2 Hp2) as (w3 & He & Hb3 & Hok3 & Hp3).
      exists w3. split; [exact He|]. split_and!; [|done|done]. rewrite Hb3. simpl. congruence.
    + eexists. split; [done|]. simpl. split_and!; [congruence|done|done].
Qed.
End own.

(** ** All the rules *)

Lemma dangling_base t dev rule d d' : alert_base d' = alert_base d → dangling t dev rule d' = dangling t dev rule d.
Proof. intros [= Ht Hd Hr]. unfold dangling, has_tenant. by rewrite Ht, Hd, Hr. Qed.

Lemma emit_Ok k t dev id r msg at_ w : (emit notify (alertEvent k t dev id r msg at_) w).2 = Ok tt.
Proof. by destruct (emit_run k t dev id r msg at_ w) as (d' & -> & _). Qed.

Lemma evaluate_rule_Ok t dev sample at_ id r w :
  dangling t dev id (w_db w) = false → (evaluate_rule notify t dev sample at_ (id, r) w).2 = Ok tt.
Proof.
  intros Hd. unfold evaluate_rule. destruct (metricValue _ _) as [v|]; [|done]. destruct (breaching _ _ _).
  - assert (∃ w1 b, sustained t dev id (al_duration_seconds r) at_ w = (w1, Ok b) ∧
      dangling t dev id (w_db w1) = false) as (w1 & b & Hs & Hd1).
    { unfold sustained. destruct (_ <=? 0)%Z; [by exists w, true|]. unfold mbind, M_bind, on_db, MarkBreach.
      destruct (alert_breaches (w_db w) !! (dev, id)); [|rewrite Hd]; by eexists _, _. }
    unfold mbind at 1, M_bind at 1. rewrite Hs. destruct b; [|done]. cbn [negb].
    unfold mbind, M_bind, on_db, RaiseAlert. destruct (one_open _ _ _); [done|]. rewrite Hd1. apply emit_Ok.
  - unfold mbind, M_bind, on_db, ClearBreach, ResolveAlert, modify. simpl. destruct (bool_decide _); [|done]. apply emit_Ok.
Qed.

Lemma for_each_app {S A} (l1 l2 : list A) (body : A → M S unit) w :
  for_each (l1 ++ l2) body w = (_ ← for_each l1 body; for_each l2 body) w.
Proof.
  revert w. induction l1 as [|x l1 IH]; intros w; [done|]. simpl. unfold mbind, M_bind in *.
  destruct (body x w) as [w1 [[]|e]]; [apply IH|done].
Qed.

(** A run over rules of other pairs. *)
Lemma others_run t dev sample at_ rule l w :
  (∀ id r, (id, r) ∈ l → dangling t dev id (w_db w) = false ∧ id ≠ rule) → alerts_ok (w_db w) →
  ∃ w', for_each l (evaluate_rule notify t dev sample at_) w = (w', Ok tt) ∧ off_pair dev rule (w_db w) (w_db w').
Proof.
  revert w. induction l as [|[id r] l IH]; intros w Hl Hok; cbn [for_each]; [by exists w|].
  destruct (Hl id r ltac:(set_solver)) as [Hd Hne].
  pose proof (evaluate_rule_Ok t dev sample at_ id r w Hd) as Hrun.
  pose proof (evaluate_rule_off t dev sample at_ id r dev rule ltac:(congruence) w) as Hoff.
  unfold mbind, M_bind. destruct (evaluate_rule notify t dev sample at_ (id, r) w) as [w1 res]. simpl in Hrun, Hoff. subst res.
  destruct Hoff as [Hb Hv]. destruct (Hv Hok) as [Hok1 Hv1].
  destruct (IH w1) as (w2 & Hr2 & Hoff2); [|done|].
  - intros id' r' Hin. rewrite (dangling_base _ _ _ _ _ Hb). apply (Hl id' r'). set_solver.
  - exists w2. split; [done|]. etrans; [|exact Hoff2]. by split.
Qed.

Lemma enabled_rules_spec t d id r :
  (id, r) ∈ ListEnabledAlertRules t d ↔ alert_rules d !! id = Some r ∧ al_tenant r = t ∧ al_enabled r = true.
Proof.
  unfold ListEnabledAlertRules, ListAlertRules. rewrite list_elem_of_In, filter_In, <- list_elem_of_In, (order_by_perm _ _).
  rewrite list_elem_of_In, filter_In, <- list_elem_of_In, elem_of_map_to_list. simpl. rewrite bool_decide_eq_true. naive_solver.
Qed.
Lemma enabled_rules_NoDup t d : NoDup (ListEnabledAlertRules t d).*1.
Proof.
  apply NoDup_fmap_fst; [intros k a b Ha Hb; apply enabled_rules_spec in Ha, Hb; naive_solver congruence|].
  apply NoDup_ListNoDup, List.NoDup_filter, NoDup_ListNoDup. unfold ListAlertRules. rewrite (order_by_perm _ _).
  apply NoDup_ListNoDup, List.NoDup_filter, NoDup_ListNoDup, NoDup_map_to_list.
Qed.

(** One sample of the device, seen from one of its rules. *)
Lemma Evaluate_own t dev sample at_ rule r v s o w :
  int4 (al_duration_seconds r) = true → metricValue (al_metric r) sample = Some v →
  dangling t dev rule (w_db w) = false →
  alert_rules (w_db w) !! rule = Some r → al_tenant r = t → al_enabled r = true →
  alerts_ok (w_db w) → pair_rel t dev rule s o (w_db w) →
  let so := track (al_duration_seconds r) s o at_ (breaching (al_op r) v (al_threshold r)) in
  ∃ w', Evaluate notify t dev sample at_ w = (w', Ok tt) ∧ alert_base (w_db w') = alert_base (w_db w) ∧
    alerts_ok (w_db w') ∧ pair_rel t dev rule so.1 so.2 (w_db w').
Proof.
  intros Hint Hval Hdang Hr Ht Hen Hok Hp so. unfold Evaluate, mbind at 1, M_bind at 1, gets.
  pose proof (enabled_rules_NoDup t (w_db w)) as Hnd.
  destruct (list_elem_of_lookup_1 _ _ (proj2 (enabled_rules_spec t (w_db w) rule r) ltac:(done))) as [i Hi].
  assert (∀ id r', (id, r') ∈ ListEnabledAlertRules t (w_db w) → dangling t dev id (w_db w) = false) as Hall.
  { intros id r' [Hid _]%enabled_rules_spec. revert Hdang. unfold dangling. rewrite Hid, Hr. done. }
  apply take_drop_middle in Hi. symmetry in Hi. set (l1 := take i _) in Hi. set (l2 := drop (S i) _) in Hi. rename Hi into Hl.
  clearbody l1 l2. rewrite Hl in Hnd, Hall |- *.
  rewrite fmap_app in Hnd. simpl in Hnd. apply NoDup_app in Hnd as (_ & Hn1 & [Hn2 _]%NoDup_cons).
  rewrite for_each_app. destruct (others_run t dev sample at_ rule l1 w) as (w1 & Hw1 & [Hb1 Hv1]); [|done|].
  { intros id r' Hin. split; [apply (Hall id r'); set_solver|]. intros ->.
    apply (Hn1 rule); [apply list_elem_of_fmap; by exists (rule, r')|set_solver]. }
  unfold mbind at 1, M_bind at 1. rewrite Hw1. cbn [for_each]. destruct (Hv1 Hok) as [Hok1 Hpv1].
  destruct (evaluate_rule_own t dev rule r sample at_ v Hint Hval s o w1) as (w2 & Hw2 & Hb2 & Hok2 & Hp2);
    [by rewrite (dangling_base _ _ _ _ _ Hb1)|done|by apply (pair_rel_view _ _ _ _ _ (w_db w))|].
  unfold mbind, M_bind. rewrite Hw2.
  destruct (others_run t dev sample at_ rule l2 w2) as (w3 & Hw3 & [Hb3 Hv3]); [|done|].
  { intros id r' Hin. rewrite (dangling_base _ _ _ (w_db w)) by congruence.
    split; [apply (Hall id r'); set_solver|]. intros ->. apply Hn2, list_elem_of_fmap. by exists (rule, r'). }
  destruct (Hv3 Hok2) as [Hok3 Hpv3]. exists w3. split_and!; [done|congruence|done|].
  by apply (pair_rel_view _ _ _ _ _ (w_db w2)).
Qed.

(** A sample of another device, or a call for another tenant. *)
Lemma Evaluate_off t dev sample at_ t' dev' rule r w :
  alert_rules (w_db w) !! rule = Some r → al_tenant r = t → (t', dev') ≠ (t, dev) →
  off_pair dev rule (w_db w) (w_db (Evaluate notify t' dev' sample at_ w).1).
Proof.
  intros Hr Ht Hne. unfold Evaluate, mbind, M_bind, gets.
  assert (∀ kr, kr ∈ ListEnabledAlertRules t' (w_db w) → (dev', kr.1) ≠ (dev, rule)) as Hl.
  { intros [id r'] (Hid & Ht' & _)%enabled_rules_spec [= -> ->]. apply Hne. congruence. }
  revert Hl. generalize (ListEnabledAlertRules t' (w_db w)) as l. intros l. revert w Hr.
  induction l as [|[id r'] l IH]; intros w Hr Hl; cbn [for_each]; [done|].
  pose proof (evaluate_rule_off t' dev' sample at_ id r' dev rule (Hl (id, r') ltac:(set_solver)) w) as Hoff.
  unfold mbind, M_bind. destruct (evaluate_rule notify t' dev' sample at_ (id, r') w) as [w1 [[]|e]]; [|done].
  etrans; [exact Hoff|]. apply IH; [|set_solver]. destruct Hoff as [Hb _].
  injection Hb as _ _ Hrules. simpl in Hrules. by rewrite Hrules.
Qed.
End rule.

(** ** The history of a pair *)

(** What an agent reported, and when. *)
Record Report := mkReport { rep_at : time; rep_dev : device; rep_cpu : spec_float; rep_mem : spec_float; rep_disk : spec_float }.
Definition rep_sample (x : Report) : MetricSample := mkSample (rep_at x) (rep_cpu x) (rep_mem x) (rep_disk x).

(** The server receives the report: its clock has moved on. *)
Definition receive `{UuidText} (notify : option Emitter) (x : Report) : M world unit :=
  _ ← modify (λ w, mkWorld (w_db w) (w_hub w) (rep_at x) (w_drawn w));
  _ ← ReportMetrics (Some notify) (rep_dev x) (rep_cpu x) (rep_mem x) (rep_disk x);
  mret tt.

(** Those of the device, as its rule sees them: when, and whether over the threshold. *)
Definition seen_by (dev : device) (r : AlertRule) (reports : list Report) : list (time * bool) :=
  omap (λ x, if bool_decide (dev_TenantID (rep_dev x) = dev_TenantID dev) && bool_decide (dev_ID (rep_dev x) = dev_ID dev)
             then (λ v, (rep_at x, breaching (al_op r) v (al_threshold r))) <$> metricValue (al_metric r) (rep_sample x)
             else None) reports.

(** The reference: the alert is due when, within the last unbroken run of breaching
    samples, some sample lies at least the rule's duration after the first. *)
Definition last_run (h : list (time * bool)) : list time :=
  foldl (λ run (x : time * bool), if x.2 then run ++ [x.1] else []) [] h.
Definition alert_due (dur : Z) (h : list (time * bool)) : bool :=
  match last_run h with
  | [] => false
  | first :: later => existsb (λ u, (dur * Second <=? u - first)%Z) (first :: later)
  end.

Lemma last_run_snoc h u b : last_run (h ++ [(u, b)]) = if b then last_run h ++ [u] else [].
Proof. unfold last_run. by rewrite foldl_snoc. Qed.

(** The onset and the flag the code keeps carry exactly this. *)
Lemma track_due dur h :
  foldl (λ so x, track dur so.1 so.2 x.1 x.2) (None, false) h =
    (if (dur <=? 0)%Z then None else head (last_run h), alert_due dur h).
Proof.
  induction h as [|[u b] h IH] using rev_ind; [by destruct (dur <=? 0)%Z|].
  rewrite foldl_snoc, IH. unfold alert_due. rewrite last_run_snoc. unfold track, Second in *. cbn [fst snd].
  destruct b; [|by destruct (dur <=? 0)%Z]. destruct (dur <=? 0)%Z eqn:Hd.
  - f_equal. symmetry.
    destruct (last_run h) as [|f run]; simpl.
    + rewrite orb_false_r. apply Z.leb_le. bool_cases. lia.
    + apply orb_true_iff. left. apply Z.leb_le. bool_cases. lia.
  - destruct (last_run h) as [|f run]; simpl; [by rewrite orb_false_r|]. f_equal.
    rewrite existsb_app. simpl. by rewrite orb_false_r, orb_assoc.
Qed.

Section history.
Context `{UuidText} (notify : option Emitter).
Hypothesis notify_ok : ∀ em, notify = Some em → @EmitterOk em.

Lemma RecordMetrics_off t dev m at_ dev' rule' : Steps (off_pair dev' rule') (RecordMetrics t dev m at_).
Proof. intros d. unfold RecordMetrics. by destruct (_ || _). Qed.

(** A report of the device is one step of [track]; any other leaves the pair alone. *)
Lemma receive_pair dev rule r x s o w :
  let t := dev_TenantID dev in
  int4 (al_duration_seconds r) = true → metric_ok (al_metric r) = true → dangling t (dev_ID dev) rule (w_db w) = false →
  alert_rules (w_db w) !! rule = Some r → al_tenant r = t → al_enabled r = true →
  alerts_ok (w_db w) → pair_rel t (dev_ID dev) rule s o (w_db w) →
  let so := foldl (λ so x, track (al_duration_seconds r) so.1 so.2 x.1 x.2) (s, o) (seen_by dev r [x]) in
  ∃ w', receive notify x w = (w', Ok tt) ∧ alert_base (w_db w') = alert_base (w_db w) ∧
    alerts_ok (w_db w') ∧ pair_rel t (dev_ID dev) rule so.1 so.2 (w_db w').
Proof.
  intros t Hint Hmok Hd Hr Ht Hen Hok Hp so.
  unfold receive, ReportMetrics, now, attempt, modify, mbind at 1, M_bind at 1, on_db, mbind, M_bind. cbn [w_db w_now fst snd].
  set (m := mkSample (rep_at x) (rep_cpu x) (rep_mem x) (rep_disk x)).
  pose proof (RecordMetrics_off (dev_TenantID (rep_dev x)) (dev_ID (rep_dev x)) m (rep_at x) (dev_ID dev) rule (w_db w)) as [Hb1 Hv1].
  destruct (Hv1 Hok) as [Hok1 Hpv1]. subst so. unfold seen_by. cbn [omap list_omap].
  destruct (bool_decide (dev_TenantID (rep_dev x) = dev_TenantID dev) && bool_decide (dev_ID (rep_dev x) = dev_ID dev)) eqn:Hsame.
  - bool_cases. destruct (metricValue (al_metric r) (rep_sample x)) as [v|] eqn:Hv.
    2:{ exfalso. unfold metricValue in Hv. unfold metric_ok in Hmok. repeat case_bool_decide; done. }
    simpl. unfold RecordMetrics in *. replace (dev_TenantID (rep_dev x)) with t in * by done.
    replace (dev_ID (rep_dev x)) with (dev_ID dev) in * by done.
    assert (negb (has_tenant t (w_db w)) || bool_decide (devices (w_db w) !! dev_ID dev = None) = false) as Hfk
      by by apply orb_false_iff in Hd as [? _].
    rewrite Hfk in *. cbn [fst snd] in *.
    match goal with |- context [Evaluate notify t (dev_ID dev) m (rep_at x) ?w1] => set (w1' := w1) end.
    destruct (Evaluate_own notify notify_ok t (dev_ID dev) m (rep_at x) rule r v s o w1' Hint Hv) as (w2 & Hw2 & Hb2 & Hok2 & Hp2);
      [by rewrite (dangling_base _ _ _ _ _ Hb1)|done..|by apply (pair_rel_view _ _ _ _ _ (w_db w))|].
    rewrite Hw2. eexists. split; [done|]. split_and!; [by etrans|done|done].
  - simpl. destruct (RecordMetrics _ _ m _ (w_db w)) as [d1 [[]|e]]; cbn [fst] in *.
    2:{ eexists. split; [done|]. split_and!; [done|done|]. by apply (pair_rel_view _ _ _ _ _ (w_db w)). }
    match goal with |- context [Evaluate notify ?a ?b m (rep_at x) ?w1] => set (w1' := w1);
      pose proof (Evaluate_off notify notify_ok t (dev_ID dev) m (rep_at x) a b rule r w1') as Hoff end.
    destruct Hoff as [Hb2 Hv2]; [|done| |].
    + subst w1'. simpl. injection Hb1 as _ _ Hrules. simpl in Hrules. by rewrite Hrules.
    + intros [= Ht' Hd']. rewrite !bool_decide_eq_true_2 in Hsame; done.
    + destruct (Hv2 Hok1) as [Hok2 Hpv2]. destruct (Evaluate notify _ _ m _ w1') as [w2 res]. simpl in *.
      eexists. split; [done|]. split_and!; [congruence|done|]. apply (pair_rel_view _ _ _ _ _ (w_db w)); [congruence|done].
Qed.

Lemma receive_all dev rule r reports s o w :
  let t := dev_TenantID dev in
  int4 (al_duration_seconds r) = true → metric_ok (al_metric r) = true → dangling t (dev_ID dev) rule (w_db w) = false →
  alert_rules (w_db w) !! rule = Some r → al_tenant r = t → al_enabled r = true →
  alerts_ok (w_db w) → pair_rel t (dev_ID dev) rule s o (w_db w) →
  let so := foldl (λ so x, track (al_duration_seconds r) so.1 so.2 x.1 x.2) (s, o) (seen_by dev r reports) in
  ∃ w', for_each reports (receive notify) w = (w', Ok tt) ∧
    alerts_ok (w_db w') ∧ pair_rel t (dev_ID dev) rule so.1 so.2 (w_db w').
Proof.
  intros t Hint Hm. revert s o w. induction reports as [|x reports IH]; intros s o w Hd Hr Ht Hen Hok Hp; cbn [for_each].
  { by exists w. }
  destruct (receive_pair dev rule r x s o w Hint Hm Hd Hr Ht Hen Hok Hp) as (w1 & Hw1 & Hb1 & Hok1 & Hp1).
  unfold mbind, M_bind. rewrite Hw1. destruct (foldl _ (s, o) (seen_by dev r [x])) as [s1 o1] eqn:Hso.
  assert (seen_by dev r (x :: reports) = seen_by dev r [x] ++ seen_by dev r reports) as ->.
  { unfold seen_by. by rewrite <- omap_app. }
  rewrite foldl_app, Hso. apply IH; try done; [by rewrite (dangling_base _ _ _ _ _ Hb1)|].
  injection Hb1 as _ _ Hrules. simpl in Hrules. by rewrite Hrules.
Qed.

(** C26. Alerts follow the samples. Let a device and an enabled rule of its tenant start
    with no onset and no open alert. Whatever metrics the fleet reports from then on, in
    any order, an alert of the device and the rule is open afterwards if and only if one
    is due: in the unbroken run of breaching samples the device's reports end with, some
    sample came at least the rule's duration after the first. There is never more than
    one, and the clock's arithmetic does not overflow. *)
Theorem alert_history dev rule r reports w :
  let t := dev_TenantID dev in
  int4 (al_duration_seconds r) = true → metric_ok (al_metric r) = true → dangling t (dev_ID dev) rule (w_db w) = false →
  alert_rules (w_db w) !! rule = Some r → al_tenant r = t → al_enabled r = true →
  alerts_ok (w_db w) → alert_breaches (w_db w) !! (dev_ID dev, rule) = None → one_open (dev_ID dev) rule (w_db w) = false →
  ∃ w', for_each reports (receive notify) w = (w', Ok tt) ∧ alerts_ok (w_db w') ∧
    one_open (dev_ID dev) rule (w_db w') = alert_due (al_duration_seconds r) (seen_by dev r reports).
Proof.
  intros t Hint Hm Hd Hr Ht Hen Hok Hnb Hno.
  assert (pair_rel t (dev_ID dev) rule None false (w_db w)) as Hp.
  { split_and!; [done| |done]. intros k a Hk [Hda Hra] Hu. apply not_true_iff_false in Hno. destruct Hno.
    apply one_open_true. by exists k, a. }
  destruct (receive_all dev rule r reports None false w Hint Hm Hd Hr Ht Hen Hok Hp) as (w' & Hw' & Hok' & _ & _ & Ho).
  exists w'. split_and!; [done|done|]. fold t in Ho. rewrite Ho. by rewrite track_due.
Qed.
End history.

(** ** Every operation on the alert tables *)

Section operations.
Context `{UuidText, UuidSource}.

Lemma alerts_ok_filter P `{∀ kv : N * Alert, Decision (P kv)} d d' :
  alerts d' = filter P (alerts d) → serial d' = serial d → alerts_ok d → alerts_ok d'.
Proof.
  intros Ha Hs [Hk Hu]. split.
  - rewrite Ha, Hs. intros k a [Hin _]%map_lookup_filter_Some. eauto.
  - rewrite Ha. intros k k' a a' [Hin _]%map_lookup_filter_Some [Hin' _]%map_lookup_filter_Some. by apply Hu.
Qed.
Lemma DeleteAlertRule_ok t id d : alerts_ok d → alerts_ok (DeleteAlertRule t id d).1.
Proof.
  intros Hok. unfold DeleteAlertRule, oneRow. destruct (alert_rules d !! id); [|done]. destruct (bool_decide _); [|done].
  by apply (alerts_ok_filter (λ kv, at_rule kv.2 ≠ id) d).
Qed.
Lemma Retention_ok before d : alerts_ok d → alerts_ok (Retention before d).1.
Proof. intros Hok. by apply (alerts_ok_filter (λ kv, old_alert before kv.2 = false) d). Qed.

(** Retention never removes an open alert. *)
Lemma Retention_keeps_open before d dev rule : one_open dev rule (Retention before d).1 = one_open dev rule d.
Proof.
  apply eq_true_iff_eq. rewrite !one_open_true. simpl. split; intros (k & a & Hk & Hd & Hr & Hu); exists k, a.
  - by apply map_lookup_filter_Some in Hk as [Hk _].
  - split_and!; try done. apply map_lookup_filter_Some. split; [done|]. unfold unresolved in Hu. bool_cases.
    unfold old_alert. simpl. by rewrite Hu.
Qed.
End operations.

(** ** A concrete setting *)

Module Probe.
(** A tenant with one device and two rules on its processor: over 90% for a minute, and
    over 50% at once. *)
Definition f50 : spec_float := S754_finite false 7036874417766400 (-47).
Definition f90 : spec_float := S754_finite false 6333186975989760 (-46).
Definition f95 : spec_float := S754_finite false 6685030696878080 (-46).
Definition long : AlertRule := mkAlertRule 1 "hot" "cpu" "gt" f90 60 true 1.
Definition short : AlertRule := mkAlertRule 1 "busy" "cpu" "gt" f50 0 true 2.
Definition probe_db : db :=
  set_alert_rules {[70%N := long; 71%N := short]}
    (set_devices {[9%N := mkDevice 1 "pc" "g" None "s" 50 "os" "1" [] "" 0 None false false 0 "" None]}
      (set_tenants {[1%N := mkTenant "acme" false 0]} empty_db)).
Definition probe : world := mkWorld probe_db New 1 0.
Definition pc9 : device := mkDeviceRef 9 1.
Definition at_s (s : Z) (cpu : spec_float) : Report := mkReport (s * Second) pc9 cpu f50 f50.
(** Hot from second 10 on, but for one sample at second 40. *)
Definition with_a_break : list Report := [at_s 10 f95; at_s 40 f50; at_s 50 f95; at_s 80 f95].
Definition unbroken : list Report := with_a_break ++ [at_s 110 f95].
End Probe.

Section probe_witness.
Import Toy Probe.

Lemma probe_ok : alerts_ok probe_db.
Proof. split; intros; by simplify_map_eq. Qed.

Lemma alert_history_witness :
  (∃ w', for_each with_a_break (receive None) probe = (w', Ok tt) ∧ one_open 9 70 (w_db w') = false) ∧
  (∃ w', for_each unbroken (receive None) probe = (w', Ok tt) ∧ one_open 9 70 (w_db w') = true).
Proof.
  split.
  - destruct (alert_history None ltac:(discriminate) pc9 70 long with_a_break probe) as (w' & Hw & _ & Ho);
      try reflexivity; [exact probe_ok|].
    exists w'. split; [exact Hw|]. etransitivity; [exact Ho|vm_compute; reflexivity].
  - destruct (alert_history None ltac:(discriminate) pc9 70 long unbroken probe) as (w' & Hw & _ & Ho);
      try reflexivity; [exact probe_ok|].
    exists w'. split; [exact Hw|]. etransitivity; [exact Ho|vm_compute; reflexivity].
Defined.
(** The rule without a duration raised its alert at the first sample and has it still. *)
Example busy_open : one_open 9 71 (w_db (for_each with_a_break (receive None) probe).1) = true ∧
  (alert_message short f95, alert_message long f95) = ("cpu 95% > 50%", "cpu 95% > 90%").
Proof. by vm_compute. Qed.
End probe_witness.
