(* ===== verification/RingfenceFacts.v ===== *)
(** * Ringfences stay well formed and reach their devices

    Shows that the console cannot leave a ringfence row that names another tenant's
    ringfence or group, an unknown mode, action or ASR rule, or a blank or repeated path; that a
    device is given its own group's ringfence and nothing else; and that the version it is
    given tells two contents apart. *)

From stdpp Require Import gmap strings list sorting.
From S2P Require Import Prelude GoStr Db Hub World StoreCore StorePolicies StoreRingfence Http Ringfences Commands Enroll AgentApi.

(** ** Well-formed tables *)

Record RingfenceTables := mkRingfenceTables {
  ft_policies : gmap uuid RingfencePolicy;
  ft_programs : gmap uuid RingfenceProgram;
  ft_protections : gmap (uuid * string) RingfenceProtection;
  ft_assignments : gmap uuid RingfenceAssignment;
  ft_groups : gmap uuid DeviceGroup;
}.
Definition ringfence_tables (d : db) : RingfenceTables :=
  mkRingfenceTables (ringfence_policies d) (ringfence_programs d) (ringfence_protections d) (ringfence_assignments d)
    (device_groups d).

Definition ringfence_of (T : RingfenceTables) (id t : uuid) : Prop := ∃ r, ft_policies T !! id = Some r ∧ rf_tenant r = t.
Definition group_of (T : RingfenceTables) (id t : uuid) : Prop := ∃ g, ft_groups T !! id = Some g ∧ gr_tenant g = t.

Record ringfences_ok (T : RingfenceTables) : Prop := {
  ok_modes : ∀ id r, ft_policies T !! id = Some r → policy_mode_ok (rf_mode r) = true;
  ok_names : ∀ id id' r r', ft_policies T !! id = Some r → ft_policies T !! id' = Some r' →
    rf_tenant r = rf_tenant r' → rf_name r = rf_name r' → id = id';
  ok_programs : ∀ k p, ft_programs T !! k = Some p → ringfence_of T (rp_ringfence p) (rp_tenant p) ∧ rp_path p ≠ "";
  ok_paths : ∀ k k' p p', ft_programs T !! k = Some p → ft_programs T !! k' = Some p' →
    rp_ringfence p = rp_ringfence p' → rp_path p = rp_path p' → k = k';
  ok_protections : ∀ id a x, ft_protections T !! (id, a) = Some x →
    ringfence_of T id (rt_tenant x) ∧ action_ok (rt_action x) = true ∧ a ∈ asrRules;
  ok_assigned : ∀ g a, ft_assignments T !! g = Some a → ringfence_of T (ra_ringfence a) (ra_tenant a) ∧ group_of T g (ra_tenant a);
}.
Definition ringfences_stay (T T' : RingfenceTables) : Prop := ringfences_ok T → ringfences_ok T'.
#[export] Instance ringfences_stay_preorder : PreOrder ringfences_stay.
Proof. split; [intros T HT; exact HT | intros T1 T2 T3 HT1 HT2 HT; eauto]. Qed.

Abbreviation fenced := (via ringfence_tables ringfences_stay).
Abbreviation fencedW := (via (dbv ringfence_tables) ringfences_stay).

Lemma fenced_refl d : fenced d d.
Proof. reflexivity. Qed.
#[local] Hint Resolve fenced_refl : fl.

#[export] Instance keeps_fenced {A} (m : M db A) : Steps (keeps ringfence_tables) m → Steps fenced m | 50.
Proof. intros Hm d. unfold via. by rewrite (Hm d). Qed.

Lemma own_group_true t id d : own_group t id d = true ↔ group_of (ringfence_tables d) id t.
Proof.
  unfold own_group, group_of. simpl. destruct (device_groups d !! id) as [g|]; [|naive_solver].
  rewrite bool_decide_eq_true. naive_solver.
Qed.

(** *** Ringfences *)

(** Adding a ringfence, or changing one that keeps its tenant. *)
Lemma put_ringfence_fenced id r d :
  policy_mode_ok (rf_mode r) = true → ringfence_name_taken (rf_tenant r) (rf_name r) (Some id) d = false →
  (∀ old, ringfence_policies d !! id = Some old → rf_tenant old = rf_tenant r) →
  fenced d (set_ringfence_policies (<[id := r]> (ringfence_policies d)) d).
Proof.
  intros Hm Hn Ht [Hmodes Hnames Hprog Hpaths Hprot Hass].
  assert (∀ i t, ringfence_of (ringfence_tables d) i t →
    ringfence_of (ringfence_tables (set_ringfence_policies (<[id := r]> (ringfence_policies d)) d)) i t) as Hof.
  { intros i t (r' & Hr' & <-). unfold ringfence_of. simpl in *. destruct (decide (id = i)) as [<-|Hne].
    - exists r. by rewrite lookup_insert_eq, (Ht r').
    - exists r'. by rewrite lookup_insert_ne. }
  assert (∀ i r', i ≠ id → ringfence_policies d !! i = Some r' → rf_tenant r' = rf_tenant r → rf_name r' ≠ rf_name r) as Hother.
  { intros i r' Hne Hi Htr Hnr. unfold ringfence_name_taken in Hn. rewrite exists_row_false in Hn. specialize (Hn i r' Hi).
    rewrite Htr, Hnr, !bool_decide_eq_true_2 in Hn by done. simpl in Hn. apply negb_false_iff, bool_decide_eq_true in Hn.
    congruence. }
  split; simpl.
  - intros i r' [[<- <-]|[_ Hi]]%lookup_insert_Some; [done|by eapply Hmodes].
  - intros i i' r1 r2 [[<- <-]|[Hne Hi]]%lookup_insert_Some [[<- <-]|[Hne' Hi']]%lookup_insert_Some Htr Hnr;
      [done| | |by eapply Hnames].
    + by destruct (Hother i' r2).
    + by destruct (Hother i r1).
  - intros k p Hk. destruct (Hprog k p Hk). eauto.
  - done.
  - intros i a x Hk. destruct (Hprot i a x Hk) as (? & ? & ?). eauto.
  - intros g a Hk. destruct (Hass g a Hk). eauto.
Qed.

Lemma name_taken_mono t n id d : ringfence_name_taken t n None d = false → ringfence_name_taken t n (Some id) d = false.
Proof.
  unfold ringfence_name_taken. rewrite !exists_row_false. intros Hn i r Hi. specialize (Hn i r Hi). simpl in Hn.
  rewrite andb_true_r in Hn. by rewrite Hn.
Qed.

#[export] Instance CreateRingfence_fenced t id n mo : Steps fenced (CreateRingfence t id n mo).
Proof.
  apply map_err_steps. intros d. unfold stmt. generalize (if bool_decide (mo = "") then "audit" else mo) as m. intros m.
  repeat (case_match; [auto with fl|]). bool_cases. simpl. apply put_ringfence_fenced; [done|by apply name_taken_mono|].
  intros old Hold. match goal with H : ¬ is_Some _ |- _ => destruct H end. by eexists.
Qed.
#[export] Instance RenameRingfence_fenced t id n : Steps fenced (RenameRingfence t id n).
Proof.
  intros d. unfold RenameRingfence. destruct (own_ringfence t id d) as [r|] eqn:Hr; [|auto with fl].
  case_match eqn:Hn; [auto with fl|]. apply own_ringfence_Some in Hr as [Hr <-]. simpl. intros Hok.
  apply put_ringfence_fenced; [exact (ok_modes _ Hok id r Hr)|done| |done]. intros old Hold. simpl. congruence.
Qed.
#[export] Instance SetRingfenceMode_fenced t id mo : Steps fenced (SetRingfenceMode t id mo).
Proof.
  intros d. unfold SetRingfenceMode. destruct (own_ringfence t id d) as [r|] eqn:Hr; [|auto with fl].
  case_match eqn:Hm; [auto with fl|]. bool_cases. apply own_ringfence_Some in Hr as [Hr <-]. simpl. intros Hok.
  apply put_ringfence_fenced; [done| |intros old Hold; simpl; congruence|done].
  unfold ringfence_name_taken. apply exists_row_false. intros i r' Hi. apply not_true_false. simpl. intros Hb. bool_cases.
  match goal with H : Some _ ≠ Some _ |- _ => destruct H end. f_equal. symmetry. by apply (ok_names _ Hok i id r' r).
Qed.
#[export] Instance DeleteRingfence_fenced t id : Steps fenced (DeleteRingfence t id).
Proof.
  intros d. unfold DeleteRingfence, oneRow. repeat (case_match; [|auto with fl]). simpl.
  intros [Hmodes Hnames Hprog Hpaths Hprot Hass]. simpl in *.
  assert (∀ i t', i ≠ id → ringfence_of (ringfence_tables d) i t' → ∃ r, delete id (ringfence_policies d) !! i = Some r ∧ rf_tenant r = t') as Hdel.
  { intros i t' Hne (r' & Hr' & <-). exists r'. by rewrite lookup_delete_ne. }
  split; simpl.
  - intros i r' [_ Hi]%lookup_delete_Some. eauto.
  - intros i i' r1 r2 [_ Hi]%lookup_delete_Some [_ Hi']%lookup_delete_Some. eauto.
  - intros k p [Hk Hne]%map_lookup_filter_Some. destruct (Hprog k p Hk). split; [by apply Hdel|done].
  - intros k k' p p' [Hk _]%map_lookup_filter_Some [Hk' _]%map_lookup_filter_Some. eauto.
  - intros i a x [Hk Hne]%map_lookup_filter_Some. destruct (Hprot i a x Hk) as (? & ? & ?). split; [by apply Hdel|done].
  - intros g a [Hk Hne]%map_lookup_filter_Some. destruct (Hass g a Hk) as [? Hg]. split; [by apply Hdel|exact Hg].
Qed.

(** *** Programs, protections, assignments *)

Lemma own_ringfence_of t id d r : own_ringfence t id d = Some r → ringfence_of (ringfence_tables d) id t.
Proof. intros [Hr Ht]%own_ringfence_Some. by exists r. Qed.

Lemma AddRingfenceProgram_fenced t rf id path nb note :
  path ≠ "" → Steps fenced (AddRingfenceProgram t rf id path nb note).
Proof.
  intros Hpath. apply map_err_steps. intros d. unfold stmt. destruct (own_ringfence t rf d) as [r|] eqn:Hr; [|auto with fl].
  case_match eqn:Htaken; [auto with fl|]. case_match; [auto with fl|]. apply own_ringfence_of in Hr.
  apply orb_false_iff in Htaken as [_ Htaken]. unfold program_taken in Htaken. rewrite exists_row_false in Htaken.
  assert (∀ k p, ringfence_programs d !! k = Some p → rp_ringfence p = rf → rp_path p ≠ path) as Hno.
  { intros k p Hk <- <-. specialize (Htaken k p Hk). by rewrite !bool_decide_eq_true_2 in Htaken. }
  intros [Hmodes Hnames Hprog Hpaths Hprot Hass]. simpl in *. split; simpl; try done.
  - intros k p [[<- <-]|[_ Hk]]%lookup_insert_Some; [done|by apply (Hprog k p)].
  - intros k k' p p' [[<- <-]|[_ Hk]]%lookup_insert_Some [[<- <-]|[_ Hk']]%lookup_insert_Some Hrf Hp;
      simpl in *; [done| | |by eapply Hpaths].
    + by destruct (Hno k' p' Hk').
    + by destruct (Hno k p Hk).
Qed.
#[export] Instance DeleteRingfenceProgram_fenced t rf id : Steps fenced (DeleteRingfenceProgram t rf id).
Proof.
  intros d. unfold DeleteRingfenceProgram, oneRow. repeat (case_match; [|auto with fl]).
  intros [Hmodes Hnames Hprog Hpaths Hprot Hass]. split; simpl in *; try done.
  - intros k p [_ Hk]%lookup_delete_Some. by apply (Hprog k p).
  - intros k k' p p' [_ Hk]%lookup_delete_Some [_ Hk']%lookup_delete_Some. by apply Hpaths.
Qed.

Lemma SetRingfenceProtection_fenced t rf a act :
  a ∈ asrRules → action_ok act || bool_decide (act = "off") = true → Steps fenced (SetRingfenceProtection t rf a act).
Proof.
  intros Ha Hact. unfold SetRingfenceProtection. case_bool_decide as Hoff.
  - intros d [Hmodes Hnames Hprog Hpaths Hprot Hass]. split; simpl in *; try done.
    intros i a' x [Hk _]%map_lookup_filter_Some. by apply (Hprot i a' x).
  - rewrite orb_false_r in Hact. apply map_err_steps. intros d. unfold stmt.
    destruct (own_ringfence t rf d) as [r|] eqn:Hr; [|auto with fl]. case_match; [auto with fl|].
    apply own_ringfence_of in Hr.
    assert (∀ x, ringfence_of (ringfence_tables d) rf (rt_tenant x) → rt_action x = act →
      fenced d (set_ringfence_protections (<[(rf, a) := x]> (ringfence_protections d)) d)) as Hput.
    { intros x Hx Hxa [Hmodes Hnames Hprog Hpaths Hprot Hass]. split; simpl in *; try done.
      intros i a' x' [[[= <- <-] <-]|[_ Hk]]%lookup_insert_Some; [by rewrite Hxa|by apply (Hprot i a' x')]. }
    destruct (ringfence_protections d !! (rf, a)) as [old|] eqn:Hold; simpl.
    + intros Hok. apply Hput; [by destruct (ok_protections _ Hok rf a old Hold)|done|done].
    + case_match; [auto with fl|]. by apply Hput.
Qed.

#[export] Instance AssignRingfence_fenced t g rf : Steps fenced (AssignRingfence t g rf).
Proof.
  apply map_err_steps. intros d. unfold stmt. case_match eqn:Hex; [auto with fl|].
  apply orb_false_iff in Hex as [Hg%negb_false_iff Hr]. apply own_group_true in Hg. bool_cases.
  destruct (own_ringfence t rf d) as [r|] eqn:Ho; [|done]. apply own_ringfence_of in Ho.
  assert (∀ x, ra_tenant x = t → ra_ringfence x = rf →
    fenced d (set_ringfence_assignments (<[g := x]> (ringfence_assignments d)) d)) as Hput.
  { intros x <- <- [Hmodes Hnames Hprog Hpaths Hprot Hass]. split; simpl in *; try done.
    intros g' x' [[<- <-]|[_ Hk]]%lookup_insert_Some; [done|by apply (Hass g' x')]. }
  destruct (ringfence_assignments d !! g) as [old|]; simpl.
  - case_bool_decide; [by apply Hput|auto with fl].
  - case_match; [auto with fl|]. by apply Hput.
Qed.
#[export] Instance UnassignRingfence_fenced t g : Steps fenced (UnassignRingfence t g).
Proof.
  intros d. unfold UnassignRingfence, oneRow. repeat (case_match; [|auto with fl]).
  intros [Hmodes Hnames Hprog Hpaths Hprot Hass]. split; simpl in *; try done.
  intros g' x' [_ Hk]%lookup_delete_Some. by apply (Hass g' x').
Qed.

(** *** Groups *)

(** A group that goes takes its assignment along. *)
#[export] Instance DeleteDeviceGroup_fenced t id : Steps fenced (DeleteDeviceGroup t id).
Proof.
  apply transaction_steps, bind_steps; [apply keeps_fenced; by intros d|intros _].
  apply bind_steps; [apply keeps_fenced; by intros d|intros _]. intros d. unfold stmt.
  destruct (device_groups d !! id) as [g|] eqn:Hg; [|auto with fl].
  repeat (case_match; [auto with fl|]). intros [Hmodes Hnames Hprog Hpaths Hprot Hass]. split; simpl in *; try done.
  intros g' a [Hne Hk]%lookup_delete_Some. destruct (Hass g' a Hk) as [? (gr & Hgr & Ht)]. split; [done|].
  exists gr. simpl in *. by rewrite lookup_delete_ne.
Qed.
#[export] Instance CreateDeviceGroup_fenced id t n : Steps fenced (CreateDeviceGroup id t n).
Proof.
  apply map_err_steps. intros d. repeat (case_match; [auto with fl|]). bool_cases.
  intros [Hmodes Hnames Hprog Hpaths Hprot Hass]. split; simpl in *; try done.
  intros g' a Hk. destruct (Hass g' a Hk) as [? (gr & Hgr & Ht)]. split; [done|]. exists gr. simpl in *.
  rewrite lookup_insert_ne; [done|]. naive_solver.
Qed.
#[export] Instance RenameDeviceGroup_fenced t id n : Steps fenced (RenameDeviceGroup t id n).
Proof.
  apply map_err_steps. intros d. destruct (device_groups d !! id) as [g|] eqn:Hg; [|auto with fl].
  repeat (case_match; [auto with fl|]). intros [Hmodes Hnames Hprog Hpaths Hprot Hass]. split; simpl in *; try done.
  intros g' a Hk. destruct (Hass g' a Hk) as [? (gr & Hgr & Ht)]. split; [done|]. unfold group_of. simpl in *.
  destruct (decide (id = g')) as [<-|]; [|exists gr; by rewrite lookup_insert_ne].
  exists (gr_set_name n g). rewrite lookup_insert_eq. by simplify_eq.
Qed.

(** *** The console *)

Section console.
Context `{UuidText, UuidSource}.

#[export] Instance AppendAudit_fenced t a b c x det ip r : Steps fenced (AppendAudit t a b c x det ip r).
Proof. apply keeps_fenced. intros d. unfold AppendAudit. by case_match. Qed.
#[export] Instance audit_fenced p a b c x r : Steps fencedW (audit p a b c x r).
Proof. unfold audit, audit_any. steps. Qed.

#[export] Instance createRingfence_fenced p n : Steps fencedW (createRingfence p n).
Proof. unfold createRingfence. http_steps. Qed.
#[export] Instance renameRingfence_fenced p raw n : Steps fencedW (renameRingfence p raw n).
Proof. unfold renameRingfence. http_steps. Qed.
#[export] Instance setRingfenceMode_fenced p raw m : Steps fencedW (setRingfenceMode p raw m).
Proof. unfold setRingfenceMode. http_steps. Qed.
#[export] Instance deleteRingfence_fenced p raw : Steps fencedW (deleteRingfence p raw).
Proof. unfold deleteRingfence. http_steps. Qed.
#[export] Instance addRingfenceProgram_fenced p raw path nb note : Steps fencedW (addRingfenceProgram p raw path nb note).
Proof.
  unfold addRingfenceProgram. unfold with_pathID. case_match; [|http_steps]. case_bool_decide as Hp; [http_steps|].
  pose proof (λ id progID, AddRingfenceProgram_fenced (p_tenant p) id progID _ (default true nb) note Hp) as Hadd.
  http_steps.
Qed.
#[export] Instance deleteRingfenceProgram_fenced p raw rawp : Steps fencedW (deleteRingfenceProgram p raw rawp).
Proof. unfold deleteRingfenceProgram. http_steps. Qed.
#[export] Instance setRingfenceProtection_fenced p raw a act : Steps fencedW (setRingfenceProtection p raw a act).
Proof.
  unfold setRingfenceProtection, with_pathID. case_match; [|http_steps]. destruct (negb (bool_decide _)) eqn:Ha; [http_steps|].
  destruct (negb (_ || _)) eqn:Hact; [http_steps|]. apply negb_false_iff in Ha, Hact. apply bool_decide_eq_true in Ha.
  pose proof (λ id, SetRingfenceProtection_fenced (p_tenant p) id _ act Ha Hact) as Hset.
  http_steps.
Qed.
#[export] Instance assignRingfence_fenced p raw g : Steps fencedW (assignRingfence p raw g).
Proof. unfold assignRingfence. http_steps. Qed.
#[export] Instance unassignRingfence_fenced p raw rf : Steps fencedW (unassignRingfence p raw rf).
Proof.
  assert (∀ t g, ReadOnly (GroupRingfenceID t g)) by (intros t g d; unfold GroupRingfenceID; by repeat case_match).
  unfold unassignRingfence. http_steps.
Qed.

(** One request to the ringfence pages, one change to the groups, or anything that does
    not write these tables. *)
Inductive ringfence_step : world → world → Prop :=
  | do_create p n w : ringfence_step w (createRingfence p n w).1
  | do_rename p raw n w : ringfence_step w (renameRingfence p raw n w).1
  | do_mode p raw m w : ringfence_step w (setRingfenceMode p raw m w).1
  | do_delete p raw w : ringfence_step w (deleteRingfence p raw w).1
  | do_add p raw path nb note w : ringfence_step w (addRingfenceProgram p raw path nb note w).1
  | do_drop p raw rawp w : ringfence_step w (deleteRingfenceProgram p raw rawp w).1
  | do_protect p raw a act w : ringfence_step w (setRingfenceProtection p raw a act w).1
  | do_assign p raw g w : ringfence_step w (assignRingfence p raw g w).1
  | do_unassign p raw rf w : ringfence_step w (unassignRingfence p raw rf w).1
  | do_create_group id t n w : ringfence_step w (on_db (CreateDeviceGroup id t n) w).1
  | do_rename_group t id n w : ringfence_step w (on_db (RenameDeviceGroup t id n) w).1
  | do_delete_group t id w : ringfence_step w (on_db (DeleteDeviceGroup t id) w).1
  | do_else w w' : dbv ringfence_tables w' = dbv ringfence_tables w → ringfence_step w w'.

Lemma ringfence_step_fenced w w' : ringfence_step w w' → fencedW w w'.
Proof.
  destruct 1; try (eapply steps_of; by apply _); try (eapply (steps_of (R := fencedW)); apply on_db_steps; by apply _).
  match goal with H : dbv ringfence_tables _ = _ |- _ => unfold via; rewrite H; reflexivity end.
Qed.

(** C34. Ringfence rows stay well formed: whatever sequence of console requests is made,
    by administrators of any tenants, every ringfence has a known mode and a name of its
    own within its tenant; every program has a path, listed once, and every protection an
    ASR rule of the curated set and a known action, both in a ringfence of the tenant the row names; and every assignment joins a group and
    a ringfence of the same tenant. *)
Theorem ringfences_invariant w w' :
  rtc ringfence_step w w' → ringfences_ok (ringfence_tables (w_db w)) → ringfences_ok (ringfence_tables (w_db w')).
Proof. induction 1 as [|w1 w2 w3 Hs _ IH]; [done|]. intros Hok. by apply IH, (ringfence_step_fenced _ _ Hs). Qed.
End console.

(** ** The version tells contents apart *)

Section version.
Context `{Hasher}.

Lemma program_body_inj (p q : string * bool) :
  p.1 +:+ "|" +:+ (if p.2 then "true" else "false") = q.1 +:+ "|" +:+ (if q.2 then "true" else "false") → p = q.
Proof.
  destruct p as [p []], q as [q []]; simpl; intros Heq; try (apply str_app_inj_r in Heq; by subst);
    apply (f_equal (λ s, rev (to_list s))) in Heq; rewrite !to_list_app, !rev_app_distr in Heq; discriminate Heq.
Qed.
Lemma protection_body_inj (p q : string * string) :
  action_ok p.2 = true → action_ok q.2 = true → p.1 +:+ "|" +:+ p.2 = q.1 +:+ "|" +:+ q.2 → p = q.
Proof.
  destruct p as [p a], q as [q b]; simpl. unfold action_ok. rewrite !orb_true_iff, !bool_decide_eq_true.
  intros [->| ->] [->| ->] Heq; try (apply str_app_inj_r in Heq; by subst);
    apply (f_equal (λ s, rev (to_list s))) in Heq; rewrite !to_list_app, !rev_app_distr in Heq; discriminate Heq.
Qed.

Definition program_ok (p : string * bool) : Prop := one_line p.1 = true.
Definition protection_ok (p : string * string) : Prop := one_line p.1 = true ∧ action_ok p.2 = true.

Lemma action_one_line a : action_ok a = true → one_line a = true.
Proof. unfold action_ok. rewrite orb_true_iff, !bool_decide_eq_true. by intros [->| ->]. Qed.

Lemma program_line_app (p : string * bool) x :
  program_line p +:+ x = "prog=" +:+ (p.1 +:+ "|" +:+ (if p.2 then "true" else "false")) +:+ nl +:+ x.
Proof. unfold program_line. by rewrite !str_app_assoc. Qed.
Lemma protection_line_app (p : string * string) x : protection_line p +:+ x = "prot=" +:+ (p.1 +:+ "|" +:+ p.2) +:+ nl +:+ x.
Proof. unfold protection_line. by rewrite !str_app_assoc. Qed.

Lemma program_line_inj p q x y :
  program_ok p → program_ok q → program_line p +:+ x = program_line q +:+ y → p = q ∧ x = y.
Proof.
  intros Hp Hq. rewrite !program_line_app. intros Heq%(inj _). apply first_line_inj in Heq as [Heq ->].
  - by apply program_body_inj in Heq.
  - rewrite one_line_app, Hp. by destruct p.2.
  - rewrite one_line_app, Hq. by destruct q.2.
Qed.
Lemma protection_line_inj p q x y :
  protection_ok p → protection_ok q → protection_line p +:+ x = protection_line q +:+ y → p = q ∧ x = y.
Proof.
  intros [Hp Hpa] [Hq Hqa]. rewrite !protection_line_app. intros Heq%(inj _). apply first_line_inj in Heq as [Heq ->].
  - by apply protection_body_inj in Heq.
  - rewrite !one_line_app, Hp, (action_one_line p.2 Hpa).
    done.
  - rewrite !one_line_app, Hq, (action_one_line q.2 Hqa). done.
Qed.

Lemma protections_inj qs qs' :
  Forall protection_ok qs → Forall protection_ok qs' →
  lines (protection_line <$> qs) = lines (protection_line <$> qs') → qs = qs'.
Proof.
  intros Hqs. revert qs'. induction Hqs as [|q qs Hq Hqs IH]; intros [|q' qs'] Hqs'; simpl;
    [done|rewrite protection_line_app; discriminate|rewrite protection_line_app; discriminate|].
  apply Forall_cons in Hqs' as [Hq' Hqs']. intros [-> Heq]%protection_line_inj; [|done..]. f_equal. by apply IH.
Qed.
Lemma programs_inj ps ps' qs qs' :
  Forall program_ok ps → Forall program_ok ps' → Forall protection_ok qs → Forall protection_ok qs' →
  lines (program_line <$> ps) +:+ lines (protection_line <$> qs) =
    lines (program_line <$> ps') +:+ lines (protection_line <$> qs') → ps = ps' ∧ qs = qs'.
Proof.
  intros Hps. revert ps'. induction Hps as [|p ps Hp Hps IH]; intros [|p' ps'] Hps' Hqs Hqs'; simpl.
  - intros Heq. split; [done|]. by apply protections_inj.
  - rewrite str_app_assoc, program_line_app. destruct qs; simpl; rewrite ?protection_line_app; discriminate.
  - rewrite str_app_assoc, program_line_app. destruct qs'; simpl; rewrite ?protection_line_app; discriminate.
  - apply Forall_cons in Hps' as [Hp' Hps']. rewrite !str_app_assoc.
    intros [-> Heq]%program_line_inj; [|done..]. by destruct (IH ps' Hps' Hqs Hqs' Heq) as [-> ->].
Qed.
Lemma version_text_inj m m' ps ps' qs qs' :
  one_line m = true → one_line m' = true →
  Forall program_ok ps → Forall program_ok ps' → Forall protection_ok qs → Forall protection_ok qs' →
  version_text m ps qs = version_text m' ps' qs' → m = m' ∧ ps = ps' ∧ qs = qs'.
Proof.
  intros Hm Hm' Hps Hps' Hqs Hqs'. unfold version_text. intros Heq%(inj _).
  apply first_line_inj in Heq as [-> Heq]; [|done..]. split; [done|]. by apply programs_inj.
Qed.

(** ** What a device is told *)

Lemma programs_of_elem t id d path nb :
  (path, nb) ∈ programs_of t id d ↔
  ∃ k p, ringfence_programs d !! k = Some p ∧ rp_tenant p = t ∧ rp_ringfence p = id ∧ rp_path p = path ∧ rp_network_blocked p = nb.
Proof.
  unfold programs_of, ListRingfencePrograms. rewrite list_elem_of_fmap. split.
  - intros ([k p] & [= -> ->] & Hin). rewrite (order_by_perm _ _) in Hin. apply list_elem_of_In, filter_In in Hin as [Hin Hb].
    apply list_elem_of_In, elem_of_map_to_list in Hin. simpl in Hb. bool_cases. by exists k, p.
  - intros (k & p & Hk & <- & <- & <- & <-). exists (k, p). split; [done|]. rewrite (order_by_perm _ _).
    apply list_elem_of_In, filter_In. simpl. rewrite !bool_decide_eq_true_2 by done. split; [|done].
    by apply list_elem_of_In, elem_of_map_to_list.
Qed.
Lemma protections_of_elem t id d a act :
  (a, act) ∈ protections_of t id d ↔ ∃ x, ringfence_protections d !! (id, a) = Some x ∧ rt_tenant x = t ∧ rt_action x = act.
Proof.
  unfold protections_of, ListRingfenceProtections. rewrite list_elem_of_fmap. split.
  - intros ([[i a'] x] & [= -> ->] & Hin). rewrite (order_by_perm _ _) in Hin. apply list_elem_of_In, filter_In in Hin as [Hin Hb].
    apply list_elem_of_In, elem_of_map_to_list in Hin. simpl in *. bool_cases. subst. by exists x.
  - intros (x & Hk & <- & <-). exists ((id, a), x). split; [done|]. rewrite (order_by_perm _ _).
    apply list_elem_of_In, filter_In. simpl. rewrite !bool_decide_eq_true_2 by done. split; [|done].
    by apply list_elem_of_In, elem_of_map_to_list.
Qed.

(** A device is given the ringfence of its own group, of its own tenant, with exactly the
    programs and protections in it. *)
Lemma RingfenceForDevice_content t dev d d' r :
  RingfenceForDevice t dev d = (d', Ok r) →
  d' = d ∧ ∃ v g a id rf, devices d !! dev = Some v ∧ dv_tenant v = t ∧ dv_group v = Some g ∧
    ringfence_assignments d !! g = Some a ∧ ra_tenant a = t ∧ ra_ringfence a = id ∧ own_ringfence t id d = Some rf ∧
    r = mkResolved (ringfenceVersion (rf_mode rf) (programs_of t id d) (protections_of t id d)) (rf_mode rf)
          (programs_of t id d) (protections_of t id d).
Proof.
  unfold RingfenceForDevice, device_ringfence. destruct (devices d !! dev) as [v|]; simpl; [|done].
  destruct (negb _) eqn:Hv; [done|]. bool_cases. destruct (dv_group v) as [g|] eqn:Hg; simpl; [|done].
  destruct (ringfence_assignments d !! g) as [a|] eqn:Ha; simpl; [|done]. destruct (negb _) eqn:Hat; [done|]. bool_cases.
  destruct (own_ringfence t (ra_ringfence a) d) as [rf|] eqn:Hrf; simpl; [|done]. intros [= <- <-].
  split; [done|]. exists v, g, a, (ra_ringfence a), rf. split_and!; try done. congruence.
Qed.

(** Paths with a line break are the exception the version text does not survive. *)
Definition paths_one_line (d : db) : Prop := ∀ k p, ringfence_programs d !! k = Some p → one_line (rp_path p) = true.

Lemma programs_of_ok t id d : paths_one_line d → Forall program_ok (programs_of t id d).
Proof.
  intros Hp. apply Forall_forall. intros [path nb] (k & p & Hk & _ & _ & <- & _)%programs_of_elem. by apply (Hp k p).
Qed.
Lemma asr_one_line a : a ∈ asrRules → one_line a = true.
Proof. revert a. apply Forall_forall. repeat constructor. Qed.
Lemma protections_of_ok t id d : ringfences_ok (ringfence_tables d) → Forall protection_ok (protections_of t id d).
Proof.
  intros Hok. apply Forall_forall. intros [a act] (x & Hk & _ & <-)%protections_of_elem.
  destruct (ok_protections _ Hok id a x Hk) as (_ & Hact & Ha). split; [by apply asr_one_line|done].
Qed.
Lemma mode_one_line m : policy_mode_ok m = true → one_line m = true.
Proof. unfold policy_mode_ok. rewrite orb_true_iff, !bool_decide_eq_true. by intros [->| ->]. Qed.

(** An agent that compares versions misses no change. Let two devices, or one device at
    two times, be told their ringfences, and let the hash not collide on the two texts it
    is taken of: they are told the same version if and only if the mode, the programs
    with their network flags and the protections with their actions are the same. The
    paths must be free of line breaks, which the console does not check. *)
Theorem RingfenceForDevice_version t1 dev1 d1 r1 t2 dev2 d2 r2 :
  ringfences_ok (ringfence_tables d1) → ringfences_ok (ringfence_tables d2) → paths_one_line d1 → paths_one_line d2 →
  RingfenceForDevice t1 dev1 d1 = (d1, Ok r1) → RingfenceForDevice t2 dev2 d2 = (d2, Ok r2) →
  (let text r := version_text (rr_Mode r) (rr_Programs r) (rr_Protections r) in
   String.substring 0 32 (sha256_hex (text r1)) = String.substring 0 32 (sha256_hex (text r2)) → text r1 = text r2) →
  rr_Version r1 = rr_Version r2 ↔
    rr_Mode r1 = rr_Mode r2 ∧ rr_Programs r1 = rr_Programs r2 ∧ rr_Protections r1 = rr_Protections r2.
Proof.
  intros Hok1 Hok2 Hp1 Hp2 Hr1 Hr2 Hhash.
  apply RingfenceForDevice_content in Hr1 as (_ & v1 & g1 & a1 & id1 & rf1 & _ & _ & _ & _ & _ & _ & Hrf1 & ->).
  apply RingfenceForDevice_content in Hr2 as (_ & v2 & g2 & a2 & id2 & rf2 & _ & _ & _ & _ & _ & _ & Hrf2 & ->).
  apply own_ringfence_Some in Hrf1 as [Hrf1 _], Hrf2 as [Hrf2 _]. simpl in *. unfold ringfenceVersion. split.
  - intros Heq%Hhash. apply version_text_inj in Heq; [done| | |by apply programs_of_ok..|by apply protections_of_ok|by apply protections_of_ok].
    + apply mode_one_line. exact (ok_modes _ Hok1 id1 rf1 Hrf1).
    + apply mode_one_line. exact (ok_modes _ Hok2 id2 rf2 Hrf2).
  - by intros (-> & -> & ->).
Qed.
End version.

(** ** A concrete setting *)

Module Fence.
#[export] Instance plain_hash : Hasher := λ s, s.
Definition fence_db : db :=
  set_ringfence_assignments {[4%N := mkRingfenceAssignment 1 20]}
    (set_ringfence_programs {[30%N := mkRingfenceProgram 1 20 "C:\a.exe" true ""; 31%N := mkRingfenceProgram 1 21 "C:\b.exe" true ""]}
      (set_ringfence_protections {[(20%N, "D1E49AAC-8F56-4280-B9BA-993A6D77406C") := mkRingfenceProtection 1 "block"]}
        (set_ringfence_policies {[20%N := mkRingfencePolicy 1 "office" "audit" 1; 21%N := mkRingfencePolicy 1 "lab" "audit" 1]}
          (set_devices {[9%N := mkDevice 1 "pc" "g" (Some 4%N) "s" 50 "os" "1" [] "" 0 None false false 0 "" None]}
            (set_device_groups {[4%N := mkDeviceGroup 1 "all"]}
              (set_tenants {[1%N := mkTenant "acme" false 0]} empty_db)))))).
Definition enforcing : db := (SetRingfenceMode 1 20 "enforce" fence_db).1.
Definition admin : principal := mkPrincipal 1 7 "root@acme" "owner" false "10.0.0.1".
Definition start : world := mkWorld (set_tenants {[1%N := mkTenant "acme" false 0]} empty_db) New 1 0.
End Fence.

Section fence_witnesses.
Import Toy Fence.

(** A decidable form of well-formedness, for concrete tables. *)
Lemma fence_ok : ringfences_ok (ringfence_tables fence_db).
Proof.
  split; simpl.
  - intros id r. rewrite lookup_insert_Some, lookup_singleton_Some. naive_solver.
  - intros id id' r r'. rewrite !lookup_insert_Some, !lookup_singleton_Some. naive_solver.
  - intros k p. rewrite lookup_insert_Some, lookup_singleton_Some. intros [[_ <-]|[_ [_ <-]]]; (split; [by eexists|done]).
  - intros k k' p p'. rewrite !lookup_insert_Some, !lookup_singleton_Some. naive_solver.
  - intros id a x. rewrite lookup_singleton_Some. intros [[= <- <-] <-]. split_and!; [by eexists|done|]. simpl. set_solver.
  - intros g a. rewrite lookup_singleton_Some. intros [<- <-]. split; by eexists.
Qed.

Lemma ringfences_invariant_witness :
  ringfences_ok (ringfence_tables (w_db (createRingfence admin " office " start).1)) ∧
  ListRingfences 1 (w_db (createRingfence admin " office " start).1) = [(100%N, mkRingfencePolicy 1 "office" "audit" 1)].
Proof.
  split; [|by vm_compute].
  apply (ringfences_invariant start); [apply rtc_once, do_create|]. by split.
Defined.

Lemma RingfenceForDevice_version_witness :
  ∃ r1 r2, RingfenceForDevice 1 9 fence_db = (fence_db, Ok r1) ∧ RingfenceForDevice 1 9 enforcing = (enforcing, Ok r2) ∧
    (rr_Version r1 = rr_Version r2 ↔
      rr_Mode r1 = rr_Mode r2 ∧ rr_Programs r1 = rr_Programs r2 ∧ rr_Protections r1 = rr_Protections r2) ∧ rr_Mode r1 ≠ rr_Mode r2.
Proof.
  eexists _, _. split; [vm_compute; reflexivity|]. split; [vm_compute; reflexivity|]. split; [|done].
  apply (RingfenceForDevice_version 1 9 fence_db _ 1 9 enforcing); [exact fence_ok| | | | | |].
  - exact (SetRingfenceMode_fenced 1 20 "enforce" fence_db fence_ok).
  - intros k p. simpl. rewrite lookup_insert_Some, lookup_singleton_Some. intros [[_ <-]|[_ [_ <-]]]; reflexivity.
  - intros k p. assert (ringfence_programs enforcing = ringfence_programs fence_db) as -> by (vm_compute; reflexivity). simpl.
    rewrite lookup_insert_Some, lookup_singleton_Some. intros [[_ <-]|[_ [_ <-]]]; reflexivity.
  - vm_compute; reflexivity.
  - vm_compute; reflexivity.
  - vm_compute. intros Heq. discriminate Heq.
Defined.

(** With a line break in a path two contents share their version: the agent that applied
    the first does not notice the second. *)
Example version_collision :
  version_text "enforce" [("C:\a|true" +:+ nl +:+ "prog=C:\b", true)] [] = version_text "enforce" [("C:\a", true); ("C:\b", true)] [].
Proof. reflexivity. Qed.

(** The check of [unassignRingfence] and its deletion are two statements: an assignment
    made in between is the one that goes. *)
Example unassign_race :
  (GroupRingfenceID 1 4 fence_db).2 = Ok 20%N ∧
  let d := (AssignRingfence 1 4 21 fence_db).1 in
  (GroupRingfenceID 1 4 d).2 = Ok 21%N ∧ ringfence_assignments (UnassignRingfence 1 4 d).1 !! 4%N = None.
Proof. by vm_compute. Qed.
End fence_witnesses.
