(* ===== verification/NotifyApi.v ===== *)
(** * Notification channels in the console

    Models [internal/server/httpapi/notifications.go]: the channel handlers, what
    they let into the table, and the delivery log. Also the header lines of the
    emails [notify/email.go] composes. *)

From Stdlib Require Import Ascii.
From stdpp Require Import gmap strings list pretty.
From S2P Require Import Prelude GoStr Utf8 Db Hub World StoreCore StoreNotify Commands Syslog Notify Outbox Http.

Section handlers.
Context `{UuidText, UuidSource, UrlParser, Codec, Sealer, Wire} (smtp : SMTP).
(** [API.SMTPConfigured]. *)
Abbreviation SMTPConfigured := (Configured smtp).

Definition toChannelJSON (kc : uuid * Channel) : json :=
  let c := kc.2 in
  JO [("id", JS (uuid_string kc.1)); ("kind", JS (ch_kind c)); ("name", JS (ch_name c));
      ("events", JA (JS <$> ch_events c)); ("enabled", JB (ch_enabled c)); ("recipients", JA (JS <$> ch_recipients c));
      ("url", JS (ch_url c)); ("has_secret", JB (negb (bool_decide (ch_secret c = ""))));
      ("created_at", jtime (ch_created_at c)); ("updated_at", jtime (ch_updated_at c))].

Definition notificationStatus : M world response :=
  writeJSON 200 (JO [("smtp_configured", JB SMTPConfigured); ("event_kinds", JA (JS <$> EventKinds))]).

Definition listChannels (p : principal) : M world response :=
  list ← gets (λ w, ListChannels (p_tenant p) (w_db w));
  writeJSON 200 (JA (toChannelJSON <$> list)).

(** The fields of a decoded [channelReq]; [None] is an absent pointer. *)
Record channelReq := mkChannelReq {
  cq_kind : option string; cq_name : option string; cq_events : list string; cq_enabled : option bool;
  cq_recipients : list string; cq_url : option string; cq_secret : option string;
}.

Definition channelErr (e : err) : M world response :=
  match e with EValidation msg args => writeJSON 400 (JO [("error", JFmt msg args)]) | _ => storeErr e end.

(** Sealing draws the nonce from the same random source as identifiers. *)
Definition seal (s : string) : M world string :=
  λ w, (mkWorld (w_db w) (w_hub w) (w_now w) (S (w_drawn w)), Ok (Seal (w_drawn w) s)).

Definition createChannel (p : principal) (req : channelReq) : M world response :=
  id ← uuid_New;
  secret ← match cq_secret req with
           | Some s => if bool_decide (s = "") then mret "" else seal s
           | None => mret ""
           end;
  let c := mkNotificationChannel (default "" (cq_kind req)) (default "" (cq_name req)) (cq_events req)
             (default true (cq_enabled req)) (cq_recipients req) (default "" (cq_url req)) secret in
  match ValidateChannel c with
  | Err e => channelErr e
  | Ok _ =>
      if bool_decide (nc_kind c = "email") && negb SMTPConfigured
      then writeErr 400 "smtp is not configured on this server"
      else
        r ← attempt (on_db (CreateChannel (p_tenant p) id c));
        match r with
        | Err e => channelErr e
        | Ok _ =>
            _ ← audit p "notification_channel.create" "notification_channel" (uuid_string id)
                  [("kind", JStr (nc_kind c)); ("name", JStr (nc_name c)); ("events", JList (nc_events c))] "success";
            writeJSON 201 (JO [("id", JS (uuid_string id))])
        end
  end.

(** The fields of the raw body of an update that have the expected type; the secret
    may be absent, null, a string or something else. *)
Inductive secret_field := SecretAbsent | SecretNull | SecretString (s : string) | SecretOther.
Record channelPatch := mkChannelPatch {
  cp_name : option string; cp_url : option string; cp_enabled : option bool;
  cp_events : option (list string); cp_recipients : option (list string); cp_secret : secret_field;
}.

Definition patch_channel (raw : channelPatch) (secret : string) (c : NotificationChannel) : NotificationChannel :=
  mkNotificationChannel (nc_kind c) (default (nc_name c) (cp_name raw)) (default (nc_events c) (cp_events raw))
    (default (nc_enabled c) (cp_enabled raw)) (default (nc_recipients c) (cp_recipients raw))
    (default (nc_url c) (cp_url raw)) secret.

Definition updateChannel (p : principal) (rawID : string) (raw : channelPatch) : M world response :=
  with_pathID rawID (λ id,
    or_storeErr (on_db (GetChannel (p_tenant p) id)) (λ c,
      secret ← match cp_secret raw with
               | SecretNull => mret ""
               | SecretString s => if bool_decide (s = "") then mret (nc_secret c) else seal s
               | SecretAbsent | SecretOther => mret (nc_secret c)
               end;
      let c := patch_channel raw secret c in
      match ValidateChannel c with
      | Err e => channelErr e
      | Ok _ =>
          if bool_decide (nc_kind c = "email") && nc_enabled c && negb SMTPConfigured
          then writeErr 400 "smtp is not configured on this server"
          else
            r ← attempt (on_db (UpdateChannel (p_tenant p) id c));
            match r with
            | Err e => channelErr e
            | Ok _ =>
                _ ← audit p "notification_channel.update" "notification_channel" (uuid_string id)
                      [("name", JStr (nc_name c)); ("enabled", JBool (nc_enabled c)); ("events", JList (nc_events c))] "success";
                writeHeader 204
            end
      end)).

Definition deleteChannel (p : principal) (rawID : string) : M world response :=
  with_pathID rawID (λ id,
    or_storeErr (on_db (DeleteChannel (p_tenant p) id)) (λ _,
      _ ← audit p "notification_channel.delete" "notification_channel" (uuid_string id) [] "success";
      writeHeader 204)).

Definition testChannel (p : principal) (rawID : string) : M world response :=
  with_pathID rawID (λ id,
    or_storeErr (on_db (GetChannel (p_tenant p) id)) (λ c,
      t ← now;
      let r := Test smtp t c in
      _ ← audit p "notification_channel.test" "notification_channel" (uuid_string id) [("name", JStr (nc_name c))]
            (match r with None => "success" | Some _ => "failure" end);
      writeJSON 200 (match r with
                     | None => JO [("ok", JB true)]
                     | Some e => JO [("ok", JB false); ("error", JS (send_msg e))]
                     end))).

Definition toDeliveryJSON (d : db) (kv : N * Delivery) : json :=
  let v := kv.2 in
  JO [("id", JN (Z.of_N kv.1)); ("channel_id", JS (uuid_string (dl_channel v)));
      ("channel_name", JS (match notification_channels d !! dl_channel v with Some c => ch_name c | None => "" end));
      ("event_kind", JS (dl_event_kind v));
      ("title", JS (match event_of_json (dl_payload v) with Some e => ev_title e | None => "" end));
      ("state", JS (dl_state v)); ("attempts", JN (dl_attempts v)); ("last_error", JS (dl_last_error v));
      ("created_at", jtime (dl_created_at v)); ("sent_at", jopt jtime (dl_sent_at v));
      ("next_attempt_at", jtime (dl_next_attempt_at v))].

Definition listDeliveries (p : principal) (limit : option Z) : M world response :=
  d ← gets w_db;
  writeJSON 200 (JA (toDeliveryJSON d <$> ListDeliveries (p_tenant p) (Z.to_nat (queryInt limit 50 500)) d)).
End handlers.

(** ** What gets into the channel table *)

Section table.
Context `{UuidText, UuidSource, UrlParser, Codec, Sealer, Wire} (smtp : SMTP).

(** Every stored channel is one [ValidateChannel] accepts. *)
Definition channels_ok (C : gmap uuid Channel) : Prop :=
  ∀ id c, C !! id = Some c → ValidateChannel (of_channel c) = Ok tt.

(** Requests on the channel table keep its rows valid. *)
Definition keeps_valid (C C' : gmap uuid Channel) : Prop := channels_ok C → channels_ok C'.
#[export] Instance keeps_valid_preorder : PreOrder keeps_valid.
Proof. split; [intros C HC; exact HC | intros C1 C2 C3 H12 H23 HC; exact (H23 (H12 HC))]. Qed.
Abbreviation valid_steps := (Steps (via (dbv notification_channels) keeps_valid)).

Lemma keeps_valid_refl C : keeps_valid C C.
Proof. done. Qed.

Lemma CreateChannel_valid t id c :
  ValidateChannel c = Ok tt → Steps (via notification_channels keeps_valid) (CreateChannel t id c).
Proof.
  intros Hv d. unfold via, CreateChannel, map_err, stmt. destruct (negb _); [done|]. destruct (_ || _); [done|].
  destruct (negb _); [done|]. simpl. intros Hok k x. rewrite lookup_insert. case_decide; [|apply Hok].
  intros [= <-]. rewrite <- Hv. by destruct c.
Qed.
Lemma UpdateChannel_valid t id c d :
  (∀ row, notification_channels d !! id = Some row → nc_kind c = ch_kind row) → ValidateChannel c = Ok tt →
  keeps_valid (notification_channels d) (notification_channels (UpdateChannel t id c d).1).
Proof.
  intros Hk Hv. unfold UpdateChannel. destruct (notification_channels d !! id) as [row|] eqn:Hr; [|done].
  destruct (bool_decide _); [|done]. destruct (channel_name_taken _ _ _ _); [done|]. simpl.
  intros Hok k x. rewrite lookup_insert. case_decide; [|apply Hok]. intros [= <-]. rewrite <- Hv.
  rewrite <- (Hk row eq_refl). by destruct c.
Qed.
#[export] Instance DeleteChannel_valid t id : Steps (via notification_channels keeps_valid) (DeleteChannel t id).
Proof.
  intros d. unfold via, DeleteChannel, oneRow. destruct (notification_channels d !! id); [|done].
  destruct (bool_decide _); [|done]. simpl. intros Hok k x [_ Hk]%lookup_delete_Some. by eapply Hok.
Qed.
#[export] Instance AppendAudit_valid t a b c x det ip r :
  Steps (via notification_channels keeps_valid) (AppendAudit t a b c x det ip r).
Proof. intros d. unfold AppendAudit, via. by destruct (has_tenant t d). Qed.
#[export] Instance audit_valid p a b c x r : valid_steps (audit p a b c x r).
Proof. unfold audit. steps. Qed.
#[export] Instance storeErr_valid e : valid_steps (storeErr e).
Proof. unfold storeErr, writeErr. steps. Qed.
#[export] Instance channelErr_valid e : valid_steps (channelErr e).
Proof. unfold channelErr, writeJSON. destruct e; steps. Qed.
#[export] Instance seal_valid s : valid_steps (seal s).
Proof. intros w. unfold via, dbv. simpl. reflexivity. Qed.

Lemma createChannel_valid p req : valid_steps (createChannel smtp p req).
Proof.
  unfold createChannel, writeErr, writeJSON. apply bind_steps; [apply _|]. intros id.
  apply bind_steps; [destruct (cq_secret req); steps|]. intros secret.
  set (c := mkNotificationChannel _ _ _ _ _ _ _). destruct (ValidateChannel c) as [[]|e] eqn:Hv; [|apply _].
  pose proof (CreateChannel_valid (p_tenant p) id c Hv). steps.
Qed.

Lemma updateChannel_valid p raw patch : valid_steps (updateChannel smtp p raw patch).
Proof.
  unfold updateChannel, with_pathID, writeErr. destruct (uuid_parse raw) as [id|]; [|apply _].
  intros w. rewrite or_storeErr_run.
  unfold on_db at 1, GetChannel. destruct (notification_channels (w_db w) !! id) as [row|] eqn:Hr.
  2: { rewrite set_db_id. apply storeErr_valid. }
  case_bool_decide; rewrite set_db_id; [|apply storeErr_valid].
  match goal with |- via _ _ _ ((?m ≫= ?k) w).1 =>
    assert (∃ s n, m w = (mkWorld (w_db w) (w_hub w) (w_now w) n, Ok s)) as (s & n & Hs) end.
  { destruct (cp_secret patch) as [| |s|]; [| |destruct (bool_decide (s = ""))|];
      (eexists _, (w_drawn w); by destruct w) || (by do 2 eexists). }
  unfold mbind at 1, M_bind at 1. rewrite Hs. set (w1 := mkWorld _ _ _ n).
  set (c := patch_channel _ _ _). destruct (ValidateChannel c) as [[]|e] eqn:Hv; [|exact (channelErr_valid e w1)].
  destruct (_ && _); [exact (keeps_valid_refl _)|]. unfold mbind at 1, M_bind at 1, attempt, on_db at 1.
  pose proof (UpdateChannel_valid (p_tenant p) id c (w_db w1)) as Hu.
  destruct (UpdateChannel (p_tenant p) id c (w_db w1)) as [d2 r]. simpl in Hu.
  assert (keeps_valid (notification_channels (w_db w)) (notification_channels d2)) as Hk.
  { apply Hu; [|done]. intros row' Hrow'. rewrite Hr in Hrow'. by injection Hrow' as <-. }
  match goal with |- via _ _ _ (?m ?w2).1 =>
    assert (valid_steps m) as Hm by (destruct r as [[]|]; unfold writeHeader; steps); specialize (Hm w2) end.
  intros Hok. apply Hm, Hk, Hok.
Qed.

#[export] Instance deleteChannel_valid p raw : valid_steps (deleteChannel p raw).
Proof. unfold deleteChannel, with_pathID, or_storeErr, writeErr, writeHeader. steps. Qed.

(** What the console lets into the channel table: whatever sequence of creations,
    updates and deletions an administrator requests, every stored channel is one that
    [ValidateChannel] accepts: named, subscribed to known events only, and with the
    destination its kind needs. *)
Theorem channels_stay_valid (p : principal) (w : world) :
  channels_ok (notification_channels (w_db w)) →
  (∀ req, channels_ok (notification_channels (w_db (createChannel smtp p req w).1))) ∧
  (∀ raw patch, channels_ok (notification_channels (w_db (updateChannel smtp p raw patch w).1))) ∧
  (∀ raw, channels_ok (notification_channels (w_db (deleteChannel p raw w).1))).
Proof.
  intros Hok. split_and!; intros.
  - by apply createChannel_valid.
  - by apply updateChannel_valid.
  - by apply deleteChannel_valid.
Qed.

(** A syslog channel can never be created: the console validates it and promises it
    in its error message, but the table's constraint on the kind was not extended, so
    every creation of a valid syslog channel is answered with an internal error and
    leaves the database alone. *)
Theorem syslog_channel_refused p req w :
  cq_kind req = Some "syslog" → cq_secret req = None →
  ValidateChannel (mkNotificationChannel "syslog" (default "" (cq_name req)) (cq_events req)
    (default true (cq_enabled req)) (cq_recipients req) (default "" (cq_url req)) "") = Ok tt →
  ∃ w', createChannel smtp p req w = (w', Ok (mkResponse 500 (JO [("error", JS "internal error")]))) ∧
    w_db w' = w_db w.
Proof.
  intros Hk Hs Hv. unfold createChannel. rewrite Hk, Hs. simpl default. unfold mbind, M_bind. simpl.
  rewrite Hv. simpl. unfold attempt, on_db, CreateChannel, map_err, stmt. simpl. by eexists.
Qed.
End table.

(** ** Email headers *)

(** The text up to the first line break of SMTP, and what follows it. *)
Fixpoint crlf_line (l : bytes) : option (bytes * bytes) :=
  match l with
  | [] => None
  | c :: l' =>
      match strip_prefix (to_list crlf) l with
      | Some r => Some ([], r)
      | None => match crlf_line l' with Some (a, r) => Some (c :: a, r) | None => None end
      end
  end.
(** The header lines a mail server reads: up to the first empty line. *)
Fixpoint header_lines (fuel : nat) (l : bytes) : list string :=
  match fuel with
  | 0 => []
  | S fuel' =>
      match crlf_line l with
      | Some ([], _) => []
      | Some (a, r) => of_list a :: header_lines fuel' r
      | None => []
      end
  end.

Lemma crlf_line_plain s r : one_line s = true → crlf_line (to_list s ++ to_list crlf ++ r) = Some (to_list s, r).
Proof.
  unfold one_line. induction s as [|c s IH]; [done|]. rewrite all_bytes_cons, andb_true_iff. intros [Hc Hs].
  cbn [String.list_ascii_of_string app crlf_line].
  assert (strip_prefix (to_list crlf) (c :: to_list s ++ to_list crlf ++ r) = None) as ->.
  { destruct (strip_prefix _ _) as [k|] eqn:E; [|done]. apply strip_prefix_Some in E. injection E as -> _. done. }
  by rewrite (IH Hs).
Qed.

(** An email has exactly the six headers the code writes, as long as the sender, the
    recipients, the subject and the date are single lines: the body cannot add one. *)
Theorem mail_headers from to subject date body :
  one_line from = true → Forall (λ r, one_line r = true) to → one_line subject = true → one_line date = true →
  header_lines 7 (to_list (mail_message from to subject date body)) =
    ["From: " +:+ from; "To: " +:+ Join to ", "; "Subject: " +:+ subject; "Date: " +:+ date;
     "MIME-Version: 1.0"; "Content-Type: text/plain; charset=utf-8"].
Proof.
  intros Hf Ht Hs Hd. unfold mail_message.
  assert (one_line (Join to ", ") = true) as Ht' by by apply Join_all_bytes.
  rewrite !to_list_app.
  assert (∀ h v r n, h ≠ "" → one_line h = true → one_line v = true →
    header_lines (S n) (to_list h ++ to_list v ++ to_list crlf ++ r) = (h +:+ v) :: header_lines n r) as Hline.
  { intros h v r n Hne Hh Hv. rewrite (assoc_L (++) (to_list h)), <- to_list_app. cbn [header_lines].
    rewrite crlf_line_plain by by rewrite single_line_app, Hh, Hv.
    destruct h as [|c h]; [done|]. cbn. by rewrite of_to_list. }
  rewrite !Hline by done.
  change (to_list "MIME-Version: 1.0") with (to_list "MIME-Version: 1.0" ++ to_list "").
  change (to_list "Content-Type: text/plain; charset=utf-8") with (to_list "Content-Type: text/plain; charset=utf-8" ++ to_list "").
  rewrite <- !(assoc_L (++)), !Hline by done. done.
Qed.

Section witnesses.
Import Toy Post.

Lemma channels_stay_valid_witness :
  channels_ok (notification_channels (w_db (createChannel no_smtp (mkPrincipal 1 3 "boss" "owner" false "")
    (mkChannelReq (Some "webhook") (Some "b") ["approval.new"] None [] (Some "https://x") None) hook_world).1)).
Proof.
  apply (channels_stay_valid no_smtp (mkPrincipal 1 3 "boss" "owner" false "") hook_world).
  intros id c Hc. unfold hook_world in Hc. simpl in Hc. apply lookup_singleton_Some in Hc as [_ <-].
  vm_compute. reflexivity.
Defined.

Lemma syslog_channel_refused_witness :
  ∃ w', createChannel no_smtp (mkPrincipal 1 3 "boss" "owner" false "")
      (mkChannelReq (Some "syslog") (Some "siem") ["alert.raised"] None [] (Some "udp://siem:514") None) hook_world
    = (w', Ok (mkResponse 500 (JO [("error", JS "internal error")]))) ∧ w_db w' = w_db hook_world.
Proof.
  apply (syslog_channel_refused no_smtp); [reflexivity..|]. vm_compute. reflexivity.
Defined.

Lemma mail_headers_witness :
  length (header_lines 7 (to_list (mail_message "fl@x" ["a@x"; "b@x"] "[FreeLocker] disk" "now" ("a" +:+ crlf +:+ "Bcc: b")))) = 6.
Proof. rewrite mail_headers; [reflexivity | reflexivity | repeat constructor | reflexivity | reflexivity]. Defined.

(** The subject carries the event's title as it is, and a title holds the hostname a
    device reported: a line break in it becomes a header of the email. *)
Example mail_subject_injection :
  header_lines 7 (to_list (mail_message "fl@x" ["a@x"] ("[FreeLocker] Alert: disk on pc" +:+ crlf +:+ "Bcc: evil@x") "now" "")) =
    ["From: fl@x"; "To: a@x"; "Subject: [FreeLocker] Alert: disk on pc"; "Bcc: evil@x"; "Date: now";
     "MIME-Version: 1.0"; "Content-Type: text/plain; charset=utf-8"].
Proof. vm_compute. reflexivity. Qed.
End witnesses.
