(* ===== verification/Rollout.v ===== *)
(** * Staged agent rollouts

    Models [internal/server/rollout/rollout.go] (the reconciler) and
    [internal/server/httpapi/rollouts.go] (the console handlers). *)

From stdpp Require Import gmap strings list pretty.
From S2P Require Import Prelude Db Hub World StoreCore Commands StoreRollouts Http.

Definition DefaultConfirmTimeout : duration := (10 * Minute)%Z.

Section rollout.
Context `{UuidText, Crypto, UuidSource}.

(** [rollout.Service]: what it is configured with. [Online] reads the hub;
    [Notify] may be absent. *)
Record Service := mkService {
  Keyring : uuid → result Keys;
  Online : option (uuid → hub SignedCommand → bool);
  ReleaseURL : uuid → string → string;
  ConfirmTimeout : duration;
  Notify : option Emitter;
  Marshal : UpdatePayload → string;
}.

Variable s : Service.

Definition emit (e : Event) : M world unit :=
  match Notify s with Some em => @Emit em e | None => mret tt end.

Definition timeout : duration :=
  if (0 <? ConfirmTimeout s)%Z then ConfirmTimeout s else DefaultConfirmTimeout.

(** Step 3 of [Reconcile]: the candidate loop, with the running [slots],
    [sum.Issued] and [sum.Remaining]; returns the last two. *)
Fixpoint issue_batch (tenantID id : uuid) (payload : UpdatePayload) (t : time)
    (cands : list uuid) (slots issued remaining : Z) : M world (Z * Z) :=
  match cands with
  | [] => mret (issued, remaining)
  | c :: cands' =>
      if bool_decide (slots = 0%Z) then mret (issued, remaining)
      else
        online ← gets (λ w, match Online s with Some f => f c (w_hub w) | None => true end);
        if negb online then issue_batch tenantID id payload t cands' slots issued remaining
        else
          r ← attempt (IssueUpdate (Keyring s) (Marshal s) tenantID c payload ("rollout:" +:+ uuid_string id));
          match r with
          | Err _ => issue_batch tenantID id payload t cands' slots issued remaining
          | Ok cmdID =>
              r ← attempt (on_db (AddRolloutDevice id c cmdID t));
              match r with
              | Err _ => issue_batch tenantID id payload t cands' slots issued remaining
              | Ok _ => issue_batch tenantID id payload t cands' (slots - 1) (issued + 1) (remaining - 1)
              end
          end
  end.

Definition auto_paused_event (tenantID id : uuid) (r : Rollout) (failed : Z) (t : time) : Event :=
  mkEvent "rollout.auto_paused" tenantID
    ("Rollout of " +:+ ro_version r +:+ " auto-paused after " +:+ pretty failed +:+ " failures")
    ("The rollout of agent " +:+ ro_version r +:+ " was paused automatically: " +:+ pretty failed +:+
     " devices failed to update (threshold " +:+ pretty (ro_max_failures r) +:+
     "). Review the failures in the console, then resume or roll back.")
    [("rollout_id", JStr (uuid_string id)); ("version", JStr (ro_version r)); ("failed", JInt failed);
     ("max_failures", JInt (ro_max_failures r))] t.

Definition completed_event (tenantID id : uuid) (r : Rollout) (updated failed : Z) (t : time) : Event :=
  mkEvent "rollout.completed" tenantID ("Rollout of " +:+ ro_version r +:+ " completed")
    ("Agent " +:+ ro_version r +:+ " reached every targeted device: " +:+ pretty updated +:+ " updated, " +:+
     pretty failed +:+ " failed.")
    [("rollout_id", JStr (uuid_string id)); ("version", JStr (ro_version r)); ("updated", JInt updated);
     ("failed", JInt failed)] t.

(** The wrapping of [fmt.Errorf] with a [%w] verb. *)
Definition wrap {A} (ctx : string) (m : M world A) : M world A := map_err (EWrap ctx) m.

Definition auto_pause (tenantID id : uuid) (r : Rollout) (failed : Z) (t : time) : M world unit :=
  _ ← wrap "auto-pause" (on_db (SetRolloutState tenantID id ["active"] "paused" t));
  _ ← attempt (on_db (AppendAudit tenantID "system" "rollout.auto_pause" "rollout" (uuid_string id)
        (plain [("version", JStr (ro_version r)); ("failed", JInt failed); ("max_failures", JInt (ro_max_failures r))])
        "" "success"));
  emit (auto_paused_event tenantID id r failed t).

Definition issue_next (tenantID id : uuid) (r : Rollout) (sum : RolloutSummary) (t : time) : M world (Z * Z) :=
  let slots := (ro_batch_size r - su_issued sum)%Z in
  if (0 <? slots)%Z then
    rel ← wrap ("release " +:+ ro_version r) (on_db (GetRelease tenantID (ro_version r)));
    let payload := mkUpdatePayload (ro_version r) (ReleaseURL s tenantID (ro_version r)) (rl_sha256 rel) (rl_signature rel) in
    cands ← gets (λ w, RolloutCandidates tenantID id (w_db w));
    issue_batch tenantID id payload t cands slots (su_issued sum) (su_remaining sum)
  else mret (su_issued sum, su_remaining sum).

Definition complete_if_done (tenantID id : uuid) (r : Rollout) (sum : RolloutSummary) (issued remaining : Z) (t : time)
    : M world unit :=
  if bool_decide (issued = 0%Z) && bool_decide (remaining = 0%Z) then
    _ ← wrap "complete" (on_db (SetRolloutState tenantID id ["active"] "completed" t));
    emit (completed_event tenantID id r (su_updated sum) (su_failed sum) t)
  else mret tt.

(** [Reconcile]: one pass over a rollout, as it was when [Tick] listed it. *)
Definition Reconcile (tenantID id : uuid) (r : Rollout) : M world unit :=
  if negb (bool_decide (ro_state r = "active")) then mret tt
  else
    t ← now;
    res ← wrap "resolve" (on_db (ResolveRolloutDevices tenantID id t timeout));
    let newlyFailed := res.2 in
    sum ← on_db (GetRolloutSummary tenantID id);
    if (0 <? ro_max_failures r)%Z && (0 <? newlyFailed)%nat && (ro_max_failures r <=? su_failed sum)%Z
    then auto_pause tenantID id r (su_failed sum) t
    else
      ir ← issue_next tenantID id r sum t;
      complete_if_done tenantID id r sum ir.1 ir.2 t.

(** [Tick]: an error in one rollout does not stop the others. *)
Definition Tick : M world unit :=
  open ← gets (λ w, OpenRollouts (w_db w));
  for_each open (λ kr, _ ← attempt (Reconcile (ro_tenant kr.2) kr.1 kr.2); mret tt).

(** ** The console handlers *)

Definition defaultRolloutBatch : Z := 10.
Definition defaultRolloutMaxFailures : Z := 3.

Record rolloutCreateReq := mkRolloutCreateReq {
  rq_version : string; rq_group_ids : list string; rq_batch_size : option Z; rq_max_failures : option Z;
}.

Fixpoint parse_groups (gs : list string) : option (list uuid) :=
  match gs with
  | [] => Some []
  | g :: gs' => match uuid_parse g, parse_groups gs' with
                | Some u, Some us => Some (u :: us)
                | _, _ => None
                end
  end.

(** [newRollout]: the validated rollout, or the message of the 400. *)
Definition newRollout (id : uuid) (req : rolloutCreateReq) (actor : string) : NewRollout + string :=
  let batch := default defaultRolloutBatch (rq_batch_size req) in
  let maxf := default defaultRolloutMaxFailures (rq_max_failures req) in
  if bool_decide (rq_version req = "") then inr "version is required"
  else if (batch <? 1)%Z then inr "batch_size must be at least 1"
  else if (maxf <? 0)%Z then inr "max_failures must be 0 or more"
  else match parse_groups (rq_group_ids req) with
       | None => inr "bad group id"
       | Some gs => inl (mkNewRollout id (rq_version req) gs batch maxf "active" actor)
       end.

Definition createRollout (p : principal) (req : rolloutCreateReq) : M world response :=
  id ← uuid_New;
  match newRollout id req ("admin:" +:+ p_email p) with
  | inr msg => writeErr 400 msg
  | inl ro =>
      or_storeErr (on_db (CreateRollout (p_tenant p) ro)) (λ _,
        _ ← audit p "rollout.create" "rollout" (uuid_string (nr_id ro))
              [("version", JStr (nr_version ro)); ("group_ids", JList (rq_group_ids req));
               ("batch_size", JInt (nr_batch_size ro)); ("max_failures", JInt (nr_max_failures ro))] "success";
        writeJSON 201 (JO [("id", JS (uuid_string (nr_id ro)))]))
  end.

Definition toRolloutJSON (kr : uuid * Rollout) (sum : RolloutSummary) : list (string * json) :=
  let r := kr.2 in
  [("id", JS (uuid_string kr.1)); ("version", JS (ro_version r));
   ("group_ids", JA ((λ g, JS (uuid_string g)) <$> ro_group_ids r));
   ("batch_size", JN (ro_batch_size r)); ("max_failures", JN (ro_max_failures r)); ("state", JS (ro_state r));
   ("created_by", JS (ro_created_by r)); ("created_at", jtime (ro_created_at r));
   ("updated_at", jtime (ro_updated_at r)); ("finished_at", jopt jtime (ro_finished_at r));
   ("summary", JO [("targeted", JN (su_targeted sum)); ("already_current", JN (su_already_current sum));
                   ("issued", JN (su_issued sum)); ("updated", JN (su_updated sum));
                   ("failed", JN (su_failed sum)); ("remaining", JN (su_remaining sum))])].

(** A missing key of the summaries map reads as the zero summary. *)
Definition listRollouts (p : principal) (limit : option Z) : M world response :=
  list ← gets (λ w, ListRollouts (p_tenant p) (Z.to_nat (queryInt limit 50 200)) (w_db w));
  sums ← gets (λ w, RolloutSummaries (p_tenant p) list.*1 (w_db w));
  writeJSON 200 (JA ((λ kr, JO (toRolloutJSON kr (default (mkRolloutSummary 0 0 0 0 0 0) (sums !! kr.1)))) <$> list)).

Definition getRollout (p : principal) (rawID : string) : M world response :=
  with_pathID rawID (λ id,
    or_storeErr (on_db (GetRollout (p_tenant p) id)) (λ ro,
      or_storeErr (on_db (GetRolloutSummary (p_tenant p) id)) (λ sum,
        devs ← gets (λ w, ListRolloutDevices (p_tenant p) id (w_db w));
        writeJSON 200 (JO (toRolloutJSON (id, ro) sum ++ [("devices",
          JA ((λ x : uuid * string * RolloutDevice, let '(dev, host, rd) := x in
            JO [("device_id", JS (uuid_string dev)); ("hostname", JS host);
                ("command_id", JS (uuid_string (rd_command rd))); ("state", JS (rd_state rd));
                ("detail", JS (rd_detail rd)); ("issued_at", jtime (rd_issued_at rd));
                ("resolved_at", jopt jtime (rd_resolved_at rd))]) <$> devs))]))))).

Definition transitionRollout (action : string) (from : list string) (to : string) (p : principal) (rawID : string)
    : M world response :=
  with_pathID rawID (λ id,
    t ← now;
    r ← attempt (on_db (SetRolloutState (p_tenant p) id from to t));
    match r with
    | Err e =>
        if is_err ErrConflict e
        then writeErr 409 ("rollout is not " +:+ default "" (head from) +:+ " (or another allowed state)")
        else storeErr e
    | Ok _ =>
        _ ← audit p ("rollout." +:+ action) "rollout" (uuid_string id) [("state", JStr to)] "success";
        writeHeader 204
    end).

(** The three routes. *)
Definition pauseRollout := transitionRollout "pause" ["active"] "paused".
Definition resumeRollout := transitionRollout "resume" ["paused"] "active".
Definition cancelRollout := transitionRollout "cancel" ["active"; "paused"] "cancelled".

Definition rollbackRollout (p : principal) (rawID : string) (version : string) : M world response :=
  with_pathID rawID (λ id,
    or_storeErr (on_db (GetRollout (p_tenant p) id)) (λ old,
      if bool_decide (version = "") || bool_decide (version = ro_version old)
      then writeErr 400 "rollback needs a different version"
      else
        nid ← uuid_New;
        let nr := mkNewRollout nid version (ro_group_ids old) (ro_batch_size old) (ro_max_failures old)
                    "active" ("admin:" +:+ p_email p) in
        t ← now;
        or_storeErr (on_db (ReplaceRollout (p_tenant p) id nr t)) (λ _,
          _ ← audit p "rollout.rollback" "rollout" (uuid_string id)
                [("from_version", JStr (ro_version old)); ("to_version", JStr version);
                 ("new_rollout_id", JStr (uuid_string nid))] "success";
          writeJSON 201 (JO [("id", JS (uuid_string nid))])))).
End rollout.
