(* ===== verification/App.v ===== *)
(** * The server process

    Models [internal/server/app/app.go] up to its goroutines and listeners: first-run
    setup, tenant provisioning, administrators created from the command line, the
    activation of the runtime and the housekeeping of every minute. *)

From stdpp Require Import gmap strings list.
From S2P Require Import Prelude GoStr Db Hub World StoreCore StoreAdmins StorePolicies StoreMetrics Commands Enroll Notify Http Policies Rollout Authn Bootstrap.

(** A server process: the world its services share, the tenant whose keys its runtime
    holds ([rt], none before the first run) and the files below the release directory, by path. *)
Record host := mkHost { h_world : world; h_rt : option uuid; h_files : gmap string string }.
Definition set_world (w : world) (h : host) : host := mkHost w (h_rt h) (h_files h).
Definition set_rt (rt : option uuid) (h : host) : host := mkHost (h_world h) rt (h_files h).
Definition set_files (fs : gmap string string) (h : host) : host := mkHost (h_world h) (h_rt h) fs.
Definition in_world {A} (m : M world A) : M host A :=
  λ h, let '(w, r) := m (h_world h) in (set_world w h, r).

#[export] Instance in_world_steps {A} R (m : M world A) : Steps R m → Steps (via h_world R) (in_world m).
Proof. intros Hm h. unfold in_world, via. specialize (Hm (h_world h)). by destruct (m (h_world h)). Qed.

(** [a.log.Error]: a failure that is logged only. *)
Definition logged {S A} (m : M S A) : M S unit := _ ← attempt m; mret tt.

(** The entries the server itself writes. *)
Definition system_audit (tenantID : uuid) (action target_type target_id : string) (detail : list (string * jval)) : M db unit :=
  AppendAudit tenantID "system" action target_type target_id (plain detail) "" "success".

Section app.
Context `{UuidText, UuidSource, Crypto, Pki, Hasher, Passwords, KeyLib} (master : string).
Context (sort : ∀ A, (A → A → bool) → list A → list A) (keys : uuid → result Keys).

Definition valid_org (org email : string) : bool := negb (bool_decide (TrimSpace org = "")) && Contains email "@".

Definition Initialize (org email password : string) : M world (uuid * Keys) :=
  if negb (valid_org org email) then fail (EMsg "organization name and a valid email are required")
  else
    n ← draw;
    hash ← of_result (HashPassword n password);
    t ← now;
    _ ← Init master org t;
    '(tenant, k) ← on_db (Load master);
    id ← uuid_New;
    _ ← on_db (CreateAdmin id tenant (mkNewAdmin email hash "owner" true));
    _ ← logged (on_db (system_audit tenant "setup.complete" "" "" [("org", JStr org); ("owner", JStr email)]));
    mret (tenant, k).

(** [App.ProvisionTenant]. *)
Definition provision_with_owner (org ownerEmail ownerPassword : string) : M world uuid :=
  if negb (valid_org org ownerEmail) then fail (EMsg "organization name and a valid owner email are required")
  else
    n ← draw;
    hash ← of_result (HashPassword n ownerPassword);
    t ← now;
    tid ← ProvisionTenant master org t;
    id ← uuid_New;
    _ ← on_db (CreateAdmin id tid (mkNewAdmin ownerEmail hash "owner" false));
    mret tid.

(** [App.CreateAdmin], the command-line recovery. *)
Definition cli_CreateAdmin (email password role : string) : M world unit :=
  if negb (bool_decide (role ∈ Roles)) then fail (EFmt "role must be one of %v" Roles)
  else
    n ← draw;
    hash ← of_result (HashPassword n password);
    r ← attempt (on_db FirstTenant);
    match r with
    | Err e => fail (EWrap "server not initialized" e)
    | Ok tenant =>
        id ← uuid_New;
        id ← on_db (CreateAdmin id tenant (mkNewAdmin email hash role false));
        on_db (system_audit tenant "admin.create" "admin" (uuid_string id)
                 [("email", JStr email); ("role", JStr role); ("via", JStr "cli")])
    end.

(** [activate], which fails when the agent listener cannot be opened. *)
Definition activate (listen : result unit) (tenant : uuid) : M host unit :=
  _ ← in_world (logged (on_db (RecompileAll sort keys tenant)));
  match listen with
  | Err e => fail (EWrap "agent listener" e)
  | Ok _ => modify (set_rt (Some tenant))
  end.

(** [App.setup]: the two steps of the first run. *)
Definition App_setup (listen : result unit) (org email password : string) : M host unit :=
  '(tenant, _) ← in_world (Initialize org email password);
  activate listen tenant.

(** What [Run] does before it serves: a server that was never set up just waits. *)
Definition Run_start (listen : result unit) : M host unit :=
  r ← attempt (in_world (on_db (Load master)));
  match r with
  | Ok (tenant, _) => activate listen tenant
  | Err e => if is_err ErrNotFound e then mret tt else fail e
  end.

Record Config := mkConfig { MetricsRetentionDays : Z; ApprovalExpiryDays : Z }.
Definition days (n : Z) : duration := (n * 24 * Hour)%Z.

(** One minute of housekeeping; every failure is logged only. *)
Definition minute (cfg : Config) (rollouts : Service) : M host unit :=
  h ← get;
  _ ← (match h_rt h with
       | Some _ => in_world (_ ← logged ExpireStale; logged (Tick rollouts))
       | None => mret tt
       end);
  t ← in_world now;
  _ ← in_world (logged (on_db (PruneLoginFailures (t - failWindow)%Z)));
  _ ← (if (0 <? MetricsRetentionDays cfg)%Z then in_world (logged (on_db (Retention (t - days (MetricsRetentionDays cfg))%Z))) else mret tt);
  if (0 <? ApprovalExpiryDays cfg)%Z then in_world (logged (on_db (ExpireApprovalRequests (t - days (ApprovalExpiryDays cfg))%Z))) else mret tt.

(** ** authn.go: the setup page *)

Definition setupStatus : M host response :=
  h ← get; writeJSON 200 (JO [("initialized", JB (bool_decide (is_Some (h_rt h))))]).

Definition setup (listen : result unit) (org_name email password : string) : M host response :=
  h ← get;
  if bool_decide (is_Some (h_rt h)) then writeErr 409 "already initialized"
  else if bool_decide (TrimSpace org_name = "") || negb (Contains email "@") || (String.length password <? MinPasswordLen)%nat
  then writeErr 400 "org_name, a valid email, and a password of at least 12 characters are required"
  else
    r ← attempt (App_setup listen (TrimSpace org_name) email password);
    match r with
    | Err e => if is_err ErrAlreadyInitialized e then writeErr 409 "already initialized" else writeErr 500 "setup failed"
    | Ok _ => writeJSON 201 (JO [("initialized", JB true)])
    end.

(** [requireRuntime]: nothing of the console works before the first run. *)
Definition requireRuntime {R} (refusal : response → R) (next : uuid → M host R) : M host R :=
  h ← get;
  match h_rt h with
  | None => mret (refusal (mkResponse 503 (JO [("error", JS "not initialized")])))
  | Some tenant => next tenant
  end.
End app.
