(* ===== verification/Demo.v ===== *)
(** * A concrete server

    Instances of the library interfaces of login, key material and certificates with which
    the definitions run, and the laws their documentation promises, and a server
    with two tenants: what the examples and witnesses of the later files compute on. *)

From Stdlib Require Import Ascii.
From stdpp Require Import gmap strings list pretty.
From S2P Require Import Prelude GoStr Db Hub World StoreCore StoreAdmins StoreNotify Commands Enroll Notify Http Authn Bootstrap App.

(** The number of a draw, padded to a length. *)
Fixpoint padding (k : nat) : string := match k with O => "" | S k => String "."%char (padding k) end.
Definition random_bytes (n k : nat) : string := match k with O => "" | S k => String (ascii_of_nat (65 + n)) (padding k) end.
Lemma length_padding k : String.length (padding k) = k.
Proof. induction k as [|k IH]; simpl; [done|]. by rewrite IH. Qed.

Module Demo.
#[export] Instance demo_pki : Pki := {
  ParseCertificateRequest s := Ok (mkCsr (Ok tt) true s);
  CreateCertificate t ca pub key := Ok (tp_CommonName t +:+ "/" +:+ Text16 (tp_SerialNumber t) +:+ "/" +:+ ca +:+ "/" +:+ pub);
  rand_serial n := N.of_nat (1000 + n);
  sha256 s := "#" +:+ s;
  hmac_sha256 k s := k +:+ s;
  base32 s := s;
  base64_url s := s;
  rand_bytes := random_bytes;
  uuid_bytes _ := "";
}.
#[export] Instance demo_hash : Hasher := λ s, s.
#[export] Instance demo_passwords : Passwords := {
  bcrypt_generate _ pw := Ok pw;
  bcrypt_compare h pw := bool_decide (h = pw);
  totp_generate _ email := Ok ("totp", "otpauth://" +:+ email);
  totp_validate code secret _ := bool_decide (code = secret);
}.
#[export] Instance demo_passwords_ok : PasswordsOk.
Proof. intros n pw h [= <-]. by apply bool_decide_eq_true_2. Qed.
#[export] Instance demo_keylib : KeyLib := {
  hkdf_key _ info := Ok info;
  gcm_seal _ _ p := p;
  gcm_open _ _ s := Some s;
  ec_generate n := Ok ("ec" +:+ pretty (N.of_nat n));
  ec_public k := k;
  ed_generate n := Ok ("ed" +:+ pretty (N.of_nat n));
  CreateRoot t pub _ := Ok pub;
  ParseCertificate der := Ok der;
  MarshalPKCS8 key := Ok key;
  ParsePKCS8 der := Ok (Some der);
}.
#[export] Instance demo_keylib_ok : KeyLibOk.
Proof.
  split; try done.
  - intros n [|k]; simpl; [done|]. by rewrite length_padding.
  - by intros key der [= <-].
Qed.
Definition demo_master : string := "0123456789abcdef0123456789abcdef".
Definition demo_sealer : Sealer := keyed "totp".

(** Two tenants. In the first, Ann and Bob are owners, Ann logged in with a session that
    passed the second factor, Bob with one that did not; Eve owns the other. *)
Definition secret : option string := Some (Seal (Sealer := demo_sealer) 0 "123456").
Definition account_of (t : uuid) (email : string) : Admin := mkAdmin t email "correct horse" secret true "owner" false false 1.
Definition demo_db : db :=
  set_device_groups {[30%N := mkDeviceGroup 2 "theirs"]}
    (set_sessions {["A" := mkSession 1 11 "csrfA" true Hour "" ""; "B" := mkSession 1 12 "csrfB" false Hour "" ""]}
      (set_admins {[11%N := account_of 1 "ann@acme"; 12%N := account_of 1 "bob@acme"; 13%N := account_of 2 "eve@zorg"]}
        (set_tenants {[1%N := mkTenant "acme" false 1; 2%N := mkTenant "zorg" false 2]} empty_db))).
Definition demo : host := mkHost (mkWorld demo_db New 5 0) (Some 1%N) ∅.
(** A POST with a session. *)
Definition posts (tok csrf : string) : Request := mkReq false (Some tok) csrf "10.0.0.1" "".
End Demo.
