(* ===== verification/BootstrapFacts.v ===== *)
(** * Every tenant has its keys, and only its own

    Shows that sealing round-trips, that a provisioned tenant's keys load again and
    provisioning leaves the other tenants' keys alone, and that the cache of resolved keys
    never answers anything but what the database holds. *)

From stdpp Require Import gmap strings list.
From S2P Require Import Prelude GoStr Db Hub World StoreCore Commands Enroll Notify Http Bootstrap Authn App Demo.

(** ** Sealing *)

Lemma substring_0_app a b n : String.length a = n → String.substring 0 n (a +:+ b) = a.
Proof.
  revert n. induction a as [|c a IH]; intros n <-; [by destruct b|].
  change (String c a +:+ b) with (String c (a +:+ b)). cbn [String.length String.substring]. by rewrite IH.
Qed.
Lemma substring_all s : String.substring 0 (String.length s) s = s.
Proof. induction s as [|c s IH]; [done|]. cbn [String.length String.substring]. by rewrite IH. Qed.
Lemma substring_skip_app a b n : String.length a = n → String.substring n (String.length b) (a +:+ b) = b.
Proof.
  revert n. induction a as [|c a IH]; intros n <-; [apply substring_all|].
  change (String c a +:+ b) with (String c (a +:+ b)). cbn [String.length String.substring]. by apply IH.
Qed.
Lemma length_str_app a b : String.length (a +:+ b) = (String.length a + String.length b)%nat.
Proof. induction a as [|c a IH]; [done|]. change (String c a +:+ b) with (String c (a +:+ b)). cbn [String.length]. by rewrite IH. Qed.

Section sealing.
Context `{KeyLib, Pki, !KeyLibOk}.

Lemma Sealer_roundtrip key n p : Sealer_Open key (Sealer_Seal key n p) = Ok p.
Proof.
  unfold Sealer_Open, Sealer_Seal. rewrite length_str_app, rand_length.
  destruct (_ <? _)%nat eqn:Hlt; [bool_cases; lia|]. rewrite substring_0_app by apply rand_length.
  replace (NonceSize + String.length (gcm_seal key (rand_bytes n NonceSize) p) - NonceSize)%nat
    with (String.length (gcm_seal key (rand_bytes n NonceSize) p)) by lia.
  rewrite substring_skip_app by apply rand_length. by rewrite gcm_roundtrip.
Qed.

(** The sealer keeps the promise the notification and TOTP code relies on. *)
#[export] Instance keyed_ok key : @SealerOk (keyed key).
Proof.
  split.
  - intros n s. simpl. by rewrite Sealer_roundtrip.
  - intros n s Hs. simpl in Hs. apply (f_equal String.length) in Hs. unfold Sealer_Seal in Hs.
    rewrite length_str_app, rand_length in Hs. done.
Qed.
End sealing.

(** ** Provisioning *)

Section provision.
Context `{UuidSource, Crypto, Pki, KeyLib, !KeyLibOk} (master : string).

Lemma PutServerKey_Ok t name pub enc d d' u :
  PutServerKey t name pub enc d = (d', Ok u) →
  server_keys d !! (t, name) = None ∧ d' = set_server_keys (<[(t, name) := mkServerKey pub enc]> (server_keys d)) d.
Proof.
  unfold PutServerKey. case_bool_decide as Hn; [done|]. destruct (negb _); [done|]. intros [= <- _]. split; [|done].
  by apply eq_None_not_Some.
Qed.

Lemma draw_run w : draw w = (mkWorld (w_db w) (w_hub w) (w_now w) (S (w_drawn w)), Ok (w_drawn w)).
Proof. done. Qed.
Lemma on_db_Ok {A} (m : M db A) w w' a : on_db m w = (w', Ok a) → ∃ d, m (w_db w) = (d, Ok a) ∧ w' = set_db d w.
Proof. unfold on_db. destruct (m (w_db w)) as [d r]. intros [= <- <-]. eauto. Qed.
Lemma of_result_Ok {S A} (r : result A) (s s' : S) a : of_result r s = (s', Ok a) → r = Ok a ∧ s' = s.
Proof. unfold of_result. by intros [= <- <-]. Qed.

(** What a signing key leaves behind. *)
Lemma put_signing_key_Ok sealer t name w w' u :
  put_signing_key sealer t name w = (w', Ok u) →
  ∃ pub priv m, server_keys (w_db w) !! (t, name) = None ∧ w_now w' = w_now w ∧
    w_db w' = set_server_keys (<[(t, name) := mkServerKey pub (Sealer_Seal sealer m priv)]> (server_keys (w_db w))) (w_db w).
Proof.
  unfold put_signing_key. intros (n & w1 & [= <- <-] & Hw)%bind_Ok. apply bind_Ok in Hw as (priv & w2 & [Hp ->]%of_result_Ok & Hw).
  apply bind_Ok in Hw as (m & w3 & [= <- <-] & Hw). apply on_db_Ok in Hw as (d & [Hn ->]%PutServerKey_Ok & ->). simpl in *.
  by exists (ed_public priv), priv, (S (w_drawn w)).
Qed.

Lemma ca_New_Ok cn t w w' c :
  ca_New cn t w = (w', Ok c) → w_db w' = w_db w ∧ w_now w' = w_now w ∧ ParseCertificate (ca_Cert c) = Ok (ca_Cert c).
Proof.
  unfold ca_New. intros (n & w1 & [= <- <-] & Hw)%bind_Ok. apply bind_Ok in Hw as (key & w2 & [_ ->]%of_result_Ok & Hw).
  apply bind_Ok in Hw as (m & w3 & [= <- <-] & Hw). apply bind_Ok in Hw as (der & w4 & [Hder ->]%of_result_Ok & Hw).
  apply bind_Ok in Hw as (cert & w5 & [Hcert ->]%of_result_Ok & Hw). injection Hw as <- <-. simpl. split_and!; try done.
  pose proof (parse_created _ _ _ _ Hder). congruence.
Qed.

(** The three rows provisioning writes. *)
Definition tenant_keys (sealer : string) (t : uuid) (d : db) (ca : CA) (cmd upd : string) : Prop :=
  ∃ caKey i pub1 j pub2 k,
    server_keys d !! (t, keyCA) = Some (mkServerKey (ca_Cert ca) (Sealer_Seal sealer i caKey)) ∧
    ParseCertificate (ca_Cert ca) = Ok (ca_Cert ca) ∧ MarshalKey ca = Ok caKey ∧
    server_keys d !! (t, keyCommand) = Some (mkServerKey pub1 (Sealer_Seal sealer j cmd)) ∧
    server_keys d !! (t, keyUpdate) = Some (mkServerKey pub2 (Sealer_Seal sealer k upd)).

Lemma ProvisionTenant_Ok name t w w' tenant :
  ProvisionTenant master name t w = (w', Ok tenant) →
  ∃ sealer ca cmd upd, NewSealer master sealPurpose = Ok sealer ∧ tenants (w_db w) !! tenant = None ∧
    tenants (w_db w') = <[tenant := mkTenant name false (pg_now (w_db w))]> (tenants (w_db w)) ∧
    tenant_keys sealer tenant (w_db w') ca cmd upd ∧
    (∀ t' n, t' ≠ tenant → server_keys (w_db w') !! (t', n) = server_keys (w_db w) !! (t', n)).
Proof.
  unfold ProvisionTenant. intros (sealer & w0 & [Hs ->]%of_result_Ok & Hw)%bind_Ok.
  apply bind_Ok in Hw as (id & w1 & [= <- <-] & Hw). apply bind_Ok in Hw as (t1 & w2 & (d & Hd & ->)%on_db_Ok & Hw).
  unfold CreateTenant in Hd. simpl in Hd. destruct (tenants (w_db w) !! uuid_at (w_drawn w)) eqn:Hfree; [done|].
  injection Hd as <- <-. apply bind_Ok in Hw as (ca & w3 & (Hdb3 & _ & Hcert)%ca_New_Ok & Hw). simpl in Hdb3.
  apply bind_Ok in Hw as (caKey & w4 & [Hk ->]%of_result_Ok & Hw). apply bind_Ok in Hw as (m & w5 & [= <- <-] & Hw).
  apply bind_Ok in Hw as (u & w6 & (d & [_ ->]%PutServerKey_Ok & ->)%on_db_Ok & Hw). simpl in Hw.
  apply bind_Ok in Hw as (u1 & w7 & Hfor & [= <- <-]). cbn [for_each] in Hfor.
  apply bind_Ok in Hfor as (u2 & w8 & (pub1 & cmd & i & _ & _ & Hw1)%put_signing_key_Ok & Hfor).
  apply bind_Ok in Hfor as (u3 & w9 & (pub2 & upd & j & _ & _ & Hw2)%put_signing_key_Ok & [= <- <-]).
  simpl in *. rewrite Hdb3 in Hw1. exists sealer, ca, cmd, upd. rewrite Hw2, Hw1. simpl. split_and!; try done.
  - exists caKey, (w_drawn w3), pub1, i, pub2, j. unfold keyCA, keyCommand, keyUpdate. simpl.
    split_and!; rewrite ?lookup_insert_ne, ?lookup_insert_eq by congruence; done.
  - intros t' n' Hne. rewrite !lookup_insert_ne by congruence. done.
Qed.

Lemma open_key_run sealer t name d pub priv m :
  server_keys d !! (t, name) = Some (mkServerKey pub (Sealer_Seal sealer m priv)) →
  open_key sealer t name d = (d, Ok (pub, priv)).
Proof. intros Hk. unfold open_key, attempt, GetServerKey, mbind, M_bind. rewrite Hk. simpl. by rewrite Sealer_roundtrip. Qed.

(** Loading depends on the tenant's rows only. *)
Lemma LoadForTenant_local t d d' :
  (∀ n, server_keys d' !! (t, n) = server_keys d !! (t, n)) →
  (LoadForTenant master t d').2 = (LoadForTenant master t d).2 ∧ (LoadForTenant master t d).1 = d.
Proof.
  intros Hsame.
  assert (∀ e n, ∃ r, open_key e t n d = (d, r) ∧ open_key e t n d' = (d', r)) as Hopen.
  { intros e n. unfold open_key, attempt, GetServerKey, mbind, M_bind. rewrite Hsame.
    destruct (server_keys d !! (t, n)) as [k|]; [|by eexists]. simpl. destruct (Sealer_Open _ _); by eexists. }
  unfold LoadForTenant, of_result, mbind, M_bind. destruct (NewSealer _ _) as [sealer|]; [|done].
  destruct (Hopen sealer keyCA) as ([[cert key]|] & -> & ->); [|done]. destruct (ca_Load cert key) as [ca|]; [|done].
  destruct (Hopen sealer keyCommand) as ([[p1 k1]|] & -> & ->); [|done].
  destruct (Hopen sealer keyUpdate) as ([[p2 k2]|] & -> & ->); [|done]. by destruct (Derive _ _).
Qed.

(** A provisioned tenant has its own keys and they round-trip through the database:
    under the same master secret the certificate authority and the signing keys
    load again, as they were generated. The tenant is new, and
    every other tenant's keys load exactly as before. *)
Theorem ProvisionTenant_loads name t w w' tenant :
  ProvisionTenant master name t w = (w', Ok tenant) →
  ∃ sealer ca cmd upd uk, NewSealer master sealPurpose = Ok sealer ∧ tenant_keys sealer tenant (w_db w') ca cmd upd ∧
    LoadForTenant master tenant (w_db w') = (w_db w', Ok (mkKeys cmd upd (ca_Cert ca) (ca_key ca) uk)) ∧
    Derive master uninstallPurpose = Ok uk ∧
    tenants (w_db w) !! tenant = None ∧ is_Some (tenants (w_db w') !! tenant) ∧
    (∀ t', t' ≠ tenant → (LoadForTenant master t' (w_db w')).2 = (LoadForTenant master t' (w_db w)).2).
Proof.
  intros (sealer & ca & cmd & upd & Hs & Hnew & Htn & Hkeys & Hrest)%ProvisionTenant_Ok.
  assert (∃ uk, Derive master uninstallPurpose = Ok uk) as [uk Huk].
  { unfold NewSealer, Derive in *. destruct (_ <? _)%nat; [done|]. pose proof (hkdf_total master uninstallPurpose).
    destruct (hkdf_key master uninstallPurpose); [by eexists|done]. }
  exists sealer, ca, cmd, upd, uk. split_and!; try done.
  - destruct Hkeys as (caKey & i & pub1 & j & pub2 & k & Hca & Hcert & Hm & Hcmd & Hupd).
    unfold LoadForTenant, of_result, mbind, M_bind. rewrite Hs, (open_key_run _ _ _ _ _ _ _ Hca). unfold ca_Load.
    rewrite Hcert, (parse_marshalled _ _ Hm), (open_key_run _ _ _ _ _ _ _ Hcmd), (open_key_run _ _ _ _ _ _ _ Hupd), Huk. done.
  - rewrite Htn, lookup_insert_eq. by eexists.
  - intros t' Hne. by apply LoadForTenant_local; intros n; apply Hrest.
Qed.

(** ** The cache *)

(** Keys are written once: the rows a server has seen stay. *)
Definition keys_kept (d d' : db) : Prop := server_keys d ⊆ server_keys d'.
Definition cached_ok (d : db) (c : cache) : Prop := ∀ t k, c !! t = Some k → (LoadForTenant master t d).2 = Ok k.

(** A tenant's keys that loaded once load to the same value as long as the rows stay. *)
Lemma open_key_kept sealer t n d d' r :
  keys_kept d d' → open_key sealer t n d = (d, Ok r) → open_key sealer t n d' = (d', Ok r).
Proof.
  unfold open_key, attempt, GetServerKey, mbind, M_bind. intros Hsub.
  destruct (server_keys d !! (t, n)) as [k|] eqn:Hk; [|done]. rewrite (lookup_weaken _ _ _ _ Hk Hsub). simpl.
  by destruct (Sealer_Open _ _); intros [= <-].
Qed.
Lemma open_key_id sealer t n d : (open_key sealer t n d).1 = d.
Proof.
  unfold open_key, attempt, GetServerKey, mbind, M_bind. destruct (server_keys d !! (t, n)) as [k|]; [|done]. simpl.
  by destruct (Sealer_Open _ _).
Qed.
Lemma LoadForTenant_kept t d d' k :
  keys_kept d d' → (LoadForTenant master t d).2 = Ok k → (LoadForTenant master t d').2 = Ok k.
Proof.
  intros Hsub. unfold LoadForTenant, of_result, mbind, M_bind. destruct (NewSealer _ _) as [sealer|]; [|done].
  assert (∀ n, match open_key sealer t n d with (d1, Ok r) => d1 = d ∧ open_key sealer t n d' = (d', Ok r) | (d1, Err _) => d1 = d end) as Hop.
  { intros n. pose proof (open_key_id sealer t n d) as Hid. destruct (open_key sealer t n d) as [d1 [r|]] eqn:E; simpl in Hid; subst d1; [|done].
    split; [done|by eapply open_key_kept]. }
  pose proof (Hop keyCA) as Hw1. destruct (open_key sealer t keyCA d) as [d1 [[cert key]|]]; [destruct Hw1 as [-> ->]|done].
  destruct (ca_Load cert key) as [ca|]; [|done].
  pose proof (Hop keyCommand) as Hw2. destruct (open_key sealer t keyCommand d) as [d2 [[p1 k1]|]]; [destruct Hw2 as [-> ->]|done].
  pose proof (Hop keyUpdate) as Hw3. destruct (open_key sealer t keyUpdate d) as [d3 [[p2 k2]|]]; [destruct Hw3 as [-> ->]|done].
  by destruct (Derive _ _).
Qed.

(** The provider at work: lookups, which log what they answered, and anything that keeps
    the key rows. *)
Inductive keyset_step : (db * cache) * list (uuid * Keys) → (db * cache) * list (uuid * Keys) → Prop :=
  | step_for t s s' k log : Provider_For master t s = (s', Ok k) → keyset_step (s, log) (s', log ++ [(t, k)])
  | step_miss t s s' e log : Provider_For master t s = (s', Err e) → keyset_step (s, log) (s', log)
  | step_db d d' c log : keys_kept d d' → keyset_step ((d, c), log) ((d', c), log).

Lemma Provider_For_run t d c :
  cached_ok d c → ∃ c', Provider_For master t (d, c) = ((d, c'), (LoadForTenant master t d).2) ∧ cached_ok d c'.
Proof.
  intros Hc. unfold Provider_For. destruct (c !! t) as [k|] eqn:Hk; [exists c; by rewrite (Hc t k Hk)|].
  pose proof (proj2 (LoadForTenant_local t d d (λ _, eq_refl))) as Hid.
  destruct (LoadForTenant master t d) as [d1 [k|e]] eqn:Hl; simpl in *; subst d1; [|by exists c].
  exists (<[t := k]> c). split; [done|]. intros t' k'. rewrite lookup_insert. case_decide as Ht; [|apply Hc].
  intros [= <-]. subst t'. by rewrite Hl.
Qed.

Lemma keyset_step_ok s s' log log' :
  keyset_step (s, log) (s', log') → cached_ok s.1 s.2 ∧ (∀ t k, (t, k) ∈ log → (LoadForTenant master t s.1).2 = Ok k) →
  cached_ok s'.1 s'.2 ∧ (∀ t k, (t, k) ∈ log' → (LoadForTenant master t s'.1).2 = Ok k).
Proof.
  intros Hst [Hc Hl]. inversion Hst as [t [d c] s1 k l Hf|t [d c] s1 e l Hf|d d' c l Hk]; subst; cbn [fst snd] in *.
  - destruct (Provider_For_run t d c Hc) as (c' & Hrun & Hc'). rewrite Hrun in Hf. injection Hf as <- Hk. split; [done|].
    intros t' k' [Hin|[= -> ->]%list_elem_of_singleton]%elem_of_app; [by apply Hl|done].
  - destruct (Provider_For_run t d c Hc) as (c' & Hrun & Hc'). rewrite Hrun in Hf. injection Hf as <- Hk. by split.
  - split; [|intros t k Hin; eapply LoadForTenant_kept; eauto]. intros t k Htk. eapply LoadForTenant_kept; eauto.
Qed.

(** The key provider refines the database: whatever sequence of lookups and of
    changes that keep the key rows happens, each answer the cache ever gave is what
    loading the tenant's keys from the database gives now, so that the resolved keys of a tenant are one
    and the same for every component, and a lookup answers exactly
    what loading answers. *)
Theorem Provider_refines_store d0 s log t :
  rtc keyset_step ((d0, ∅), []) (s, log) →
  (∀ t k, (t, k) ∈ log → (LoadForTenant master t s.1).2 = Ok k) ∧
  (Provider_For master t s).2 = (LoadForTenant master t s.1).2 ∧ (Provider_For master t s).1.1 = s.1.
Proof.
  intros Hsteps.
  assert (cached_ok s.1 s.2 ∧ (∀ t k, (t, k) ∈ log → (LoadForTenant master t s.1).2 = Ok k)) as [Hc Hl].
  { remember ((d0, ∅), []) as a eqn:Ha. remember (s, log) as b eqn:Hb.
    assert (cached_ok a.1.1 a.1.2 ∧ (∀ t k, (t, k) ∈ a.2 → (LoadForTenant master t a.1.1).2 = Ok k)) as Hw0
      by (subst a; split; [by intros ? ?|simpl; set_solver]).
    clear Ha. revert Hb. induction Hsteps as [a|[s1 l1] [s2 l2] c Hst _ IH]; intros ->; [done|].
    apply IH; [|done]. by eapply keyset_step_ok. }
  split; [done|]. destruct s as [d c]. destruct (Provider_For_run t d c Hc) as (c' & -> & _). done.
Qed.
End provision.

Section witnesses.
Import Toy Demo.

Lemma ProvisionTenant_loads_witness :
  ∃ w' k, ProvisionTenant demo_master "newco" 7 (h_world demo) = (w', Ok 100%N) ∧
    LoadForTenant demo_master 100 (w_db w') = (w_db w', Ok k) ∧ CommandKey k = "ed4" ∧ UpdateKey k = "ed6".
Proof.
  destruct (ProvisionTenant demo_master "newco" 7 (h_world demo)) as [w' r] eqn:Hp.
  assert (r = Ok 100%N) as -> by (change r with (w', r).2; rewrite <- Hp; vm_compute; reflexivity).
  destruct (ProvisionTenant_loads demo_master "newco" 7 (h_world demo) w' 100 Hp)
    as (sealer & ca & cmd & upd & uk & _ & _ & Hload & _).
  exists w', (mkKeys cmd upd (ca_Cert ca) (ca_key ca) uk). split; [reflexivity|]. split; [exact Hload|].
  assert (w' = (ProvisionTenant demo_master "newco" 7 (h_world demo)).1) as Hw by (by rewrite Hp).
  assert ((λ k, (CommandKey k, UpdateKey k)) <$> (match (LoadForTenant demo_master 100 (w_db w')).2 with Ok k => Some k | Err _ => None end)
    = Some ("ed4", "ed6")) as Hk by (rewrite Hw; vm_compute; reflexivity).
  clear -Hload Hk. rewrite Hload in Hk. simpl in Hk. injection Hk as -> ->. split; reflexivity.
Defined.

(** Looking a tenant up twice, with another tenant provisioned in between. *)
Definition provisioned : db := w_db (ProvisionTenant demo_master "newco" 7 (h_world demo)).1.
Lemma Provider_refines_store_witness :
  ∃ s k, rtc (keyset_step demo_master) ((provisioned, ∅), []) (s, [(100%N, k)]) ∧ (LoadForTenant demo_master 100 s.1).2 = Ok k.
Proof.
  destruct (Provider_For demo_master 100 (provisioned, ∅)) as [s r] eqn:Hf.
  destruct r as [k|e]; [|vm_compute in Hf; discriminate Hf]. exists s, k.
  assert (rtc (keyset_step demo_master) ((provisioned, ∅), []) (s, [(100%N, k)])) as Hs
    by (apply rtc_once; exact (step_for demo_master 100 (provisioned, ∅) s k [] Hf)).
  split; [exact Hs|]. destruct (Provider_refines_store demo_master provisioned s [(100%N, k)] 100 Hs) as (Hlog & _).
  apply Hlog. left.
Defined.
End witnesses.
