(* ===== verification/AuthnFacts.v ===== *)
(** * The console lets in whom it should

    Shows what the session guard admits, what a login answers, what a second-factor code
    does, and that the rate limit holds over any history. *)

From stdpp Require Import gmap strings list sets.
From S2P Require Import Prelude GoStr Db Hub World StoreCore StoreAdmins Commands Enroll Notify Http Authn Bootstrap App Demo.

(** ** The session guard *)

Section guard.
Context `{UuidText, UuidSource, Pki, Hasher, Passwords}.

(** The administrator whose live session a request carries: the session of its cookie,
    unexpired, of an enabled administrator of a tenant that exists and is not suspended. *)
Definition live (rq : Request) (w : world) (c : Caller) : Prop :=
  ∃ tok tn, rq_cookie rq = Some tok ∧ tok ≠ "" ∧ cl_sid c = hashToken tok ∧
    sessions (w_db w) !! cl_sid c = Some (cl_session c) ∧ (w_now w < se_expires_at (cl_session c))%Z ∧
    cl_id c = se_admin (cl_session c) ∧ admins (w_db w) !! cl_id c = Some (cl_admin c) ∧
    ad_tenant (cl_admin c) = se_tenant (cl_session c) ∧ ad_disabled (cl_admin c) = false ∧
    tenants (w_db w) !! se_tenant (cl_session c) = Some tn ∧ tn_suspended tn = false.

(** Computed from the tables. *)
Definition caller_of (rq : Request) (w : world) : option Caller :=
  tok ← rq_cookie rq;
  if bool_decide (tok = "") then None
  else
    s ← sessions (w_db w) !! hashToken tok;
    if (se_expires_at s <=? w_now w)%Z then None
    else
      a ← admins (w_db w) !! se_admin s;
      if negb (bool_decide (ad_tenant a = se_tenant s)) || ad_disabled a then None
      else
        tn ← tenants (w_db w) !! se_tenant s;
        if tn_suspended tn then None else Some (mkCaller (se_admin s) a (hashToken tok) s).

Lemma caller_of_live rq w c : caller_of rq w = Some c ↔ live rq w c.
Proof.
  unfold caller_of, live. split.
  - intros Hc. destruct (rq_cookie rq) as [tok|]; [|done]. simpl in Hc. case_bool_decide; [done|].
    destruct (sessions (w_db w) !! hashToken tok) as [s|] eqn:Hs; [|done]. simpl in Hc.
    destruct (_ <=? _)%Z eqn:Ht; [done|].
    destruct (admins (w_db w) !! se_admin s) as [a|] eqn:Ha; [|done]. simpl in Hc.
    destruct (_ || _) eqn:Hg; [done|].
    destruct (tenants (w_db w) !! se_tenant s) as [tn|] eqn:Htn; [|done]. simpl in Hc.
    destruct (tn_suspended tn) eqn:Hsu; [done|]. injection Hc as <-. bool_cases. exists tok, tn. by simpl.
  - intros (tok & tn & -> & Hne & Hid & Hs & Ht & Hca & Ha & Hte & Hd & Htn & Hsu). simpl.
    rewrite bool_decide_eq_false_2 by done. rewrite Hid in Hs. rewrite Hs. simpl.
    rewrite (proj2 (Z.leb_gt _ _) Ht). rewrite Hca in Ha. rewrite Ha. simpl.
    rewrite bool_decide_eq_true_2, Hd by done. simpl. rewrite Htn. simpl. rewrite Hsu.
    destruct c. simpl in *. congruence.
Qed.

Lemma tenantSuspended_run t w :
  tenantSuspended t w = (w, Ok (match tenants (w_db w) !! t with Some tn => tn_suspended tn | None => true end)).
Proof.
  unfold tenantSuspended, attempt, on_db, TenantSuspended, mbind, M_bind.
  destruct (tenants (w_db w) !! t); by rewrite set_db_id.
Qed.

(** Why the guard refuses a request, if it does. *)
Definition refusal (requireMFA : bool) (rq : Request) (c : option Caller) : option response :=
  let no code msg := Some (mkResponse code (JO [("error", JS msg)])) in
  match c with
  | None => no 401%Z "not logged in"
  | Some c =>
      if negb (rq_get rq) && negb (bool_decide (rq_csrf rq = se_csrf (cl_session c))) then no 403%Z "bad CSRF token"
      else if requireMFA && negb (se_mfa_passed (cl_session c)) then no 403%Z "mfa_required"
      else None
  end.

Lemma session_check_run mfa rq w :
  session_check mfa rq w =
    (w, match refusal mfa rq (caller_of rq w), caller_of rq w with
        | None, Some c => Ok (inr c)
        | Some r, _ => Ok (inl r)
        | None, None => Err ErrNotFound
        end).
Proof.
  unfold session_check, Sessions_Load, caller_of.
  destruct (rq_cookie rq) as [tok|]; [|done]. cbn [mbind option_bind]. case_bool_decide; [done|].
  unfold attempt, now, on_db, GetSession, mbind, M_bind, option_bind. cbn.
  destruct (sessions (w_db w) !! hashToken tok) as [s|]; cbn; [|by rewrite set_db_id].
  rewrite (Z.ltb_antisym). destruct (se_expires_at s <=? w_now w)%Z; cbn; rewrite set_db_id; [done|].
  unfold GetAdmin. destruct (admins (w_db w) !! se_admin s) as [a|]; cbn; [|by rewrite set_db_id].
  destruct (bool_decide (ad_tenant a = se_tenant s)); cbn; rewrite set_db_id; [|done].
  destruct (ad_disabled a); [done|]. cbn. rewrite tenantSuspended_run.
  destruct (tenants (w_db w) !! se_tenant s) as [tn|]; cbn; [|done].
  destruct (tn_suspended tn); [done|]. cbn.
  by repeat (case_match; try done).
Qed.
Lemma withSession_run mfa rq next w :
  withSession mfa rq next w =
    match refusal mfa rq (caller_of rq w), caller_of rq w with
    | None, Some c => next c w
    | Some r, _ => (w, Ok r)
    | None, None => (w, Err ErrNotFound)
    end.
Proof. unfold withSession, mbind, M_bind. rewrite session_check_run. destruct (refusal _ _ _); [done|]. by destruct (caller_of rq w). Qed.

(** The guard in front of every console page lets a request through exactly when it
    carries the live session of an enabled administrator of a tenant that is not
    suspended, repeats the session's CSRF token unless it is a GET, and passed the second
    factor where the page asks for it; the page then runs as that administrator, in the
    unchanged state. Every other request is answered with 401 or 403 and changes
    nothing. *)
Theorem withSession_exactly mfa rq next w :
  (∃ c, live rq w c ∧ (∀ c', live rq w c' → c' = c) ∧
        (rq_get rq = false → rq_csrf rq = se_csrf (cl_session c)) ∧
        (mfa = true → se_mfa_passed (cl_session c) = true) ∧ withSession mfa rq next w = next c w) ∨
  (∃ r, (rs_code r = 401 ∨ rs_code r = 403)%Z ∧ withSession mfa rq next w = (w, Ok r) ∧
        ∀ c, live rq w c → (rq_get rq = false ∧ rq_csrf rq ≠ se_csrf (cl_session c)) ∨
                           (mfa = true ∧ se_mfa_passed (cl_session c) = false)).
Proof.
  rewrite withSession_run. destruct (caller_of rq w) as [c|] eqn:Hc.
  2: { right. eexists. split; [|split; [reflexivity|]]; [by left|]. intros c Hl. apply caller_of_live in Hl. congruence. }
  assert (∀ c', live rq w c' → c' = c) as Huniq by (intros c' Hl%caller_of_live; congruence).
  apply caller_of_live in Hc. cbn [refusal]. destruct (negb (rq_get rq) && _) eqn:Hcsrf.
  { right. eexists. split; [|split; [reflexivity|]]; [by right|]. intros c' ->%Huniq. left. bool_cases. done. }
  destruct (mfa && _) eqn:Hmfa.
  { right. eexists. split; [|split; [reflexivity|]]; [by right|]. intros c' ->%Huniq. right. by bool_cases. }
  left. exists c. split_and!; try done.
  - intros Hg. rewrite Hg in Hcsrf. simpl in Hcsrf. by bool_cases.
  - intros ->. simpl in Hmfa. by bool_cases.
Qed.
End guard.

(** ** Logging in *)

Section login.
Context `{UuidText, UuidSource, Pki, Hasher, Passwords} (default_tenant : uuid).

(** The failures the limiter counts against an attempt. *)
Definition recent_failures (t : uuid) (key : string) (w : world) : nat :=
  count (λ f, failure_of t key f && (w_now w - failWindow <=? lf_at f)%Z) (login_failures (w_db w)).
(** One more failure, where the row can be written. *)
Definition with_failure (t : uuid) (key : string) (at_ : time) (d : db) : db :=
  if has_tenant t d then set_login_failures (login_failures d ++ [mkLoginFailure t key at_]) d else d.
Definition without_failures (t : uuid) (key : string) (d : db) : db :=
  set_login_failures (List.filter (λ f, negb (failure_of t key f)) (login_failures d)) d.

Lemma allow_run t key w : allow t key (w_now w) w = (w, Ok (recent_failures t key w <? maxFailures)%nat).
Proof. unfold allow, attempt, on_db, CountLoginFailures, gets, mbind, M_bind. by rewrite set_db_id. Qed.
Lemma limiter_fail_run t key at_ w :
  limiter_fail t key at_ w = (set_db (with_failure t key at_ (w_db w)) w, Ok tt).
Proof.
  unfold limiter_fail, attempt, on_db, RecordLoginFailure, with_failure, mbind, M_bind.
  by destruct (has_tenant t (w_db w)).
Qed.
Lemma limiter_reset_run t key w :
  limiter_reset t key w = (set_db (without_failures t key (w_db w)) w, Ok tt).
Proof. done. Qed.
(** What an audit entry changes. *)
Definition audited (d d' : db) : Prop := ∃ l n, d' = set_audit_log l (set_serial n d).
Lemma audit_run p action ty target detail result w :
  ∃ d', audit p action ty target detail result w = (set_db d' w, Ok tt) ∧ audited (w_db w) d'.
Proof.
  unfold audit, audit_any, attempt, on_db, AppendAudit, mbind, M_bind. destruct (has_tenant _ _); eexists; (split; [done|]).
  - by eexists _, _.
  - exists (audit_log (w_db w)), (serial (w_db w)). by destruct (w_db w).
Qed.

(** The account an address names, and the tenant and key its failures are counted under. *)
Definition login_email (rawEmail : string) : string := ToLower (TrimSpace rawEmail).
Definition account (rawEmail : string) (d : db) : option (uuid * Admin) :=
  find_row (λ _ a, bool_decide (ad_email a = ToLower (login_email rawEmail))) (admins d).
Definition login_tenant (rawEmail : string) (d : db) : uuid :=
  match account rawEmail d with Some (_, a) => ad_tenant a | None => default_tenant end.
Definition login_key (rq : Request) (rawEmail : string) : string := rq_ip rq +:+ "|" +:+ login_email rawEmail.
(** The administrator whose credentials were given: an enabled one, of a tenant that is
    not suspended, with this password. *)
Definition credentials (rawEmail password : string) (d : db) : option (uuid * Admin) :=
  ka ← account rawEmail d;
  tn ← tenants d !! ad_tenant ka.2;
  if ad_disabled ka.2 || tn_suspended tn || negb (bcrypt_compare (ad_password_hash ka.2) password) then None else Some ka.

Lemma GetAdminByEmailGlobal_run rawEmail w :
  on_db (GetAdminByEmailGlobal (login_email rawEmail)) w =
    (w, match account rawEmail (w_db w) with Some ka => Ok ka | None => Err ErrNotFound end).
Proof. unfold on_db, GetAdminByEmailGlobal, account. destruct (find_row _ _); by rewrite set_db_id. Qed.

(** The comparison succeeds exactly for the credentials. *)
Lemma login_hash_run rawEmail password w :
  ∃ h, login_hash (match account rawEmail (w_db w) with Some ka => Ok ka | None => Err ErrNotFound end) w = (w, Ok h) ∧
    CheckPasswordOrDummy h password = bool_decide (is_Some (credentials rawEmail password (w_db w))).
Proof.
  unfold login_hash, credentials. destruct (account rawEmail (w_db w)) as [[id a]|]; [|by exists None]. simpl.
  destruct (ad_disabled a); simpl.
  { exists None. split; [done|]. by destruct (tenants _ !! _). }
  unfold mbind at 1, M_bind. rewrite tenantSuspended_run. destruct (tenants _ !! _) as [tn|]; [|by exists None]. simpl.
  destruct (tn_suspended tn); [by exists None|]. simpl. eexists. split; [done|]. simpl.
  by destruct (bcrypt_compare _ _).
Qed.

Lemma Sessions_Create_run rq t id w :
  let tok := base64_url (rand_bytes (w_drawn w) 32) in
  let csrf := base64_url (rand_bytes (S (w_drawn w)) 32) in
  let exp := (w_now w + SessionTTL)%Z in
  let s := mkSession t id csrf false exp (rq_ip rq) (rq_agent rq) in
  sessions (w_db w) !! hashToken tok = None → has_tenant t (w_db w) = true → is_Some (admins (w_db w) !! id) →
  Sessions_Create rq t id w =
    (mkWorld (set_sessions (<[hashToken tok := s]> (sessions (w_db w))) (w_db w)) (w_hub w) (w_now w) (S (S (w_drawn w))),
     Ok (s, SetCookie tok exp)).
Proof.
  intros tok csrf exp s Hfree Ht [a Ha]. unfold Sessions_Create, randToken, draw, now, on_db, CreateSession, mbind, M_bind. simpl.
  unfold tok in Hfree. rewrite Hfree, bool_decide_eq_false_2 by (by intros []). by rewrite Ht, Ha, bool_decide_eq_false_2.
Qed.

Lemma Sessions_Create_taken rq t id w s :
  sessions (w_db w) !! hashToken (base64_url (rand_bytes (w_drawn w) 32)) = Some s →
  Sessions_Create rq t id w = (mkWorld (w_db w) (w_hub w) (w_now w) (S (S (w_drawn w))), Err PgUnique).
Proof.
  intros Hs. unfold Sessions_Create, randToken, draw, now, on_db, CreateSession, mbind, M_bind. simpl.
  by rewrite Hs, bool_decide_eq_true_2.
Qed.

(** What a login answers and does to the tables. *)
Definition login_outcome (rq : Request) (rawEmail password : string) (w w' : world) (r : response * option cookie) : Prop :=
  let d := w_db w in
  let tok := base64_url (rand_bytes (w_drawn w) 32) in
  let csrf := base64_url (rand_bytes (S (w_drawn w)) 32) in
  let exp := (w_now w + SessionTTL)%Z in
  let t := login_tenant rawEmail d in
  let key := login_key rq rawEmail in
  if (maxFailures <=? recent_failures t key w)%nat then r = (too_many, None) ∧ w' = w
  else match credentials rawEmail password d with
       | Some (id, a) =>
           login_failures (w_db w') = login_failures (without_failures t key d) ∧
           match sessions d !! hashToken tok with
           | None =>
               r = (mkResponse 200 (JO [("csrf_token", JS csrf); ("mfa_enrolled", JB (ad_totp_confirmed a))]), Some (SetCookie tok exp)) ∧
               sessions (w_db w') = <[hashToken tok := mkSession (ad_tenant a) id csrf false exp (rq_ip rq) (rq_agent rq)]> (sessions d)
           | Some _ => (* the random token is taken *)
               r = (mkResponse 500 (JO [("error", JS "could not create session")]), None) ∧ sessions (w_db w') = sessions d
           end
       | None =>
           r = (bad_login, None) ∧ sessions (w_db w') = sessions d ∧
           login_failures (w_db w') = login_failures (with_failure t key (w_now w) d)
       end.

Lemma login_run rq rawEmail password w :
  ∃ w' r, login default_tenant rq rawEmail password w = (w', Ok r) ∧ login_outcome rq rawEmail password w w' r ∧
    w_now w' = w_now w ∧ admins (w_db w') = admins (w_db w) ∧ tenants (w_db w') = tenants (w_db w).
Proof.
  unfold login_outcome. set (d := w_db w). set (tok := base64_url _). set (t := login_tenant rawEmail d). set (key := login_key rq rawEmail).
  unfold login, now. change (ToLower (TrimSpace rawEmail)) with (login_email rawEmail).
  cbv zeta. unfold mbind at 1, M_bind at 1, mbind at 1, M_bind at 1. unfold attempt at 1. rewrite GetAdminByEmailGlobal_run. fold d.
  set (found := match account rawEmail d with Some ka => Ok ka | None => Err ErrNotFound end).
  replace (match found with Ok (_, a) => ad_tenant a | Err _ => default_tenant end) with t
    by (unfold t, login_tenant, found; by destruct (account rawEmail d) as [[]|]).
  fold (login_key rq rawEmail). fold key. unfold mbind at 1, M_bind at 1. rewrite allow_run, Nat.ltb_antisym, negb_involutive.
  destruct (maxFailures <=? recent_failures t key w)%nat; [by eexists _, _|].
  unfold mbind at 1, M_bind at 1. destruct (login_hash_run rawEmail password w) as (h & Hh & Hcp). fold d found in Hh. rewrite Hh.
  cbv beta iota. rewrite Hcp. fold d. destruct (credentials rawEmail password d) as [[id a]|] eqn:Hc.
  - rewrite bool_decide_eq_true_2 by eauto. cbn [negb]. unfold mbind at 1, M_bind at 1. rewrite limiter_reset_run.
    unfold credentials in Hc. unfold found. destruct (account rawEmail d) as [ka|] eqn:Hacc; [|done]. simpl in Hc.
    destruct (tenants d !! ad_tenant ka.2) as [tn|] eqn:Htn; [|done]. simpl in Hc. destruct (_ || _); [done|]. injection Hc as ->.
    assert (t = ad_tenant a) as Ht by (unfold t, login_tenant; by rewrite Hacc). rewrite Ht in *.
    apply find_row_Some in Hacc as [Hid _]. unfold mbind, M_bind, attempt.
    destruct (sessions d !! hashToken tok) as [s|] eqn:Hs.
    + rewrite (Sessions_Create_taken _ _ _ _ s) by done. by do 2 eexists.
    + rewrite Sessions_Create_run; simpl; [by do 2 eexists|done|by apply bool_decide_eq_true_2|by eexists].
  - rewrite bool_decide_eq_false_2 by (by intros []). cbn [negb]. unfold mbind at 1, M_bind at 1. rewrite limiter_fail_run.
    unfold mbind, M_bind.
    match goal with |- context [audit ?p ?a ?ty ?g ?de ?re ?w2] => destruct (audit_run p a ty g de re w2) as (d' & -> & l & n & ->) end.
    do 2 eexists. split; [done|]. simpl. unfold with_failure. fold d. by destruct (has_tenant t d).
Qed.

(** What a login answers. After five failures of the address and client in the last 15
    minutes: 429, and nothing happens, whatever the password. Otherwise, with the password of an
    enabled administrator of a tenant that is not suspended: 200, a fresh session of that
    administrator that has not passed the second factor and ends in twelve hours, and
    the failures forgotten. In every other case (unknown address, disabled
    account, suspended tenant, wrong password) the same 401, with one more failure recorded
    and no session created. *)
Theorem login_answers rq rawEmail password w :
  ∃ w' r, login default_tenant rq rawEmail password w = (w', Ok r) ∧ login_outcome rq rawEmail password w w' r.
Proof. destruct (login_run rq rawEmail password w) as (w' & r & Hr & Ho & _). eauto. Qed.
End login.

(** ** The second factor *)

Section mfa.
Context `{UuidText, UuidSource, Pki, Hasher, Passwords} (totp : Sealer).

Definition wrong_code : response := mkResponse 401 (JO [("error", JS "invalid code")]).
Definition store_failed (msg : string) : response := mkResponse 500 (JO [("error", JS msg)]).
Definition mfa_key (c : Caller) : string := "mfa|" +:+ cl_sid c.

(** What the verification of a code answers and does to the tables. *)
Definition mfa_outcome (c : Caller) (code : string) (w w' : world) (r : response) : Prop :=
  let d := w_db w in
  let t := se_tenant (cl_session c) in
  match ad_totp_secret_enc (cl_admin c) with
  | None => r = mkResponse 400 (JO [("error", JS "MFA not set up; call /api/mfa/setup first")]) ∧ w' = w
  | Some sealed =>
      if (maxFailures <=? recent_failures t (mfa_key c) w)%nat then r = too_many ∧ w' = w
      else if code_ok totp sealed code (w_now w) then
        login_failures (w_db w') = login_failures (without_failures t (mfa_key c) d) ∧
        (r = mkResponse 204 JNull ∧ (∃ s, sessions d !! cl_sid c = Some s ∧
           sessions (w_db w') = <[cl_sid c := se_set_mfa_passed true s]> (sessions d)) ∨
         (r = store_failed "could not confirm MFA" ∨ r = store_failed "could not update session") ∧ sessions (w_db w') = sessions d)
      else
        r = wrong_code ∧ sessions (w_db w') = sessions d ∧ admins (w_db w') = admins d ∧
        login_failures (w_db w') = login_failures (with_failure t (mfa_key c) (w_now w) d)
  end.

(** Confirming a secret changes the administrators only, and no one's tenant. *)
Definition same_tenants (d d' : db) : Prop := ad_tenant <$> admins d' = ad_tenant <$> admins d.
Lemma SetAdminTOTP_frame t id sealed ok d :
  ∃ m r, SetAdminTOTP t id sealed ok d = (set_admins m d, r) ∧ ad_tenant <$> m = ad_tenant <$> admins d.
Proof.
  unfold SetAdminTOTP, upd_admin, oneRow. destruct (admins d !! id) as [a|] eqn:Ha.
  2: { exists (admins d). eexists. split; [by destruct d|done]. }
  case_bool_decide; [|exists (admins d); eexists; split; [by destruct d|done]].
  do 2 eexists. split; [done|]. rewrite fmap_insert. apply insert_id. by rewrite lookup_fmap, Ha.
Qed.
Lemma confirm_totp_frame c sealed w :
  ∃ m r, confirm_totp c sealed w = (set_db (set_admins m (w_db w)) w, r) ∧ ad_tenant <$> m = ad_tenant <$> admins (w_db w).
Proof.
  unfold confirm_totp. destruct (ad_totp_confirmed _).
  - exists (admins (w_db w)). eexists. split; [|done]. by destruct w as [[] ? ? ?].
  - unfold on_db. destruct (SetAdminTOTP_frame (se_tenant (cl_session c)) (cl_id c) (Some sealed) true (w_db w)) as (m & r & -> & Hm).
    by exists m, r.
Qed.
Lemma MarkSessionMFA_run sid w :
  on_db (MarkSessionMFA sid) w =
    match sessions (w_db w) !! sid with
    | Some s => (set_db (set_sessions (<[sid := se_set_mfa_passed true s]> (sessions (w_db w))) (w_db w)) w, Ok tt)
    | None => (w, Err ErrNotFound)
    end.
Proof. unfold on_db, MarkSessionMFA, oneRow. destruct (_ !! _); [done|by rewrite set_db_id]. Qed.

Lemma mfaVerify_run rq c code w :
  ∃ w' r, mfaVerify totp rq c code w = (w', Ok r) ∧ mfa_outcome c code w w' r ∧
    w_now w' = w_now w ∧ same_tenants (w_db w) (w_db w') ∧ tenants (w_db w') = tenants (w_db w).
Proof.
  unfold mfa_outcome, mfaVerify, same_tenants. destruct (ad_totp_secret_enc (cl_admin c)) as [sealed|]; [|by do 2 eexists].
  fold (mfa_key c). cbn [p_tenant principal_of]. unfold now. unfold mbind at 1, M_bind at 1, mbind at 1, M_bind at 1.
  rewrite allow_run, Nat.ltb_antisym, negb_involutive.
  destruct (maxFailures <=? _)%nat; [by eexists _, _|]. destruct (code_ok totp sealed code (w_now w)); cbn [negb].
  - unfold mbind, M_bind. rewrite limiter_reset_run. unfold attempt at 1.
    match goal with |- context [confirm_totp c sealed ?w2] => destruct (confirm_totp_frame c sealed w2) as (m & [u|e] & -> & Hm) end.
    2: { do 2 eexists. split; [done|]. split_and!; try done. simpl. auto. }
    unfold attempt at 1. rewrite MarkSessionMFA_run. cbn [w_db set_db sessions set_admins].
    change (sessions (without_failures _ _ _)) with (sessions (w_db w)).
    destruct (sessions (w_db w) !! cl_sid c) as [s|] eqn:Hs.
    2: { do 2 eexists. split; [done|]. split_and!; try done. simpl. auto. }
    match goal with |- context [audit ?p ?a ?ty ?g ?de ?re ?w2] => destruct (audit_run p a ty g de re w2) as (d' & -> & l & n & ->) end.
    do 2 eexists. split; [done|]. split_and!; try done. simpl. left. split; [done|]. eauto.
  - unfold mbind, M_bind. rewrite limiter_fail_run.
    match goal with |- context [audit ?p ?a ?ty ?g ?de ?re ?w2] => destruct (audit_run p a ty g de re w2) as (d' & -> & l & n & ->) end.
    do 2 eexists. split; [done|]. simpl. unfold with_failure. by destruct (has_tenant _ _).
Qed.
End mfa.

(** ** The rate limit over time *)

Section limit.
Context `{UuidText, UuidSource, Pki, Hasher, Passwords} (totp : Sealer) (default_tenant : uuid).

(** The two requests by which a caller can guess: a password, and a code of the second
    factor (behind the session guard). *)
Inductive attempt_req :=
  | TryPassword (rq : Request) (rawEmail password : string)
  | TryCode (rq : Request) (code : string).
Definition serve_attempt (a : attempt_req) : M world response :=
  match a with
  | TryPassword rq e pw => r ← login default_tenant rq e pw; mret r.1
  | TryCode rq code => withSession false rq (λ c, mfaVerify totp rq c code)
  end.

(** What an answer tells the caller about the guess: wrong, right, or nothing. *)
Inductive verdict := Wrong | Right | Unjudged.
#[export] Instance verdict_eq_dec : EqDecision verdict.
Proof. solve_decision. Defined.
Definition error_text (r : response) : option string :=
  match rs_body r with JO [(k, JS e)] => if bool_decide (k = "error") then Some e else None | _ => None end.
Definition judge (r : response) : verdict :=
  match error_text r with
  | None => Right
  | Some e =>
      if bool_decide (e ∈ ["invalid email or password"; "invalid code"]) then Wrong
      else if bool_decide (e ∈ ["could not create session"; "could not confirm MFA"; "could not update session"]) then Right
      else Unjudged
  end.

(** The budget an attempt draws on: a tenant, with the client and address of a login or
    with the session of a code. *)
Definition budget (a : attempt_req) (w : world) : uuid * string :=
  match a with
  | TryPassword rq e _ => (login_tenant default_tenant e (w_db w), login_key rq e)
  | TryCode rq _ => match caller_of rq w with Some c => (se_tenant (cl_session c), mfa_key c) | None => (0%N, "") end
  end.

(** The guesses the server has judged, oldest first. *)
Record guess := mkGuess { gu_budget : uuid * string; gu_wrong : bool; gu_at : time }.
Definition judged (a : attempt_req) (w : world) (r : response) : list guess :=
  match judge r with
  | Wrong => [mkGuess (budget a w) true (w_now w)]
  | Right => [mkGuess (budget a w) false (w_now w)]
  | Unjudged => []
  end.

(** Every account belongs to a tenant, as its foreign key says, and the default tenant is there. *)
Definition tenants_known (d : db) : Prop :=
  has_tenant default_tenant d = true ∧ ∀ id a, admins d !! id = Some a → has_tenant (ad_tenant a) d = true.

(** The server at work: attempts, and anything else that lets time pass and forgets
    failures only once they have left the window. *)
Inductive guess_step : world * list guess → world * list guess → Prop :=
  | step_attempt a w w' r log :
      serve_attempt a w = (w', Ok r) → guess_step (w, log) (w', log ++ judged a w r)
  | step_other w w' log keep :
      (w_now w ≤ w_now w')%Z → tenants_known (w_db w') →
      login_failures (w_db w') = List.filter keep (login_failures (w_db w)) →
      (∀ f, keep f = false → (lf_at f < w_now w' - failWindow)%Z) →
      guess_step (w, log) (w', log).

(** The periodic pruning of [app.go] is such a step. *)
Lemma prune_step w log :
  tenants_known (w_db w) →
  guess_step (w, log) ((on_db (PruneLoginFailures (w_now w - failWindow)) w).1, log).
Proof.
  intros Ht. eapply (step_other _ _ _ (λ f, negb (lf_at f <? w_now w - failWindow)%Z)); simpl; [lia|done|done|].
  intros f Hf. by bool_cases.
Qed.

Definition in_window (k : uuid * string) (from upto : time) (g : guess) : bool :=
  bool_decide (gu_budget g = k) && gu_wrong g && (from <=? gu_at g)%Z && (gu_at g <=? upto)%Z.
(** No right guess on a budget in a stretch of the history. *)
Definition all_wrong (k : uuid * string) (l : list guess) : Prop := ∀ g, g ∈ l → gu_budget g = k → gu_wrong g = true.
Definition failures_since (k : uuid * string) (from : time) (d : db) : nat :=
  count (λ f, failure_of k.1 k.2 f && (from <=? lf_at f)%Z) (login_failures d).

(** The recorded failures are at least those of the recent past, and no window held more
    than five. *)
Definition limit_inv (s : world * list guess) : Prop :=
  tenants_known (w_db s.1) ∧
  (∀ k pre seg from, s.2 = pre ++ seg → all_wrong k seg → (w_now s.1 - failWindow ≤ from)%Z →
     (count (λ g, bool_decide (gu_budget g = k) && gu_wrong g && (from <=? gu_at g)%Z) seg ≤ failures_since k from (w_db s.1))%nat) ∧
  (∀ k pre seg post upto, s.2 = pre ++ seg ++ post → all_wrong k seg →
     (count (in_window k (upto - failWindow)%Z upto) seg ≤ maxFailures)%nat).

(** What an attempt does to the failures, by its verdict. *)
Definition attempt_effect (a : attempt_req) (w w' : world) (r : response) : Prop :=
  let k := budget a w in
  w_now w' = w_now w ∧ tenants (w_db w') = tenants (w_db w) ∧ same_tenants (w_db w) (w_db w') ∧
  match judge r with
  | Unjudged => login_failures (w_db w') = login_failures (w_db w)
  | Right => login_failures (w_db w') = login_failures (without_failures k.1 k.2 (w_db w))
  | Wrong =>
      (recent_failures k.1 k.2 w < maxFailures)%nat ∧ has_tenant k.1 (w_db w) = true ∧
      login_failures (w_db w') = login_failures (w_db w) ++ [mkLoginFailure k.1 k.2 (w_now w)]
  end.

Lemma has_login_tenant e d : tenants_known d → has_tenant (login_tenant default_tenant e d) d = true.
Proof.
  intros [Hdef Hall]. unfold login_tenant. destruct (account e d) as [[id a]|] eqn:Ha; [|done].
  unfold account in Ha. apply find_row_Some in Ha as [Ha _]. eauto.
Qed.

Lemma refused_unjudged mfa rq c r : refusal mfa rq c = Some r → judge r = Unjudged.
Proof. unfold refusal. repeat case_match; intros [= <-]; done. Qed.

Lemma attempt_has_effect a w w' r :
  tenants_known (w_db w) → serve_attempt a w = (w', Ok r) → attempt_effect a w w' r.
Proof.
  intros Hk. unfold attempt_effect. destruct a as [rq e pw|rq code]; cbn [serve_attempt budget].
  - unfold mbind, M_bind. destruct (login_run default_tenant rq e pw w) as (w1 & [r1 c1] & -> & Ho & Hn & Ha & Ht).
    intros [= <- <-]. unfold same_tenants. rewrite Ha. split_and!; [done..|]. unfold login_outcome in Ho. simpl.
    destruct (maxFailures <=? _)%nat eqn:Hmax; [by destruct Ho as [[= -> ->] ->]|].
    destruct (credentials e pw (w_db w)) as [[id ad]|].
    + destruct Ho as [Hl Ho]. destruct (sessions _ !! _); by destruct Ho as [[= -> ->] _].
    + destruct Ho as ([= -> ->] & _ & Hl). simpl. bool_cases. unfold with_failure in Hl.
      rewrite has_login_tenant in Hl by done. split_and!; [done|by apply has_login_tenant|done].
  - rewrite withSession_run. destruct (refusal false rq (caller_of rq w)) as [r0|] eqn:Hr.
    { intros [= <- <-]. rewrite (refused_unjudged _ _ _ _ Hr). by split_and!. }
    destruct (caller_of rq w) as [c|] eqn:Hc; [|done]. intros Hm.
    destruct (mfaVerify_run totp rq c code w) as (w1 & r1 & Hm' & Ho & Hn & Hs & Ht).
    rewrite Hm in Hm'. simplify_eq. split_and!; [done..|]. unfold mfa_outcome in Ho. cbn [fst snd].
    destruct (ad_totp_secret_enc _) as [sealed|]; [|by destruct Ho as [-> ->]].
    destruct (maxFailures <=? _)%nat eqn:Hmax; [by destruct Ho as [-> ->]|].
    destruct (code_ok _ _ _ _).
    + destruct Ho as (Hl & [[-> _]|[[->| ->] _]]); done.
    + destruct Ho as (-> & _ & _ & Hl). simpl. bool_cases. unfold with_failure in Hl.
      apply caller_of_live in Hc as (? & tn & _ & _ & _ & _ & _ & _ & _ & _ & _ & Htn & _).
      assert (has_tenant (se_tenant (cl_session c)) (w_db w) = true) as Hht by (by apply bool_decide_eq_true_2; eexists).
      rewrite Hht in Hl. by split_and!.
Qed.

Lemma tenants_known_frame d d' :
  tenants d' = tenants d → same_tenants d d' → tenants_known d → tenants_known d'.
Proof.
  unfold tenants_known, has_tenant, same_tenants. intros -> Hs [Hdef Hall]. split; [done|]. intros id a' Ha'.
  assert ((ad_tenant <$> admins d') !! id = Some (ad_tenant a')) as Hl by (by rewrite lookup_fmap, Ha').
  rewrite Hs, lookup_fmap in Hl. destruct (admins d !! id) as [a|] eqn:Ha; [|done]. simpl in Hl. injection Hl as <-. eauto.
Qed.

(** The last guess of a stretch that ends the history. *)
Lemma snoc_split {A} (l : list A) g pre seg :
  l ++ [g] = pre ++ seg → seg = [] ∨ ∃ seg', seg = seg' ++ [g] ∧ l = pre ++ seg'.
Proof.
  destruct seg as [|g' seg' _] using rev_ind; [by left|]. rewrite app_assoc. intros [-> ->]%app_inj_tail. eauto.
Qed.
Lemma count_snoc {A} (p : A → bool) l g : count p (l ++ [g]) = (count p l + if p g then 1 else 0)%nat.
Proof. rewrite count_app, count_cons, count_nil. lia. Qed.
Lemma all_wrong_snoc k l g : all_wrong k (l ++ [g]) → all_wrong k l ∧ (gu_budget g = k → gu_wrong g = true).
Proof. unfold all_wrong. intros Hl. split; [intros x Hx|]; apply Hl; set_solver. Qed.
Lemma count_filter_keep {A} (p q : A → bool) l :
  (∀ x, p x = true → q x = true) → count p (List.filter q l) = count p l.
Proof.
  intros Hpq. induction l as [|x l IH]; [done|]. cbn [List.filter]. rewrite count_cons.
  destruct (q x) eqn:Hq; [by rewrite count_cons, IH|]. destruct (p x) eqn:Hp; [|done]. apply Hpq in Hp. congruence.
Qed.

(** The invariant over one judged guess, and over the passage of time. *)
Lemma limit_inv_time w w' log keep :
  limit_inv (w, log) → (w_now w ≤ w_now w')%Z → tenants_known (w_db w') →
  login_failures (w_db w') = List.filter keep (login_failures (w_db w)) →
  (∀ f, keep f = false → (lf_at f < w_now w' - failWindow)%Z) → limit_inv (w', log).
Proof.
  intros (_ & Hrec & Hwin) Hnow Hk Hl Hkeep. split; [done|]. split; [|done]. intros k pre seg from Hlog Hall Hfrom. simpl in *.
  etrans; [by eapply (Hrec k pre seg from); [| |lia]|]. unfold failures_since. rewrite Hl. rewrite count_filter_keep; [done|].
  intros f Hf. destruct (keep f) eqn:Hkf; [done|]. specialize (Hkeep f Hkf). bool_cases. lia.
Qed.

Lemma limit_inv_right w w' log k0 :
  limit_inv (w, log) → w_now w' = w_now w → tenants_known (w_db w') →
  login_failures (w_db w') = login_failures (without_failures k0.1 k0.2 (w_db w)) →
  limit_inv (w', log ++ [mkGuess k0 false (w_now w)]).
Proof.
  intros (_ & Hrec & Hwin) Hnow Hk Hl. split; [done|]. simpl in *. split.
  - intros k pre seg from Hlog Hall Hfrom. rewrite Hnow in Hfrom.
    apply snoc_split in Hlog as [->|(seg' & -> & Hlog)]; [rewrite count_nil; lia|].
    apply all_wrong_snoc in Hall as [Hall Hg]. simpl in Hg. rewrite count_snoc. simpl. rewrite andb_false_r, Nat.add_0_r.
    etrans; [by apply (Hrec k pre seg' from)|]. unfold failures_since. rewrite Hl. unfold without_failures. simpl.
    rewrite count_filter_keep; [done|]. intros f Hf. unfold failure_of in *. bool_cases.
    destruct (decide (k0 = k)) as [->|Hne]; [by discriminate Hg|]. apply negb_true_iff, andb_false_iff. rewrite !bool_decide_eq_false.
    destruct k0, k; simpl in *. destruct (decide (lf_tenant f = n)); [right|by left]. congruence.
  - intros k pre seg post upto Hlog Hall. destruct post as [|g post' _] using rev_ind.
    + rewrite app_nil_r in Hlog. apply snoc_split in Hlog as [->|(seg' & -> & Hlog)]; [rewrite count_nil; lia|].
      apply all_wrong_snoc in Hall as [Hall _]. rewrite count_snoc. unfold in_window at 2. simpl. rewrite andb_false_r, Nat.add_0_r.
      apply (Hwin k pre seg' []); [by rewrite app_nil_r|done].
    + rewrite !app_assoc in Hlog. apply app_inj_tail in Hlog as [Hlog _]. rewrite <- app_assoc in Hlog. eauto.
Qed.

Lemma limit_inv_wrong w w' log k0 :
  limit_inv (w, log) → w_now w' = w_now w → tenants_known (w_db w') → (recent_failures k0.1 k0.2 w < maxFailures)%nat →
  login_failures (w_db w') = login_failures (w_db w) ++ [mkLoginFailure k0.1 k0.2 (w_now w)] →
  limit_inv (w', log ++ [mkGuess k0 true (w_now w)]).
Proof.
  intros (_ & Hrec & Hwin) Hnow Hk Hmax Hl. split; [done|]. simpl in *. split.
  - intros k pre seg from Hlog Hall Hfrom. rewrite Hnow in Hfrom.
    apply snoc_split in Hlog as [->|(seg' & -> & Hlog)]; [rewrite count_nil; lia|].
    apply all_wrong_snoc in Hall as [Hall _]. unfold failures_since. rewrite Hl, !count_snoc. apply Nat.add_le_mono; [by apply (Hrec k pre seg' from)|].
    unfold failure_of. simpl. destruct k0, k. simpl. repeat case_bool_decide; simplify_eq/=; try done; lia.
  - intros k pre seg post upto Hlog Hall. destruct post as [|g post' _] using rev_ind.
    2: { rewrite !app_assoc in Hlog. apply app_inj_tail in Hlog as [Hlog _]. rewrite <- app_assoc in Hlog. eauto. }
    rewrite app_nil_r in Hlog. apply snoc_split in Hlog as [->|(seg' & -> & Hlog)]; [rewrite count_nil; lia|].
    apply all_wrong_snoc in Hall as [Hall _]. rewrite count_snoc. destruct (in_window k _ upto _) eqn:Hg.
    2: { rewrite Nat.add_0_r. apply (Hwin k pre seg' []); [by rewrite app_nil_r|done]. }
    unfold in_window in Hg. simpl in Hg. bool_cases. subst k0.
    assert (count (in_window k (upto - failWindow) upto) seg' ≤ failures_since k (upto - failWindow) (w_db w))%nat as Hle.
    { etrans; [|apply (Hrec k pre seg' (upto - failWindow)%Z); [done..|lia]]. apply count_mono. intros g _ Hw. unfold in_window in Hw.
      by apply andb_true_iff in Hw as [? _]. }
    assert (failures_since k (upto - failWindow) (w_db w) ≤ recent_failures k.1 k.2 w)%nat as Hle2.
    { apply count_mono. intros f _ Hf. bool_cases. apply andb_true_iff. split; [done|]. apply Z.leb_le. lia. }
    unfold maxFailures in *. lia.
Qed.

Lemma limit_inv_step s s' : guess_step s s' → limit_inv s → limit_inv s'.
Proof.
  intros [a w w' r log Hr|w w' log keep Hnow Hk Hl Hkeep] Hinv; [|by eapply limit_inv_time].
  pose proof (attempt_has_effect a w w' r (proj1 Hinv) Hr) as (Hnow & Ht & Hs & He).
  assert (tenants_known (w_db w')) as Hk by (eapply tenants_known_frame; [done..|exact (proj1 Hinv)]).
  unfold judged. destruct (judge r).
  - destruct He as (Hmax & _ & Hl). by apply (limit_inv_wrong w w').
  - by apply (limit_inv_right w w').
  - rewrite app_nil_r. apply (limit_inv_time w w' log (λ _, true)); [done|lia|done| |done].
    rewrite He. symmetry. clear. induction (login_failures (w_db w)) as [|f l IH]; [done|]. simpl. by f_equal.
Qed.

Lemma limit_inv_history s s' : rtc guess_step s s' → limit_inv s → limit_inv s'.
Proof. induction 1; eauto using limit_inv_step. Qed.

End limit.

Section witnesses.
Import Toy Demo.

(** Someone guesses Ann's password. *)
Definition guess_ann : attempt_req := TryPassword (posts "" "") " Ann@acme " "password1234".
Definition guess_once (s : world * list guess) : world * list guess :=
  match serve_attempt demo_sealer 1 guess_ann s.1 with
  | (w', Ok r) => (w', s.2 ++ judged 1 guess_ann s.1 r)
  | (_, Err _) => s
  end.
Lemma guess_once_steps n s : rtc (guess_step demo_sealer 1) s (Nat.iter n guess_once s).
Proof.
  induction n as [|n IH]; [done|]. etrans; [exact IH|]. simpl. generalize (Nat.iter n guess_once s). intros [w log].
  unfold guess_once. cbn [fst snd]. destruct (serve_attempt _ _ _ w) as [w' [r|e]] eqn:Hr; [|done]. apply rtc_once. by constructor.
Qed.
End witnesses.
