(* ===== verification/RolloutLife.v ===== *)
(** * The life of a rollout

    The abstract life cycle that the rollout table promises, and the proof that the
    console handlers and the reconciler, however they interleave, implement it. The
    invariants of the table (one open rollout per tenant, valid states, a finish
    time exactly on closed rollouts, closed rollouts never change) are proved on the
    abstract machine and carried over. *)

From stdpp Require Import gmap strings list.
From S2P Require Import Prelude Db Hub World StoreCore Commands StoreRollouts Http Rollout.

Abbreviation rollouts := (gmap uuid Rollout).

(** ** The abstract machine *)

Definition no_other_open (T : rollouts) (t id : uuid) : Prop :=
  ∀ k r, T !! k = Some r → ro_tenant r = t → rollout_open r = true → k = id.

(** A rollout [r] changes state; everything else about it stays. *)
Definition moves (r r' : Rollout) (s : string) (f : option time) : Prop :=
  ∃ u, r' = ro_set_state s (ro_set_updated_at u (ro_set_finished_at f r)).

Inductive lifecycle : rollouts → rollouts → Prop :=
  | life_start T id r :
      T !! id = None → no_other_open T (ro_tenant r) id →
      ro_state r = "active" → ro_finished_at r = None →
      lifecycle T (<[id := r]> T)
  | life_pause T id r r' :
      T !! id = Some r → ro_state r = "active" → moves r r' "paused" (ro_finished_at r) →
      lifecycle T (<[id := r']> T)
  | life_resume T id r r' :
      T !! id = Some r → ro_state r = "paused" → moves r r' "active" (ro_finished_at r) →
      lifecycle T (<[id := r']> T)
  | life_close T id r r' s t :
      T !! id = Some r → rollout_open r = true → s = "completed" ∨ s = "cancelled" →
      moves r r' s (Some t) →
      lifecycle T (<[id := r']> T).

(** ** Its invariant *)

Record rollouts_ok (T : rollouts) : Prop := {
  ok_row : ∀ id r, T !! id = Some r →
    rollout_state_ok (ro_state r) = true ∧ (rollout_open r = true ↔ ro_finished_at r = None);
  ok_one : ∀ i j r r', T !! i = Some r → T !! j = Some r' → ro_tenant r = ro_tenant r' →
    rollout_open r = true → rollout_open r' = true → i = j;
}.

Lemma rollout_open_spec r : rollout_open r = true ↔ ro_state r = "active" ∨ ro_state r = "paused".
Proof. unfold rollout_open. rewrite orb_true_iff, !bool_decide_eq_true. done. Qed.
Lemma rollout_open_state r s : ro_state r = s → s = "active" ∨ s = "paused" → rollout_open r = true.
Proof. intros Hr Hs. apply rollout_open_spec. by rewrite Hr. Qed.
Lemma rollout_closed_state r s : ro_state r = s → s = "completed" ∨ s = "cancelled" → rollout_open r = false.
Proof. intros Hr Hs. unfold rollout_open. rewrite Hr. by destruct Hs as [->| ->]. Qed.

(** Rewriting one row keeps the invariant when the row is fine by itself and, if it
    is open, is its tenant's only open one. *)
Lemma rollouts_ok_insert T id r :
  rollouts_ok T → rollout_state_ok (ro_state r) = true → (rollout_open r = true ↔ ro_finished_at r = None) →
  (rollout_open r = true → no_other_open T (ro_tenant r) id) →
  rollouts_ok (<[id := r]> T).
Proof.
  intros [Hrow Hone] Hs Hf Hno. split.
  - intros k x. rewrite lookup_insert. case_decide; [|eauto]. intros [= <-]. done.
  - intros i j x y. rewrite !lookup_insert. intros Hi Hj Ht Hx Hy.
    repeat case_decide; simplify_eq;
      first [done | by eapply (Hno Hy) | symmetry; by eapply (Hno Hx) | by eapply Hone].
Qed.

Lemma lifecycle_ok T T' : lifecycle T T' → rollouts_ok T → rollouts_ok T'.
Proof.
  intros Hl Hok. destruct Hl as [T id r Hn Hno Hs Hf|T id r r' Hr Hs [u ->]|T id r r' Hr Hs [u ->]
    |T id r r' s t Hr Ho Hs [u ->]].
  - apply rollouts_ok_insert; [done|by rewrite Hs| |done].
    split; [done|]. intros _. by eapply rollout_open_state; eauto.
  - assert (rollout_open r = true) as Ho by (eapply rollout_open_state; eauto).
    destruct (ok_row T Hok id r Hr) as [_ Hf]. apply rollouts_ok_insert; [done|done|simpl; tauto|].
    intros _ k x Hk Ht Hx. simpl in Ht. exact (ok_one T Hok _ _ _ _ Hk Hr Ht Hx Ho).
  - assert (rollout_open r = true) as Ho by (eapply rollout_open_state; eauto).
    destruct (ok_row T Hok id r Hr) as [_ Hf]. apply rollouts_ok_insert; [done|done|simpl; tauto|].
    intros _ k x Hk Ht Hx. simpl in Ht. exact (ok_one T Hok _ _ _ _ Hk Hr Ht Hx Ho).
  - apply rollouts_ok_insert; [done|by destruct Hs as [->| ->]|by destruct Hs as [->| ->]|].
    by destruct Hs as [->| ->].
Qed.

Lemma lifecycle_rtc_ok T T' : rtc lifecycle T T' → rollouts_ok T → rollouts_ok T'.
Proof. induction 1; eauto using lifecycle_ok. Qed.

(** What becomes of one rollout: its plan never changes, and a closed one stays as it
    is. *)
Definition rollout_next (r r' : Rollout) : Prop :=
  ro_tenant r' = ro_tenant r ∧ ro_version r' = ro_version r ∧ ro_group_ids r' = ro_group_ids r ∧
  ro_batch_size r' = ro_batch_size r ∧ ro_max_failures r' = ro_max_failures r ∧
  ro_created_by r' = ro_created_by r ∧ ro_created_at r' = ro_created_at r ∧
  (rollout_open r = false → r' = r).

Lemma rollout_next_refl r : rollout_next r r.
Proof. unfold rollout_next. naive_solver. Qed.
#[export] Hint Resolve rollout_next_refl : fl.

Lemma lifecycle_next T T' id r :
  lifecycle T T' → T !! id = Some r → ∃ r', T' !! id = Some r' ∧ rollout_next r r'.
Proof.
  intros Hl Hr.
  assert (∀ k x x' s f, T !! k = Some x → rollout_open x = true → moves x x' s f →
    ∃ r', <[k := x']> T !! id = Some r' ∧ rollout_next r r') as Hmove.
  { intros k x x' s f Hk Ho [u ->]. rewrite lookup_insert. case_decide; [|eauto with fl].
    subst. simplify_eq. eexists. split; [done|]. unfold rollout_next. simpl.
    split_and!; try done. congruence. }
  destruct Hl; [|eapply Hmove; eauto using rollout_open_state..].
  rewrite lookup_insert_ne by congruence. eauto with fl.
Qed.

Lemma lifecycle_rtc_next T T' id r :
  rtc lifecycle T T' → T !! id = Some r → ∃ r', T' !! id = Some r' ∧ rollout_next r r'.
Proof.
  intros Hs. revert r. induction Hs as [T|T T1 T2 Hl _ IH]; intros r Hr; [eauto with fl|].
  destruct (lifecycle_next _ _ _ _ Hl Hr) as (r1 & Hr1 & Hn1).
  destruct (IH r1 Hr1) as (r2 & Hr2 & Hn2). exists r2. split; [done|].
  unfold rollout_next in *. destruct_and!. split_and!; try congruence.
  intros Hc. assert (r1 = r) as -> by auto. auto.
Qed.

(** ** The progress rows

    A device's row of a rollout is written once and resolved at most once: its
    command and issue time are fixed, and a resolved row is final. *)
Abbreviation progress_rows := (gmap (uuid * uuid) RolloutDevice).

Definition row_next (rd rd' : RolloutDevice) : Prop :=
  rd_command rd' = rd_command rd ∧ rd_issued_at rd' = rd_issued_at rd ∧
  (rd' = rd ∨
   rd_state rd = "issued" ∧ is_Some (rd_resolved_at rd') ∧
   (rd_state rd' = "updated" ∨ rd_state rd' = "failed" ∨ rd_state rd' = "cancelled")).

Definition progress_le (P P' : progress_rows) : Prop :=
  ∀ k rd, P !! k = Some rd → ∃ rd', P' !! k = Some rd' ∧ row_next rd rd'.

Lemma row_next_refl rd : row_next rd rd.
Proof. unfold row_next. naive_solver. Qed.
#[export] Hint Resolve row_next_refl : fl.
Lemma row_next_trans r1 r2 r3 : row_next r1 r2 → row_next r2 r3 → row_next r1 r3.
Proof.
  unfold row_next. intros (? & ? & [->|(H1 & H2 & H3)]) (? & ? & [->|(H4 & ? & ?)]); split_and!; try congruence; auto.
Qed.
#[export] Instance progress_le_preorder : PreOrder progress_le.
Proof.
  split; [intros P k rd; eauto with fl|].
  intros P1 P2 P3 H12 H23 k rd Hk. destruct (H12 k rd Hk) as (rd2 & Hk2 & ?).
  destruct (H23 k rd2 Hk2) as (rd3 & ? & ?). eauto using row_next_trans.
Qed.

(** ** The implementation

    Every operation of the store, the reconciler and the console moves the rollout
    table along the life cycle and the progress rows forward. *)
Definition tables (d : db) : rollouts * progress_rows := (agent_rollouts d, agent_rollout_devices d).
Definition forward : relation (rollouts * progress_rows) := prod_relation (rtc lifecycle) progress_le.
#[export] Instance forward_preorder : PreOrder forward.
Proof.
  split; [intros [T P]; split; simpl; reflexivity|].
  intros [T1 P1] [T2 P2] [T3 P3] [? ?] [? ?]. split; simpl in *; etrans; eauto.
Qed.

Abbreviation lives := (via tables forward).
Abbreviation livesW := (via (dbv tables) forward).

(** A change of the rollout table only. *)
Lemma lives_rollouts T d : rtc lifecycle (agent_rollouts d) T → lives d (set_agent_rollouts T d).
Proof. intros HT. split; simpl; [done | reflexivity]. Qed.
Lemma lives_progress P d : progress_le (agent_rollout_devices d) P → lives d (set_agent_rollout_devices P d).
Proof. intros HP. split; simpl; [reflexivity | done]. Qed.
Lemma lives_refl d : lives d d.
Proof. reflexivity. Qed.
#[export] Hint Resolve lives_refl lives_rollouts lives_progress : fl.

Lemma other_open_false t id d :
  other_open t id d = false ↔ no_other_open (agent_rollouts d) t id.
Proof.
  unfold other_open, no_other_open. rewrite exists_row_false. split.
  - intros Hall k r Hk Ht Ho. specialize (Hall k r Hk). rewrite Ho in Hall.
    rewrite bool_decide_eq_true_2 in Hall by done. simpl in Hall. by bool_cases.
  - intros Hno k r Hk. destruct (rollout_open r) eqn:Ho; [|by rewrite andb_false_r].
    case_bool_decide; [|done]. simpl. apply negb_false_iff, bool_decide_eq_true. eauto.
Qed.

(** A computation that leaves both tables alone. *)
Lemma keeps_lives {A} (m : M db A) : Steps (keeps tables) m → Steps lives m.
Proof. intros Hm d. unfold via. by rewrite (Hm d). Qed.
Lemma off_commands_lives {A} (m : M world A) : Steps (keeps (dbv off_commands)) m → Steps livesW m.
Proof.
  intros Hm w. unfold via, dbv. assert (tables (w_db (m w).1) = tables (w_db w)) as ->; [|reflexivity].
  specialize (Hm w). unfold via, dbv, off_commands in Hm. unfold tables. by injection Hm as _ _ _ _ -> ->.
Qed.

#[export] Instance insertRollout_lives t r : nr_state r = "active" → Steps lives (insertRollout t r).
Proof.
  intros Hs d. unfold insertRollout. rewrite Hs. simpl.
  destruct (negb (int4 _ && _)); [auto with fl|]. destruct (agent_releases d !! _); [|auto with fl]. case_bool_decide as Hid; [auto with fl|].
  change (rollout_open _) with true. simpl. destruct (other_open t (nr_id r) d) eqn:Hoo; [auto with fl|].
  destruct (has_tenant t d); [|auto with fl]. simpl. apply lives_rollouts, rtc_once, life_start; try done.
  - by apply eq_None_not_Some.
  - by apply other_open_false.
Qed.

#[export] Instance GetRollout_read_only t id : ReadOnly (GetRollout t id).
Proof. intros d. unfold GetRollout. by repeat case_match. Qed.

(** The state changes the program asks for. *)
Definition transition (from : list string) (to : string) : Prop :=
  from = ["active"] ∧ (to = "paused" ∨ to = "completed") ∨
  from = ["paused"] ∧ to = "active" ∨
  from = ["active"; "paused"] ∧ to = "cancelled".

#[export] Instance SetRolloutState_lives t id from to now :
  transition from to → Steps lives (SetRolloutState t id from to now).
Proof.
  intros Htr d. unfold SetRolloutState.
  assert (lives d ((GetRollout t id ≫= λ _, @fail db unit ErrConflict) d).1) as Hget by apply steps_of.
  destruct (agent_rollouts d !! id) as [r|] eqn:Hr; [|done].
  destruct (_ && _) eqn:Hg; [|done]. apply andb_true_iff in Hg as [Ht Hin]. bool_cases.
  destruct (negb (rollout_state_ok to)); [auto with fl|]. destruct (_ && _); [auto with fl|].
  apply lives_rollouts, rtc_once. unfold transition in Htr.
  destruct Htr as [[-> [->| ->]]|[[-> ->]|[-> ->]]]; rewrite ?elem_of_cons, ?elem_of_nil in Hin;
    destruct_or?; try done; simpl.
  - eapply life_pause; [done|done|by eexists].
  - eapply life_close; [done|by eapply rollout_open_state; eauto|by left|by eexists].
  - eapply life_resume; [done|done|by eexists].
  - eapply life_close; [done|by eapply rollout_open_state; eauto|by right|by eexists].
  - eapply life_close; [done|by eapply rollout_open_state; eauto|by right|by eexists].
Qed.

#[export] Instance ReplaceRollout_lives t oldID next now :
  nr_state next = "active" → Steps lives (ReplaceRollout t oldID next now).
Proof.
  intros Hs d. unfold ReplaceRollout, transaction, mbind, M_bind, GetRollout.
  destruct (agent_rollouts d !! oldID) as [old|] eqn:Hold; [|auto with fl].
  destruct (bool_decide (ro_tenant old = t)); [|auto with fl].
  destruct (_ || _) eqn:Ho; simpl;
    match goal with |- context [insertRollout t next ?d1] =>
      pose proof (insertRollout_lives t next Hs d1) as Hl;
      destruct (insertRollout t next d1) as [d2 [[]|e]] end; simpl in *; auto with fl.
  etrans; [|exact Hl]. apply lives_rollouts, rtc_once.
  eapply life_close; [done|exact Ho|by right|by eexists].
Qed.

#[export] Instance AddRolloutDevice_lives id v c now : Steps lives (AddRolloutDevice id v c now).
Proof.
  intros d. unfold AddRolloutDevice. case_bool_decide as Hk; [auto with fl|].
  destruct (_ || _); [auto with fl|]. apply lives_progress. intros k rd Hrd.
  rewrite lookup_insert_ne; [eauto with fl|]. intros <-. destruct Hk. by eexists.
Qed.

(** A resolved row comes from an issued one. *)
Lemma resolution_Some d t id cutoff k rd st det :
  resolution d t id cutoff k rd = Some (st, det) →
  k.1 = id ∧ rd_state rd = "issued" ∧ (st = "updated" ∨ st = "failed" ∨ st = "cancelled").
Proof.
  unfold resolution. destruct (_ && _) eqn:Hg; [|done]. bool_cases.
  repeat case_match; try done. unfold resolved_state. repeat case_match; naive_solver.
Qed.
Lemma resolve_row_next d t id cutoff now k rd : row_next rd (resolve_row d t id cutoff now k rd).
Proof.
  unfold resolve_row. destruct (resolution _ _ _ _ _ _) as [[st det]|] eqn:E; [|auto with fl].
  apply resolution_Some in E as (_ & ? & ?). unfold row_next. simpl. naive_solver.
Qed.
#[export] Instance ResolveRolloutDevices_lives t id now c : Steps lives (ResolveRolloutDevices t id now c).
Proof.
  intros d. apply lives_progress. intros k rd Hk. rewrite map_lookup_imap, Hk. simpl.
  eauto using resolve_row_next.
Qed.
#[export] Instance AppendAudit_lives t a b c x det ip r : Steps lives (AppendAudit t a b c x det ip r).
Proof. apply keeps_lives. intros d. unfold AppendAudit. by case_match. Qed.
#[export] Instance GetRolloutSummary_read_only t id : ReadOnly (GetRolloutSummary t id).
Proof. intros d. unfold GetRolloutSummary. by case_match. Qed.
#[export] Instance GetRelease_read_only t v : ReadOnly (GetRelease t v).
Proof. intros d. unfold GetRelease. by repeat case_match. Qed.

#[export] Hint Extern 1 (transition _ _) => (unfold transition; naive_solver) : typeclass_instances.
#[export] Hint Extern 1 (nr_state _ = "active") => first [reflexivity | eassumption] : typeclass_instances.

Section machine.
Context `{UuidText, Crypto, UuidSource} (s : Service).
(** Whatever [Notify] is, it keeps the promise of the [Emitter] interface. *)
Hypothesis Notify_ok : ∀ em, Notify s = Some em → @EmitterOk em.

#[export] Instance emit_lives e : Steps livesW (emit s e).
Proof.
  intros w. unfold emit. destruct (Notify s) as [em|] eqn:E; [|done].
  destruct (@Emit_frame em (Notify_ok em eq_refl) e w) as [d' ->]. unfold via, dbv. simpl. reflexivity.
Qed.
#[export] Instance IssueUpdate_lives k t v p a : Steps livesW (IssueUpdate k (Marshal s) t v p a).
Proof. apply off_commands_lives. unfold IssueUpdate. apply _. Qed.

#[export] Instance issue_batch_lives t id p now cands slots i r :
  Steps livesW (issue_batch s t id p now cands slots i r).
Proof. revert slots i r. induction cands; intros; simpl; unfold wrap; steps. Qed.

#[export] Instance Reconcile_lives t id r : Steps livesW (Reconcile s t id r).
Proof. unfold Reconcile, auto_pause, issue_next, complete_if_done, wrap. steps. Qed.
#[export] Instance Tick_lives : Steps livesW (Tick s).
Proof. unfold Tick. steps. Qed.

#[export] Instance storeErr_lives e : Steps livesW (storeErr e).
Proof. unfold storeErr, writeErr. steps. Qed.
#[export] Instance audit_lives p a b c x r : Steps livesW (audit p a b c x r).
Proof. unfold audit. steps. Qed.

#[export] Instance createRollout_lives p req : Steps livesW (createRollout p req).
Proof.
  unfold createRollout, or_storeErr, writeErr, writeJSON. apply bind_steps; [apply _|]. intros id.
  destruct (newRollout id req _) as [ro|msg] eqn:E; [|steps].
  assert (nr_state ro = "active").
  { unfold newRollout in E. repeat case_match; by simplify_eq. }
  unfold CreateRollout. steps.
Qed.
#[export] Instance transitionRollout_lives action from to p raw :
  transition from to → Steps livesW (transitionRollout action from to p raw).
Proof. unfold transitionRollout, with_pathID, writeErr, writeHeader. steps. Qed.
#[export] Instance rollbackRollout_lives p raw v : Steps livesW (rollbackRollout p raw v).
Proof. unfold rollbackRollout, with_pathID, or_storeErr, writeErr, writeJSON. steps. Qed.

(** One step of the running system, as far as the rollout tables are concerned: a
    console request, a scheduler tick, the reconciliation of a rollout on any
    (possibly stale) snapshot of its row, or anything that does not write the two
    tables. *)
Inductive rollout_step : world → world → Prop :=
  | do_create p req w : rollout_step w (createRollout p req w).1
  | do_pause p raw w : rollout_step w (pauseRollout p raw w).1
  | do_resume p raw w : rollout_step w (resumeRollout p raw w).1
  | do_cancel p raw w : rollout_step w (cancelRollout p raw w).1
  | do_rollback p raw v w : rollout_step w (rollbackRollout p raw v w).1
  | do_reconcile t id r w : rollout_step w (Reconcile s t id r w).1
  | do_tick w : rollout_step w (Tick s w).1
  | do_other w w' : dbv tables w' = dbv tables w → rollout_step w w'.

Lemma rollout_step_lives w w' : rollout_step w w' → livesW w w'.
Proof.
  destruct 1 as [p req w|p raw w|p raw w|p raw w|p raw v w|t id r w|w|w w' He].
  - apply createRollout_lives.
  - apply transitionRollout_lives. unfold transition. naive_solver.
  - apply transitionRollout_lives. unfold transition. naive_solver.
  - apply transitionRollout_lives. unfold transition. naive_solver.
  - apply rollbackRollout_lives.
  - apply Reconcile_lives.
  - apply Tick_lives.
  - unfold via. rewrite He. reflexivity.
Qed.

Lemma rollout_steps_lives w w' : rtc rollout_step w w' → livesW w w'.
Proof. induction 1; [reflexivity|]. etrans; [by apply rollout_step_lives | done]. Qed.

(** C1. The handlers and the reconciler refine the abstract life cycle: any
    interleaving of them moves the rollout table by starting a rollout when the
    tenant has none open, pausing, resuming, completing or cancelling one, and by
    nothing else. *)
Theorem rollouts_refine_lifecycle w w' :
  rtc rollout_step w w' → rtc lifecycle (agent_rollouts (w_db w)) (agent_rollouts (w_db w')).
Proof. apply rollout_steps_lives. Qed.

(** The invariant of the rollout table is kept by every interleaving: a tenant
    has at most one open rollout, every state is one of the four, and a rollout has a
    finish time exactly when it is closed. *)
Theorem rollouts_invariant w w' :
  rtc rollout_step w w' → rollouts_ok (agent_rollouts (w_db w)) → rollouts_ok (agent_rollouts (w_db w')).
Proof. intros [Hs _]%rollout_steps_lives. by apply lifecycle_rtc_ok. Qed.

(** A rollout's history: its tenant, version, groups, batch size and failure
    limit never change, its row never disappears, and once it is completed or
    cancelled it is final, whatever the console or a late tick still does. *)
Theorem rollout_final w w' id r :
  rtc rollout_step w w' → agent_rollouts (w_db w) !! id = Some r →
  ∃ r', agent_rollouts (w_db w') !! id = Some r' ∧ rollout_next r r' ∧
        (ro_state r = "completed" ∨ ro_state r = "cancelled" → r' = r).
Proof.
  intros [Hs _]%rollout_steps_lives Hr.
  destruct (lifecycle_rtc_next _ _ _ _ Hs Hr) as (r' & Hr' & Hn). exists r'. split_and!; [done|done|].
  intros Hc. apply Hn. eapply rollout_closed_state; eauto.
Qed.

(** A device is sent at most one update per rollout, and its outcome is final:
    whatever happens later, the device's progress row keeps its command and issue
    time, and once it is updated, failed or cancelled it never changes again. *)
Theorem progress_row_final w w' id dev rd :
  rtc rollout_step w w' → agent_rollout_devices (w_db w) !! (id, dev) = Some rd →
  ∃ rd', agent_rollout_devices (w_db w') !! (id, dev) = Some rd' ∧ rd_command rd' = rd_command rd ∧
    rd_issued_at rd' = rd_issued_at rd ∧ (rd_state rd ≠ "issued" → rd' = rd) ∧
    (rd_state rd = "issued" → rd_state rd' = "issued" ∨ rd_state rd' = "updated" ∨
                              rd_state rd' = "failed" ∨ rd_state rd' = "cancelled").
Proof.
  intros [_ Hp]%rollout_steps_lives Hr. destruct (Hp _ _ Hr) as (rd' & Hr' & Hn).
  exists rd'. unfold row_next in Hn. naive_solver.
Qed.
End machine.

(** ** A concrete fleet *)

Module Fleet.
Import Toy.
(** Tenant 1 with releases 1.0 and 2.0 and a connected device 9 on 1.0. *)
Definition fleet_db : db :=
  set_agent_releases {[(1%N, "1.0") := mkRelease "sha1" "sig1" 1; (1%N, "2.0") := mkRelease "sha2" "sig2" 1]} lab_db.
Definition fleet : world := set_db fleet_db lab.
Definition service : Service :=
  mkService lab_keys (Some (λ c h, Connected c h)) (λ _ v, "/r/" +:+ v) 0 None (λ p, up_version p).
Lemma service_notify_ok em : Notify service = Some em → @EmitterOk em.
Proof. done. Qed.
Definition boss : principal := mkPrincipal 1 3 "boss" "owner" false "10.0.0.1".
Definition request : rolloutCreateReq := mkRolloutCreateReq "2.0" [] (Some 1%Z) (Some 1%Z).
(** After the console created the rollout (its id is 100) and one tick ran. *)
Definition created : world := (createRollout boss request fleet).1.
Definition ticked : world := (Tick service created).1.
End Fleet.

Section witnesses.
Import Toy Fleet.

Lemma fleet_run : rtc (rollout_step service) fleet (cancelRollout boss (uuid_string 100) ticked).1.
Proof.
  eapply rtc_l; [apply (do_create service boss request)|].
  eapply rtc_l; [apply (do_tick service)|]. apply rtc_once. apply do_cancel.
Defined.

Lemma rollouts_refine_lifecycle_witness :
  rtc lifecycle ∅ (agent_rollouts (w_db (cancelRollout boss (uuid_string 100) ticked).1)).
Proof. exact (rollouts_refine_lifecycle service service_notify_ok _ _ fleet_run). Defined.

Lemma rollouts_invariant_witness :
  rollouts_ok (agent_rollouts (w_db (cancelRollout boss (uuid_string 100) ticked).1)).
Proof.
  apply (rollouts_invariant service service_notify_ok _ _ fleet_run).
  split; intros; simpl in *; by simplify_map_eq.
Defined.

(** The device's row of the first tick survives a second one. *)
Lemma progress_row_final_witness :
  ∃ rd rd', agent_rollout_devices (w_db ticked) !! (100%N, 9%N) = Some rd ∧ rd_state rd = "issued" ∧
    agent_rollout_devices (w_db (Tick service ticked).1) !! (100%N, 9%N) = Some rd' ∧
    rd_command rd' = rd_command rd.
Proof.
  destruct (agent_rollout_devices (w_db ticked) !! (100%N, 9%N)) as [rd|] eqn:Hr;
    [|vm_compute in Hr; discriminate Hr].
  destruct (progress_row_final service service_notify_ok ticked (Tick service ticked).1 100 9 rd
    (rtc_once _ _ (do_tick service ticked)) Hr) as (rd' & Hr' & Hc & _).
  exists rd, rd'. split; [reflexivity|]. split; [vm_compute in Hr; by injection Hr as <-|]. by split.
Defined.

(** A tick that runs after the cancellation leaves the cancelled rollout alone. *)
Lemma rollout_final_witness :
  let w := (cancelRollout boss (uuid_string 100) ticked).1 in
  ∃ r, agent_rollouts (w_db w) !! 100%N = Some r ∧ ro_state r = "cancelled" ∧
       agent_rollouts (w_db (Tick service w).1) !! 100%N = Some r.
Proof.
  intros w. destruct (agent_rollouts (w_db w) !! 100%N) as [r|] eqn:Hr; [|vm_compute in Hr; discriminate Hr].
  exists r. split; [reflexivity|].
  assert (ro_state r = "cancelled") as Hs.
  { vm_compute in Hr. injection Hr as <-. reflexivity. }
  split; [exact Hs|].
  destruct (rollout_final service service_notify_ok w (Tick service w).1 100 r
    (rtc_once _ _ (do_tick service w)) Hr) as (r' & Hr' & _ & Heq).
  rewrite Hr', Heq; [reflexivity | right; exact Hs].
Defined.
End witnesses.
