(* ===== verification/RolloutTick.v ===== *)
(** * One pass of the reconciler

    What a [Reconcile] of [internal/server/rollout/rollout.go] does to a rollout: the
    counters it keeps in memory agree with the tables, it never has more than a batch
    in flight, it sends updates only to devices that should get one, and it pauses
    and completes exactly when it should. *)

From stdpp Require Import gmap strings list.
From S2P Require Import Prelude Db Hub World StoreCore Commands StoreRollouts Http Rollout RolloutLife.

(** Candidates left, as the summary counts them. *)
Definition remaining (d : db) (id : uuid) (r : Rollout) : nat :=
  count (λ kv, targeted r kv.2 && untouched d id kv.1 && negb (current r kv.2)) (map_to_list (devices d)).

(** The tables a pass reads but does not write while it issues commands. *)
Definition fixed (d : db) := (tenants d, devices d, agent_releases d, agent_rollouts d).

Definition issued_row (c : uuid) (t : time) : RolloutDevice := mkRolloutDevice c "issued" "" t None.
Definition add_row (id v c : uuid) (t : time) (d : db) : db :=
  set_agent_rollout_devices (<[(id, v) := issued_row c t]> (agent_rollout_devices d)) d.

Lemma AddRolloutDevice_Ok id v c t d d' :
  AddRolloutDevice id v c t d = (d', Ok tt) →
  agent_rollout_devices d !! (id, v) = None ∧ d' = add_row id v c t d.
Proof.
  unfold AddRolloutDevice. case_bool_decide as Hk; [done|]. destruct (_ || _); [done|].
  intros [= <-]. split; [by apply eq_None_not_Some | done].
Qed.

(** The counters after a row was added. *)
Lemma progress_add_row d id v c t dv s :
  agent_rollout_devices d !! (id, v) = None → devices d !! v = Some dv → dv_revoked dv = false →
  progress (add_row id v c t d) id s = (if bool_decide (s = "issued") then 1 else 0) + progress d id s.
Proof.
  intros Hn Hv Hr. unfold progress. simpl. rewrite count_rows_insert by done. simpl. f_equal.
  rewrite Hv, Hr, bool_decide_eq_true_2 by done. simpl. rewrite andb_true_r.
  by repeat case_bool_decide; congruence.
Qed.

Lemma untouched_add_row d id v c t k :
  untouched (add_row id v c t d) id k = untouched d id k && negb (bool_decide (k = v)).
Proof.
  unfold untouched. simpl. destruct (decide (k = v)) as [->|Hne].
  - rewrite lookup_insert_eq, (bool_decide_eq_true_2 (v = v)) by done. by rewrite andb_false_r.
  - rewrite lookup_insert_ne by congruence. rewrite (bool_decide_eq_false_2 (k = v)) by done.
    by rewrite andb_true_r.
Qed.

Lemma remaining_add_row d id r v c t dv :
  devices d !! v = Some dv → candidate d id r (v, dv) = true →
  remaining d id r = S (remaining (add_row id v c t d) id r).
Proof.
  intros Hv Hc. unfold candidate in Hc. simpl in Hc. unfold remaining. simpl.
  apply (count_rows_flip _ _ _ v dv); [done| | |]; simpl.
  - apply andb_true_iff in Hc as [[Ht Hu]%andb_true_iff Hx]. by rewrite Ht, Hu, Hx.
  - rewrite untouched_add_row, (bool_decide_eq_true_2 (v = v)) by done.
    by rewrite andb_false_r, andb_false_r.
  - intros k a Hk Hne. rewrite untouched_add_row, (bool_decide_eq_false_2 (k = v)) by done.
    by rewrite andb_true_r.
Qed.

(** ** The candidate loop *)

Section tick.
Context `{UuidText, Crypto, UuidSource} (s : Service).

(** [Online] answers from who is connected, as [Hub.Connected] does. *)
Definition online_from_hub : Prop :=
  ∀ f, Online s = Some f → ∀ c h h', conns h = conns h' → f c h = f c h'.
Definition sees (w : world) (c : uuid) : bool :=
  match Online s with Some f => f c (w_hub w) | None => true end.

Hypothesis Online_ok : online_from_hub.
Hypothesis Notify_ok : ∀ em, Notify s = Some em → @EmitterOk em.

Lemma sees_live w w' c : live w' = live w → sees w' c = sees w c.
Proof.
  unfold sees, live. intros Hl. destruct (Online s) as [f|] eqn:E; [|done]. by apply (Online_ok f).
Qed.

(** [w'] is [w] after [n] devices of [cs] were sent the update: the exact change of
    the counters and of the progress rows. *)
Record batch_done (t : uuid) (id : uuid) (r : Rollout) (at_ : time) (cs : list uuid) (w w' : world) (n : nat) : Prop := {
  bd_fixed : dbv fixed w' = dbv fixed w;
  bd_live : live w' = live w;
  bd_commands : commands_le (commands (w_db w)) (commands (w_db w'));
  bd_issued : progress (w_db w') id "issued" = n + progress (w_db w) id "issued";
  bd_other : ∀ st, st ≠ "issued" → progress (w_db w') id st = progress (w_db w) id st;
  bd_remaining : remaining (w_db w) id r = n + remaining (w_db w') id r;
  bd_old : ∀ k rd, agent_rollout_devices (w_db w) !! k = Some rd → agent_rollout_devices (w_db w') !! k = Some rd;
  bd_new : ∀ k rd, agent_rollout_devices (w_db w') !! k = Some rd → agent_rollout_devices (w_db w) !! k = None →
    k.1 = id ∧ k.2 ∈ cs ∧ sees w k.2 = true ∧ rd = issued_row (rd_command rd) at_ ∧
    ∃ c, commands (w_db w') !! rd_command rd = Some c ∧ cm_tenant c = t ∧ cm_device c = k.2 ∧
         cm_type c = "update_agent";
}.

Lemma batch_done_mono t id r a cs cs' w w' n :
  cs ⊆ cs' → batch_done t id r a cs w w' n → batch_done t id r a cs' w w' n.
Proof. intros Hs []. split; try done. naive_solver. Qed.

Lemma batch_done_refl t id r a cs w : batch_done t id r a cs w w 0.
Proof. split; try done; congruence. Qed.

Lemma batch_done_trans t id r a cs w w1 w2 n m :
  batch_done t id r a cs w w1 n → batch_done t id r a cs w1 w2 m → batch_done t id r a cs w w2 (m + n).
Proof.
  intros B1 B2. split.
  - by rewrite (bd_fixed _ _ _ _ _ _ _ _ B2), (bd_fixed _ _ _ _ _ _ _ _ B1).
  - by rewrite (bd_live _ _ _ _ _ _ _ _ B2), (bd_live _ _ _ _ _ _ _ _ B1).
  - etrans; [apply B1 | apply B2].
  - rewrite (bd_issued _ _ _ _ _ _ _ _ B2), (bd_issued _ _ _ _ _ _ _ _ B1). lia.
  - intros st Hst. by rewrite (bd_other _ _ _ _ _ _ _ _ B2), (bd_other _ _ _ _ _ _ _ _ B1).
  - rewrite (bd_remaining _ _ _ _ _ _ _ _ B1), (bd_remaining _ _ _ _ _ _ _ _ B2). lia.
  - intros k rd Hk. by apply (bd_old _ _ _ _ _ _ _ _ B2), (bd_old _ _ _ _ _ _ _ _ B1).
  - intros k rd H2 H0'. destruct (agent_rollout_devices (w_db w1) !! k) as [rd1|] eqn:H1'.
    + assert (rd1 = rd) as ->.
      { apply (bd_old _ _ _ _ _ _ _ _ B2) in H1'. congruence. }
      destruct (bd_new _ _ _ _ _ _ _ _ B1 _ _ H1' H0') as (? & ? & ? & ? & c & Hc & ?).
      destruct (bd_commands _ _ _ _ _ _ _ _ B2 _ _ Hc) as (c' & Hc' & Hn).
      split_and!; try done. exists c'. unfold command_next in Hn. destruct_and!. split_and!; congruence.
    + destruct (bd_new _ _ _ _ _ _ _ _ B2 _ _ H2 H1') as (? & ? & Hs & ? & ?).
      rewrite (sees_live w w1) in Hs by apply (bd_live _ _ _ _ _ _ _ _ B1). done.
Qed.

(** Issuing a command, whether or not it succeeds, sends nothing through the
    progress table. *)
Lemma IssueUpdate_batch_done t id r a cs k v p actor w :
  batch_done t id r a cs w (IssueUpdate k (Marshal s) t v p actor w).1 0.
Proof.
  unfold IssueUpdate.
  pose proof (Issue_off_commands k t v UPDATE_AGENT (Marshal s p) None actor w) as Hoff.
  pose proof (Issue_le k t v UPDATE_AGENT (Marshal s p) None actor w) as Hle.
  pose proof (Issue_live k t v UPDATE_AGENT (Marshal s p) None actor w) as Hlive.
  destruct (Issue k t v UPDATE_AGENT (Marshal s p) None actor w) as [w' res]. simpl in *.
  unfold via, dbv, off_commands in *. injection Hoff as _ Ht Hd Hr Ho Hp.
  assert (∀ st, progress (w_db w') id st = progress (w_db w) id st) as Hprog.
  { intros st. unfold progress. by rewrite Hd, Hp. }
  split.
  - unfold dbv, fixed. congruence.
  - done.
  - done.
  - apply Hprog.
  - auto.
  - unfold remaining, untouched. by rewrite Hd, Hp.
  - intros x rd. by rewrite Hp.
  - intros x rd. rewrite Hp. congruence.
Qed.

(** Recording the device a command was issued to. *)
Lemma add_row_batch_done t id r a cs w v dv c cm :
  v ∈ cs → sees w v = true → devices (w_db w) !! v = Some dv → candidate (w_db w) id r (v, dv) = true →
  commands (w_db w) !! c = Some cm → cm_tenant cm = t → cm_device cm = v → cm_type cm = "update_agent" →
  batch_done t id r a cs w (set_db (add_row id v c a (w_db w)) w) 1.
Proof.
  intros Hin Hsee Hv Hcand Hc Ht Hd Htyp. assert (candidate (w_db w) id r (v, dv) = true) as Hcand' by done.
  unfold candidate in Hcand'. simpl in Hcand'. apply andb_true_iff in Hcand' as [[Htg _]%andb_true_iff Hun].
  unfold targeted in Htg. unfold untouched in Hun. bool_cases.
  split; simpl.
  - done.
  - done.
  - reflexivity.
  - erewrite progress_add_row by done. by rewrite bool_decide_eq_true_2.
  - intros st Hst. erewrite progress_add_row by done. by rewrite bool_decide_eq_false_2.
  - by erewrite remaining_add_row.
  - intros k rd Hk. rewrite lookup_insert_ne; [done|]. congruence.
  - intros k rd. rewrite lookup_insert. case_decide as Hk; [|congruence].
    intros [= <-] _. subst k. simpl. split_and!; try done. by exists cm.
Qed.

(** The candidates of the list that were not reached are candidates still. *)
Lemma candidate_add_row d id r v c a k dk :
  k ≠ v → candidate (add_row id v c a d) id r (k, dk) = candidate d id r (k, dk).
Proof.
  intros Hne. unfold candidate. simpl. rewrite untouched_add_row.
  by rewrite (bool_decide_eq_false_2 (k = v)), andb_true_r.
Qed.

Definition all_candidates (d : db) (id : uuid) (r : Rollout) (cs : list uuid) : Prop :=
  ∀ c, c ∈ cs → ∃ v, devices d !! c = Some v ∧ candidate d id r (c, v) = true.

Lemma all_candidates_same d d' id r cs :
  off_commands d' = off_commands d → all_candidates d id r cs → all_candidates d' id r cs.
Proof.
  unfold off_commands. intros [= _ _ Hd _ _ Hp] Hall c Hc. destruct (Hall c Hc) as (v & Hv & Hcand).
  exists v. split; [congruence|]. revert Hcand. unfold candidate, untouched. by rewrite Hp.
Qed.
Lemma all_candidates_tail d id r c cs : all_candidates d id r (c :: cs) → all_candidates d id r cs.
Proof. intros Hall k Hk. apply Hall. set_solver. Qed.

(** The loop of step 3: it never fails, it issues to at most [slots] devices, and the
    two counters it returns are exact. *)
Lemma issue_batch_done t id r payload a cs : ∀ slots issued rem w,
  NoDup cs → all_candidates (w_db w) id r cs → (0 ≤ slots)%Z →
  ∃ w' n, issue_batch s t id payload a cs slots issued rem w
            = (w', Ok ((issued + Z.of_nat n)%Z, (rem - Z.of_nat n)%Z)) ∧
          (Z.of_nat n ≤ slots)%Z ∧ batch_done t id r a cs w w' n.
Proof.
  induction cs as [|c cs IH]; intros slots issued rem w Hnd Hall Hslots.
  - exists w, 0. simpl. rewrite Z.add_0_r, Z.sub_0_r. split_and!; [done|lia|].
    apply batch_done_refl.
  - assert (∀ w1 slots1 issued1 rem1, off_commands (w_db w1) = off_commands (w_db w) →
      (0 ≤ slots1)%Z → ∃ w' n, issue_batch s t id payload a cs slots1 issued1 rem1 w1
            = (w', Ok ((issued1 + Z.of_nat n)%Z, (rem1 - Z.of_nat n)%Z)) ∧
          (Z.of_nat n ≤ slots1)%Z ∧ batch_done t id r a (c :: cs) w1 w' n) as IH'.
    { intros w1 slots1 issued1 rem1 Hoff Hs1. apply NoDup_cons in Hnd as [_ Hnd].
      destruct (IH slots1 issued1 rem1 w1 Hnd) as (w' & n & ? & ? & ?); [|done|].
      - eapply all_candidates_same; [exact Hoff|]. by eapply all_candidates_tail.
      - exists w', n. split_and!; [done..|]. eapply batch_done_mono; [|done]. set_solver. }
    simpl. case_bool_decide as Hz.
    { exists w, 0. rewrite Z.add_0_r, Z.sub_0_r. split_and!; [done|lia|apply batch_done_refl]. }
    unfold mbind at 1, M_bind at 1, gets. fold (sees w c).
    destruct (sees w c) eqn:Hsee; simpl; [|by apply IH'].
    unfold mbind at 1, M_bind at 1, attempt at 1.
    pose proof (IssueUpdate_batch_done t id r a (c :: cs) (Keyring s) c payload ("rollout:" +:+ uuid_string id) w) as B1.
    pose proof (Issue_off_commands (Keyring s) t c UPDATE_AGENT (Marshal s payload) None ("rollout:" +:+ uuid_string id) w) as Hoff.
    unfold IssueUpdate in *. unfold via, dbv in Hoff.
    destruct (Issue _ _ _ _ _ _ _ w) as [w1 [cid|e]] eqn:Hi; simpl in B1, Hoff; symmetry in Hoff.
    2: { destruct (IH' w1 slots issued rem Hoff Hslots) as (w' & n & Hr & Hn & B2).
         exists w', n. split_and!; [done|done|]. rewrite <- (Nat.add_0_r n). by eapply batch_done_trans. }
    apply Issue_row in Hi as (cm & Hcm & ? & ? & ?).
    unfold mbind at 1, M_bind at 1, attempt at 1, on_db.
    destruct (AddRolloutDevice id c cid a (w_db w1)) as [d2 [[]|e]] eqn:Hadd.
    2: { assert (d2 = w_db w1) as ->.
         { revert Hadd. unfold AddRolloutDevice. repeat case_match; by intros [=]. }
         replace (set_db (w_db w1) w1) with w1 by by destruct w1.
         destruct (IH' w1 slots issued rem Hoff Hslots) as (w' & n & Hr & Hn & B2).
         exists w', n. split_and!; [done|done|]. rewrite <- (Nat.add_0_r n). by eapply batch_done_trans. }
    apply AddRolloutDevice_Ok in Hadd as [Hfree ->].
    assert (all_candidates (w_db w1) id r (c :: cs)) as Hall1 by (by eapply all_candidates_same).
    destruct (Hall1 c) as (dv & Hdv & Hcand); [set_solver|].
    set (w2 := set_db (add_row id c cid a (w_db w1)) w1).
    assert (batch_done t id r a (c :: cs) w1 w2 1) as B2.
    { eapply add_row_batch_done; eauto; [set_solver|]. rewrite <- Hsee. apply sees_live, B1. }
    apply NoDup_cons in Hnd as [Hnin Hnd].
    destruct (IH (slots - 1)%Z (issued + 1)%Z (rem - 1)%Z w2 Hnd) as (w' & n & Hr & Hn & B3); [|lia|].
    { intros k Hk. destruct (Hall1 k) as (v & Hv & Hk'); [set_solver|]. exists v. split; [done|].
      simpl. rewrite candidate_add_row; [done|]. by intros ->. }
    exists w', (n + (1 + 0)). split_and!; [|lia|].
    + simpl. fold w2. rewrite Hr. do 3 f_equal; lia.
    + eapply batch_done_trans; [eapply batch_done_trans; [exact B1|exact B2]|].
      eapply batch_done_mono; [|exact B3]. set_solver.
Qed.

(** ** The whole pass *)

Lemma RolloutCandidates_spec t id r d :
  agent_rollouts d !! id = Some r → ro_tenant r = t →
  NoDup (RolloutCandidates t id d) ∧ all_candidates d id r (RolloutCandidates t id d) ∧
  (∀ c v, devices d !! c = Some v → candidate d id r (c, v) = true → c ∈ RolloutCandidates t id d).
Proof.
  intros Hr <-. unfold RolloutCandidates. rewrite Hr, bool_decide_eq_true_2 by done.
  set (l := List.filter (candidate d id r) (map_to_list (devices d))).
  assert ((order_by by_hostname l).*1 ≡ₚ l.*1) as Hp by (apply fmap_Permutation, order_by_perm).
  split_and!.
  - rewrite Hp. unfold l. clear. eapply NoDup_fmap_fst.
    + intros k a b Ha Hb. apply list_elem_of_In, filter_In in Ha as [Ha _], Hb as [Hb _].
      apply list_elem_of_In, elem_of_map_to_list in Ha, Hb. congruence.
    + apply NoDup_ListNoDup, List.NoDup_filter, NoDup_ListNoDup, NoDup_map_to_list.
  - intros c. rewrite Hp. intros ([k v] & -> & Hin)%list_elem_of_fmap.
    apply list_elem_of_In, filter_In in Hin as [Hin Hc]. apply list_elem_of_In, elem_of_map_to_list in Hin.
    eauto.
  - intros c v Hv Hc. rewrite Hp. apply list_elem_of_fmap. exists (c, v). split; [done|].
    by apply list_elem_of_In, filter_In; split; [apply list_elem_of_In, elem_of_map_to_list|].
Qed.

#[export] Instance emit_off_commands e : Steps (keeps (dbv (λ d, (off_commands d, commands d)))) (emit s e).
Proof.
  intros w. unfold emit. destruct (Notify s) as [em|] eqn:E; [|done].
  by destruct (@Emit_frame em (Notify_ok em eq_refl) e w) as [d' ->].
Qed.

(** What the state changes of a rollout leave alone, and what the notifications and
    the audit log do. *)
Definition beside (d : db) := (tenants d, devices d, agent_releases d, agent_rollout_devices d, commands d).

#[export] Instance SetRolloutState_beside t id from to a : Steps (keeps beside) (SetRolloutState t id from to a).
Proof. intros d. unfold SetRolloutState, GetRollout, mbind, M_bind. by repeat case_match; simplify_eq/=. Qed.
#[export] Instance AppendAudit_quiet t a b c x det ip r :
  Steps (keeps (λ d, (agent_rollouts d, beside d))) (AppendAudit t a b c x det ip r).
Proof. intros d. unfold AppendAudit. by destruct (has_tenant t d). Qed.
#[export] Instance emit_quiet e : Steps (keeps (dbv (λ d, (agent_rollouts d, beside d)))) (emit s e).
Proof.
  intros w. unfold emit. destruct (Notify s) as [em|] eqn:E; [|done].
  by destruct (@Emit_frame em (Notify_ok em eq_refl) e w) as [d' ->].
Qed.

Definition resolved (t id : uuid) (w : world) : world :=
  set_db (ResolveRolloutDevices t id (w_now w) (timeout s) (w_db w)).1 w.
Definition newly_failed (t id : uuid) (w : world) : nat :=
  count_resolved "failed" (w_db w) t id (w_now w - timeout s)%Z.
(** The test of step 2. *)
Definition pauses (t id : uuid) (r : Rollout) (w : world) : bool :=
  (0 <? ro_max_failures r)%Z && (0 <? newly_failed t id w)%nat &&
  (ro_max_failures r <=? Z.of_nat (progress (w_db (resolved t id w)) id "failed"))%Z.

Definition set_state (t id : uuid) (to : string) (a : time) (w : world) : gmap uuid Rollout :=
  agent_rollouts (SetRolloutState t id ["active"] to a (w_db w)).1.

(** The last statements of steps 2 and 4: a state change, then calls that only write
    the audit log and the outbox. *)
Lemma set_state_then {A} ctx t id to a (k : unit → M world A) w :
  (∀ u, Steps (keeps (dbv (λ d, (agent_rollouts d, beside d)))) (k u)) →
  let w' := ((wrap ctx (on_db (SetRolloutState t id ["active"] to a)) ≫= k) w).1 in
  dbv beside w' = dbv beside w ∧ agent_rollouts (w_db w') = set_state t id to a w.
Proof.
  intros Hk. pose proof (SetRolloutState_beside t id ["active"] to a (w_db w)) as Hb.
  unfold set_state, mbind, M_bind, wrap, map_err, on_db, via in *.
  destruct (SetRolloutState t id ["active"] to a (w_db w)) as [d1 [[]|e]]; simpl in *; [|done].
  specialize (Hk tt (set_db d1 w)). unfold via, dbv in *. simpl in Hk. injection Hk as Hro Hbe.
  rewrite <- Hro. split; [|done]. unfold beside in *. congruence.
Qed.

Lemma auto_pause_spec t id r n a w :
  let w' := (auto_pause s t id r n a w).1 in
  dbv beside w' = dbv beside w ∧ agent_rollouts (w_db w') = set_state t id "paused" a w.
Proof.
  apply set_state_then. intros _. apply bind_steps; [|intros; apply _].
  apply attempt_steps, on_db_steps, AppendAudit_quiet.
Qed.

(** Step 4 runs with exact counters. *)
Lemma complete_if_done_spec t id r r0 sum a w :
  let w' := (complete_if_done s t id r sum (Z.of_nat (progress (w_db w) id "issued"))
               (Z.of_nat (remaining (w_db w) id r0)) a w).1 in
  dbv beside w' = dbv beside w ∧
  agent_rollouts (w_db w') =
    if bool_decide (progress (w_db w) id "issued" = 0) && bool_decide (remaining (w_db w) id r0 = 0)
    then set_state t id "completed" a w else agent_rollouts (w_db w).
Proof.
  unfold complete_if_done.
  rewrite (bool_decide_ext (Z.of_nat (progress (w_db w) id "issued") = 0%Z) (progress (w_db w) id "issued" = 0)) by lia.
  rewrite (bool_decide_ext (Z.of_nat (remaining (w_db w) id r0) = 0%Z) (remaining (w_db w) id r0 = 0)) by lia.
  destruct (_ && _); [|done]. apply set_state_then. intros _. apply _.
Qed.

(** Everything a pass over an active rollout can come to. [r] is the snapshot the
    pass was given and [r0] the row it finds. *)
Inductive outcome (t id : uuid) (r r0 : Rollout) (w w' : world) : Prop :=
  | out_paused :
      pauses t id r w = true →
      dbv beside w' = dbv beside (resolved t id w) →
      agent_rollouts (w_db w') = set_state t id "paused" (w_now w) (resolved t id w) →
      outcome t id r r0 w w'
  | out_issued w2 n :
      pauses t id r w = false →
      batch_done t id r0 (w_now w) (RolloutCandidates t id (w_db (resolved t id w))) (resolved t id w) w2 n →
      (Z.of_nat n ≤ Z.max 0 (ro_batch_size r - Z.of_nat (progress (w_db (resolved t id w)) id "issued")))%Z →
      dbv beside w' = dbv beside w2 →
      agent_rollouts (w_db w') =
        (if bool_decide (progress (w_db w2) id "issued" = 0) && bool_decide (remaining (w_db w2) id r0 = 0)
         then set_state t id "completed" (w_now w) w2 else agent_rollouts (w_db w2)) →
      outcome t id r r0 w w'
  | out_no_release :
      pauses t id r w = false →
      agent_releases (w_db w) !! (t, ro_version r) = None →
      w' = resolved t id w →
      outcome t id r r0 w w'.

Lemma issue_next_spec t id r r0 sum a w :
  agent_rollouts (w_db w) !! id = Some r0 → ro_tenant r0 = t →
  su_issued sum = Z.of_nat (progress (w_db w) id "issued") → su_remaining sum = Z.of_nat (remaining (w_db w) id r0) →
  (∃ w2 n, issue_next s t id r sum a w =
      (w2, Ok (Z.of_nat (progress (w_db w2) id "issued"), Z.of_nat (remaining (w_db w2) id r0))) ∧
    batch_done t id r0 a (RolloutCandidates t id (w_db w)) w w2 n ∧
    (Z.of_nat n ≤ Z.max 0 (ro_batch_size r - Z.of_nat (progress (w_db w) id "issued")))%Z) ∨
  (∃ e, issue_next s t id r sum a w = (w, Err e) ∧ agent_releases (w_db w) !! (t, ro_version r) = None).
Proof.
  intros Hr Ht Hi Hm. destruct (RolloutCandidates_spec t id r0 (w_db w) Hr Ht) as (Hnd & Hall & _).
  unfold issue_next. rewrite Hi, Hm. set (b := (ro_batch_size r - _)%Z).
  destruct (0 <? b)%Z eqn:Hb; bool_cases.
  2: { left. exists w, 0. split_and!; [done|apply batch_done_refl|lia]. }
  destruct (agent_releases (w_db w) !! (t, ro_version r)) as [rel|] eqn:Hrel.
  2: { right. exists (EWrap ("release " +:+ ro_version r) ErrNotFound). split; [|done].
       unfold mbind, M_bind, wrap, map_err, on_db, GetRelease. rewrite Hrel. by destruct w. }
  left. assert (wrap ("release " +:+ ro_version r) (on_db (GetRelease t (ro_version r))) w = (w, Ok rel)) as Hg.
  { unfold wrap, map_err, on_db, GetRelease. rewrite Hrel. by destruct w. }
  unfold mbind at 1, M_bind at 1. rewrite Hg.
  unfold mbind at 1, M_bind at 1, gets.
  destruct (issue_batch_done t id r0
    (mkUpdatePayload (ro_version r) (ReleaseURL s t (ro_version r)) (rl_sha256 rel) (rl_signature rel)) a
    _ b (Z.of_nat (progress (w_db w) id "issued")) (Z.of_nat (remaining (w_db w) id r0)) w Hnd Hall)
    as (w2 & n & -> & Hn & B); [lia|].
  exists w2, n. split_and!; [|done|lia]. do 3 f_equal.
  - rewrite (bd_issued _ _ _ _ _ _ _ _ B). lia.
  - rewrite (bd_remaining _ _ _ _ _ _ _ _ B). lia.
Qed.

Lemma Reconcile_outcome t id r r0 w :
  agent_rollouts (w_db w) !! id = Some r0 → ro_tenant r0 = t → ro_state r = "active" →
  outcome t id r r0 w (Reconcile s t id r w).1.
Proof.
  intros Hr Ht Hs. unfold Reconcile. rewrite bool_decide_eq_true_2 by done. simpl.
  set (w1 := resolved t id w).
  assert (GetRolloutSummary t id (w_db w1) = (w_db w1, Ok (summary_of (w_db w1) id r0))) as Hsum.
  { unfold GetRolloutSummary, RolloutSummaries. simpl. rewrite Hr, bool_decide_eq_true_2 by done.
    simpl. by rewrite lookup_insert_eq. }
  unfold mbind at 1, M_bind at 1, now. unfold mbind at 1, M_bind at 1, wrap at 1, map_err at 1, on_db at 1.
  simpl. fold (newly_failed t id w). change (set_db _ w) with w1.
  unfold mbind at 1, M_bind at 1, on_db at 1. rewrite Hsum.
  replace (set_db (w_db w1) w1) with w1 by done.
  change ((0 <? ro_max_failures r)%Z && (0 <? newly_failed t id w) &&
    (ro_max_failures r <=? su_failed (summary_of (w_db w1) id r0))%Z) with (pauses t id r w).
  destruct (pauses t id r w) eqn:Hp.
  { destruct (auto_pause_spec t id r (su_failed (summary_of (w_db w1) id r0)) (w_now w) w1) as [Hb Ha].
    apply out_paused; [exact Hp|exact Hb|exact Ha]. }
  destruct (issue_next_spec t id r r0 (summary_of (w_db w1) id r0) (w_now w) w1 Hr Ht eq_refl eq_refl)
    as [(w2 & n & Hi & B & Hn)|(e & Hi & Hrel)]; unfold mbind at 1, M_bind at 1; rewrite Hi; simpl.
  - destruct (complete_if_done_spec t id r r0 (summary_of (w_db w1) id r0) (w_now w) w2) as [Hb Ha].
    eapply out_issued; eauto.
  - by eapply out_no_release.
Qed.

(** ** What a pass guarantees *)

Lemma beside_eq a b :
  dbv beside a = dbv beside b →
  devices (w_db a) = devices (w_db b) ∧ agent_rollout_devices (w_db a) = agent_rollout_devices (w_db b) ∧
  commands (w_db a) = commands (w_db b).
Proof. unfold dbv, beside. by intros [= _ ? _ ? ?]. Qed.
Lemma beside_progress a b id st :
  dbv beside a = dbv beside b → progress (w_db a) id st = progress (w_db b) id st.
Proof. intros (Hd & Hp & _)%beside_eq. unfold progress. by rewrite Hd, Hp. Qed.

Lemma resolved_lookup t id w k :
  agent_rollout_devices (w_db (resolved t id w)) !! k =
  resolve_row (w_db w) t id (w_now w - timeout s)%Z (w_now w) k <$> agent_rollout_devices (w_db w) !! k.
Proof.
  unfold resolved. simpl. rewrite map_lookup_imap. by destruct (agent_rollout_devices (w_db w) !! k).
Qed.

Lemma resolved_progress_le t id w :
  progress (w_db (resolved t id w)) id "issued" ≤ progress (w_db w) id "issued".
Proof.
  unfold progress, resolved. simpl. rewrite count_rows_imap. apply count_mono. intros [k rd] _. simpl.
  intros Hp. apply andb_true_iff in Hp as [[Hk Hst]%andb_true_iff Hv]. rewrite Hk, Hv, andb_true_r. simpl.
  bool_cases. apply bool_decide_eq_true. revert Hst. unfold resolve_row.
  destruct (resolution _ _ _ _ _ _) as [[st det]|] eqn:E; [|done].
  apply resolution_Some in E as (_ & ? & _). done.
Qed.

(** Counting the newly failed is finding a row that went from issued to failed. *)
Lemma newly_failed_pos t id w :
  0 < newly_failed t id w ↔
  ∃ dev rd rd', agent_rollout_devices (w_db w) !! (id, dev) = Some rd ∧ rd_state rd = "issued" ∧
    agent_rollout_devices (w_db (resolved t id w)) !! (id, dev) = Some rd' ∧ rd_state rd' = "failed".
Proof.
  unfold newly_failed, count_resolved. rewrite count_rows_pos. split.
  - intros ([i dev] & rd & Hk & Hp). simpl in Hp.
    destruct (resolution _ _ _ _ _ _) as [[st det]|] eqn:E; [|done]. bool_cases. subst.
    apply resolution_Some in E as Hr. simpl in Hr. destruct Hr as (-> & Hiss & _).
    exists dev, rd, (resolve_row (w_db w) t id (w_now w - timeout s) (w_now w) (id, dev) rd).
    split_and!; [done|done|by rewrite resolved_lookup, Hk|]. unfold resolve_row. by rewrite E.
  - intros (dev & rd & rd' & Hk & Hi & Hk' & Hf). exists (id, dev), rd. split; [done|]. simpl.
    rewrite resolved_lookup, Hk in Hk'. simplify_eq/=. unfold resolve_row in Hf.
    destruct (resolution _ _ _ _ _ _) as [[st det]|]; [|congruence].
    simpl in Hf. by apply bool_decide_eq_true.
Qed.

(** C8. Never more than a batch in flight: a pass leaves at most as many devices in
    flight as there were, or as the batch size allows, whatever snapshot of the
    rollout it works from. *)
Theorem Reconcile_in_flight t id r r0 w :
  agent_rollouts (w_db w) !! id = Some r0 → ro_tenant r0 = t →
  (Z.of_nat (progress (w_db (Reconcile s t id r w).1) id "issued")
   ≤ Z.max (Z.of_nat (progress (w_db w) id "issued")) (ro_batch_size r))%Z.
Proof.
  intros Hr Ht. destruct (decide (ro_state r = "active")) as [Hs|Hs].
  2: { unfold Reconcile. rewrite bool_decide_eq_false_2 by done. simpl. lia. }
  pose proof (resolved_progress_le t id w) as Hle.
  destruct (Reconcile_outcome t id r r0 w Hr Ht Hs) as [_ Hb _|w2 n _ B Hn Hb _|_ _ ->].
  - rewrite (beside_progress _ _ _ _ Hb). lia.
  - rewrite (beside_progress _ _ _ _ Hb), (bd_issued _ _ _ _ _ _ _ _ B). lia.
  - lia.
Qed.

(** C23. Who is sent the update: every row a pass adds belongs to the rollout, for a
    device of the tenant that is not revoked, is in the target groups, does not run
    the version yet and is online, and it points to an update command addressed to
    that device. *)
Theorem Reconcile_sends t id r r0 w k rd :
  agent_rollouts (w_db w) !! id = Some r0 → ro_tenant r0 = t →
  agent_rollout_devices (w_db w) !! k = None →
  agent_rollout_devices (w_db (Reconcile s t id r w).1) !! k = Some rd →
  ∃ v c, k.1 = id ∧ devices (w_db w) !! k.2 = Some v ∧ targeted r0 v = true ∧ current r0 v = false ∧
    sees w k.2 = true ∧ rd = mkRolloutDevice (rd_command rd) "issued" "" (w_now w) None ∧
    commands (w_db (Reconcile s t id r w).1) !! rd_command rd = Some c ∧
    cm_tenant c = t ∧ cm_device c = k.2 ∧ cm_type c = "update_agent".
Proof.
  intros Hr Ht Hn Hk. destruct (decide (ro_state r = "active")) as [Hs|Hs].
  2: { unfold Reconcile in Hk. rewrite bool_decide_eq_false_2 in Hk by done. simpl in Hk. congruence. }
  assert (agent_rollout_devices (w_db (resolved t id w)) !! k = None) as Hn1 by by rewrite resolved_lookup, Hn.
  destruct (Reconcile_outcome t id r r0 w Hr Ht Hs) as [_ Hb _|w2 n _ B _ Hb _|_ _ Heq].
  - apply beside_eq in Hb as (_ & Hp & _). rewrite Hp, Hn1 in Hk. done.
  - apply beside_eq in Hb as (_ & Hp & Hc). rewrite Hp in Hk. rewrite Hc.
    destruct (bd_new _ _ _ _ _ _ _ _ B _ _ Hk Hn1) as (? & Hin & ? & ? & c & ? & ? & ? & ?).
    destruct (RolloutCandidates_spec t id r0 (w_db (resolved t id w)) Hr Ht) as (_ & Hall & _).
    destruct (Hall _ Hin) as (v & Hv & Hcand). unfold candidate in Hcand. simpl in Hcand.
    apply andb_true_iff in Hcand as [[Htg Hcur]%andb_true_iff _]. apply negb_true_iff in Hcur.
    exists v, c. by split_and!.
  - rewrite Heq in Hk. congruence.
Qed.

(** The row a state change writes, on a table that satisfies the invariant. *)
Lemma set_state_ok t id r to a w :
  rollouts_ok (agent_rollouts (w_db w)) → agent_rollouts (w_db w) !! id = Some r → ro_tenant r = t →
  ro_state r = "active" → to = "paused" ∨ to = "completed" →
  ∃ r', set_state t id to a w = <[id := r']> (agent_rollouts (w_db w)) ∧ ro_state r' = to.
Proof.
  intros Hok Hr Ht Hs Hto. unfold set_state, SetRolloutState. rewrite Hr.
  rewrite !bool_decide_eq_true_2 by (try done; rewrite Hs; set_solver). simpl.
  set (r' := ro_set_state to _).
  assert (rollout_open r' && other_open t id (w_db w) = false) as Hoo.
  { destruct (rollout_open r') eqn:Ho; [|done]. apply other_open_false. intros k x Hk Hx Hxo.
    apply (ok_one _ Hok k id x r Hk Hr); [congruence|done|]. by eapply rollout_open_state; eauto. }
  exists r'. destruct Hto as [-> | ->]; simpl in *; rewrite ?Hoo; by split.
Qed.

Definition became (w' : world) (id : uuid) (st : string) : Prop :=
  ∃ r', agent_rollouts (w_db w') !! id = Some r' ∧ ro_state r' = st.

Lemma became_insert w' id r T st :
  agent_rollouts (w_db w') = <[id := r]> T → became w' id st ↔ ro_state r = st.
Proof. unfold became. intros ->. rewrite lookup_insert_eq. naive_solver. Qed.
Lemma became_same w' id r st : agent_rollouts (w_db w') !! id = Some r → became w' id st ↔ ro_state r = st.
Proof. unfold became. intros ->. naive_solver. Qed.

(** The state a pass leaves, on a fresh snapshot. *)
Lemma Reconcile_state t id r w :
  rollouts_ok (agent_rollouts (w_db w)) → agent_rollouts (w_db w) !! id = Some r → ro_tenant r = t →
  ro_state r = "active" →
  let w' := (Reconcile s t id r w).1 in
  (became w' id "paused" ↔ pauses t id r w = true) ∧
  (became w' id "completed" → progress (w_db w') id "issued" = 0 ∧ remaining (w_db w') id r = 0) ∧
  (is_Some (agent_releases (w_db w) !! (t, ro_version r)) → pauses t id r w = false →
     progress (w_db w') id "issued" = 0 → remaining (w_db w') id r = 0 → became w' id "completed").
Proof.
  intros Hok Hr Ht Hs w'. pose proof (Reconcile_outcome t id r r w Hr Ht Hs) as Hout.
  fold w' in Hout. clearbody w'.
  destruct Hout as [Hp Hb Ha|w2 n Hp B Hn Hb Ha|Hp Hrel Heq]; rewrite Hp.
  - destruct (set_state_ok t id r "paused" (w_now w) (resolved t id w)) as (r' & Hr' & Hst); [done..|by left|].
    rewrite Hr' in Ha. rewrite !(became_insert _ _ _ _ _ Ha), Hst. done.
  - assert (agent_rollouts (w_db w2) = agent_rollouts (w_db w)) as Hsame.
    { pose proof (bd_fixed _ _ _ _ _ _ _ _ B) as Hf. unfold dbv, fixed in Hf. by injection Hf. }
    rewrite (beside_progress w' w2 id "issued" Hb).
    assert (remaining (w_db w') id r = remaining (w_db w2) id r) as ->.
    { apply beside_eq in Hb as (Hd & Hrows & _). unfold remaining, untouched. by rewrite Hd, Hrows. }
    rewrite Hsame in Ha. repeat case_bool_decide; simpl in Ha.
    2-4: rewrite <- Ha in Hr; rewrite !(became_same _ _ _ _ Hr), Hs; done.
    destruct (set_state_ok t id r "completed" (w_now w) w2) as (r' & Hr' & Hst);
      [by rewrite Hsame..|done|done|by right|].
    rewrite Hr' in Ha. rewrite !(became_insert _ _ _ _ _ Ha), Hst. done.
  - assert (agent_rollouts (w_db w') !! id = Some r) as Hr' by by rewrite Heq.
    rewrite !(became_same _ _ _ _ Hr'), Hs, Hrel. split_and!; [done|done|]. by intros [? ?].
Qed.

(** The rows that were there before a pass are as the resolution left them. *)
Lemma Reconcile_rows t id r r0 w k rd :
  agent_rollouts (w_db w) !! id = Some r0 → ro_tenant r0 = t → ro_state r = "active" →
  agent_rollout_devices (w_db w) !! k = Some rd →
  agent_rollout_devices (w_db (Reconcile s t id r w).1) !! k = agent_rollout_devices (w_db (resolved t id w)) !! k.
Proof.
  intros Hr Ht Hs Hk.
  destruct (Reconcile_outcome t id r r0 w Hr Ht Hs) as [_ Hb _|w2 n _ B _ Hb _|_ _ ->]; [| |done];
    apply beside_eq in Hb as (_ & -> & _); [done|].
  destruct (agent_rollout_devices (w_db (resolved t id w)) !! k) as [rd1|] eqn:E.
  - by apply (bd_old _ _ _ _ _ _ _ _ B).
  - by rewrite resolved_lookup, Hk in E.
Qed.
Lemma Reconcile_failed t id r r0 w :
  agent_rollouts (w_db w) !! id = Some r0 → ro_tenant r0 = t → ro_state r = "active" →
  progress (w_db (Reconcile s t id r w).1) id "failed" = progress (w_db (resolved t id w)) id "failed".
Proof.
  intros Hr Ht Hs.
  destruct (Reconcile_outcome t id r r0 w Hr Ht Hs) as [_ Hb _|w2 n _ B _ Hb _|_ _ ->]; [| |done];
    rewrite (beside_progress _ _ _ _ Hb); [done|].
  by apply (bd_other _ _ _ _ _ _ _ _ B).
Qed.

(** The circuit breaker: a pass over an active rollout pauses it exactly when a
    limit is set, some device failed in this very pass, and the failures so far reach
    the limit. So a resumed rollout is not paused again by old failures. *)
Theorem Reconcile_pauses t id r w :
  rollouts_ok (agent_rollouts (w_db w)) → agent_rollouts (w_db w) !! id = Some r → ro_tenant r = t →
  ro_state r = "active" →
  let w' := (Reconcile s t id r w).1 in
  became w' id "paused" ↔
  (0 < ro_max_failures r)%Z ∧ (ro_max_failures r ≤ Z.of_nat (progress (w_db w') id "failed"))%Z ∧
  ∃ dev rd rd', agent_rollout_devices (w_db w) !! (id, dev) = Some rd ∧ rd_state rd = "issued" ∧
    agent_rollout_devices (w_db w') !! (id, dev) = Some rd' ∧ rd_state rd' = "failed".
Proof.
  intros Hok Hr Ht Hs w'.
  destruct (Reconcile_state t id r w Hok Hr Ht Hs) as [Hpz _]. fold w' in Hpz. rewrite Hpz.
  unfold w'. rewrite (Reconcile_failed t id r r w Hr Ht Hs).
  unfold pauses. rewrite !andb_true_iff, Z.ltb_lt, Z.leb_le, Nat.ltb_lt, newly_failed_pos.
  split; [intros [[? (dev & rd & rd' & Hk & Hi & Hk' & Hf)] ?] | intros (? & ? & dev & rd & rd' & Hk & Hi & Hk' & Hf)];
    [split_and!; try done | split_and!; try done]; exists dev, rd, rd'; split_and!; try done;
    by rewrite (Reconcile_rows t id r r w _ rd Hr Ht Hs Hk) in *.
Qed.

Lemma zero_progress d id st :
  progress d id st = 0 ↔
  ∀ dev rd v, agent_rollout_devices d !! (id, dev) = Some rd → devices d !! dev = Some v →
    dv_revoked v = false → rd_state rd ≠ st.
Proof.
  unfold progress. rewrite count_rows_zero. simpl. split.
  - intros Hall dev rd v Hk Hv Hrev Hst. specialize (Hall _ _ Hk). simpl in Hall.
    by rewrite Hv, Hrev, !bool_decide_eq_true_2 in Hall.
  - intros Hall [i dev] rd Hk. simpl. repeat (case_bool_decide; [|done]). subst. simpl.
    destruct (devices d !! dev) as [v|] eqn:Hv; [|done]. destruct (dv_revoked v) eqn:Hrev; [done|].
    by destruct (Hall dev rd v).
Qed.
Lemma zero_remaining d id r :
  remaining d id r = 0 ↔
  ∀ dev v, devices d !! dev = Some v → targeted r v = true → current r v = false →
    is_Some (agent_rollout_devices d !! (id, dev)).
Proof.
  unfold remaining. rewrite count_rows_zero. simpl. split.
  - intros Hall dev v Hv Ht Hc. specialize (Hall _ _ Hv). simpl in Hall. rewrite Ht, Hc in Hall.
    unfold untouched in Hall. case_bool_decide as Hn; [done|]. by apply not_eq_None_Some.
  - intros Hall dev v Hv. destruct (targeted r v) eqn:Ht; [|done]. destruct (current r v) eqn:Hc; [by rewrite andb_false_r|].
    destruct (Hall dev v Hv Ht Hc) as [rd Hrd]. unfold untouched. by rewrite Hrd.
Qed.

(** Nothing is left to do for a rollout: no device that still counts is in flight,
    and every targeted device runs the version or was acted on. *)
Definition finished (d : db) (id : uuid) (r : Rollout) : Prop :=
  ∀ dev v, devices d !! dev = Some v →
    (dv_revoked v = false → ∀ rd, agent_rollout_devices d !! (id, dev) = Some rd → rd_state rd ≠ "issued") ∧
    (targeted r v = true → current r v = true ∨ is_Some (agent_rollout_devices d !! (id, dev))).

Lemma finished_zero d id r : finished d id r ↔ progress d id "issued" = 0 ∧ remaining d id r = 0.
Proof.
  rewrite zero_progress, zero_remaining. unfold finished. split.
  - intros Hall. split; [intros dev rd v Hk Hv Hrev; by apply (Hall dev v Hv)|].
    intros dev v Hv Ht Hc. destruct (Hall dev v Hv) as [_ [?|?]]; congruence.
  - intros [H1' H2'] dev v Hv. split; [eauto|]. intros Ht. destruct (current r v) eqn:Hc; [by left|].
    right. eauto.
Qed.

(** A pass over an active rollout completes it exactly when nothing is left to do:
    completion is never declared early, and never withheld, unless this pass paused
    the rollout instead. *)
Theorem Reconcile_completes t id r w :
  rollouts_ok (agent_rollouts (w_db w)) → agent_rollouts (w_db w) !! id = Some r → ro_tenant r = t →
  ro_state r = "active" → is_Some (agent_releases (w_db w) !! (t, ro_version r)) →
  let w' := (Reconcile s t id r w).1 in
  became w' id "completed" ↔ finished (w_db w') id r ∧ ¬ became w' id "paused".
Proof.
  intros Hok Hr Ht Hs Hrel w'. destruct (Reconcile_state t id r w Hok Hr Ht Hs) as (Hp & Hc1 & Hc2).
  fold w' in Hp, Hc1, Hc2. clearbody w'. rewrite finished_zero. split.
  - intros Hc. split; [by apply Hc1|]. unfold became in *. intros (? & ? & ?). destruct Hc as (? & ? & ?). congruence.
  - intros [[Hi Hm] Hnp]. rewrite Hp in Hnp. apply not_true_false in Hnp. auto.
Qed.
End tick.

(** ** The fleet of [RolloutLife] *)
Section witnesses.
Import Toy Fleet.

Lemma service_online : online_from_hub service.
Proof. intros f [= <-] c h h' Hc. unfold Connected. by rewrite Hc. Qed.

(** The rollout 100 of version 2.0, just created. *)
Definition fresh : Rollout := mkRollout 1 "2.0" [] 1 1 "active" "admin:boss" 1 1 None.
Lemma fresh_row : agent_rollouts (w_db created) !! 100%N = Some fresh.
Proof. vm_compute. reflexivity. Qed.
Lemma created_ok : rollouts_ok (agent_rollouts (w_db created)).
Proof.
  assert (agent_rollouts (w_db created) = {[100%N := fresh]}) as -> by (vm_compute; reflexivity).
  split; intros; simplify_map_eq; done.
Qed.

Lemma Reconcile_in_flight_witness :
  progress (w_db ticked) 100 "issued" = 1 ∧
  (Z.of_nat (progress (w_db (Reconcile service 1 100 fresh created).1) 100 "issued") ≤ 1)%Z.
Proof.
  split; [vm_compute; reflexivity|].
  exact (Reconcile_in_flight service service_online service_notify_ok 1 100 fresh fresh created fresh_row eq_refl).
Defined.

Lemma Reconcile_sends_witness :
  ∃ rd c, agent_rollout_devices (w_db (Reconcile service 1 100 fresh created).1) !! (100%N, 9%N) = Some rd ∧
    commands (w_db (Reconcile service 1 100 fresh created).1) !! rd_command rd = Some c ∧ cm_device c = 9%N.
Proof.
  destruct (agent_rollout_devices (w_db (Reconcile service 1 100 fresh created).1) !! (100%N, 9%N)) as [rd|] eqn:Hk;
    [|vm_compute in Hk; discriminate Hk].
  destruct (Reconcile_sends service service_online service_notify_ok 1 100 fresh fresh created (100%N, 9%N) rd
    fresh_row eq_refl ltac:(vm_compute; reflexivity) Hk) as (v & c & _ & _ & _ & _ & _ & _ & Hc & _ & Hv & _).
  exists rd, c. split; [reflexivity|]. split; [exact Hc | exact Hv].
Defined.

(** The device reports failure: the next pass pauses the rollout, whose limit is 1. *)
Definition failed_world : world :=
  set_db (CompleteCommand 1 9 101 false "no disk" 6 (w_db ticked)).1 ticked.
Lemma failed_row : agent_rollouts (w_db failed_world) !! 100%N = Some fresh.
Proof. vm_compute. reflexivity. Qed.
Lemma failed_ok : rollouts_ok (agent_rollouts (w_db failed_world)).
Proof.
  assert (agent_rollouts (w_db failed_world) = agent_rollouts (w_db created)) as -> by (vm_compute; reflexivity).
  exact created_ok.
Qed.
Lemma Reconcile_pauses_witness :
  became (Reconcile service 1 100 fresh failed_world).1 100 "paused" ∧
  ¬ became (Reconcile service 1 100 fresh created).1 100 "paused".
Proof.
  split.
  - apply (Reconcile_pauses service service_online service_notify_ok 1 100 fresh failed_world
             failed_ok failed_row eq_refl eq_refl).
    split; [vm_compute; reflexivity|]. split; [vm_compute; discriminate|].
    exists 9%N. do 2 eexists. split; [vm_compute; reflexivity|]. split; [reflexivity|].
    split; [vm_compute; reflexivity|]. reflexivity.
  - intros Hp.
    apply (Reconcile_pauses service service_online service_notify_ok 1 100 fresh created
             created_ok fresh_row eq_refl eq_refl) in Hp as (_ & Hle & _).
    revert Hle. vm_compute. intros Hle. by apply Hle.
Defined.

(** The device comes back on 2.0: the next pass completes the rollout. *)
Definition updated_world : world :=
  set_db (set_devices (dv_set_agent_version "2.0" <$> devices (w_db ticked)) (w_db ticked)) ticked.
Lemma Reconcile_completes_witness :
  finished (w_db (Reconcile service 1 100 fresh updated_world).1) 100 fresh ∧
  ¬ became (Reconcile service 1 100 fresh created).1 100 "completed".
Proof.
  split.
  - apply (Reconcile_completes service service_online service_notify_ok 1 100 fresh updated_world).
    + assert (agent_rollouts (w_db updated_world) = agent_rollouts (w_db created)) as -> by (vm_compute; reflexivity).
      exact created_ok.
    + vm_compute. reflexivity.
    + reflexivity.
    + reflexivity.
    + vm_compute. by eexists.
    + eexists. split; vm_compute; reflexivity.
  - intros Hc.
    apply (Reconcile_completes service service_online service_notify_ok 1 100 fresh created
      created_ok fresh_row eq_refl eq_refl) in Hc as [Hfin _]; [|vm_compute; by eexists].
    destruct (devices (w_db (Reconcile service 1 100 fresh created).1) !! 9%N) as [v|] eqn:Hv;
      [|vm_compute in Hv; discriminate Hv].
    destruct (Hfin 9%N v Hv) as [Hiss _].
    eapply Hiss; [vm_compute in Hv; injection Hv as <-; reflexivity | vm_compute; reflexivity | reflexivity].
Defined.
End witnesses.
