(* ===== verification/RolloutConsole.v ===== *)
(** * What the console shows and does about rollouts

    The create and rollback handlers as state changes, and the arithmetic of the
    progress summary. *)

From stdpp Require Import gmap strings list.
From S2P Require Import Prelude Db Hub World StoreCore Commands StoreRollouts Http Rollout RolloutLife.

(** ** Rollback *)

Lemma insertRollout_Ok t r d d' :
  insertRollout t r d = (d', Ok tt) →
  is_Some (agent_releases d !! (t, nr_version r)) ∧ agent_rollouts d !! nr_id r = None ∧
  (rollout_open (mkRollout t (nr_version r) (nr_group_ids r) (nr_batch_size r) (nr_max_failures r) (nr_state r)
     (nr_created_by r) (pg_now d) (pg_now d) None) = true → no_other_open (agent_rollouts d) t (nr_id r)) ∧
  d' = set_agent_rollouts (<[nr_id r := mkRollout t (nr_version r) (nr_group_ids r) (nr_batch_size r)
         (nr_max_failures r) (nr_state r) (nr_created_by r) (pg_now d) (pg_now d) None]> (agent_rollouts d)) d.
Proof.
  unfold insertRollout. destruct (negb _); [done|]. destruct (agent_releases d !! _) eqn:Hrel; [|done].
  destruct (negb _); [done|]. case_bool_decide as Hid; [done|]. destruct (_ && _) eqn:Hoo; [done|].
  destruct (negb (has_tenant t d)); [done|]. intros [= <-].
  split_and!; [by eexists|by apply eq_None_not_Some| |done].
  intros Ho. rewrite Ho in Hoo. simpl in Hoo. by apply other_open_false.
Qed.

#[export] Instance ReplaceRollout_atomic t oldID next now : Atomic (ReplaceRollout t oldID next now).
Proof. apply _. Qed.

(** What a rollback leaves of the old rollout: an open one is cancelled now, a closed
    one stays as it is. *)
Definition rolled_back (old : Rollout) (now : time) : Rollout :=
  if rollout_open old
  then ro_set_state "cancelled" (ro_set_updated_at now (ro_set_finished_at (Some now) old)) else old.

Lemma ReplaceRollout_Ok t oldID next now d d' :
  ReplaceRollout t oldID next now d = (d', Ok tt) →
  ∃ old, agent_rollouts d !! oldID = Some old ∧ ro_tenant old = t ∧
    is_Some (agent_releases d !! (t, nr_version next)) ∧ agent_rollouts d !! nr_id next = None ∧
    agent_rollouts d' = <[nr_id next := mkRollout t (nr_version next) (nr_group_ids next) (nr_batch_size next)
         (nr_max_failures next) (nr_state next) (nr_created_by next) (pg_now d) (pg_now d) None]>
      (<[oldID := rolled_back old now]> (agent_rollouts d)).
Proof.
  unfold ReplaceRollout, transaction, mbind, M_bind, GetRollout.
  destruct (agent_rollouts d !! oldID) as [old|] eqn:Hold; [|done]. case_bool_decide as Ht; [|done].
  fold (rollout_open old). intros H. exists old. unfold rolled_back.
  destruct (rollout_open old); simpl in H;
    match type of H with context [insertRollout t next ?d1] =>
      destruct (insertRollout t next d1) as [d2 [[]|e]] eqn:Hi; simplify_eq end;
    apply insertRollout_Ok in Hi as (Hrel & Hn & _ & ->); simpl in *; split_and!; try done.
  - rewrite lookup_insert in Hn. by destruct (decide (oldID = nr_id next)).
  - by rewrite (insert_id _ _ _ Hold).
Qed.

Section console.
Context `{UuidText, Crypto, UuidSource}.

Lemma audit_quiet p a b c det r w :
  ∃ w', audit p a b c det r w = (w', Ok tt) ∧ agent_rollouts (w_db w') = agent_rollouts (w_db w).
Proof.
  unfold audit, audit_any, attempt, on_db, AppendAudit, mbind, M_bind.
  destruct (has_tenant _ _); simpl; eexists; by split.
Qed.

(** Rollback always answers, and is all or nothing. It answers 201 exactly when it
    replaced the rollout: the old one, if open, is cancelled and a new active one
    for the other version, with the same groups, batch size and limit, stands in its
    place. With any other answer the rollout table is untouched. *)
Theorem rollbackRollout_spec p raw version w :
  ∃ w' resp, rollbackRollout p raw version w = (w', Ok resp) ∧
  if bool_decide (rs_code resp = 201%Z) then
    ∃ id nid old new, uuid_parse raw = Some id ∧ agent_rollouts (w_db w) !! id = Some old ∧
      ro_tenant old = p_tenant p ∧ version ≠ ro_version old ∧
      is_Some (agent_releases (w_db w) !! (p_tenant p, version)) ∧ agent_rollouts (w_db w) !! nid = None ∧
      agent_rollouts (w_db w') = <[nid := new]> (<[id := rolled_back old (w_now w)]> (agent_rollouts (w_db w))) ∧
      ro_tenant new = p_tenant p ∧ ro_version new = version ∧ ro_state new = "active" ∧
      ro_group_ids new = ro_group_ids old ∧ ro_batch_size new = ro_batch_size old ∧
      ro_max_failures new = ro_max_failures old
  else agent_rollouts (w_db w') = agent_rollouts (w_db w).
Proof.
  unfold rollbackRollout, with_pathID, writeErr.
  destruct (uuid_parse raw) as [id|]; [|by do 2 eexists].
  rewrite or_storeErr_run, on_db_query by apply _. unfold GetRollout.
  destruct (agent_rollouts (w_db w) !! id) as [old|] eqn:Hold; [case_bool_decide as Ht|]; simpl; [|by do 2 eexists..].
  destruct (_ || _) eqn:Hv; [by do 2 eexists|]. bool_cases.
  match goal with |- context [(uuid_New ≫= ?k) w] =>
    change ((uuid_New ≫= k) w) with (k (uuid_at (w_drawn w)) (mkWorld (w_db w) (w_hub w) (w_now w) (S (w_drawn w)))) end.
  cbn beta. set (w1 := mkWorld _ _ _ _).
  match goal with |- context [(now ≫= ?k) w1] => change ((now ≫= k) w1) with (k (w_now w) w1) end.
  cbn beta. rewrite or_storeErr_run. unfold on_db.
  destruct (ReplaceRollout _ _ _ _ _) as [d1 [[]|e]] eqn:Hrep.
  - apply ReplaceRollout_Ok in Hrep as (o & Ho & _ & Hrel & Hn & Hd1). simpl in *. simplify_eq.
    unfold mbind at 1, M_bind at 1.
    match goal with |- context [audit ?p ?a ?b ?c ?det ?r ?w2] =>
      destruct (audit_quiet p a b c det r w2) as (w3 & -> & Hq) end.
    simpl. do 2 eexists. split; [done|]. simpl. do 4 eexists. rewrite Hq. simpl. rewrite Hd1.
    split_and!; done.
  - apply (atomic (m:=ReplaceRollout _ _ _ _)) in Hrep. subst d1.
    match goal with |- context [storeErr e ?w2] =>
      destruct (storeErr_code e w2) as (resp & -> & Hc) end.
    do 2 eexists. split; [done|]. by rewrite bool_decide_eq_false_2 by lia.
Qed.
End console.

(** ** The summary adds up *)

(** The devices with a progress row, counted by row and by device. *)
Lemma touched_rows (d : db) id (p : Device → bool) (q : RolloutDevice → bool) :
  count (λ kv, p kv.2 && match agent_rollout_devices d !! (id, kv.1) with Some rd => q rd | None => false end)
    (map_to_list (devices d)) =
  count (λ kr : (uuid * uuid) * RolloutDevice, bool_decide (kr.1.1 = id) && q kr.2 &&
           match devices d !! kr.1.2 with Some v => p v | None => false end)
    (map_to_list (agent_rollout_devices d)).
Proof.
  unfold count. rewrite <- (length_fmap fst (List.filter _ (map_to_list (devices d)))).
  rewrite <- (length_fmap (snd ∘ fst) (List.filter _ (map_to_list (agent_rollout_devices d)))).
  apply Permutation_length, NoDup_Permutation.
  - apply NoDup_fmap_fst.
    + intros k a b Ha Hb. apply list_elem_of_In, filter_In in Ha as [Ha _], Hb as [Hb _].
      apply list_elem_of_In, elem_of_map_to_list in Ha, Hb. congruence.
    + apply NoDup_ListNoDup, List.NoDup_filter, NoDup_ListNoDup, NoDup_map_to_list.
  - apply NoDup_fmap_2_strong.
    + intros [[i v] rd] [[i' v'] rd'] Ha Hb Heq. simpl in Heq. subst v'.
      apply list_elem_of_In, filter_In in Ha as [Ha Hp], Hb as [Hb Hq]. simpl in *. bool_cases. subst.
      apply list_elem_of_In, elem_of_map_to_list in Ha, Hb. congruence.
    + apply NoDup_ListNoDup, List.NoDup_filter, NoDup_ListNoDup, NoDup_map_to_list.
  - intros dev. rewrite !list_elem_of_fmap. split.
    + intros ([dev' v] & -> & Hin). apply list_elem_of_In, filter_In in Hin as [Hin Hp].
      apply list_elem_of_In, elem_of_map_to_list in Hin. simpl in *. apply andb_true_iff in Hp as [Hp Hq].
      destruct (agent_rollout_devices d !! (id, dev')) as [rd|] eqn:Hrd; [|done].
      exists ((id, dev'), rd). split; [done|]. apply list_elem_of_In, filter_In. split.
      * by apply list_elem_of_In, elem_of_map_to_list.
      * simpl. by rewrite Hin, Hp, Hq, bool_decide_eq_true_2.
    + intros ([[i dev'] rd] & -> & Hin). apply list_elem_of_In, filter_In in Hin as [Hin Hp].
      apply list_elem_of_In, elem_of_map_to_list in Hin. simpl in *.
      apply andb_true_iff in Hp as [[Hi Hq]%andb_true_iff Hp]. bool_cases. subst i.
      destruct (devices d !! dev') as [v|] eqn:Hv; [|done].
      exists (dev', v). split; [done|]. apply list_elem_of_In, filter_In. split.
      * by apply list_elem_of_In, elem_of_map_to_list.
      * simpl. by rewrite Hp, Hin, Hq.
Qed.

(** Every row of a device that still counts is about a targeted device. *)
Definition rows_targeted (d : db) (id : uuid) (r : Rollout) : Prop :=
  ∀ dev rd v, agent_rollout_devices d !! (id, dev) = Some rd → devices d !! dev = Some v →
    dv_revoked v = false →
    targeted r v = true ∧ (rd_state rd = "issued" ∨ rd_state rd = "updated" ∨ rd_state rd = "failed").

(** The six numbers of the summary add up, as long as every device that was sent
    the update is still targeted: each targeted device is counted exactly once, as
    already current, in flight, updated, failed or remaining. *)
Theorem summary_adds_up d id r :
  rows_targeted d id r →
  let s := summary_of d id r in
  su_targeted s = (su_already_current s + su_issued s + su_updated s + su_failed s + su_remaining s)%Z.
Proof.
  intros Hrows. simpl. set (L := map_to_list (devices d)).
  assert (∀ st, progress d id st =
    count (λ kv, targeted r kv.2 && match agent_rollout_devices d !! (id, kv.1) with
                                    | Some rd => bool_decide (rd_state rd = st) | None => false end) L) as Hp.
  { intros st. rewrite (touched_rows d id (targeted r) (λ rd, bool_decide (rd_state rd = st))). unfold progress.
    apply count_rows_ext. intros [i dev] rd Hk. simpl. destruct (bool_decide (i = id)) eqn:Hi; [|done]. simpl.
    destruct (bool_decide (rd_state rd = st)); [|done]. simpl. bool_cases. subst i.
    destruct (devices d !! dev) as [v|] eqn:Hv; [|done]. destruct (dv_revoked v) eqn:Hrev; simpl.
    - unfold targeted. by rewrite Hrev, andb_false_r.
    - by destruct (Hrows dev rd v Hk Hv Hrev) as [-> _]. }
  rewrite !Hp. clear Hp.
  assert (count (λ kv, targeted r kv.2) L =
    count (λ kv, targeted r kv.2 && untouched d id kv.1 && current r kv.2) L +
    count (λ kv, targeted r kv.2 && match agent_rollout_devices d !! (id, kv.1) with
       Some rd => bool_decide (rd_state rd = "issued") | None => false end) L +
    count (λ kv, targeted r kv.2 && match agent_rollout_devices d !! (id, kv.1) with
       Some rd => bool_decide (rd_state rd = "updated") | None => false end) L +
    count (λ kv, targeted r kv.2 && match agent_rollout_devices d !! (id, kv.1) with
       Some rd => bool_decide (rd_state rd = "failed") | None => false end) L +
    count (λ kv, targeted r kv.2 && untouched d id kv.1 && negb (current r kv.2)) L) as ->; [|lia].
  assert (∀ kv, kv ∈ L → devices d !! kv.1 = Some kv.2) as HL.
  { intros [k v]. apply elem_of_map_to_list. }
  induction L as [|[dev v] L IH]; [done|]. rewrite !count_cons, IH by set_solver. clear IH.
  simpl. destruct (targeted r v) eqn:Ht; simpl; [|lia]. unfold untouched.
  destruct (agent_rollout_devices d !! (id, dev)) as [rd|] eqn:Hrd; simpl.
  - assert (dv_revoked v = false) as Hrev.
    { unfold targeted in Ht. by bool_cases. }
    assert (devices d !! dev = Some v) as Hv by (apply (HL (dev, v)); set_solver).
    destruct (Hrows dev rd v Hrd Hv Hrev) as [_ [Hs|[Hs|Hs]]]; rewrite Hs; simpl; lia.
  - destruct (current r v); simpl; lia.
Qed.

Section witnesses.
Import Toy Fleet.

Definition grouped : Rollout := mkRollout 1 "2.0" [5%N] 1 1 "active" "admin:boss" 1 1 None.
(** Device 9 in group 5 was sent the update of a rollout to group 5. *)
Definition grouped_db : db :=
  set_agent_rollout_devices {[(100%N, 9%N) := mkRolloutDevice 101 "issued" "" 5 None]}
    (set_agent_rollouts {[100%N := grouped]}
      (set_devices (dv_set_group (Some 5%N) <$> devices fleet_db)
        (set_device_groups {[5%N := mkDeviceGroup 1 "lab"]} fleet_db))).

Lemma summary_adds_up_witness :
  rows_targeted grouped_db 100 grouped ∧
  su_targeted (summary_of grouped_db 100 grouped) = 1%Z ∧
  let s := summary_of grouped_db 100 grouped in
  su_targeted s = (su_already_current s + su_issued s + su_updated s + su_failed s + su_remaining s)%Z.
Proof.
  assert (rows_targeted grouped_db 100 grouped) as Hrows.
  { intros dev rd v Hk Hv _. unfold grouped_db in Hk. simpl in Hk.
    apply lookup_singleton_Some in Hk as [[= <-] <-].
    vm_compute in Hv. injection Hv as <-. split; [vm_compute; reflexivity | left; reflexivity]. }
  split; [exact Hrows|]. split; [vm_compute; reflexivity|]. exact (summary_adds_up grouped_db 100 grouped Hrows).
Defined.

(** Without the condition the numbers do not add up: an administrator moves the device
    to another group while its update is in flight. *)
Example summary_after_move :
  let d := (SetDeviceGroup 1 9 None grouped_db).1 in
  let s := summary_of d 100 grouped in
  (su_targeted s, su_already_current s + su_issued s + su_updated s + su_failed s + su_remaining s)%Z = (0, 1)%Z.
Proof. vm_compute. reflexivity. Qed.
End witnesses.
