(* ===== verification/Console.v ===== *)
(** * Devices, tokens, the audit log and tenants in the console

    Models the handlers of [internal/server/httpapi] in [devices.go], [tokens.go],
    [auditlog.go], [health.go] and [provider.go]. *)

From stdpp Require Import gmap strings list.
From S2P Require Import Prelude GoStr Db Hub World StoreCore StoreAdmins Commands Enroll Notify Http Alerting Authn Rollout Bootstrap App.

Section console.
Context `{UuidText, UuidSource, Crypto, Pki, Hasher, Passwords, KeyLib}.
Context (keys : uuid → result Keys) (MarshalUpdate : UpdatePayload → string) (ReleaseURL : uuid → string → string).

(** ** devices.go *)

Definition deviceJSON (id : uuid) (v : Device) (now : time) (connected : bool) : json :=
  JO [("id", JS (uuid_string id)); ("hostname", JS (dv_hostname v)); ("status", JS (Status v now)); ("connected", JB connected);
      ("group_id", jopt (λ g, JS (uuid_string g)) (dv_group v)); ("os_build", JS (dv_os_build v)); ("agent_version", JS (dv_agent_version v));
      ("ip_addresses", JA (JS <$> dv_ips v)); ("logged_on_user", JS (dv_logged_on_user v)); ("uptime_seconds", JN (dv_uptime_seconds v));
      ("last_seen_at", jopt jtime (dv_last_seen_at v)); ("cert_expires_at", jtime (dv_cert_expires_at v));
      ("enrolled_at", jtime (dv_enrolled_at v)); ("asr_available", jopt JB (dv_asr_available v))].

(** The query filters; an empty one keeps every device. *)
Definition device_wanted (wantStatus wantGroup : string) (now : time) (v : Device) : bool :=
  (bool_decide (wantStatus = "") || bool_decide (Status v now = wantStatus)) &&
  (bool_decide (wantGroup = "") || match dv_group v with Some g => bool_decide (uuid_string g = wantGroup) | None => false end).

Definition listDevices (p : principal) (wantStatus wantGroup : string) : M world response :=
  devs ← gets (λ w, ListDevices (p_tenant p) (w_db w));
  t ← now;
  h ← gets w_hub;
  writeJSON 200 (JA ((λ kv : uuid * Device, deviceJSON kv.1 kv.2 t (Connected kv.1 h)) <$>
                       List.filter (λ kv, device_wanted wantStatus wantGroup t kv.2) devs)).

Definition getDevice (p : principal) (rawID : string) : M world response :=
  with_pathID rawID (λ id,
    or_storeErr (on_db (GetDevice (p_tenant p) id)) (λ v,
      t ← now;
      h ← gets w_hub;
      let code := if Allows (p_role p) "admin"
                  then match keys (p_tenant p) with Ok k => [("uninstall_code", JS (UninstallCode k id))] | Err _ => [] end
                  else [] in
      writeJSON 200 (JO (("device", deviceJSON id v t (Connected id h)) :: code)))).

(** The status a revoked device's stream ends with ([RevokedError]). *)
Definition RevokedError : cause := Cause "rpc error: code = Unauthenticated desc = device revoked".

Definition revokeDevice (p : principal) (rawID : string) : M world response :=
  with_pathID rawID (λ id,
    or_storeErr (on_db (RevokeDevice (p_tenant p) id)) (λ _,
      _ ← modify (λ w, set_hub (Disconnect id RevokedError (w_hub w)) w);
      _ ← audit p "device.revoke" "device" (uuid_string id) [] "success";
      writeHeader 204)).

Definition updatePayload (tenantID : uuid) (rel : string * Release) : UpdatePayload :=
  mkUpdatePayload rel.1 (ReleaseURL tenantID rel.1) (rl_sha256 rel.2) (rl_signature rel.2).

Definition issue_for (p : principal) (id : uuid) (typ : CommandType) : M world response :=
  let actor := "admin:" +:+ p_email p in
  let done cmdID := writeJSON 201 (JO [("id", JS (uuid_string cmdID))]) in
  if bool_decide (typ = UPDATE_AGENT) then
    r ← attempt (on_db (LatestRelease (p_tenant p)));
    match r with
    | Err e => if is_err ErrNotFound e then writeErr 409 "no agent release uploaded" else storeErr e
    | Ok rel => or_storeErr (IssueUpdate keys MarshalUpdate (p_tenant p) id (updatePayload (p_tenant p) rel) actor) done
    end
  else or_storeErr (Issue keys (p_tenant p) id typ "" (Some (p_admin p)) actor) done.

Definition issueCommand (p : principal) (rawID type_ : string) : M world response :=
  with_pathID rawID (λ id,
    match ParseType type_ with
    | Err e => writeErrOf 400 e
    | Ok typ =>
        or_storeErr (on_db (GetDevice (p_tenant p) id)) (λ v,
          if dv_revoked v then writeErr 409 "device revoked" else issue_for p id typ)
    end).

Definition commandJSON (kc : uuid * Command) : json :=
  let c := kc.2 in
  JO [("id", JS (uuid_string kc.1)); ("type", JS (cm_type c)); ("state", JS (cm_state c)); ("result", JS (cm_result c));
      ("issued_at", jtime (cm_issued_at c)); ("expires_at", jtime (cm_expires_at c)); ("completed_at", jopt jtime (cm_completed_at c))].
Definition listDeviceCommands (p : principal) (rawID : string) (limit : option Z) : M world response :=
  with_pathID rawID (λ id,
    cmds ← gets (λ w, ListDeviceCommands (p_tenant p) id (Z.to_nat (queryInt limit 50 500)) (w_db w));
    writeJSON 200 (JA (commandJSON <$> cmds))).

(** ** tokens.go *)

Definition listGroups (p : principal) : M world response :=
  groups ← gets (λ w, ListDeviceGroups (p_tenant p) (w_db w));
  writeJSON 200 (JA ((λ kg : uuid * DeviceGroup, JO [("id", JS (uuid_string kg.1)); ("name", JS (gr_name kg.2))]) <$> groups)).

Definition createGroup (p : principal) (rawName : string) : M world response :=
  let name := TrimSpace rawName in
  if bool_decide (name = "") then writeErr 400 "name is required"
  else
    id ← uuid_New;
    or_storeErr (on_db (CreateDeviceGroup id (p_tenant p) name)) (λ id,
      _ ← audit p "group.create" "group" (uuid_string id) [("name", JStr name)] "success";
      writeJSON 201 (JO [("id", JS (uuid_string id))])).

Definition renameGroup (p : principal) (rawID rawName : string) : M world response :=
  with_pathID rawID (λ id,
    let name := TrimSpace rawName in
    if bool_decide (name = "") then writeErr 400 "name is required"
    else or_storeErr (on_db (RenameDeviceGroup (p_tenant p) id name)) (λ _,
      _ ← audit p "group.rename" "group" (uuid_string id) [("name", JStr name)] "success";
      writeHeader 204)).

Definition deleteGroup (p : principal) (rawID : string) : M world response :=
  with_pathID rawID (λ id,
    or_storeErr (on_db (DeleteDeviceGroup (p_tenant p) id)) (λ _,
      _ ← audit p "group.delete" "group" (uuid_string id) [] "success";
      writeHeader 204)).

Definition setDeviceGroup (p : principal) (rawID : string) (group_id : option uuid) : M world response :=
  with_pathID rawID (λ id,
    or_storeErr (on_db (SetDeviceGroup (p_tenant p) id group_id)) (λ _,
      _ ← audit p "device.group" "device" (uuid_string id)
            [("group_id", match group_id with Some g => JStr (uuid_string g) | None => JNil end)] "success";
      writeHeader 204)).

Definition tokenJSON (kt : uuid * InstallToken) : json :=
  let t := kt.2 in
  JO [("id", JS (uuid_string kt.1)); ("name", JS (it_name t)); ("group_id", jopt (λ g, JS (uuid_string g)) (it_group t));
      ("expires_at", jopt jtime (it_expires_at t)); ("max_uses", jopt JN (it_max_uses t)); ("uses", JN (it_uses t));
      ("revoked", JB (it_revoked t)); ("created_at", jtime (it_created_at t))].
Definition listTokens (p : principal) : M world response :=
  toks ← gets (λ w, ListInstallTokens (p_tenant p) (w_db w));
  writeJSON 200 (JA (tokenJSON <$> toks)).

Record tokenReq := mkTokenReq { tq_name : string; tq_group_id : option uuid; tq_expires_in_hours : option Z; tq_max_uses : option Z }.
Definition positive (n : option Z) : bool := match n with Some n => (1 <=? n)%Z | None => true end.

Definition groupExists (p : principal) (id : uuid) (w : world) : bool :=
  existsb (λ kg, bool_decide (kg.1 = id)) (ListDeviceGroups (p_tenant p) (w_db w)).

(** [time.Duration(h) * time.Hour] wraps around. *)
Definition token_expiry (now : time) (hours : option Z) : option time := (λ h, now + wrap64 (h * Hour))%Z <$> hours.

Definition createToken (p : principal) (req : tokenReq) : M world response :=
  let name := TrimSpace (tq_name req) in
  if bool_decide (name = "") || negb (positive (tq_expires_in_hours req)) || negb (positive (tq_max_uses req))
  then writeErr 400 "name is required; expires_in_hours and max_uses must be positive when set"
  else
    known ← gets (λ w, match tq_group_id req with Some g => groupExists p g w | None => true end);
    if negb known then writeErr 400 "unknown group_id"
    else
      match keys (p_tenant p) with
      | Err _ => writeErr 500 "could not resolve tenant key"
      | Ok tk =>
          n ← draw;
          let '(full, hash) := Generate n (PinFromCert (CA_Cert tk)) in
          t ← now;
          id ← uuid_New;
          or_storeErr (on_db (CreateInstallToken id (p_tenant p) hash name (tq_group_id req)
                                (token_expiry t (tq_expires_in_hours req)) (tq_max_uses req) (Some (p_admin p)))) (λ id,
            _ ← audit p "token.create" "token" (uuid_string id) [("name", JStr name)] "success";
            writeJSON 201 (JO [("id", JS (uuid_string id)); ("token", JS full)]))
      end.

Definition revokeToken (p : principal) (rawID : string) : M world response :=
  with_pathID rawID (λ id,
    or_storeErr (on_db (RevokeInstallToken (p_tenant p) id)) (λ _,
      _ ← audit p "token.revoke" "token" (uuid_string id) [] "success";
      writeHeader 204)).

(** ** auditlog.go *)

Definition detail_json (v : aval) : json :=
  match v with
  | AF f => JF f
  | AJ JNil => JNull
  | AJ (JStr s) => JS s
  | AJ (JInt n) => JN n
  | AJ (JBool b) => JB b
  | AJ (JList l) => JA (JS <$> l)
  end.
Definition auditJSON (ke : N * AuditEntry) : json :=
  let e := ke.2 in
  JO [("id", JN (Z.of_N ke.1)); ("actor", JS (au_actor e)); ("action", JS (au_action e)); ("target_type", JS (au_target_type e));
      ("target_id", JS (au_target_id e)); ("detail", JO ((λ kv, (kv.1, detail_json kv.2)) <$> au_detail e)); ("ip", JS (au_ip e));
      ("result", JS (au_result e)); ("created_at", jtime (au_created_at e))].
(** [before] is 0 when it was absent or unparsable. *)
Definition listAudit (p : principal) (limit : option Z) (before : Z) : M world response :=
  entries ← gets (λ w, ListAudit (p_tenant p) (Z.to_nat (queryInt limit 100 500)) before (w_db w));
  writeJSON 200 (JA (auditJSON <$> entries)).

(** ** health.go *)

Definition health : M host response := writeJSON 200 (JO [("status", JS "ok")]).
(** [Ping] of the database is an argument. *)
Definition ready (ping : bool) : M host response :=
  if negb ping then writeJSON 503 (JO [("status", JS "unavailable"); ("database", JB false)])
  else
    h ← get;
    writeJSON 200 (JO [("status", JS "ok"); ("database", JB true); ("initialized", JB (bool_decide (is_Some (h_rt h))))]).

(** ** provider.go *)

Definition requireProvider {S} (c : Caller) (next : M S reply) : M S reply :=
  if negb (ad_provider (cl_admin c)) then answer (writeErr 403 "requires provider") else next.

Definition tenantJSON (kt : uuid * Tenant) : json :=
  JO [("id", JS (uuid_string kt.1)); ("name", JS (tn_name kt.2)); ("suspended", JB (tn_suspended kt.2)); ("created_at", jtime (tn_created_at kt.2))].
Definition listProviderTenants (p : principal) : M world response :=
  tenants ← gets (λ w, ListTenantDetails (w_db w));
  writeJSON 200 (JA (tenantJSON <$> tenants)).

Definition rename_tenant (p : principal) (id : uuid) (name : option string) (next : M world response) : M world response :=
  match name with
  | None => next
  | Some raw =>
      let name := TrimSpace raw in
      or_storeErr (on_db (RenameTenant id name)) (λ _,
        _ ← audit p "provider.tenant.rename" "tenant" (uuid_string id) [("name", JStr name)] "success";
        next)
  end.
Definition suspend_tenant (p : principal) (id : uuid) (suspended : option bool) (next : M world response) : M world response :=
  match suspended with
  | None => next
  | Some s =>
      or_storeErr (on_db (SetTenantSuspended id s)) (λ _,
        let action := if s then "provider.tenant.suspend" else "provider.tenant.unsuspend" in
        _ ← audit p action "tenant" (uuid_string id) [] "success";
        next)
  end.

Definition updateProviderTenant (p : principal) (rawID : string) (name : option string) (suspended : option bool) : M world response :=
  with_pathID rawID (λ id,
    if match name with Some n => bool_decide (TrimSpace n = "") | None => false end then writeErr 400 "name cannot be blank"
    else if bool_decide (suspended = Some true) && bool_decide (id = p_tenant p)
    then writeErr 400 "cannot suspend the provider's own tenant"
    else rename_tenant p id name (suspend_tenant p id suspended (writeHeader 204))).

Definition createProviderTenant (master : string) (p : principal) (org_name owner_email owner_password : string) : M world response :=
  let org := TrimSpace org_name in
  let email := ToLower (TrimSpace owner_email) in
  let detail := [("org", JStr org); ("owner", JStr email)] in
  if bool_decide (org = "") || negb (Contains email "@") || (String.length owner_password <? MinPasswordLen)%nat
  then writeErr 400 "org_name, a valid owner_email, and a password of at least 12 characters are required"
  else
    r ← attempt (provision_with_owner master org email owner_password);
    match r with
    | Err e => _ ← audit p "provider.tenant.create" "tenant" "" detail "failure"; storeErr e
    | Ok tid =>
        _ ← audit p "provider.tenant.create" "tenant" (uuid_string tid) detail "success";
        writeJSON 201 (JO [("tenant_id", JS (uuid_string tid))])
    end.
End console.
