(* ===== verification/Exports.v ===== *)
(** * CSV exports

    Models [internal/server/httpapi/exports.go]: the four exports with the paging of the
    audit log, and the format [encoding/csv] writes. Rows are written to the response as
    they are produced; here the file is their concatenation (a broken connection is not
    modelled). Shown: exports are complete and read back as they were. *)

From Stdlib Require Import Ascii.
From stdpp Require Import gmap strings list sorting.
From S2P Require Import Prelude GoStr Db Hub StoreCore World Commands Syslog Http StoreTelemetry StoreRingfence.

(** ** encoding/csv *)

(** [fieldNeedsQuotes], with the comma as the separator. *)
Definition csv_special (c : ascii) : bool :=
  Ascii.eqb c "010"%char || Ascii.eqb c "013"%char || Ascii.eqb c "034"%char || Ascii.eqb c ","%char.
Definition needs_quotes (field : string) : bool :=
  negb (bool_decide (field = "")) &&
  (bool_decide (field = "\.") || existsb csv_special (to_list field) || bool_decide (is_Some (strip_any space_runes (to_list field)))).
Definition double_quotes (l : bytes) : bytes :=
  flat_map (λ c, if Ascii.eqb c "034"%char then [c; c] else [c]) l.
Definition csv_field (field : string) : bytes :=
  if needs_quotes field then ["034"%char] ++ double_quotes (to_list field) ++ ["034"%char] else to_list field.
Fixpoint csv_fields (fields : list string) : bytes :=
  match fields with
  | [] => []
  | [f] => csv_field f
  | f :: fs => csv_field f ++ [","%char] ++ csv_fields fs
  end.
Definition csv_row (fields : list string) : bytes := csv_fields fields ++ ["010"%char].
Definition csv_text (rows : list (list string)) : string := of_list (flat_map csv_row rows).

(** ** The exports *)

Definition exportMaxRows : nat := Z.to_nat 100000.
Definition exportPage : nat := 1000.

Definition format_bool (b : bool) : string := if b then "true" else "false".
Definition export_name (name : string) (t : time) : string :=
  "freelocker-" +:+ name +:+ "-" +:+ String.substring 0 10 (RFC3339 t) +:+ ".csv".
(** [writeTruncationMarker]: the marker and empty fields. *)
Definition marker_row (fields : nat) : list string :=
  "TRUNCATED: export limit of 100000 rows reached; narrow the range or use the API" :: replicate (fields - 1) "".
Definition with_marker (truncated : bool) (fields : nat) (rows : list (list string)) : list (list string) :=
  if truncated then rows ++ [marker_row fields] else rows.

(** The loop of [exportAudit]: [read i before] is the answer to the [i]th query. *)
Fixpoint export_pages {A} (page max : nat) (read : nat → Z → list (N * A)) (fuel i : nat) (before : Z) (written : list (N * A))
    : list (N * A) :=
  match fuel with
  | 0 => written
  | S fuel =>
      if (max <=? length written)%nat then written
      else
        match read i before with
        | [] => written
        | entries =>
            let taken := take (max - length written) entries in
            let written := written ++ taken in
            let before := match last taken with Some e => Z.of_N e.1 | None => before end in
            if (length entries <? page)%nat then written
            else export_pages page max read fuel (S i) before written
        end
  end.
(** Each turn but the last writes a full page. *)
Definition export_fuel (page max : nat) : nat := S (max / page).

(** [joinIPs]. *)
Definition joinIPs (ips : list string) : string := Join ips " ".

Section exports.
Context `{UuidText}.
(** [json.Marshal] of an audit entry's detail. *)
Context (marshal_detail : list (string * aval) → option string).

Definition audit_header : list string := ["time"; "actor"; "action"; "target_type"; "target_id"; "result"; "ip"; "detail"].
Definition audit_row (ke : N * AuditEntry) : list string :=
  let e := ke.2 in
  let detail := match au_detail e with [] => "" | d => default "" (marshal_detail d) end in
  [RFC3339 (au_created_at e); au_actor e; au_action e; au_target_type e; au_target_id e; au_result e; au_ip e; detail].
Definition exportAudit (p : principal) : M world reply :=
  _ ← audit p "export" "audit" "" [("format", JStr "csv")] "success";
  t ← now;
  entries ← gets (λ w, export_pages exportPage exportMaxRows (λ _ before, ListAudit (p_tenant p) exportPage before (w_db w))
                         (export_fuel exportPage exportMaxRows) 0 0 []);
  mret (File (export_name "audit" t)
    (csv_text (audit_header :: with_marker (exportMaxRows <=? length entries)%nat 8 (audit_row <$> entries)))).

Definition devices_header : list string :=
  ["id"; "hostname"; "os_build"; "agent_version"; "ip_addresses"; "logged_on_user"; "last_seen_at"; "cert_expires_at"; "enrolled_at"; "revoked"].
Definition device_row (kv : uuid * Device) : list string :=
  let v := kv.2 in
  [uuid_string kv.1; dv_hostname v; dv_os_build v; dv_agent_version v; joinIPs (dv_ips v); dv_logged_on_user v;
   match dv_last_seen_at v with Some t => RFC3339 t | None => "" end; RFC3339 (dv_cert_expires_at v); RFC3339 (dv_enrolled_at v);
   format_bool (dv_revoked v)].
Definition exportDevices (p : principal) : M world reply :=
  devs ← gets (λ w, ListDevices (p_tenant p) (w_db w));
  t ← now;
  mret (File (export_name "devices" t) (csv_text (devices_header :: (device_row <$> devs)))).

Definition blocks_header : list string := ["time"; "device_id"; "sha256"; "path"; "signer"; "signer_verified"; "blocked"].
Definition block_row (kv : N * BlockEvent) : list string :=
  let e := kv.2 in
  [RFC3339 (be_at e); uuid_string (be_device e); be_sha256 e; be_path e; be_signer e; format_bool (be_signer_verified e); format_bool (be_blocked e)].
Definition exportBlocks (p : principal) : M world reply :=
  events ← gets (λ w, ListBlockEvents (p_tenant p) exportMaxRows (w_db w));
  t ← now;
  mret (File (export_name "blocks" t)
    (csv_text (blocks_header :: with_marker (exportMaxRows <=? length events)%nat 7 (block_row <$> events)))).

Definition ringfence_header : list string := ["time"; "device_id"; "hostname"; "kind"; "program"; "detail"; "enforced"].
Definition ringfence_row (e : N * RingfenceEventRow * string) : list string :=
  let '(_, r, hostname) := e in
  [RFC3339 (re_at r); uuid_string (re_device r); hostname; re_kind r; re_program r; re_detail r; format_bool (re_enforced r)].
Definition exportRingfenceEvents (p : principal) : M world reply :=
  events ← gets (λ w, ListRingfenceEvents (p_tenant p) exportMaxRows None (w_db w));
  t ← now;
  mret (File (export_name "ringfence-events" t)
    (csv_text (ringfence_header :: with_marker (exportMaxRows <=? length events)%nat 7 (ringfence_row <$> events)))).

Definition exportCSV (p : principal) (resource : string) : M world reply :=
  if bool_decide (resource = "audit.csv") then exportAudit p
  else if bool_decide (resource = "devices.csv") then exportDevices p
  else if bool_decide (resource = "blocks.csv") then exportBlocks p
  else if bool_decide (resource = "ringfence-events.csv") then exportRingfenceEvents p
  else mret (Answer (mkResponse 404 (JS "404 page not found"))). (* [http.NotFound] *)
End exports.

(** ** Exports are complete and read back as they were

    Shows that a CSV reader recovers exactly the rows that were exported, whatever the
    fields contain, and that paging through the audit log yields every entry once, newest
    first, up to the limit, even while the log grows. *)

(** *** A reader of CSV *)

(** RFC 4180 with LF line ends: at the start of a field, in a bare field, in a quoted one,
    or after a quote in it. *)
Inductive csv_mode := Start | Bare | Quoted | Closing.
Fixpoint parse_csv (m : csv_mode) (field : bytes) (row : list string) (rows : list (list string)) (l : bytes) : option (list (list string)) :=
  match l with
  | [] => match m, row with Start, [] => Some rows | _, _ => None end
  | c :: l =>
      let row' := row ++ [of_list field] in
      match m with
      | Quoted => if Ascii.eqb c "034"%char then parse_csv Closing field row rows l else parse_csv Quoted (field ++ [c]) row rows l
      | _ =>
          if Ascii.eqb c ","%char then parse_csv Start [] row' rows l
          else if Ascii.eqb c "010"%char then parse_csv Start [] [] (rows ++ [row']) l
          else match m with
               | Closing => if Ascii.eqb c "034"%char then parse_csv Quoted (field ++ [c]) row rows l else None
               | Start => if Ascii.eqb c "034"%char then parse_csv Quoted [] row rows l else parse_csv Bare (field ++ [c]) row rows l
               | _ => parse_csv Bare (field ++ [c]) row rows l
               end
      end
  end.
Definition read_csv (text : string) : option (list (list string)) := parse_csv Start [] [] [] (to_list text).

Lemma parse_bare s f row rows l m :
  existsb csv_special s = false → (m = Bare ∨ (m = Start ∧ s ≠ [])) →
  parse_csv m f row rows (s ++ l) = parse_csv Bare (f ++ s) row rows l.
Proof.
  revert m f. induction s as [|c s IH]; intros m f Hs Hm; [destruct Hm as [->|[_ ?]]; [by rewrite app_nil_r|done]|].
  simpl in Hs. apply orb_false_iff in Hs as [Hc Hs]. unfold csv_special in Hc.
  apply orb_false_iff in Hc as [[[Hnl Hcr]%orb_false_iff Hdq]%orb_false_iff Hcomma].
  cbn [app parse_csv]. rewrite Hcomma, Hnl, Hdq.
  replace (f ++ c :: s) with ((f ++ [c]) ++ s) by by rewrite <- app_assoc.
  destruct Hm as [->|[-> _]]; apply IH; auto.
Qed.

Lemma parse_quoted s f row rows l :
  parse_csv Quoted f row rows (double_quotes s ++ "034"%char :: l) = parse_csv Closing (f ++ s) row rows l.
Proof.
  revert f. induction s as [|c s IH]; intros f; [by rewrite app_nil_r|]. unfold double_quotes. cbn [flat_map]. fold (double_quotes s).
  replace (f ++ c :: s) with ((f ++ [c]) ++ s) by by rewrite <- app_assoc. rewrite <- IH.
  destruct (Ascii.eqb_spec c "034"%char) as [->|Hc]; [done|]. apply Ascii.eqb_neq in Hc. cbn [app parse_csv]. by rewrite Hc.
Qed.

(** Reading a field up to the separator after it. *)
Lemma parse_field f row rows sep l :
  sep = ","%char ∨ sep = "010"%char →
  parse_csv Start [] row rows (csv_field f ++ sep :: l) =
    if Ascii.eqb sep ","%char then parse_csv Start [] (row ++ [f]) rows l else parse_csv Start [] [] (rows ++ [row ++ [f]]) l.
Proof.
  intros Hsep. unfold csv_field. destruct (needs_quotes f) eqn:Hq.
  - rewrite <- !app_assoc. cbn [app parse_csv]. change (Ascii.eqb "034" ",") with false. change (Ascii.eqb "034" "010") with false. cbn iota.
    change (Ascii.eqb "034" "034") with true. cbn iota. rewrite parse_quoted. cbn [app].
    destruct Hsep as [->| ->]; cbn [parse_csv]; rewrite of_to_list; done.
  - assert (existsb csv_special (to_list f) = false) as Hs.
    { unfold needs_quotes in Hq. apply andb_false_iff in Hq as [Hq|Hq]; bool_cases; [by subst|done]. }
    destruct (to_list f) as [|c s] eqn:Hf.
    + assert (f = "") as -> by (by rewrite <- (of_to_list f), Hf). by destruct Hsep as [->| ->].
    + rewrite parse_bare by (try done; right; done). rewrite app_nil_l, <- Hf.
      destruct Hsep as [->| ->]; cbn [parse_csv]; rewrite of_to_list; done.
Qed.

Lemma parse_row fs row rows l :
  fs ≠ [] → parse_csv Start [] row rows (csv_row fs ++ l) = parse_csv Start [] [] (rows ++ [row ++ fs]) l.
Proof.
  unfold csv_row. revert row. induction fs as [|f fs IH]; intros row Hne; [done|]. destruct fs as [|f' fs].
  - cbn [csv_fields]. rewrite <- app_assoc. cbn [app]. rewrite parse_field by auto. done.
  - cbn [csv_fields]. rewrite <- !app_assoc. cbn [app]. rewrite parse_field by auto. cbn [Ascii.eqb].
    replace (row ++ f :: f' :: fs) with ((row ++ [f]) ++ f' :: fs) by by rewrite <- app_assoc.
    rewrite <- IH by done. by rewrite <- ?app_assoc.
Qed.

Lemma read_csv_text rows : Forall (λ r, r ≠ []) rows → read_csv (csv_text rows) = Some rows.
Proof.
  unfold read_csv, csv_text. rewrite to_of_list.
  assert (∀ done_, Forall (λ r, r ≠ []) rows → parse_csv Start [] [] done_ (flat_map csv_row rows) = Some (done_ ++ rows)) as Hgen.
  { induction rows as [|r rows IH]; intros done_ Hne; [by rewrite app_nil_r|]. apply Forall_cons in Hne as [Hr Hne].
    cbn [flat_map]. rewrite parse_row by done. rewrite IH by done. by rewrite <- app_assoc. }
  by apply (Hgen []).
Qed.

(** *** Paging through the audit log *)

Section paging.
Context (t : uuid).

(** The tenant's entries, newest first. *)
Definition newest_first (log : list (N * AuditEntry)) : list (N * AuditEntry) :=
  rev (List.filter (λ e, bool_decide (au_tenant e.2 = t)) log).
(** Ids come from a sequence: they increase along the log and stay below the largest int64. *)
Definition ids_ok (log : list (N * AuditEntry)) : Prop :=
  StronglySorted (λ a b, (a.1 < b.1)%N) log ∧ Forall (λ e, (0 < Z.of_N e.1 < 2 ^ 63 - 1)%Z) log.
Definition descending (l : list (N * AuditEntry)) : Prop := StronglySorted (λ a b, (b.1 < a.1)%N) l.

Lemma filter_andb {A} (p q : A → bool) l : List.filter (λ x, p x && q x) l = List.filter q (List.filter p l).
Proof. induction l as [|x l IH]; [done|]. simpl. destruct (p x); simpl; [destruct (q x)|]; by rewrite IH. Qed.
Lemma filter_all {A} (p : A → bool) l : (∀ x, x ∈ l → p x = true) → List.filter p l = l.
Proof. induction l as [|x l IH]; intros Hp; [done|]. simpl. rewrite Hp by set_solver. rewrite IH; [done|set_solver]. Qed.
Lemma filter_none {A} (p : A → bool) l : (∀ x, x ∈ l → p x = false) → List.filter p l = [].
Proof. induction l as [|x l IH]; intros Hp; [done|]. simpl. rewrite Hp by set_solver. apply IH. set_solver. Qed.

Lemma newest_descending log : StronglySorted (λ a b, (a.1 < b.1)%N) log → descending (newest_first log).
Proof.
  unfold newest_first, descending. induction 1 as [|e log Hs IH Hall]; [constructor|]. simpl. case_bool_decide; [|done]. simpl.
  apply StronglySorted_app. split_and!; [|done|repeat constructor].
  intros x y Hx ->%list_elem_of_singleton. rewrite Forall_forall in Hall. apply Hall.
  apply list_elem_of_In, in_rev, filter_In in Hx as [Hx _]. by apply list_elem_of_In.
Qed.

(** The page below an entry is what follows it. *)
Lemma below_entry w e rest :
  descending (w ++ e :: rest) → List.filter (λ x : N * AuditEntry, (Z.of_N x.1 <? Z.of_N e.1)%Z) (w ++ e :: rest) = rest.
Proof.
  intros (Hord & _ & Hrest)%StronglySorted_app. rewrite List.filter_app. apply StronglySorted_inv in Hrest as [_ Hrest].
  rewrite filter_none; [simpl|].
  - rewrite (proj2 (Z.ltb_ge _ _)) by lia. apply filter_all. intros x Hx. rewrite Forall_forall in Hrest. specialize (Hrest x Hx). lia.
  - intros x Hx. specialize (Hord x e Hx ltac:(set_solver)). simpl in Hord. lia.
Qed.

Lemma ListAudit_page log more limit before d :
  audit_log d = log ++ more → before ≠ 0%Z → (∀ e, e ∈ more → (before ≤ Z.of_N e.1)%Z) →
  ListAudit t limit before d = take limit (List.filter (λ e, (Z.of_N e.1 <? before)%Z) (newest_first log)).
Proof.
  intros Hlog Hb Hmore. unfold ListAudit. rewrite bool_decide_eq_false_2 by done. f_equal. unfold newest_first.
  rewrite filter_andb, Hlog, !List.filter_app. rewrite (filter_none _ (List.filter _ more)).
  - by rewrite app_nil_r, filter_rev.
  - intros x Hx. apply list_elem_of_In, filter_In in Hx as [Hx%list_elem_of_In _]. specialize (Hmore x Hx). lia.
Qed.

Lemma ListAudit_first log limit d :
  audit_log d = log → ids_ok log → ListAudit t limit 0 d = take limit (newest_first log).
Proof.
  intros Hlog [_ Hids]. unfold ListAudit. simpl. f_equal. unfold newest_first. rewrite filter_andb, Hlog. f_equal.
  apply filter_all. intros x Hx. apply list_elem_of_In, filter_In in Hx as [Hx%list_elem_of_In _].
  rewrite Forall_forall in Hids. specialize (Hids x Hx). lia.
Qed.

Section loop.
Context (page max : nat) (log : list (N * AuditEntry)) (at_page : nat → db).
Hypothesis Hpage : (0 < page)%nat.
Hypothesis Hfirst : audit_log (at_page 0) = log.
Hypothesis Hgrows : ∀ i, ∃ more, audit_log (at_page i) = log ++ more ∧ ids_ok (log ++ more).

Abbreviation read := (λ i before, ListAudit t page before (at_page i)).

Lemma ids_log : ids_ok log.
Proof.
  destruct (Hgrows 0) as (more & _ & Hs & Hf). apply StronglySorted_app in Hs as (_ & Hs & _). by apply Forall_app in Hf as [Hf _].
Qed.

(** Each query answers the next entries. *)
Lemma next_page i before written rest :
  newest_first log = written ++ rest →
  (written = [] ∧ i = 0%nat ∧ before = 0%Z ∨ ∃ w e, written = w ++ [e] ∧ before = Z.of_N e.1) →
  read i before = take page rest.
Proof.
  intros Hl [(-> & -> & ->)|(w & e & -> & ->)]; cbn beta.
  - rewrite (ListAudit_first log) by (done || apply ids_log). by rewrite Hl.
  - destruct (Hgrows i) as (more & Hi & Hs & Hf).
    assert (e ∈ log) as He.
    { assert (e ∈ newest_first log) as He by (rewrite Hl; set_solver). unfold newest_first in He.
      by apply list_elem_of_In, in_rev, filter_In in He as [He%list_elem_of_In _]. }
    rewrite (ListAudit_page log more).
    + rewrite Hl, <- app_assoc. cbn [app]. rewrite below_entry; [done|].
      pose proof (newest_descending log (proj1 ids_log)) as Hd. rewrite Hl, <- app_assoc in Hd. done.
    + done.
    + apply Forall_app in Hf as [Hf _]. rewrite Forall_forall in Hf. specialize (Hf e He). simpl in Hf. lia.
    + intros x Hx. apply StronglySorted_app in Hs as (Hord & _ & _). specialize (Hord e x He Hx). simpl in Hord. lia.
Qed.

Lemma export_pages_full fuel i before written : (max ≤ length written)%nat → export_pages page max read fuel i before written = written.
Proof. intros Hmax. destruct fuel; [done|]. cbn [export_pages]. by rewrite (proj2 (Nat.leb_le _ _) Hmax). Qed.

Lemma export_pages_run fuel i before written rest :
  newest_first log = written ++ rest →
  (written = [] ∧ i = 0%nat ∧ before = 0%Z ∨ ∃ w e, written = w ++ [e] ∧ before = Z.of_N e.1) →
  (length written ≤ max)%nat → (max - length written < fuel * page)%nat →
  export_pages page max read fuel i before written = take max (newest_first log).
Proof.
  revert i before written rest. induction fuel as [|fuel IH]; intros i before written rest Hl Hb Hle Hfuel; [simpl in Hfuel; lia|].
  cbn [export_pages]. destruct (max <=? length written)%nat eqn:Hmax; bool_cases.
  { rewrite Hl. by rewrite take_app_le, firstn_all2 by lia. }
  rewrite (next_page i before written rest Hl Hb). destruct (take page rest) as [|e0 l0] eqn:Hent.
  { assert (rest = []) as -> by (destruct rest, page; (done || lia)). by rewrite Hl, app_nil_r, firstn_all2 by lia. }
  rewrite <- Hent. clear e0 l0 Hent. set (taken := take (max - length written) (take page rest)).
  destruct (length (take page rest) <? page)%nat eqn:Hshort; bool_cases.
  { rewrite length_take in Hshort. rewrite Hl. unfold taken. rewrite (take_ge rest) by lia. symmetry. apply take_app_ge. lia. }
  rewrite length_take in Hshort.
  assert (length taken = min (max - length written) page) as Hlt by (unfold taken; rewrite !length_take; lia).
  assert (newest_first log = (written ++ taken) ++ drop (length taken) rest) as Hl'.
  { rewrite Hl, <- app_assoc. f_equal. unfold taken. rewrite take_take. rewrite length_take.
    rewrite <- (take_drop (min (max - length written) page) rest) at 1. f_equal. f_equal. lia. }
  destruct (decide (max - length written < page)%nat) as [Hlast|Hmore].
  - rewrite export_pages_full by (rewrite length_app, Hlt; lia). rewrite Hl', take_app_le by (rewrite length_app, Hlt; lia).
    by rewrite firstn_all2 by (rewrite length_app, Hlt; lia).
  - destruct taken as [|e w _] eqn:Htk using rev_ind; [simpl in Hlt; lia|].
    apply (IH _ _ _ (drop (length (w ++ [e])) rest)); [done| | |].
    + right. rewrite last_snoc. exists (written ++ w), e. by rewrite app_assoc.
    + rewrite length_app, Hlt. lia.
    + rewrite length_app, Hlt. lia.
Qed.

(** The paged read of the audit export equals one read of the whole log: it yields the
    tenant's entries newest first, each once, up to the limit, also when other requests
    append to the log between two pages (their entries are the ones left out). The number
    of turns allowed is always enough. *)
Theorem export_pages_complete :
  export_pages page max read (export_fuel page max) 0 0 [] = take max (newest_first log).
Proof.
  apply (export_pages_run _ _ _ _ (newest_first log)); [done|by left|simpl; lia|].
  unfold export_fuel. simpl length. rewrite Nat.sub_0_r, Nat.mul_comm. apply Nat.mul_succ_div_gt. lia.
Qed.
End loop.
End paging.

(** *** The file *)

Section file.
Context `{UuidText} (marshal_detail : list (string * aval) → option string).

(** The ids of the log were drawn from the serial counter. *)
Definition serial_ok (d : db) : Prop :=
  ids_ok (audit_log d) ∧ Forall (λ e, (e.1 ≤ serial d)%N) (audit_log d) ∧ (Z.of_N (serial d + 1) < 2 ^ 63 - 1)%Z.

Lemma ids_ok_snoc d e :
  serial_ok d → ids_ok (audit_log d ++ [((serial d + 1)%N, e)]).
Proof.
  intros ([Hs Hf] & Hle & Hmax). split.
  - apply StronglySorted_app. split_and!; [|done|repeat constructor]. intros x y Hx ->%list_elem_of_singleton.
    rewrite Forall_forall in Hle. specialize (Hle x Hx). simpl. lia.
  - apply Forall_app. split; [done|]. repeat constructor; simpl; lia.
Qed.

Lemma exported_rows_full (truncated : bool) n (rows : list (list string)) :
  Forall (λ r, r ≠ []) rows → Forall (λ r, r ≠ []) (with_marker truncated n rows).
Proof. intros Hr. unfold with_marker. destruct truncated; [|done]. apply Forall_app. split; [done|]. by repeat constructor. Qed.

Lemma newest_first_snoc t log n e :
  au_tenant e = t → newest_first t (log ++ [(n, e)]) = (n, e) :: newest_first t log.
Proof. intros He. unfold newest_first. rewrite List.filter_app. simpl. rewrite bool_decide_eq_true_2 by done. by rewrite rev_app_distr. Qed.

(** C36. The audit export always answers a file, and reading the file as CSV gives back the
    header and the fields of the tenant's newest entries exactly as they are stored,
    whatever characters they contain, at most 100000 of them, followed by the truncation marker when the
    limit was reached. The first entry is the record of the export itself. *)
Theorem exportAudit_reads_back p w :
  serial_ok (w_db w) → has_tenant (p_tenant p) (w_db w) = true →
  ∃ w' name text e, exportAudit marshal_detail p w = (w', Ok (File name text)) ∧
    let entries := newest_first (p_tenant p) (audit_log (w_db w')) in
    let rows := take exportMaxRows entries in
    entries = e :: newest_first (p_tenant p) (audit_log (w_db w)) ∧ au_action e.2 = "export" ∧
    read_csv text = Some (audit_header :: with_marker (exportMaxRows <=? length rows)%nat 8 (audit_row marshal_detail <$> rows)).
Proof.
  intros Hok Ht. unfold exportAudit, audit, audit_any, attempt, on_db, AppendAudit, now, gets, mbind, M_bind. rewrite Ht.
  set (d' := set_audit_log _ _). do 4 eexists. split; [reflexivity|]. cbv zeta. cbn [w_db set_db].
  change (audit_log d') with (audit_log (w_db w) ++ [((serial (w_db w) + 1)%N, mkAuditEntry (p_tenant p) ("admin:" +:+ p_email p) "export" "audit" ""
    (plain [("format", JStr "csv")]) (p_ip p) "success" (pg_now (w_db w)))]).
  split; [by apply newest_first_snoc|]. split; [done|].
  pose proof (export_pages_complete (p_tenant p) exportPage exportMaxRows (audit_log d') (λ _, d')) as Hpages.
  cbn beta in Hpages. rewrite Hpages; [|by apply Nat.ltb_lt|done|].
  - apply read_csv_text. constructor; [done|]. apply exported_rows_full. apply Forall_fmap, Forall_true. intros [n e]. done.
  - intros i. exists []. rewrite app_nil_r. split; [done|]. by apply ids_ok_snoc.
Qed.
End file.

(** *** Concrete exports *)

Module ExportSite.
Definition entry (t : uuid) (actor : string) : AuditEntry := mkAuditEntry t actor "login" "" "" [] "10.0.0.1" "success" 0.
(** Five entries of two tenants; an actor with a quote, a comma and a line break. *)
Definition log : list (N * AuditEntry) :=
  [(1%N, entry 1 "a"); (2%N, entry 1 (dq +:+ "b," +:+ nl)); (3%N, entry 2 "other"); (5%N, entry 1 "c"); (6%N, entry 1 "d")].
Definition log_db (l : list (N * AuditEntry)) : db :=
  set_audit_log l (set_serial 6 (set_tenants {[1%N := mkTenant "acme" false 0]} empty_db)).
(** Another request appends an entry while the export runs. *)
Definition growing (i : nat) : db := match i with 0 => log_db log | S _ => log_db (log ++ [(7%N, entry 1 "late")]) end.
Definition auditor : principal := mkPrincipal 1 7 "root@acme" "readonly" false "10.0.0.1".
End ExportSite.

Section export_witnesses.
Import Toy ExportSite.

Lemma log_ids more : Forall (λ e, (6 < e.1)%N ∧ (Z.of_N e.1 < 100)%Z) more → StronglySorted (λ a b, (a.1 < b.1)%N) more → ids_ok (log ++ more).
Proof.
  intros Hm Hs. split; [apply StronglySorted_app; split_and!; [|unfold log; by repeat constructor|done]|].
  - intros x y Hx Hy. rewrite Forall_forall in Hm. specialize (Hm y Hy).
    assert (Forall (λ e : N * AuditEntry, (e.1 ≤ 6)%N) log) as Hl by (unfold log; by repeat constructor).
    rewrite Forall_forall in Hl. specialize (Hl x Hx). simpl in *. lia.
  - apply Forall_app. split; [unfold log; by repeat constructor|]. eapply Forall_impl; [exact Hm|]. simpl. lia.
Qed.

(** Pages of two, at most three entries. *)
Lemma export_pages_complete_witness :
  fst <$> export_pages 2 3 (λ i before, ListAudit 1 2 before (growing i)) (export_fuel 2 3) 0 0 [] = [6; 5; 2]%N.
Proof.
  rewrite (export_pages_complete 1 2 3 log growing); [reflexivity|lia|reflexivity|].
  intros [|i]; [exists []|exists [(7%N, entry 1 "late")]]; (split; [done|apply log_ids; by repeat constructor]).
Defined.

Lemma exportAudit_reads_back_witness :
  ∃ w' name text, exportAudit (λ _, None) auditor (mkWorld (log_db log) New 0 0) = (w', Ok (File name text)) ∧
    read_csv text = Some (audit_header :: (audit_row (λ _, None) <$> newest_first 1 (audit_log (w_db w')))) ∧
    length (newest_first 1 (audit_log (w_db w'))) = 5%nat.
Proof.
  destruct (exportAudit_reads_back (λ _, None) auditor (mkWorld (log_db log) New 0 0)) as (w' & name & text & e & Hrun & Hent & _ & Hread).
  - split; [|split].
    + assert (ids_ok (log ++ [])) as Hids by (apply log_ids; constructor). by rewrite app_nil_r in Hids.
    + simpl. unfold log. by repeat constructor.
    + reflexivity.
  - reflexivity.
  - change (p_tenant auditor) with 1%N in *. exists w', name, text. split; [exact Hrun|].
    assert (length (newest_first 1 (audit_log (w_db w'))) = 5%nat) as Hlen by (rewrite Hent; vm_compute; reflexivity).
    assert (5 < exportMaxRows)%nat as Hmax by (apply Nat.ltb_lt; vm_compute; reflexivity).
    split; [|exact Hlen]. rewrite Hread. rewrite firstn_all2 by (rewrite Hlen; apply Nat.lt_le_incl; exact Hmax).
    rewrite (proj2 (Nat.leb_gt _ _)); [reflexivity|rewrite Hlen; exact Hmax].
Defined.

(** An export of exactly the limit is marked as truncated although nothing is missing. *)
Example complete_but_marked :
  let rows := export_pages 2 4 (λ _ before, ListAudit 1 2 before (log_db log)) (export_fuel 2 4) 0 0 [] in
  rows = newest_first 1 log ∧ (4 <=? length rows)%nat = true.
Proof. split; reflexivity. Qed.
End export_witnesses.
