(* ===== verification/Releases.v ===== *)
(** * Agent releases

    Models [internal/server/httpapi/releases.go]: uploading a signed release into the
    release directory, listing, and the downloads agents make without a session. The
    directory is a map from paths to contents; [ReleaseDir] is a clean path. Shown: what is
    uploaded is what agents download. *)

From Stdlib Require Import Ascii.
From stdpp Require Import gmap strings list.
From S2P Require Import Prelude GoStr Db Hub StoreCore World Commands Enroll EnrollFacts Notify Http StoreAdmins Authn Bootstrap Rollout App.

(** [encoding/hex]. *)
Definition hex_byte (c : ascii) : bytes := [hex_digit (N_of_ascii c / 16); hex_digit (N_of_ascii c mod 16)].
Definition HexEncode (s : string) : string := of_list (flat_map hex_byte (to_list s)).

(** The test [uploadRelease] and [releaseVersion] make: nothing that leaves the directory. *)
Definition plain_version (v : string) : bool :=
  negb (bool_decide (v = "")) && negb (ContainsAny v "/\") && negb (Contains v "..").

(** How writing the file went: a directory or file that could not be made, a copy that
    broke off after some bytes, or success. *)
Inductive write_outcome := DirFails | CreateFails | CopyFails (written : string) | Stored.

(** The uploaded form: the version field and the file, if there. *)
Record upload_form := mkForm { fm_version : string; fm_file : option string }.

Section releases.
Context `{UuidText, UuidSource, Crypto, Pki, Hasher}.
Context (keys : uuid → result Keys) (ReleaseDir : string).

Definition release_path (tenant version : string) : string := ReleaseDir +:+ "/" +:+ tenant +:+ "/" +:+ version +:+ ".exe".
(** Where an older server kept them. *)
Definition flat_path (version : string) : string := ReleaseDir +:+ "/" +:+ version +:+ ".exe".

Definition write_file (path content : string) : M host unit := modify (λ h, set_files (<[path := content]> (h_files h)) h).

(** The part after the file is stored: sign, record, answer. *)
Definition record_release (p : principal) (version content : string) : M world response :=
  let sum := sha256 content in
  match keys (p_tenant p) with
  | Err _ => writeErr 500 "could not resolve signing key"
  | Ok k =>
      let sig := ed_sign (UpdateKey k) sum in
      or_storeErr (on_db (PutRelease (p_tenant p) version sum sig)) (λ _,
        _ ← audit p "release.upload" "release" version [("sha256", JStr (HexEncode sum))] "success";
        writeJSON 201 (JO [("version", JS version); ("sha256", JS (HexEncode sum))]))
  end.

Definition uploadRelease (io : write_outcome) (p : principal) (form : option upload_form) : M host response :=
  if bool_decide (ReleaseDir = "") then writeErr 503 "release hosting not configured"
  else
    match form with
    | None => writeErr 400 "expected multipart form with version and file"
    | Some form =>
        let version := TrimSpace (fm_version form) in
        if negb (plain_version version) then writeErr 400 "version is required and must be a plain version string"
        else
          match fm_file form with
          | None => writeErr 400 "file is required"
          | Some content =>
              let path := release_path (uuid_string (p_tenant p)) version in
              match io with
              | DirFails => writeErr 500 "could not create release dir"
              | CreateFails => writeErr 500 "could not write release"
              | CopyFails written => _ ← write_file path written; writeErr 500 "could not store release"
              | Stored => _ ← write_file path content; in_world (record_release p version content)
              end
          end
    end.

Definition releaseJSON (r : string * Release) : json :=
  JO [("version", JS r.1); ("sha256", JS (HexEncode (rl_sha256 r.2))); ("uploaded_at", jtime (rl_uploaded_at r.2))].
Definition listReleases (p : principal) : M world response :=
  rels ← gets (λ w, ListReleases (p_tenant p) (w_db w));
  writeJSON 200 (JA (releaseJSON <$> rels)).

(** [serveRelease]: the content, if hosting is on and the file is there. *)
Definition serveRelease (path : string) (h : host) : option string :=
  if bool_decide (ReleaseDir = "") then None else h_files h !! path.

Definition not_found : reply := Answer (mkResponse 404 (JO [("error", JS "not found")])).
Definition downloadRelease (rawTenant version : string) : M host reply :=
  if negb (plain_version version) then mret not_found
  else
    match uuid_parse rawTenant with
    | None => mret not_found
    | Some tenant =>
        h ← get;
        match serveRelease (release_path (uuid_string tenant) version) h with
        | Some content => mret (File "" content)
        | None =>
            match serveRelease (flat_path version) h with
            | Some content => mret (File "" content)
            | None => mret not_found
            end
        end
    end.
Definition downloadLegacyRelease (version : string) : M host reply :=
  h ← get;
  mret (if negb (plain_version version) then not_found
        else match serveRelease (flat_path version) h with Some content => File "" content | None => not_found end).
End releases.

(** ** What is uploaded is what agents download

    Shows that a successful upload serves the uploaded bytes under the hash and signature
    recorded with it, and disturbs no other release. *)

Definition slash : ascii := "/"%char.
Definition no_slash (s : string) : bool := all_bytes (λ c, negb (Ascii.eqb c slash)) s.

Lemma first_slash_inj a b a' b' :
  no_slash a = true → no_slash a' = true → a +:+ String slash b = a' +:+ String slash b' → a = a' ∧ b = b'.
Proof.
  unfold no_slash. revert a'. induction a as [|c a IH]; intros [|c' a']; rewrite ?all_bytes_cons.
  - intros _ _ Heq. by injection Heq.
  - intros _ [Hc _]%andb_true_iff Heq. injection Heq as <- _. done.
  - intros [Hc _]%andb_true_iff _ Heq. injection Heq as -> _. done.
  - intros [_ Ha]%andb_true_iff [_ Ha']%andb_true_iff Heq. injection Heq as -> Heq. by destruct (IH _ Ha Ha' Heq) as [-> ->].
Qed.
Lemma no_slash_app a b : no_slash (a +:+ b) = no_slash a && no_slash b.
Proof. unfold no_slash. apply all_bytes_app. Qed.
Lemma plain_no_slash v : plain_version v = true → no_slash v = true.
Proof.
  unfold plain_version, ContainsAny, no_slash, all_bytes. intros [[_ Ha]%andb_true_iff _]%andb_true_iff. apply negb_true_iff in Ha.
  apply forallb_forall. intros c Hc. destruct (Ascii.eqb_spec c slash) as [->|]; [|done]. exfalso. revert Ha.
  apply not_false_iff_true. apply existsb_exists. by exists slash.
Qed.

Section facts.
Context `{UuidText, !UuidTextOk, UuidSource, Crypto, !CryptoOk, Pki, Hasher}.
Context (keys : uuid → result Keys) (ReleaseDir : string).
(** The text form of a UUID is hexadecimal digits and dashes. *)
Hypothesis uuid_no_slash : ∀ u, no_slash (uuid_string u) = true.

Lemma uuid_string_inj u v : uuid_string u = uuid_string v → u = v.
Proof. intros Huv. apply (f_equal uuid_parse) in Huv. rewrite !uuid_parse_string in Huv. congruence. Qed.

Lemma exe_inj v v' : v +:+ ".exe" = v' +:+ ".exe" → v = v'.
Proof.
  apply str_app_inj_r.
Qed.
Lemma release_path_inj t v t' v' :
  release_path ReleaseDir (uuid_string t) v = release_path ReleaseDir (uuid_string t') v' → t = t' ∧ v = v'.
Proof.
  unfold release_path. intros Heq%(inj (String.append ReleaseDir)). injection Heq as Heq.
  apply first_slash_inj in Heq as [Ht%uuid_string_inj Hv%exe_inj]; done.
Qed.
Lemma flat_path_apart t v v' : plain_version v' = true → flat_path ReleaseDir v' ≠ release_path ReleaseDir (uuid_string t) v.
Proof.
  unfold flat_path, release_path. intros Hv%plain_no_slash Heq%(inj (String.append ReleaseDir)). injection Heq as Heq.
  change (v' +:+ ".exe" = uuid_string t +:+ String slash (v +:+ ".exe")) in Heq.
  assert (no_slash (v' +:+ ".exe") = true) as Hl by (by rewrite no_slash_app, Hv). rewrite Heq in Hl.
  unfold no_slash in Hl.
  rewrite all_bytes_app, all_bytes_cons in Hl. simpl in Hl. by rewrite andb_false_r in Hl.
Qed.

(** The record of an upload, when it is answered with 201. *)
Lemma record_release_Ok p version content w w' r :
  record_release keys p version content w = (w', Ok r) → rs_code r = 201%Z →
  ∃ k rel, keys (p_tenant p) = Ok k ∧ rl_sha256 rel = sha256 content ∧ rl_signature rel = ed_sign (UpdateKey k) (sha256 content) ∧
    agent_releases (w_db w') = <[(p_tenant p, version) := rel]> (agent_releases (w_db w)).
Proof.
  unfold record_release. destruct (keys (p_tenant p)) as [k|e]; [|by intros [= <- <-]].
  rewrite or_storeErr_run. unfold on_db, PutRelease. destruct (has_tenant _ _) eqn:Ht; [|by intros [= <- <-]].
  unfold audit, audit_any, attempt, on_db, AppendAudit, mbind, M_bind. simpl. intros Hr _. exists k. eexists. split_and!; [done| | |].
  3: { unfold has_tenant in Hr. simpl in Hr. fold (has_tenant (p_tenant p) (w_db w)) in Hr. rewrite Ht in Hr. injection Hr as <- _. reflexivity. }
  all: done.
Qed.

(** Uploads reach the agents unaltered and signed: after an upload answered with 201, a download of
    that tenant and version serves the uploaded bytes, the recorded hash is theirs and the
    recorded signature verifies under the tenant's update key. Every other download,
    of another version or of another tenant, and every other release row stay as they were, even when two tenants use the
    same version string. *)
Theorem upload_then_download io p form h h' r :
  uploadRelease keys ReleaseDir io p (Some form) h = (h', Ok r) → rs_code r = 201%Z →
  ∃ k content rel, let t := p_tenant p in let v := TrimSpace (fm_version form) in
    keys t = Ok k ∧ fm_file form = Some content ∧
    downloadRelease ReleaseDir (uuid_string t) v h' = (h', Ok (File "" content)) ∧
    agent_releases (w_db (h_world h')) !! (t, v) = Some rel ∧ rl_sha256 rel = sha256 content ∧
    ed_verify (ed_public (UpdateKey k)) (rl_sha256 rel) (rl_signature rel) = true ∧
    (∀ t' v', (t', v') ≠ (t, v) →
       (downloadRelease ReleaseDir (uuid_string t') v' h').2 = (downloadRelease ReleaseDir (uuid_string t') v' h).2 ∧
       agent_releases (w_db (h_world h')) !! (t', v') = agent_releases (w_db (h_world h)) !! (t', v')).
Proof.
  unfold uploadRelease. case_bool_decide as Hdir; [by intros [= <- <-]|]. set (v := TrimSpace _).
  destruct (plain_version v) eqn:Hv; [|by intros [= <- <-]]. cbn [negb].
  destruct (fm_file form) as [content|] eqn:Hf; [|by intros [= <- <-]].
  destruct io; try by intros [= <- <-]. unfold write_file, modify, mbind, M_bind, in_world. cbv beta iota.
  match goal with |- context [record_release keys p v content ?w] => destruct (record_release keys p v content w) as [w' r'] eqn:Hrec end.
  intros [= <- ->] Hcode.
  apply record_release_Ok in Hrec as (k & rel & Hk & Hsum & Hsig & Hrows); [|done]. exists k, content, rel. simpl in *.
  split_and!; try done.
  - unfold downloadRelease. rewrite Hv. cbn [negb]. rewrite uuid_parse_string. unfold serveRelease, get, mbind, M_bind. simpl.
    rewrite bool_decide_eq_false_2 by done. by rewrite lookup_insert_eq.
  - by rewrite Hrows, lookup_insert_eq.
  - rewrite Hsig, Hsum. apply ed_sign_verify.
  - intros t' v' Hne. split; [|by rewrite Hrows, lookup_insert_ne by congruence].
    unfold downloadRelease. destruct (plain_version v') eqn:Hv'; [|done]. cbn [negb]. rewrite uuid_parse_string.
    unfold serveRelease, get, mbind, M_bind. simpl. rewrite bool_decide_eq_false_2 by done.
    rewrite !lookup_insert_ne; [by repeat case_match| |].
    + intros Hp. symmetry in Hp. by eapply flat_path_apart.
    + intros [Ht' Hvv]%release_path_inj. congruence.
Qed.
End facts.

(** *** A concrete release directory *)

Module ReleaseSite.
Import Toy EnrollFacts.Site.
#[export] Instance sha_hex : Hasher := λ s, s.
Definition release_keys (t : uuid) : result Keys := Ok (mkKeys "k" "u" "ca" "cakey" "un").
Definition release_db : db := set_tenants {[1%N := mkTenant "acme" false 0; 2%N := mkTenant "globex" false 0]} empty_db.
(** The other tenant already ships the same version. *)
Definition release_host : host := mkHost (mkWorld release_db New 0 0) (Some 1%N) {["releases/" +:+ uuid_string 2 +:+ "/1.2.exe" := "globex build"]}.
Definition releaser : principal := mkPrincipal 1 7 "root@acme" "owner" false "10.0.0.1".
Definition form : upload_form := mkForm " 1.2 " (Some "acme build").
Definition uploaded : host := (uploadRelease release_keys "releases" Stored releaser (Some form) release_host).1.
End ReleaseSite.

Section release_witnesses.
Import Toy ReleaseSite.
#[local] Existing Instance EnrollFacts.Site.toy_pki.

Lemma pos_text_no_slash p : no_slash (Toy.pos_text p) = true.
Proof. induction p as [p IH|p IH|]; simpl; [| |done]; unfold no_slash in *; rewrite all_bytes_cons, IH; done. Qed.
Lemma toy_no_slash u : no_slash (uuid_string u) = true.
Proof. apply pos_text_no_slash. Qed.

Lemma upload_then_download_witness :
  downloadRelease "releases" (uuid_string 1) "1.2" uploaded = (uploaded, Ok (File "" "acme build")) ∧
  (downloadRelease "releases" (uuid_string 2) "1.2" uploaded).2 = Ok (File "" "globex build").
Proof.
  destruct (uploadRelease release_keys "releases" Stored releaser (Some form) release_host) as [h' r] eqn:Hup.
  destruct r as [r|e]; [|vm_compute in Hup; discriminate Hup].
  destruct (upload_then_download release_keys "releases" toy_no_slash Stored releaser form release_host h' r Hup)
    as (k & content & rel & _ & Hc & Hdl & _ & _ & _ & Hrest).
  { vm_compute in Hup. injection Hup as _ <-. reflexivity. }
  assert (uploaded = h') as -> by (unfold uploaded; by rewrite Hup). injection Hc as <-.
  split; [exact Hdl|]. destruct (Hrest 2%N "1.2") as [Hother _]; [discriminate|]. rewrite Hother. vm_compute. reflexivity.
Defined.

(** A copy that breaks off has already replaced the file: agents that were told to install
    the version before now download bytes that do not match the recorded hash. *)
Example broken_upload :
  let h := (uploadRelease release_keys "releases" (CopyFails "ac") releaser (Some form) uploaded).1 in
  (downloadRelease "releases" (uuid_string 1) "1.2" h).2 = Ok (File "" "ac") ∧
  rl_sha256 <$> agent_releases (w_db (h_world h)) !! (1%N, "1.2") = Some "#acme build".
Proof. by vm_compute. Qed.
End release_witnesses.
