(* ===== verification/Routes.v ===== *)
(** * The console's routes

    Models [Handler] and [API.routes] of [internal/server/httpapi] ([api.go], [routes.go]):
    every route with the guards in front of it, composed into the function from a request
    to its answer. The arguments of a route are what its handler decodes from the path, the
    query and the body. *)

From stdpp Require Import gmap strings list.
From S2P Require Import Prelude GoStr Rules Db Hub World StoreCore StoreNotify StoreMetrics StoreTelemetry Commands Enroll Notify Http Policies Telemetry Alerting Ringfences Authn NotifyApi Rollout Bootstrap App Console Exports Releases.

(** ** routes.go *)

(** The pages behind a session that passed the second factor; [GET] ones first. *)
Inductive action :=
  | r_me | r_listDevices (status group : string) | r_getDevice (id : string) | r_listDeviceCommands (id : string) (limit : option Z)
  | r_listGroups | r_listTokens | r_listReleases | r_listAudit (limit : option Z) (before : Z)
  | r_listPolicies | r_getPolicy (id : string) | r_listObservations (id : string) (limit : option Z)
  | r_listMetrics (id : string) (hours limit : option Z) | r_listBlocks (limit : option Z)
  | r_listApprovals (status : string) (limit : option Z) | r_countApprovals | r_listAlertRules | r_listAlerts (limit : option Z)
  | r_listDeviceEvents (device : string) (limit : option Z) | r_getControls (id : string) | r_getDeviceControls (id : string)
  | r_getDeviceRingfence (id : string) | r_listRollouts (limit : option Z) | r_getRollout (id : string)
  | r_notificationStatus | r_listChannels | r_listDeliveries (limit : option Z) | r_listRingfences | r_getRingfence (id : string)
  | r_listRingfenceEvents (device : string) (limit : option Z) | r_exportCSV (resource : string)
  (* administrators *)
  | r_createChannel (req : channelReq) | r_updateChannel (id : string) (req : channelPatch) | r_deleteChannel (id : string) | r_testChannel (id : string)
  | r_revokeDevice (id : string) | r_issueCommand (id type_ : string)
  | r_createGroup (name : string) | r_renameGroup (id name : string) | r_deleteGroup (id : string) | r_setDeviceGroup (id : string) (group : option uuid)
  | r_updateAlertRule (id : string) (req : RuleFields) | r_createToken (req : tokenReq) | r_revokeToken (id : string)
  | r_createPolicy (name mode : string) | r_setPolicyMode (id mode : string) | r_deletePolicy (id : string)
  | r_addRule (id : string) (req : Rule) | r_deleteRule (id rule : string) | r_assignPolicy (id group : string) | r_recompilePolicy (id : string)
  | r_promoteObservation (policy kind sha256 path : string) | r_approveApproval (id kind : string) | r_denyApproval (id : string)
  | r_createAlertRule (req : RuleFields) | r_deleteAlertRule (id : string)
  | r_setControls (id : string) (req : DeviceControls) | r_setDeviceControls (id : string) (req : DeviceControlOverrides)
  | r_createRollout (req : rolloutCreateReq) | r_pauseRollout (id : string) | r_resumeRollout (id : string) | r_cancelRollout (id : string)
  | r_rollbackRollout (id version : string)
  | r_createRingfence (name : string) | r_renameRingfence (id name : string) | r_deleteRingfence (id : string) | r_setRingfenceMode (id mode : string)
  | r_addRingfenceProgram (id path : string) (network_blocked : option bool) (note : string) | r_deleteRingfenceProgram (id program : string)
  | r_setRingfenceProtection (id asr_rule action : string) | r_assignRingfence (id group : string) | r_unassignRingfence (group ringfence : string)
  (* owners *)
  | r_listAdmins | r_createAdmin (email password role : string) | r_disableAdmin (id : string) | r_enableAdmin (id : string) | r_setAdminRole (id role : string)
  | r_uploadRelease (io : write_outcome) (form : option upload_form)
  (* providers *)
  | r_listProviderTenants | r_createProviderTenant (org owner_email owner_password : string)
  | r_updateProviderTenant (id : string) (name : option string) (suspended : option bool).

Inductive group := AnyRole | RoleGroup (role : string) | ProviderGroup.
#[export] Instance group_eq_dec : EqDecision group.
Proof. solve_decision. Defined.
(** The group a page is registered in. *)
Definition group_of (a : action) : group :=
  match a with
  | r_me | r_listDevices _ _ | r_getDevice _ | r_listDeviceCommands _ _ | r_listGroups | r_listTokens | r_listReleases | r_listAudit _ _
  | r_listPolicies | r_getPolicy _ | r_listObservations _ _ | r_listMetrics _ _ _ | r_listBlocks _ | r_listApprovals _ _ | r_countApprovals
  | r_listAlertRules | r_listAlerts _ | r_listDeviceEvents _ _ | r_getControls _ | r_getDeviceControls _ | r_getDeviceRingfence _
  | r_listRollouts _ | r_getRollout _ | r_notificationStatus | r_listChannels | r_listDeliveries _ | r_listRingfences | r_getRingfence _
  | r_listRingfenceEvents _ _ | r_exportCSV _ => AnyRole
  | r_listAdmins | r_createAdmin _ _ _ | r_disableAdmin _ | r_enableAdmin _ | r_setAdminRole _ _ | r_uploadRelease _ _ => RoleGroup "owner"
  | r_listProviderTenants | r_createProviderTenant _ _ _ | r_updateProviderTenant _ _ _ => ProviderGroup
  | _ => RoleGroup "admin"
  end.
(** Whether a page is registered with [Get]. *)
Definition is_get (a : action) : bool :=
  match group_of a, a with
  | AnyRole, _ | _, r_listAdmins | _, r_listProviderTenants => true
  | _, _ => false
  end.

(** All the routes of [Handler]. *)
Inductive route :=
  | r_health | r_ready (ping : bool) | r_setupStatus | r_setup (listen : result unit) (org_name email password : string)
  | r_downloadRelease (tenant version : string) | r_downloadLegacyRelease (version : string)
  | r_login (email password : string) | r_logout | r_mfaSetup | r_mfaVerify (code : string)
  | r_page (a : action).
Definition route_is_get (r : route) : bool :=
  match r with
  | r_health | r_ready _ | r_setupStatus | r_downloadRelease _ _ | r_downloadLegacyRelease _ => true
  | r_page a => is_get a
  | _ => false
  end.
Definition with_method (get : bool) (rq : Request) : Request := mkReq get (rq_cookie rq) (rq_csrf rq) (rq_ip rq) (rq_agent rq).

Section routes.
Context `{UuidText, UuidSource, Crypto, Pki, Hasher, Passwords, KeyLib, UrlParser, Codec, Wire}.
(** The settings [App] builds the API with: the master secret, the mail server, the release
    directory and URL, the sealers of channel and TOTP secrets; and library functions. *)
Context (sort : ∀ A, (A → A → bool) → list A → list A) (master : string) (smtp : SMTP) (ReleaseDir : string).
Context (ReleaseURL : uuid → string → string) (NotifySealer TOTPSealer : Sealer).
Context (MarshalUpdate : UpdatePayload → string) (marshal_detail : list (string * aval) → option string).

(** [keysFor]: the keys of a tenant, as the database holds them. *)
Definition keysFor (h : host) (tenant : uuid) : result Keys := (LoadForTenant master tenant (w_db (h_world h))).2.

Definition page (m : M world response) : M host reply := answer (in_world m).
#[local] Existing Instance NotifySealer.

Definition run_page (keys : uuid → result Keys) (p : principal) (a : action) : M host reply :=
  match a with
  | r_me => page (me p)
  | r_listDevices status group => page (listDevices p status group)
  | r_getDevice id => page (getDevice keys p id)
  | r_listDeviceCommands id limit => page (listDeviceCommands p id limit)
  | r_listGroups => page (listGroups p)
  | r_listTokens => page (listTokens p)
  | r_listReleases => page (listReleases p)
  | r_listAudit limit before => page (listAudit p limit before)
  | r_listPolicies => page (listPolicies p)
  | r_getPolicy id => page (getPolicy p id)
  | r_listObservations id limit => page (listObservations p id limit)
  | r_listMetrics id hours limit => page (listMetrics p id hours limit)
  | r_listBlocks limit => page (listBlocks p limit)
  | r_listApprovals status limit => page (listApprovals p status limit)
  | r_countApprovals => page (countApprovals p)
  | r_listAlertRules => page (listAlertRules p)
  | r_listAlerts limit => page (listAlerts p limit)
  | r_listDeviceEvents device limit => page (listDeviceEvents p device limit)
  | r_getControls id => page (getControls p id)
  | r_getDeviceControls id => page (getDeviceControls p id)
  | r_getDeviceRingfence id => page (getDeviceRingfence p id)
  | r_listRollouts limit => page (listRollouts p limit)
  | r_getRollout id => page (getRollout p id)
  | r_notificationStatus => page (notificationStatus smtp)
  | r_listChannels => page (listChannels p)
  | r_listDeliveries limit => page (listDeliveries p limit)
  | r_listRingfences => page (listRingfences p)
  | r_getRingfence id => page (getRingfence p id)
  | r_listRingfenceEvents device limit => page (listRingfenceEvents p device limit)
  | r_exportCSV resource => in_world (exportCSV marshal_detail p resource)
  | r_createChannel req => page (createChannel smtp p req)
  | r_updateChannel id req => page (updateChannel smtp p id req)
  | r_deleteChannel id => page (deleteChannel p id)
  | r_testChannel id => page (testChannel smtp p id)
  | r_revokeDevice id => page (revokeDevice p id)
  | r_issueCommand id type_ => page (issueCommand keys MarshalUpdate ReleaseURL p id type_)
  | r_createGroup name => page (createGroup p name)
  | r_renameGroup id name => page (renameGroup p id name)
  | r_deleteGroup id => page (deleteGroup p id)
  | r_setDeviceGroup id group => page (setDeviceGroup p id group)
  | r_updateAlertRule id req => page (updateAlertRule p id req)
  | r_createToken req => page (createToken keys p req)
  | r_revokeToken id => page (revokeToken p id)
  | r_createPolicy name mode => page (createPolicy sort keys p name mode)
  | r_setPolicyMode id mode => page (setPolicyMode sort keys p id mode)
  | r_deletePolicy id => page (deletePolicy p id)
  | r_addRule id req => page (addRule sort keys p id req)
  | r_deleteRule id rule => page (deleteRule sort keys p id rule)
  | r_assignPolicy id group => page (assignPolicy p id group)
  | r_recompilePolicy id => page (recompilePolicy sort keys p id)
  | r_promoteObservation policy kind sha256 path => page (promoteObservation sort keys p policy kind sha256 path)
  | r_approveApproval id kind => page (approveApproval sort keys p id kind)
  | r_denyApproval id => page (denyApproval sort keys p id)
  | r_createAlertRule req => page (createAlertRule p req)
  | r_deleteAlertRule id => page (deleteAlertRule p id)
  | r_setControls id req => page (setControls p id req)
  | r_setDeviceControls id req => page (setDeviceControls p id req)
  | r_createRollout req => page (createRollout p req)
  | r_pauseRollout id => page (transitionRollout "pause" ["active"] "paused" p id)
  | r_resumeRollout id => page (transitionRollout "resume" ["paused"] "active" p id)
  | r_cancelRollout id => page (transitionRollout "cancel" ["active"; "paused"] "cancelled" p id)
  | r_rollbackRollout id version => page (rollbackRollout p id version)
  | r_createRingfence name => page (createRingfence p name)
  | r_renameRingfence id name => page (renameRingfence p id name)
  | r_deleteRingfence id => page (deleteRingfence p id)
  | r_setRingfenceMode id mode => page (setRingfenceMode p id mode)
  | r_addRingfenceProgram id path nb note => page (addRingfenceProgram p id path nb note)
  | r_deleteRingfenceProgram id program => page (deleteRingfenceProgram p id program)
  | r_setRingfenceProtection id asr_rule act => page (setRingfenceProtection p id asr_rule act)
  | r_assignRingfence id group => page (assignRingfence p id group)
  | r_unassignRingfence group ringfence => page (unassignRingfence p group ringfence)
  | r_listAdmins => page (listAdmins p)
  | r_createAdmin email password role => page (createAdmin p email password role)
  | r_disableAdmin id => page (disableAdmin p id)
  | r_enableAdmin id => page (enableAdmin p id)
  | r_setAdminRole id role => page (setAdminRole p id role)
  | r_uploadRelease io form => answer (uploadRelease keys ReleaseDir io p form)
  | r_listProviderTenants => page (listProviderTenants p)
  | r_createProviderTenant org email password => page (createProviderTenant master p org email password)
  | r_updateProviderTenant id name suspended => page (updateProviderTenant p id name suspended)
  end.

(** The guard of a page's group, after the session's. *)
Definition in_group (g : group) (c : Caller) (next : M host reply) : M host reply :=
  match g with
  | AnyRole => next
  | RoleGroup role => requireRole role c next
  | ProviderGroup => requireProvider c next
  end.

(** [withSession], in front of a handler of the server process. *)
Definition with_session {R} (mfa : bool) (rq : Request) (refusal : response → R) (next : Caller → M host R) : M host R :=
  r ← in_world (session_check mfa rq);
  match r with inl resp => mret (refusal resp) | inr c => next c end.

Definition with_cookie (m : M world (response * option cookie)) : M host (reply * option cookie) :=
  '(r, c) ← in_world m; mret (Answer r, c).
Definition no_cookie (m : M host reply) : M host (reply * option cookie) := r ← m; mret (r, None).

(** The guards answer without a cookie. *)
Definition turned_away (resp : response) : reply * option cookie := (Answer resp, None).

(** The routes that need the runtime; [tenant] is the tenant of its keys. *)
Definition serve_console (tenant : uuid) (r : route) (rq : Request) : M host (reply * option cookie) :=
  match r with
  | r_login email password => with_cookie (login tenant rq email password)
  | r_logout => with_session false rq turned_away (λ _, with_cookie (logout rq))
  | r_mfaSetup => with_session false rq turned_away (λ c, no_cookie (page (mfaSetup TOTPSealer c)))
  | r_mfaVerify code => with_session false rq turned_away (λ c, no_cookie (page (mfaVerify TOTPSealer rq c code)))
  | r_page a =>
      with_session true rq turned_away (λ c,
        h ← get;
        no_cookie (in_group (group_of a) c (run_page (keysFor h) (principal_of rq c) a)))
  | _ => fail ErrNotFound (* not below requireRuntime *)
  end.

(** [Handler]: what a request to a route is answered, with the cookie it sets. *)
Definition serve (r : route) (request : Request) : M host (reply * option cookie) :=
  let rq := with_method (route_is_get r) request in
  match r with
  | r_health => no_cookie (answer health)
  | r_ready ping => no_cookie (answer (ready ping))
  | r_setupStatus => no_cookie (answer setupStatus)
  | r_setup listen org email password =>
      h ← get; no_cookie (answer (setup master sort (keysFor h) listen org email password))
  | r_downloadRelease tenant version => no_cookie (downloadRelease ReleaseDir tenant version)
  | r_downloadLegacyRelease version => no_cookie (downloadLegacyRelease ReleaseDir version)
  | _ => requireRuntime turned_away (λ tenant, serve_console tenant r rq)
  end.
End routes.
