(* ===== verification/Tenancy.v ===== *)
(** * Tenants are on their own

    What it means that an operation stays within a tenant: the rows of every other tenant,
    the accounts and the key material are as before, and every row still belongs to the
    tenant of the row it hangs on. The store methods of the console are shown to do so,
    one by one, and the second half lifts this to the console's pages. *)

From stdpp Require Import gmap strings list.
From S2P Require Import Prelude GoStr Rules Db Hub StoreCore World Commands Enroll StoreRollouts StoreNotify Notify Outbox Http StorePolicies StoreTelemetry StoreMetrics StoreRingfence StoreAdmins Policies Telemetry Alerting Ringfences Authn Bootstrap NotifyApi Rollout App Demo AuthnFacts Console Exports Releases Routes.

(** ** Filtered maps *)

Section filtered.
Context {K A : Type} `{Countable K} (P : K * A → Prop) `{∀ x, Decision (P x)}.
Implicit Types m : gmap K A.

Lemma filter_insert_own m k v :
  ¬ P (k, v) → (∀ o, m !! k = Some o → ¬ P (k, o)) → filter P (<[k := v]> m) = filter P m.
Proof.
  intros Hv Ho. rewrite map_filter_insert_False by done. apply map_filter_delete_not. done.
Qed.
Lemma filter_delete_own m k : (∀ o, m !! k = Some o → ¬ P (k, o)) → filter P (delete k m) = filter P m.
Proof. intros Ho. by apply map_filter_delete_not. Qed.
Lemma filter_filter_own (Q : K * A → Prop) `{∀ x, Decision (Q x)} m :
  (∀ k v, m !! k = Some v → P (k, v) → Q (k, v)) → filter P (filter Q m) = filter P m.
Proof.
  intros HPQ. apply map_eq. intros k. apply option_eq. intros v. rewrite !map_lookup_filter_Some. naive_solver.
Qed.
Lemma filter_fmap_own (f : A → A) m :
  (∀ k v, m !! k = Some v → f v = v ∨ (¬ P (k, v) ∧ ¬ P (k, f v))) → filter P (f <$> m) = filter P m.
Proof.
  intros Hf. apply map_eq. intros k. apply option_eq. intros v. rewrite !map_lookup_filter_Some, lookup_fmap_Some. split.
  - intros [(v0 & <- & Hv) HP]. destruct (Hf k v0 Hv) as [Heq|[_ ?]]; [by rewrite Heq in *|done].
  - intros [Hv HP]. split; [|done]. exists v. destruct (Hf k v Hv) as [Heq|[? _]]; done.
Qed.
End filtered.

(** ** Children and parents *)

(** Every row of [m] names a row of [ps] and has its tenant. *)
Definition children {K A B} `{Countable K} (m : gmap K A) (ps : gmap uuid B) (parent : K → A → uuid) (tc : A → uuid) (tp : B → uuid) : Prop :=
  ∀ k c, m !! k = Some c → ∃ p, ps !! parent k c = Some p ∧ tp p = tc c.

Section children.
Context {K A B : Type} `{Countable K} (parent : K → A → uuid) (tc : A → uuid) (tp : B → uuid).
Implicit Types (m : gmap K A) (ps : gmap uuid B).

Lemma children_insert m ps k c p :
  children m ps parent tc tp → ps !! parent k c = Some p → tp p = tc c → children (<[k := c]> m) ps parent tc tp.
Proof. intros Hm Hp Ht k' c'. rewrite lookup_insert_Some. intros [[<- <-]|[_ Hc]]; [eauto|by apply Hm]. Qed.
Lemma children_sub m m' ps : children m ps parent tc tp → m' ⊆ m → children m' ps parent tc tp.
Proof. intros Hm Hsub k c Hc. apply Hm. eapply lookup_weaken; done. Qed.
(** A new parent, or one that keeps its tenant. *)
Lemma children_parent m ps i p :
  children m ps parent tc tp → (∀ p0, ps !! i = Some p0 → tp p0 = tp p) → children m (<[i := p]> ps) parent tc tp.
Proof.
  intros Hm Hp k c Hc. destruct (Hm k c Hc) as (p0 & Hp0 & Ht). rewrite lookup_insert. case_decide as Hi; [|eauto].
  subst. eexists. split; [done|]. by rewrite <- (Hp p0 Hp0).
Qed.
Lemma children_delete_parent m ps i :
  children m ps parent tc tp → (∀ k c, m !! k = Some c → parent k c ≠ i) → children m (delete i ps) parent tc tp.
Proof.
  intros Hm Hi k c Hc. destruct (Hm k c Hc) as (p & Hp & Ht). exists p. split; [|done]. rewrite lookup_delete_ne; [done|].
  intros Heq. by apply (Hi k c Hc).
Qed.
Lemma children_fmap_parent m ps (f : B → B) :
  children m ps parent tc tp → (∀ p, tp (f p) = tp p) → children m (f <$> ps) parent tc tp.
Proof. intros Hm Hf k c Hc. destruct (Hm k c Hc) as (p & Hp & Ht). exists (f p). by rewrite lookup_fmap, Hp, Hf. Qed.
(** Deleting a parent with its children. *)
Lemma children_cascade m ps i (Q : K * A → Prop) `{∀ x, Decision (Q x)} :
  children m ps parent tc tp → (∀ k c, m !! k = Some c → Q (k, c) → parent k c ≠ i) → children (filter Q m) (delete i ps) parent tc tp.
Proof.
  intros Hm Hi. apply children_delete_parent; [eapply children_sub; [done|apply map_filter_subseteq]|].
  intros k c [Hc HQ]%map_lookup_filter_Some. by apply Hi.
Qed.
End children.

(** ** The tables *)

(** Each row has the tenant of the rows it refers to. *)
Record consistent (d : db) : Prop := {
  assignment_group : children (policy_assignments d) (device_groups d) (λ g _, g) pa_tenant gr_tenant;
  assignment_policy : children (policy_assignments d) (policies d) (λ _ a, pa_policy a) pa_tenant po_tenant;
  version_policy : children (policy_versions d) (policies d) (λ k _, k.1) pv_tenant po_tenant;
  request_policy : children (approval_requests d) (policies d) (λ _ r, ar_policy r) ar_tenant po_tenant;
  controls_group : children (device_controls d) (device_groups d) (λ g _, g) dc_tenant gr_tenant;
  overrides_device : children (device_control_overrides d) (devices d) (λ v _, v) ov_tenant dv_tenant;
  fence_group : children (ringfence_assignments d) (device_groups d) (λ g _, g) ra_tenant gr_tenant;
  fence_policy : children (ringfence_assignments d) (ringfence_policies d) (λ _ a, ra_ringfence a) ra_tenant rf_tenant;
  program_fence : children (ringfence_programs d) (ringfence_policies d) (λ _ p, rp_ringfence p) rp_tenant rf_tenant;
  protection_fence : children (ringfence_protections d) (ringfence_policies d) (λ k _, k.1) rt_tenant rf_tenant;
  alert_rule : children (alerts d) (alert_rules d) (λ _ a, at_rule a) at_tenant al_tenant;
  breach_rule : children (alert_breaches d) (alert_rules d) (λ k _, k.2) br_tenant al_tenant;
  delivery_channel : children (notification_deliveries d) (notification_channels d) (λ _ v, dl_channel v) dl_tenant ch_tenant;
  rule_policy : ∀ k r, policy_rules d !! k = Some r → is_Some (policies d !! pr_policy r);
}.

(** A rule is foreign when neither it nor its policy is the tenant's. *)
Definition foreign_rule (t : uuid) (d : db) (r : PolicyRule) : Prop := pr_tenant r ≠ t ∧ po_tenant <$> policies d !! pr_policy r ≠ Some t.
Definition foreign_request (t : uuid) (d : db) (id : uuid) : Prop :=
  match ar_tenant <$> approval_requests d !! id with Some t' => t' ≠ t | None => False end.
#[export] Instance foreign_rule_dec t d r : Decision (foreign_rule t d r).
Proof. unfold foreign_rule. apply _. Defined.
#[export] Instance foreign_request_dec t d id : Decision (foreign_request t d id).
Proof. unfold foreign_request. destruct (_ <$> _); apply _. Defined.

Abbreviation others tn t m := (filter (λ kv, tn kv.2 ≠ t) m).
Abbreviation others_in tn t l := (List.filter (λ x, negb (bool_decide (tn x = t))) l).

(** The database without the rows of a tenant. *)
Definition foreign (t : uuid) (d : db) : db :=
  mkDb 0 0 (filter (λ kv, kv.1 ≠ t) (tenants d)) (others ad_tenant t (admins d)) (others se_tenant t (sessions d))
    (others gr_tenant t (device_groups d)) (others it_tenant t (install_tokens d)) (others dv_tenant t (devices d))
    (others cm_tenant t (commands d)) (others_in (λ e : N * AuditEntry, au_tenant e.2) t (audit_log d))
    (filter (λ kv, kv.1.1 ≠ t) (agent_releases d)) (others ro_tenant t (agent_rollouts d)) (agent_rollout_devices d)
    (others ch_tenant t (notification_channels d)) (others dl_tenant t (notification_deliveries d)) (others po_tenant t (policies d))
    (filter (λ kv, foreign_rule t d kv.2) (policy_rules d)) (others pv_tenant t (policy_versions d))
    (others pa_tenant t (policy_assignments d)) (others ar_tenant t (approval_requests d))
    (filter (λ rd, foreign_request t d rd.1) (approval_request_devices d)) (others al_tenant t (alert_rules d))
    (others at_tenant t (alerts d)) (others br_tenant t (alert_breaches d)) (others dc_tenant t (device_controls d))
    (others ov_tenant t (device_control_overrides d)) (others_in lf_tenant t (login_failures d))
    (others rf_tenant t (ringfence_policies d)) (others rp_tenant t (ringfence_programs d)) (others rt_tenant t (ringfence_protections d))
    (others ra_tenant t (ringfence_assignments d)) (others_in (λ e : N * BlockEvent, be_tenant e.2) t (block_events d))
    (others ob_tenant t (observations d)) (others_in (λ e : N * DeviceEvent, de_tenant e.2) t (device_events d))
    (filter (λ kv, kv.1.1 ≠ t) (server_keys d)) (others_in dm_tenant t (device_metrics d))
    (others_in (λ e : N * RingfenceEventRow, re_tenant e.2) t (ringfence_events d)).

(** Who may log in, who is logged in, and the keys. *)
Definition accounts (d : db) := (tenants d, admins d, sessions d, login_failures d, server_keys d).

(** The operation stays within the tenant. *)
Definition within (t : uuid) (d d' : db) : Prop :=
  accounts d' = accounts d ∧ (consistent d → consistent d' ∧ foreign t d' = foreign t d).
#[export] Instance within_preorder t : PreOrder (within t).
Proof.
  split; [by intros d|]. intros d1 d2 d3 [Ha12 H12] [Ha23 H23]. split; [congruence|]. intros Hc.
  destruct (H12 Hc) as [Hc2 Hf2]. destruct (H23 Hc2) as [Hc3 Hf3]. split; [done|congruence].
Qed.

(** ** The store methods *)

(** Splits [within] into the rows that changed: their parents, and what others see. *)
Ltac stay :=
  match goal with
  | |- within _ ?d ?d => reflexivity
  | _ => split; [reflexivity|]; let Hc := fresh "Hc" in intros Hc; split;
      [destruct Hc; split; simpl; try assumption | unfold foreign; f_equal; try reflexivity; simpl]
  end.

(** Rows that are the tenant's own, inserted, changed or removed. *)
Ltac own :=
  first
    [ done
    | apply children_parent; [done|intros; simplify_eq/=; congruence]
    | eapply children_insert; [done|done|simpl; congruence]
    | eapply children_sub; [done|apply delete_subseteq || apply map_filter_subseteq]
    | apply filter_insert_own; simpl; [naive_solver|intros; simplify_eq/=; naive_solver]
    | apply filter_delete_own; intros; simplify_eq/=; naive_solver
    | idtac ].
(** A primary key that was free. *)
Ltac free_key :=
  repeat match goal with H : ¬ is_Some (_ !! _) |- _ => apply eq_None_not_Some in H end.

(** Follows a store method to the states it can leave. *)
Ltac store_op :=
  let d := fresh "d" in intros d; unfold stmt; simpl; repeat (case_match; simpl in *); bool_cases; free_key; simplify_eq/=; try reflexivity; stay; own.
#[export] Instance AppendAudit_within t actor action ty target det ip res : Steps (within t) (AppendAudit t actor action ty target det ip res).
Proof.
  intros d. unfold AppendAudit. destruct (has_tenant t d); simpl; stay.
  rewrite List.filter_app. simpl. rewrite bool_decide_eq_true_2 by done. simpl. by rewrite app_nil_r.
Qed.

#[export] Instance CreateDeviceGroup_within id t name : Steps (within t) (CreateDeviceGroup id t name).
Proof. apply map_err_steps. store_op. Qed.
#[export] Instance RenameDeviceGroup_within t id name : Steps (within t) (RenameDeviceGroup t id name).
Proof. apply map_err_steps. store_op. Qed.
#[export] Instance CreateInstallToken_within id t h n g e m c : Steps (within t) (CreateInstallToken id t h n g e m c).
Proof. unfold CreateInstallToken. store_op. Qed.
#[export] Instance RevokeInstallToken_within t id : Steps (within t) (RevokeInstallToken t id).
Proof. unfold RevokeInstallToken, oneRow. store_op. Qed.

Lemma upd_device_within t id f : (∀ v, dv_tenant (f v) = dv_tenant v) → Steps (within t) (upd_device t id f).
Proof.
  intros Hf d. unfold upd_device, oneRow. destruct (devices d !! id) as [v|] eqn:Hv; simpl; [|reflexivity].
  case_bool_decide as Ht; simpl; [|reflexivity]. stay.
  - apply children_parent; [done|]. intros v' Hv'. by rewrite Hf; simplify_eq.
  - apply filter_insert_own; simpl; [rewrite Hf; naive_solver|intros; simplify_eq; naive_solver].
Qed.
#[export] Instance SetDeviceGroup_within t id g : Steps (within t) (SetDeviceGroup t id g).
Proof.
  intros d. unfold SetDeviceGroup. match goal with |- context [if ?b then _ else _] => destruct b end; [|reflexivity].
  by apply upd_device_within.
Qed.
#[export] Instance RevokeDevice_within t id : Steps (within t) (RevokeDevice t id).
Proof. by apply upd_device_within. Qed.
#[export] Instance PutRelease_within t v s sg : Steps (within t) (PutRelease t v s sg).
Proof. unfold PutRelease. store_op. Qed.

#[export] Instance CreateCommand_within t id dev ty p by_ ia ea : Steps (within t) (CreateCommand t id dev ty p by_ ia ea).
Proof. unfold CreateCommand. store_op. Qed.
#[export] Instance MarkCommandSent_within t id : Steps (within t) (MarkCommandSent t id).
Proof. unfold MarkCommandSent, oneRow. store_op. Qed.

(** Deleting a group: its devices and tokens lose it, its assignments and controls go. *)
Lemma cascade_group_within t id g d :
  device_groups d !! id = Some g → gr_tenant g = t → within t d (cascade_group id (set_device_groups (delete id (device_groups d)) d)).
Proof.
  intros Hg Ht. split; [done|]. intros Hc. split.
  - destruct Hc. split; simpl; try assumption; try (eapply children_sub; [done|apply delete_subseteq]);
      (apply children_delete_parent; [eapply children_sub; [done|apply delete_subseteq]|]);
      intros k c Hk ->; by rewrite lookup_delete_eq in Hk.
  - destruct Hc. unfold foreign. f_equal; try reflexivity; simpl; apply filter_delete_own; simpl; intros o Ho; simplify_eq/=; [tauto|..];
      match goal with
      | H : children (policy_assignments d) (device_groups d) _ _ _, Ho : policy_assignments d !! id = Some o |- _ => destruct (H id o Ho) as (p & Hp & Htp)
      | H : children (device_controls d) _ _ _ _, Ho : device_controls d !! id = Some o |- _ => destruct (H id o Ho) as (p & Hp & Htp)
      | H : children (ringfence_assignments d) (device_groups d) _ _ _, Ho : ringfence_assignments d !! id = Some o |- _ => destruct (H id o Ho) as (p & Hp & Htp)
      end; simpl in *; simplify_eq; intros Hne; apply Hne; congruence.
Qed.
#[export] Instance ungroup_devices_within t id : Steps (within t) (modify (λ d, set_devices (ungroup_device t id <$> devices d) d)).
Proof.
  assert (∀ v, dv_tenant (ungroup_device t id v) = dv_tenant v) as Hten by (intros v; unfold ungroup_device; by destruct (_ && _)).
  intros d. simpl. stay.
  - by apply children_fmap_parent.
  - apply filter_fmap_own. intros k v _. simpl. rewrite Hten. unfold ungroup_device. destruct (_ && _) eqn:E; [right|by left]. bool_cases. tauto.
Qed.
#[export] Instance ungroup_tokens_within t id : Steps (within t) (modify (λ d, set_install_tokens (ungroup_token t id <$> install_tokens d) d)).
Proof.
  assert (∀ v, it_tenant (ungroup_token t id v) = it_tenant v) as Hten by (intros v; unfold ungroup_token; by destruct (_ && _)).
  intros d. simpl. stay.
  apply filter_fmap_own. intros k v _. simpl. rewrite Hten. unfold ungroup_token. destruct (_ && _) eqn:E; [right|by left]. bool_cases. tauto.
Qed.
#[export] Instance DeleteDeviceGroup_within t id : Steps (within t) (DeleteDeviceGroup t id).
Proof.
  unfold DeleteDeviceGroup. apply transaction_steps, bind_steps; [apply _|]. intros _. apply bind_steps; [apply _|]. intros _ d. unfold stmt.
  destruct (device_groups d !! id) as [g|] eqn:Hg; [|reflexivity]. case_bool_decide as Ht; [|reflexivity]. simpl.
  destruct (group_referenced id d); [reflexivity|]. by eapply cascade_group_within.
Qed.

(** *** Rollouts and channels *)

#[export] Instance GetRollout_ro t id : ReadOnly (GetRollout t id).
Proof. intros d. unfold GetRollout. by repeat case_match. Qed.
#[export] Instance insertRollout_within t r : Steps (within t) (insertRollout t r).
Proof. unfold insertRollout. store_op. Qed.
#[export] Instance CreateRollout_within t r : Steps (within t) (CreateRollout t r).
Proof. apply _. Qed.
Lemma GetRollout_own t id d o : (GetRollout t id d).2 = Ok o → agent_rollouts d !! id = Some o ∧ ro_tenant o = t.
Proof. unfold GetRollout. repeat case_match; simpl; intros; bool_cases; by simplify_eq. Qed.
#[export] Instance ReplaceRollout_within t old next now : Steps (within t) (ReplaceRollout t old next now).
Proof.
  unfold ReplaceRollout. apply transaction_steps. intros d. unfold mbind at 1, M_bind at 1.
  pose proof (read_only (m:=GetRollout t old) d) as Hro. destruct (GetRollout t old d) as [d1 [o|e]] eqn:Ho; simpl in Hro; subst d1; [|reflexivity].
  destruct (GetRollout_own t old d o) as [Hold Ht]; [by rewrite Ho|]. unfold mbind, M_bind. case_match eqn:E.
  destruct (_ || _); simpl in E; injection E as <- <-.
  - etrans; [|apply (steps_of (m:=insertRollout t next))]. stay; own.
  - apply (steps_of (m:=insertRollout t next)).
Qed.
#[export] Instance SetRolloutState_within t id from to now : Steps (within t) (SetRolloutState t id from to now).
Proof.
  unfold SetRolloutState. intros d. destruct (agent_rollouts d !! id) as [r|] eqn:Hr.
  - destruct (_ && _) eqn:Hg; [bool_cases|].
    + destruct (negb _); [reflexivity|]. destruct (_ && _); [reflexivity|]. simpl. stay; own.
    + apply (steps_of (m:=_ ← GetRollout t id; fail ErrConflict)).
  - apply (steps_of (m:=_ ← GetRollout t id; fail ErrConflict)).
Qed.

#[export] Instance CreateChannel_within t id c : Steps (within t) (CreateChannel t id c).
Proof. apply map_err_steps. store_op. Qed.
#[export] Instance UpdateChannel_within t id c : Steps (within t) (UpdateChannel t id c).
Proof. unfold UpdateChannel. store_op. Qed.
#[export] Instance DeleteChannel_within t id : Steps (within t) (DeleteChannel t id).
Proof.
  unfold DeleteChannel, oneRow. intros d. destruct (notification_channels d !! id) as [c|] eqn:Hch; [|reflexivity].
  case_bool_decide as Ht; [|reflexivity]. simpl. stay.
  - apply children_cascade; [done|]. simpl. tauto.
  - destruct Hc. by apply filter_delete_own; intros; simplify_eq; naive_solver.
  - apply filter_filter_own. simpl. intros k v Hk Hv Hid. destruct (delivery_channel d Hc k v Hk) as (p & Hp & Htp).
    simpl in *. congruence.
Qed.

(** *** Policies and approval requests *)

Lemma foreign_rule_parent t d d' r :
  (∀ p, policies d !! pr_policy r = Some p → ∃ p', policies d' !! pr_policy r = Some p' ∧ po_tenant p' = po_tenant p) →
  is_Some (policies d !! pr_policy r) → foreign_rule t d' r ↔ foreign_rule t d r.
Proof.
  intros Hp [p Hpr]. destruct (Hp p Hpr) as (p' & Hpr' & Ht). unfold foreign_rule. rewrite Hpr, Hpr'. simpl. by rewrite Ht.
Qed.
(** Policies that keep their tenants leave the foreign rules as they are. *)
Lemma foreign_rules_policies t d ps :
  consistent d → (∀ i p, policies d !! i = Some p → ∃ p', ps !! i = Some p' ∧ po_tenant p' = po_tenant p) →
  filter (λ kv, foreign_rule t (set_policies ps d) kv.2) (policy_rules d) = filter (λ kv, foreign_rule t d kv.2) (policy_rules d).
Proof.
  intros Hc Hps. apply map_eq. intros k. apply option_eq. intros r. rewrite !map_lookup_filter_Some. simpl.
  split; intros [Hk Hf]; (split; [done|]); eapply (foreign_rule_parent t d (set_policies ps d)); eauto using rule_policy.
Qed.
Lemma insert_keeps_tenants (ps : gmap uuid AppPolicy) id p :
  (∀ o, ps !! id = Some o → po_tenant o = po_tenant p) → ∀ i q, ps !! i = Some q → ∃ p', <[id := p]> ps !! i = Some p' ∧ po_tenant p' = po_tenant q.
Proof. intros Hid i q Hq. rewrite lookup_insert. case_decide as Hi; [subst i; eexists; split; [done|]; by rewrite (Hid q)|eauto]. Qed.

(** A policy that is new or keeps its tenant. *)
Lemma set_policy_within t id p d :
  po_tenant p = t → (∀ o, policies d !! id = Some o → po_tenant o = t) → within t d (set_policies (<[id := p]> (policies d)) d).
Proof.
  intros Ht Ho. stay.
  1-3: apply children_parent; [done|]; intros o Hp; rewrite (Ho o Hp); congruence.
  - intros k r Hr. destruct (rule_policy0 k r Hr) as [q Hq]. destruct (insert_keeps_tenants (policies d) id p) with (i := pr_policy r) (q := q) as (p' & ? & _);
      [intros o Hp; rewrite (Ho o Hp); congruence|done|by eexists].
  - apply filter_insert_own; simpl; [congruence|]. intros o Hp. rewrite (Ho o Hp). tauto.
  - apply foreign_rules_policies; [done|]. apply insert_keeps_tenants. intros o Hp. rewrite (Ho o Hp). congruence.
Qed.
#[export] Instance CreatePolicy_within id t name mode : Steps (within t) (CreatePolicy id t name mode).
Proof.
  unfold CreatePolicy. apply map_err_steps. intros d. unfold stmt. destruct (negb _); [reflexivity|].
  destruct (_ || _) eqn:Hu; [reflexivity|]. destruct (negb _); [reflexivity|]. bool_cases. free_key. simpl.
  apply set_policy_within; [done|]. intros. congruence.
Qed.
#[export] Instance SetPolicyMode_within t id mode : Steps (within t) (SetPolicyMode t id mode).
Proof.
  intros d. unfold SetPolicyMode. destruct (policies d !! id) as [p|] eqn:Hp; [|reflexivity]. case_bool_decide as Ht; [|reflexivity].
  simpl. destruct (negb _); [reflexivity|]. simpl. apply set_policy_within; [done|]. intros. congruence.
Qed.

#[export] Instance DeletePolicy_within t id : Steps (within t) (DeletePolicy t id).
Proof.
  unfold DeletePolicy, oneRow. intros d. destruct (policies d !! id) as [p|] eqn:Hp; [|reflexivity].
  case_bool_decide as Ht; [|reflexivity]. unfold cascade_policy. simpl.
  stay.
  1: eapply children_sub; [done|apply map_filter_subseteq].
  1-3: by apply children_cascade.
  - intros k r [Hr Hne]%map_lookup_filter_Some. simpl in Hne. rewrite lookup_delete_ne by congruence. eauto.
  - own.
  - apply map_eq. intros k. apply option_eq. intros r. rewrite !map_lookup_filter_Some. unfold foreign_rule. simpl.
    destruct (decide (pr_policy r = id)) as [->|Hne].
    + rewrite Hp. simpl. split; [tauto|]. intros [_ [_ Hf]]. congruence.
    + rewrite lookup_delete_ne by done. tauto.
  - apply filter_filter_own. simpl. intros k v Hk Hv Hid. destruct (version_policy d Hc k v Hk) as (p' & Hp' & Htp). congruence.
  - apply filter_filter_own. simpl. intros k v Hk Hv Hid. destruct (assignment_policy d Hc k v Hk) as (p' & Hp' & Htp). simpl in *. congruence.
  - apply filter_filter_own. simpl. intros k v Hk Hv Hid. destruct (request_policy d Hc k v Hk) as (p' & Hp' & Htp). simpl in *. congruence.
  - apply leibniz_equiv. intros [rq dev]. rewrite !elem_of_filter. simpl. unfold foreign_request. simpl.
    rewrite not_elem_of_dom, map_lookup_filter. destruct (approval_requests d !! rq) as [r|] eqn:Hr; simpl; [|tauto].
    rewrite map_lookup_filter, Hr. simpl. repeat case_guard; simpl; try done; [naive_solver|].
    split; [naive_solver|]. intros [Hf _]. exfalso. destruct (request_policy d Hc rq r Hr) as (p' & Hp' & Htp). simpl in *. congruence.
Qed.
#[export] Instance AddRule_within id t pid r by_ : Steps (within t) (AddRule id t pid r by_).
Proof.
  apply map_err_steps. intros d. unfold stmt. destruct (negb _); [reflexivity|]. destruct (_ || _) eqn:Hu; [reflexivity|].
  destruct (negb (has_tenant t d) || _ || _) eqn:Hfk; [reflexivity|]. bool_cases. free_key. simpl. stay.
  - intros k r0. rewrite lookup_insert_Some. intros [[<- <-]|[_ Hr]]; [|eauto]. simpl. by apply not_eq_None_Some.
  - apply filter_insert_own; simpl; [unfold foreign_rule; simpl; tauto|congruence].
Qed.
#[export] Instance DeleteRule_within t pid rid : Steps (within t) (DeleteRule t pid rid).
Proof.
  unfold DeleteRule, oneRow. intros d. destruct (policy_rules d !! rid) as [r|] eqn:Hr; [|reflexivity].
  destruct (_ && _) eqn:Hg; [|reflexivity]. bool_cases. simpl. stay.
  - intros k r0 [_ Hk]%lookup_delete_Some. eauto.
  - apply filter_delete_own. intros o Ho. unfold foreign_rule. simpl. simplify_eq. tauto.
Qed.
(** A version under a policy of the tenant. *)
Lemma PutPolicyVersion_own t pid v mode xml sg d p :
  policies d !! pid = Some p → po_tenant p = t → within t d (PutPolicyVersion t pid v mode xml sg d).1.
Proof.
  intros Hp Ht. unfold PutPolicyVersion. destruct (policy_versions d !! (pid, v)) as [old|] eqn:Hv.
  - simpl. split; [reflexivity|]. intros Hc. destruct (version_policy d Hc _ _ Hv) as (p' & Hp' & Htp). simpl in *. simplify_eq.
    split; [destruct Hc; split; simpl; try assumption|unfold foreign; f_equal; try reflexivity; simpl].
    + eapply children_insert; [done|exact Hp|simpl; congruence].
    + apply filter_insert_own; simpl; [congruence|]. intros o Ho. simplify_eq. congruence.
  - destruct (_ || _); [reflexivity|]. simpl. stay; own.
Qed.
#[export] Instance AssignPolicy_within t g pid : Steps (within t) (AssignPolicy t g pid).
Proof.
  unfold AssignPolicy. intros d. destruct (_ && _) eqn:Hown; [|reflexivity]. apply andb_true_iff in Hown as [Hg Hp].
  destruct (device_groups d !! g) as [gr|] eqn:Hgr; [|done]. destruct (policies d !! pid) as [p|] eqn:Hpol; [|done]. bool_cases.
  destruct (policy_assignments d !! g) as [a|] eqn:Ha; [case_bool_decide as Hat; [|reflexivity]|]; simpl; stay; own.
Qed.
#[export] Instance DecideApprovalRequest_within t id status admin now : Steps (within t) (DecideApprovalRequest t id status admin now).
Proof.
  unfold DecideApprovalRequest. intros d. destruct (approval_requests d !! id) as [r|] eqn:Hr; [|reflexivity].
  destruct (_ && _) eqn:Hg; [|unfold GetApprovalRequest, mbind, M_bind; rewrite Hr; by case_bool_decide].
  bool_cases. destruct (negb _); [reflexivity|]. case_bool_decide; [reflexivity|]. simpl. stay.
  - destruct (request_policy0 id r Hr) as (p & Hp & Htp). eapply children_insert; [done|exact Hp|exact Htp].
  - apply filter_insert_own; simpl; [tauto|]. intros. simplify_eq. tauto.
  - apply leibniz_equiv. intros [rq dev]. rewrite !elem_of_filter. simpl. unfold foreign_request. simpl.
    rewrite lookup_insert. case_decide as Hid; [subst; by rewrite Hr|done].
Qed.

(** *** Controls, alert rules and ringfences *)

#[export] Instance SetControls_within t g c : Steps (within t) (SetControls t g c).
Proof.
  unfold SetControls. intros d. destruct (device_groups d !! g) as [gr|] eqn:Hg; [|reflexivity]. case_bool_decide as Ht; [|reflexivity].
  destruct (device_controls d !! g) as [old|] eqn:Hold; [case_bool_decide; [|reflexivity]|]; simpl; stay; own.
Qed.
#[export] Instance SetDeviceOverrides_within t v o : Steps (within t) (SetDeviceOverrides t v o).
Proof.
  unfold SetDeviceOverrides, own_device. intros d. destruct (devices d !! v) as [dev|] eqn:Hv; [|reflexivity]. case_bool_decide as Ht; [|reflexivity]. simpl.
  destruct (empty o); [simpl; stay|destruct (negb _); [reflexivity|]; simpl; split; [reflexivity|]; intros Hc].
  - eapply children_sub; [done|apply map_filter_subseteq].
  - apply filter_filter_own. simpl. tauto.
  - set (t' := match _ with Some old => ov_tenant old | None => t end).
    assert (t' = t) as Ht'.
    { unfold t'. destruct (device_control_overrides d !! v) as [old|] eqn:Hold; [|done].
      destruct (overrides_device d Hc v old Hold) as (dev' & Hdev' & Hten). simpl in *. congruence. }
    rewrite Ht'. split; [destruct Hc; split; simpl; try assumption|unfold foreign; f_equal; try reflexivity; simpl].
    + eapply children_insert; [done|exact Hv|done].
    + apply filter_insert_own; simpl; [tauto|]. intros old Hold. destruct (overrides_device d Hc v old Hold) as (dev' & Hdev' & Hten).
      simpl in *. congruence.
Qed.

#[export] Instance CreateAlertRule_within id t r : Steps (within t) (CreateAlertRule id t r).
Proof. unfold CreateAlertRule. store_op. Qed.
#[export] Instance UpdateAlertRule_within t id r : Steps (within t) (UpdateAlertRule t id r).
Proof.
  unfold UpdateAlertRule. apply transaction_steps, bind_steps; [store_op|]. intros _ d. simpl. stay.
  - eapply children_sub; [done|apply map_filter_subseteq].
  - apply filter_filter_own. simpl. tauto.
Qed.
#[export] Instance DeleteAlertRule_within t id : Steps (within t) (DeleteAlertRule t id).
Proof.
  unfold DeleteAlertRule, oneRow. intros d. destruct (alert_rules d !! id) as [a|] eqn:Ha; [|reflexivity].
  case_bool_decide as Ht; [|reflexivity]. simpl. stay.
  1-2: by apply children_cascade.
  - own.
  - apply filter_filter_own. simpl. intros k v Hk Hv Hid. destruct (alert_rule d Hc k v Hk) as (p & Hp & Htp). simpl in *. congruence.
  - apply filter_filter_own. simpl. intros k v Hk Hv Hid. destruct (breach_rule d Hc k v Hk) as (p & Hp & Htp). simpl in *. congruence.
Qed.

(** A ringfence that is new or keeps its tenant. *)
Lemma set_ringfence_within t id r d :
  rf_tenant r = t → (∀ o, ringfence_policies d !! id = Some o → rf_tenant o = t) →
  within t d (set_ringfence_policies (<[id := r]> (ringfence_policies d)) d).
Proof.
  intros Ht Ho. stay.
  1-3: apply children_parent; [done|]; intros o Hp; rewrite (Ho o Hp); congruence.
  apply filter_insert_own; simpl; [congruence|]. intros o Hp. rewrite (Ho o Hp). tauto.
Qed.
#[export] Instance CreateRingfence_within t id name mode : Steps (within t) (CreateRingfence t id name mode).
Proof.
  unfold CreateRingfence. apply map_err_steps. intros d. unfold stmt. destruct (negb (policy_mode_ok _)); [reflexivity|].
  destruct (_ || _) eqn:Hu; [reflexivity|]. destruct (negb _); [reflexivity|]. bool_cases. free_key. simpl.
  apply set_ringfence_within; [done|]. intros. congruence.
Qed.
#[export] Instance RenameRingfence_within t id name : Steps (within t) (RenameRingfence t id name).
Proof.
  intros d. unfold RenameRingfence. destruct (own_ringfence t id d) as [r|] eqn:Hr; [|reflexivity]. apply own_ringfence_Some in Hr as [Hr Ht].
  destruct (ringfence_name_taken _ _ _ _); [reflexivity|]. simpl. apply set_ringfence_within; [done|]. intros. congruence.
Qed.
#[export] Instance SetRingfenceMode_within t id mode : Steps (within t) (SetRingfenceMode t id mode).
Proof.
  intros d. unfold SetRingfenceMode. destruct (own_ringfence t id d) as [r|] eqn:Hr; [|reflexivity]. apply own_ringfence_Some in Hr as [Hr Ht].
  destruct (negb _); [reflexivity|]. simpl. apply set_ringfence_within; [done|]. intros. congruence.
Qed.
#[export] Instance DeleteRingfence_within t id : Steps (within t) (DeleteRingfence t id).
Proof.
  unfold DeleteRingfence, oneRow. intros d. destruct (ringfence_policies d !! id) as [r|] eqn:Hr; [|reflexivity].
  case_bool_decide as Ht; [|reflexivity]. unfold cascade_ringfence. simpl. stay.
  - eapply children_sub; [done|apply map_filter_subseteq].
  - by apply children_cascade.
  - by apply children_cascade.
  - by apply children_cascade.
  - own.
  - apply filter_filter_own. simpl. intros k v Hk Hv Hid. destruct (program_fence d Hc k v Hk) as (p & Hp & Htp). simpl in *. congruence.
  - apply filter_filter_own. simpl. intros k v Hk Hv Hid. destruct (protection_fence d Hc k v Hk) as (p & Hp & Htp). simpl in *. congruence.
  - apply filter_filter_own. simpl. intros k v Hk Hv Hid. destruct (fence_policy d Hc k v Hk) as (p & Hp & Htp). simpl in *. congruence.
Qed.
#[export] Instance AddRingfenceProgram_within t rid id path nb note : Steps (within t) (AddRingfenceProgram t rid id path nb note).
Proof.
  unfold AddRingfenceProgram. apply map_err_steps. intros d. unfold stmt. destruct (own_ringfence t rid d) as [r|] eqn:Hr; [|reflexivity].
  apply own_ringfence_Some in Hr as [Hr Ht]. destruct (_ || _) eqn:Hu; [reflexivity|]. destruct (negb _); [reflexivity|].
  bool_cases. free_key. simpl. stay; own.
Qed.
#[export] Instance DeleteRingfenceProgram_within t rid id : Steps (within t) (DeleteRingfenceProgram t rid id).
Proof. unfold DeleteRingfenceProgram, oneRow. store_op. Qed.
#[export] Instance SetRingfenceProtection_within t rid asr action : Steps (within t) (SetRingfenceProtection t rid asr action).
Proof.
  unfold SetRingfenceProtection. case_bool_decide.
  - intros d. simpl. stay.
    + eapply children_sub; [done|apply map_filter_subseteq].
    + apply filter_filter_own. simpl. tauto.
  - apply map_err_steps. intros d. unfold stmt. destruct (own_ringfence t rid d) as [r|] eqn:Hr; [|reflexivity].
    apply own_ringfence_Some in Hr as [Hr Ht]. destruct (negb (action_ok _)); [reflexivity|].
    destruct (ringfence_protections d !! _) as [old|] eqn:Hold; [|destruct (negb _); [reflexivity|]; simpl; stay; own].
    simpl. stay.
    + destruct (protection_fence0 _ old Hold) as (p & Hp & Htp). eapply children_insert; [done|exact Hp|exact Htp].
    + destruct (protection_fence d Hc _ old Hold) as (p & Hp & Htp). simpl in *. own.
Qed.
#[export] Instance AssignRingfence_within t g rid : Steps (within t) (AssignRingfence t g rid).
Proof.
  unfold AssignRingfence. apply map_err_steps. intros d. unfold stmt, own_group. destruct (device_groups d !! g) as [gr|] eqn:Hg; [|reflexivity].
  destruct (_ || _) eqn:Hown; [reflexivity|]. bool_cases. destruct (own_ringfence t rid d) as [r|] eqn:Hr; [|done].
  apply own_ringfence_Some in Hr as [Hr Ht].
  destruct (ringfence_assignments d !! g) as [a|] eqn:Ha; [case_bool_decide as Hat; [|reflexivity]|destruct (negb _); [reflexivity|]]; simpl; stay; own.
Qed.
#[export] Instance UnassignRingfence_within t g : Steps (within t) (UnassignRingfence t g).
Proof. unfold UnassignRingfence, oneRow. store_op. Qed.

(** *** Accounts and sessions *)

(** The session, if it is there, is of the tenant. *)
Definition own_session (t : uuid) (sid : string) (d : db) : Prop := ∀ s, sessions d !! sid = Some s → se_tenant s = t.
(** The operation touches rows of the tenant only, accounts and sessions included. *)
Definition isolated (t : uuid) (sid : string) (d d' : db) : Prop :=
  consistent d ∧ own_session t sid d → (consistent d' ∧ own_session t sid d') ∧ foreign t d' = foreign t d.
#[export] Instance isolated_preorder t sid : PreOrder (isolated t sid).
Proof.
  split; [by intros d|]. intros d1 d2 d3 H12 H23 Hc. destruct (H12 Hc) as [Hc2 Hf2]. destruct (H23 Hc2) as [Hc3 Hf3].
  split; [done|congruence].
Qed.
Lemma within_isolated t sid d d' : within t d d' → isolated t sid d d'.
Proof.
  intros [Ha Hw] [Hc Hs]. destruct (Hw Hc) as [Hc' Hf]. split; [split; [done|]|done]. unfold own_session.
  injection Ha as _ _ -> _ _. done.
Qed.
#[export] Instance within_isolated_steps {A} t sid (m : M db A) : Steps (within t) m → Steps (isolated t sid) m | 10.
Proof. intros Hm d. apply within_isolated, Hm. Qed.

Ltac account_op :=
  split; [split; [match goal with H : consistent _ |- _ => destruct H; by split end|try done]|unfold foreign; f_equal; try reflexivity; simpl].

Lemma upd_admin_isolated t sid id f : (∀ a, ad_tenant (f a) = ad_tenant a) → Steps (isolated t sid) (upd_admin t id f).
Proof.
  intros Hf d. unfold upd_admin, oneRow. destruct (admins d !! id) as [a|] eqn:Ha; [|reflexivity]. case_bool_decide as Ht; [|reflexivity].
  simpl. intros [Hc Hs]. account_op. apply filter_insert_own; simpl; [rewrite Hf; tauto|]. intros. simplify_eq. tauto.
Qed.
#[export] Instance SetAdminTOTP_isolated t sid id e c : Steps (isolated t sid) (SetAdminTOTP t id e c).
Proof. by apply upd_admin_isolated. Qed.
#[export] Instance SetAdminDisabled_isolated t sid id b : Steps (isolated t sid) (SetAdminDisabled t id b).
Proof. by apply upd_admin_isolated. Qed.
#[export] Instance SetAdminRole_isolated t sid id role : Steps (isolated t sid) (SetAdminRole t id role).
Proof.
  intros d. unfold SetAdminRole. destruct (admins d !! id) as [a|] eqn:Ha; [|reflexivity]. case_bool_decide as Ht; [|reflexivity]. simpl.
  destruct (negb _); [reflexivity|]. intros [Hc Hs]. account_op. apply filter_insert_own; simpl; [tauto|]. intros. simplify_eq. tauto.
Qed.
#[export] Instance CreateAdmin_isolated id t sid a : Steps (isolated t sid) (CreateAdmin id t a).
Proof.
  unfold CreateAdmin. apply map_err_steps. intros d. unfold stmt. destruct (negb _); [reflexivity|]. destruct (_ || _) eqn:Hu; [reflexivity|].
  destruct (negb _); [reflexivity|]. bool_cases. free_key. simpl. intros [Hc Hs]. account_op.
  apply filter_insert_own; simpl; [tauto|]. intros. simplify_eq.
Qed.
#[export] Instance DeleteAdminSessions_isolated t sid id : Steps (isolated t sid) (DeleteAdminSessions t id).
Proof.
  intros d [Hc Hs]. simpl. account_op.
  - intros s [Hk _]%map_lookup_filter_Some. by apply Hs.
  - apply filter_filter_own. simpl. tauto.
Qed.
#[export] Instance DeleteSession_isolated t sid : Steps (isolated t sid) (DeleteSession sid).
Proof.
  intros d [Hc Hs]. simpl. account_op.
  - intros s Hk. simpl in Hk. by rewrite lookup_delete_eq in Hk.
  - apply filter_delete_own. simpl. intros s Hk. specialize (Hs s Hk). tauto.
Qed.
#[export] Instance MarkSessionMFA_isolated t sid : Steps (isolated t sid) (MarkSessionMFA sid).
Proof.
  unfold MarkSessionMFA, oneRow. intros d. destruct (sessions d !! sid) as [s|] eqn:Hk; [|reflexivity]. simpl. intros [Hc Hs]. account_op.
  - intros s'. simpl. rewrite lookup_insert_eq. intros [= <-]. exact (Hs s Hk).
  - apply filter_insert_own; simpl; [specialize (Hs s Hk); tauto|]. intros s' Hs'. specialize (Hs s' Hs'). tauto.
Qed.
#[export] Instance CreateSession_isolated sid id s : Steps (isolated (se_tenant s) sid) (CreateSession id s).
Proof.
  intros d. unfold CreateSession. case_bool_decide as Hk; [reflexivity|]. free_key. destruct (_ || _); [reflexivity|]. simpl. intros [Hc Hs]. account_op.
  - intros s'. simpl. rewrite lookup_insert_Some. intros [[_ <-]|[_ ?]]; [done|by apply Hs].
  - apply filter_insert_own; simpl; [tauto|]. congruence.
Qed.
#[export] Instance RecordLoginFailure_isolated t sid key at_ : Steps (isolated t sid) (RecordLoginFailure t key at_).
Proof.
  intros d. unfold RecordLoginFailure. destruct (negb (has_tenant t d)); [reflexivity|]. simpl. intros [Hc Hs]. account_op.
  rewrite List.filter_app. simpl. rewrite bool_decide_eq_true_2 by done. simpl. by rewrite app_nil_r.
Qed.
#[export] Instance ClearLoginFailures_isolated t sid key : Steps (isolated t sid) (ClearLoginFailures t key).
Proof.
  intros d [Hc Hs]. simpl. account_op. induction (login_failures d) as [|f l IH]; [done|]. simpl. unfold failure_of at 1.
  case_bool_decide as Ht; simpl; [|by rewrite bool_decide_eq_false_2; simpl; [f_equal|done]].
  case_bool_decide; simpl; [done|]. by rewrite bool_decide_eq_true_2.
Qed.

(** *** Queries *)

#[export] Instance GetChannel_ro t id : ReadOnly (GetChannel t id).
Proof. intros d. unfold GetChannel. by repeat case_match. Qed.
#[export] Instance LatestRelease_ro t : ReadOnly (LatestRelease t).
Proof. intros d. unfold LatestRelease. by repeat case_match. Qed.
#[export] Instance ObservationPublisher_ro t v : ReadOnly (ObservationPublisher t v).
Proof. intros d. unfold ObservationPublisher. by repeat case_match. Qed.
#[export] Instance GetApprovalRequest_ro t id : ReadOnly (GetApprovalRequest t id).
Proof. intros d. unfold GetApprovalRequest. by repeat case_match. Qed.
#[export] Instance GroupRingfenceID_ro t g : ReadOnly (GroupRingfenceID t g).
Proof. intros d. unfold GroupRingfenceID. by repeat case_match. Qed.
#[export] Instance TenantSuspended_ro t : ReadOnly (TenantSuspended t).
Proof. intros d. unfold TenantSuspended. by repeat case_match. Qed.
#[export] Instance CountLoginFailures_ro t key since : ReadOnly (CountLoginFailures t key since).
Proof. done. Qed.
#[export] Instance GetPolicy_ro t id : ReadOnly (GetPolicy t id).
Proof. intros d. unfold GetPolicy. by repeat case_match. Qed.
#[export] Instance LatestPolicyVersion_ro t id : ReadOnly (LatestPolicyVersion t id).
Proof. intros d. unfold LatestPolicyVersion. by repeat case_match. Qed.
#[export] Instance GetControls_ro t g : ReadOnly (GetControls t g).
Proof. intros d. unfold GetControls. by repeat case_match. Qed.
#[export] Instance GetDeviceOverrides_ro t v : ReadOnly (GetDeviceOverrides t v).
Proof. intros d. unfold GetDeviceOverrides. by repeat case_match. Qed.
#[export] Instance EffectiveControlsForDevice_ro t v : ReadOnly (EffectiveControlsForDevice t v).
Proof. intros d. unfold EffectiveControlsForDevice. by repeat case_match. Qed.
#[export] Instance DeviceRingfence_ro t v : ReadOnly (DeviceRingfence t v).
Proof. intros d. unfold DeviceRingfence. by repeat case_match. Qed.
#[export] Instance GetRingfence_ro t id : ReadOnly (GetRingfence t id).
Proof. intros d. unfold GetRingfence. by repeat case_match. Qed.
#[export] Instance GetRolloutSummary_ro t id : ReadOnly (GetRolloutSummary t id).
Proof. intros d. unfold GetRolloutSummary. by repeat case_match. Qed.

(** ** Every tenant is on its own

    Shows of the whole route table that a request leaves the rows of every tenant but the
    caller's as they are. *)

(** *** The pages stay within their tenant *)

#[export] Instance uuid_New_whole `{UuidSource} R `{!PreOrder R} : Steps (via w_db R) uuid_New.
Proof. intros w. unfold via. simpl. reflexivity. Qed.
#[export] Instance hub_send_whole i m R `{!PreOrder R} : Steps (via w_db R) (hub_send i m).
Proof. intros w. unfold hub_send, via. destruct (Send i m (w_hub w)). simpl. reflexivity. Qed.
#[export] Instance draw_whole R `{!PreOrder R} : Steps (via w_db R) draw.
Proof. intros w. unfold via. simpl. reflexivity. Qed.
#[export] Instance disconnect_whole i c R `{!PreOrder R} : Steps (via w_db R) (modify (λ w, set_hub (Disconnect i c (w_hub w)) w)).
Proof. intros w. unfold via. simpl. reflexivity. Qed.
#[export] Instance seal_whole `{Sealer} s R `{!PreOrder R} : Steps (via w_db R) (seal s).
Proof. intros w. unfold via. simpl. reflexivity. Qed.

Section pages.
Context `{UuidText, UuidSource, Crypto, Pki, Hasher, Passwords, KeyLib, UrlParser, Codec, Sealer, Wire}.
Context (sort : ∀ A, (A → A → bool) → list A → list A) (keys : uuid → result Keys) (smtp : SMTP).
Abbreviation stays p m := (Steps (via w_db (within (p_tenant p))) m).

#[export] Instance audit_any_within p action ty target detail result : stays p (audit_any p action ty target detail result).
Proof. unfold audit_any. steps. Qed.

#[export] Instance Recompile_within t id : Steps (within t) (Recompile sort keys t id).
Proof.
  intros d. unfold Recompile, GetPolicy. unfold mbind at 1, M_bind at 1. destruct (policies d !! id) as [p|] eqn:Hp; [|reflexivity].
  case_bool_decide as Ht; [|reflexivity]. unfold gets. unfold mbind at 1, M_bind at 1.
  destruct (compiled _ _ _) as [vx|e]; [|reflexivity]. unfold mbind, M_bind. simpl. destruct (keys t) as [k|e]; [|reflexivity]. simpl.
  pose proof (PutPolicyVersion_own t id vx.1 (po_mode p) vx.2 (sign_version k vx.1) d p Hp Ht) as Hput.
  by destruct (PutPolicyVersion _ _ _ _ _ _ _) as [d' [[]|e]].
Qed.
End pages.

(** The pages of administrators, one tactic for all. *)
Ltac page_op :=
  unfold createChannel, updateChannel, deleteChannel, testChannel, revokeDevice, issueCommand, issue_for, createGroup, renameGroup, deleteGroup,
    setDeviceGroup, updateAlertRule, createToken, revokeToken, createPolicy, setPolicyMode, deletePolicy, addRule, deleteRule, assignPolicy,
    recompilePolicy, promoteObservation, approveApproval, denyApproval, decideApproval, record_decision, addPolicyRule, createAlertRule, deleteAlertRule,
    setControls, setDeviceControls, createRollout, transitionRollout, rollbackRollout, createRingfence, renameRingfence, deleteRingfence,
    setRingfenceMode, addRingfenceProgram, deleteRingfenceProgram, setRingfenceProtection, assignRingfence, unassignRingfence, channelErr,
    IssueUpdate, Issue, Commands.deliver; http_steps.

(** The pages of owners, and logging in and out. *)
Ltac owner_op := unfold createAdmin, disableAdmin, enableAdmin, setAdminRole, record_release, audit; http_steps.
Ltac session_op :=
  unfold login_hash, tenantSuspended, allow, limiter_fail, limiter_reset, Sessions_Create, randToken, Sessions_Destroy, mfaSetup, mfaVerify,
    confirm_totp, audit, audit_any; http_steps.

(** All but the audit log. *)
Definition quiet (d : db) : db := set_audit_log [] (set_serial 0 d).

Section routes.
Context `{UuidText, UuidSource, Crypto, Pki, Hasher, Passwords, KeyLib, UrlParser, Codec, Wire}.
Context (sort : ∀ A, (A → A → bool) → list A → list A) (master : string) (smtp : SMTP) (ReleaseDir : string).
Context (ReleaseURL : uuid → string → string) (NotifySealer TOTPSealer : Sealer).
Context (MarshalUpdate : UpdatePayload → string) (marshal_detail : list (string * aval) → option string).

Definition h_db (h : host) : db := w_db (h_world h).
#[export] Instance page_steps R (m : M world response) `{!PreOrder R} : Steps (via w_db R) m → Steps (via h_db R) (page m).
Proof. intros Hm. unfold page, answer. apply bind_steps; [|apply _]. intros h. by apply (in_world_steps (via w_db R)). Qed.

Abbreviation run := (run_page sort master smtp ReleaseDir ReleaseURL NotifySealer MarshalUpdate marshal_detail).
Abbreviation request_of r rq := (with_method (route_is_get r) rq).

(** *** What a request can run *)

(** The caller belongs to the group a page is in. *)
Definition permitted (g : group) (c : Caller) : Prop :=
  match g with
  | AnyRole => True
  | RoleGroup role => Allows (ad_role (cl_admin c)) role = true
  | ProviderGroup => ad_provider (cl_admin c) = true
  end.

(** The part of the server a route reaches, related by [R]. *)
Definition reached (R : relation db) (r : route) (request : Request) (h : host) : Prop :=
  let rq := request_of r request in
  let w := h_world h in
  match r with
  | r_setup listen org email password => R (h_db h) (h_db (setup master sort (keysFor master h) listen org email password h).1)
  | r_login email password => ∀ t, h_rt h = Some t → R (w_db w) (w_db (login t rq email password w).1)
  | r_logout => ∀ c, caller_of rq w = Some c → R (w_db w) (w_db (logout rq w).1)
  | r_mfaSetup => ∀ c, caller_of rq w = Some c → R (w_db w) (w_db (mfaSetup TOTPSealer c w).1)
  | r_mfaVerify code => ∀ c, caller_of rq w = Some c → R (w_db w) (w_db (mfaVerify TOTPSealer rq c code w).1)
  | r_page a => ∀ c, caller_of rq w = Some c → refusal true rq (Some c) = None → permitted (group_of a) c →
                R (h_db h) (h_db (run (keysFor master h) (principal_of rq c) a h).1)
  | _ => True
  end.

Lemma set_world_id h : set_world (h_world h) h = h.
Proof. by destruct h. Qed.
Lemma with_session_run {B} mfa rq (f : response → B) next h :
  with_session mfa rq f next h =
    match refusal mfa rq (caller_of rq (h_world h)), caller_of rq (h_world h) with
    | None, Some c => next c h
    | Some r, _ => (h, Ok (f r))
    | None, None => (h, Err ErrNotFound)
    end.
Proof.
  unfold with_session, in_world, mbind, M_bind. rewrite session_check_run, set_world_id.
  destruct (refusal _ _ _); [done|]. by destruct (caller_of _ _).
Qed.
Lemma no_cookie_state m h : (no_cookie m h).1 = (m h).1.
Proof. unfold no_cookie, mbind, M_bind. by destruct (m h) as [h' [r|e]]. Qed.
Lemma page_state m h : h_db (page m h).1 = w_db (m (h_world h)).1.
Proof. unfold page, answer, in_world, mbind, M_bind. by destruct (m (h_world h)) as [w' [r|e]]. Qed.
Lemma with_cookie_state m h : h_db (with_cookie m h).1 = w_db (m (h_world h)).1.
Proof. unfold with_cookie, in_world, mbind, M_bind. by destruct (m (h_world h)) as [w' [[r c]|e]]. Qed.
Lemma answer_state {S} (m : M S response) s : (answer m s).1 = (m s).1.
Proof. unfold answer, mbind, M_bind. by destruct (m s) as [s' [r|e]]. Qed.

Lemma downloadRelease_state tenant version h : (downloadRelease ReleaseDir tenant version h).1 = h.
Proof. unfold downloadRelease, get, gets, mbind, M_bind. by repeat (case_match; try done). Qed.

Lemma serve_console_reached R `{!PreOrder R} t r request h :
  h_rt h = Some t → reached R r request h →
  R (h_db h) (h_db (serve_console sort master smtp ReleaseDir ReleaseURL NotifySealer TOTPSealer MarshalUpdate marshal_detail t r (request_of r request) h).1).
Proof.
  intros Hrt Hr. destruct r; cbn [serve_console reached] in *; try reflexivity.
  - rewrite with_cookie_state. by apply Hr.
  - rewrite with_session_run. destruct (refusal _ _ _); [reflexivity|]. destruct (caller_of _ _) as [c|]; [|reflexivity].
    rewrite with_cookie_state. by apply (Hr c).
  - rewrite with_session_run. destruct (refusal _ _ _); [reflexivity|]. destruct (caller_of _ _) as [c|]; [|reflexivity].
    rewrite no_cookie_state, page_state. by apply Hr.
  - rewrite with_session_run. destruct (refusal _ _ _); [reflexivity|]. destruct (caller_of _ _) as [c|]; [|reflexivity].
    rewrite no_cookie_state, page_state. by apply Hr.
  - rewrite with_session_run. destruct (caller_of _ _) as [c|] eqn:Hc; [|reflexivity]. destruct (refusal _ _ _) eqn:Hok; [reflexivity|].
    unfold mbind, M_bind. cbn [get gets]. rewrite no_cookie_state. specialize (Hr c eq_refl Hok). unfold in_group, requireRole, requireProvider, permitted in *.
    destruct (group_of a) as [|role|]; [by apply Hr| |].
    + destruct (Allows _ _); [by apply Hr|reflexivity].
    + destruct (ad_provider _); [by apply Hr|reflexivity].
Qed.

Lemma serve_reached R `{!PreOrder R} r request h h' res :
  serve sort master smtp ReleaseDir ReleaseURL NotifySealer TOTPSealer MarshalUpdate marshal_detail r request h = (h', res) →
  reached R r request h → R (h_db h) (h_db h').
Proof.
  intros Hs Hr. change h' with (h', res).1. rewrite <- Hs. pose proof (serve_console_reached R) as Hcon. unfold serve, requireRuntime, no_cookie, get, gets, mbind, M_bind.
  destruct r; try (cbn [route_is_get] in *; destruct (h_rt h) as [t|] eqn:Hrt; [by apply Hcon|reflexivity]).
  - reflexivity.
  - destruct ping; reflexivity.
  - reflexivity.
  - cbn [reached] in Hr. rewrite <- (answer_state (setup _ _ _ _ _ _ _)) in Hr. by destruct (answer _ h) as [h1 [rp|e]].
  - pose proof (downloadRelease_state tenant version h) as Hd. destruct (downloadRelease _ _ _ h) as [h1 [rp|e]]; by simplify_eq/=.
  - reflexivity.
Qed.

Lemma run_page_within keys p a :
  group_of a = RoleGroup "admin" → Steps (via h_db (within (p_tenant p))) (run keys p a).
Proof. destruct a; intros Hg; try discriminate Hg; cbn [run_page]; apply page_steps; page_op. Qed.

(** The pages anybody sees, and the lists of the other groups: they write audit entries of
    the caller's tenant, for the exports, and nothing else. *)
Definition reading (t : uuid) (d d' : db) : Prop := within t d d' ∧ quiet d' = quiet d.
#[export] Instance reading_preorder t : PreOrder (reading t).
Proof. split; [by intros d|]. intros d1 d2 d3 [H12 Hq] [H23 Hq']. split; [by etrans|congruence]. Qed.
#[export] Instance AppendAudit_reading t actor act ty target det ip res : Steps (reading t) (AppendAudit t actor act ty target det ip res).
Proof. intros d. split; [apply AppendAudit_within|]. unfold AppendAudit. by destruct (has_tenant t d). Qed.

Ltac view_op :=
  unfold me, listDevices, getDevice, listDeviceCommands, listGroups, listTokens, listReleases, listAudit, listPolicies, getPolicy, listObservations,
    listMetrics, listBlocks, listApprovals, countApprovals, listAlertRules, listAlerts, listDeviceEvents, getControls, getDeviceControls,
    getDeviceRingfence, listRollouts, getRollout, notificationStatus, listChannels, listDeliveries, listRingfences, getRingfence, listRingfenceEvents,
    exportCSV, exportAudit, exportDevices, exportBlocks, exportRingfenceEvents, group_controls, listAdmins, listProviderTenants, audit, audit_any; http_steps.
Lemma run_page_reading keys p a : is_get a = true → Steps (via h_db (reading (p_tenant p))) (run keys p a).
Proof. destruct a; intros Hg; try discriminate Hg; cbn [run_page]; first [apply page_steps | apply (in_world_steps (via w_db (reading (p_tenant p))))]; view_op. Qed.

(** *** Isolation *)

#[export] Instance within_isolated_world {A} t sid (m : M world A) : Steps (via w_db (within t)) m → Steps (via w_db (isolated t sid)) m | 20.
Proof. intros Hm w. apply within_isolated, Hm. Qed.
Lemma uploadRelease_within keys io p form : Steps (via h_db (within (p_tenant p))) (answer (uploadRelease keys ReleaseDir io p form)).
Proof.
  assert (∀ path content, Steps (via h_db (within (p_tenant p))) (write_file path content)) as Hwrite by (intros path content h; change (within (p_tenant p) (h_db h) (h_db h)); reflexivity).
  assert (∀ v c, Steps (via w_db (within (p_tenant p))) (record_release keys p v c)) as Hrec by (intros v c; owner_op).
  assert (∀ v c, Steps (via h_db (within (p_tenant p))) (in_world (record_release keys p v c))) as Hin
    by (intros v c; apply (in_world_steps (via w_db (within (p_tenant p)))), Hrec).
  unfold answer, uploadRelease. http_steps.
Qed.
Lemma run_page_isolated keys p sid a : group_of a ≠ ProviderGroup → Steps (via h_db (isolated (p_tenant p) sid)) (run keys p a).
Proof.
  intros Hg. destruct (is_get a) eqn:Hget.
  { intros h. apply within_isolated, (run_page_reading keys p a Hget). }
  destruct (decide (group_of a = RoleGroup "admin")) as [Ha|Ha].
  { intros h. apply within_isolated, (run_page_within keys p a Ha). }
  destruct a; try done; try discriminate Hget; cbn [run_page]; try (apply page_steps; owner_op).
  intros h. apply within_isolated, uploadRelease_within.
Qed.

#[export] Instance CreateSession_fresh_isolated t sid id a c m e i u : Steps (isolated t sid) (CreateSession id (mkSession t a c m e i u)).
Proof. apply (CreateSession_isolated sid id (mkSession t a c m e i u)). Qed.
Lemma login_isolated t0 rq email password sid w :
  isolated (login_tenant t0 email (w_db w)) sid (w_db w) (w_db (login t0 rq email password w).1).
Proof.
  unfold login. unfold now at 1. unfold mbind at 1, M_bind at 1. cbv beta iota. unfold mbind at 1, M_bind at 1. unfold attempt at 1.
  change (ToLower (TrimSpace email)) with (login_email email). rewrite GetAdminByEmailGlobal_run.
  set (t := login_tenant t0 email (w_db w)).
  assert (t = match account email (w_db w) with Some (_, a) => ad_tenant a | None => t0 end) as Ht by done.
  destruct (account email (w_db w)) as [[id a]|]; cbv beta iota zeta; rewrite <- Ht.
  all: lazymatch goal with |- isolated _ _ _ (w_db (?m ?w0).1) => cut (Steps (via w_db (isolated t sid)) m); [intros Hm; apply Hm|] end.
  all: session_op.
Qed.

Lemma caller_session rq w c : caller_of rq w = Some c →
  own_session (se_tenant (cl_session c)) (cl_sid c) (w_db w) ∧ (∃ tok, rq_cookie rq = Some tok ∧ cl_sid c = hashToken tok).
Proof.
  intros (tok & tn & Hck & _ & Hid & Hs & _)%caller_of_live. split; [|by exists tok]. intros s Hs'. by simplify_eq.
Qed.

(** Whose rows a request may touch: for a login, the tenant of the account its address
    names (or the first one); behind a session, the tenant of the session. *)
Definition acting_tenant (r : route) (request : Request) (h : host) : option uuid :=
  match r with
  | r_login email _ => (λ t0, login_tenant t0 email (h_db h)) <$> h_rt h
  | r_logout | r_mfaSetup | r_mfaVerify _ | r_page _ => (λ c, se_tenant (cl_session c)) <$> caller_of (request_of r request) (h_world h)
  | _ => None
  end.
(** The routes of a tenant's own people: not the first-run setup, which founds a tenant, and not
    the provider's pages. *)
Definition tenant_route (r : route) : bool :=
  match r with r_setup _ _ _ _ => false | r_page a => negb (bool_decide (group_of a = ProviderGroup)) | _ => true end.

(** The rows of every tenant but [t] are as before; with no [t], every row. *)
Definition confined (t : option uuid) (d d' : db) : Prop :=
  match t with Some t => consistent d → consistent d' ∧ foreign t d' = foreign t d | None => d' = d end.
#[export] Instance confined_preorder t : PreOrder (confined t).
Proof.
  destruct t as [t|]; [|split; [done|intros ??? -> ->; done]]. split; [by intros d|]. intros d1 d2 d3 H12 H23 Hc.
  destruct (H12 Hc) as [Hc2 Hf2]. destruct (H23 Hc2) as [Hc3 Hf3]. split; [done|congruence].
Qed.
Lemma isolated_confined t sid d d' : isolated t sid d d' → own_session t sid d → confined (Some t) d d'.
Proof. intros Hi Hs Hc. by destruct (Hi (conj Hc Hs)) as [[? _] ?]. Qed.

Lemma no_session t d : own_session t (fresh (dom (sessions d))) d.
Proof. intros s Hs. exfalso. apply (is_fresh (dom (sessions d))). by apply elem_of_dom_2 with s. Qed.

Lemma tenant_route_reached r request h :
  tenant_route r = true → reached (confined (acting_tenant r request h)) r request h.
Proof.
  intros Hr. destruct r; try done; cbn [reached acting_tenant].
  - intros t0 ->. eapply isolated_confined; [apply login_isolated|apply no_session].
  - intros c Hc. rewrite Hc. destruct (caller_session _ _ _ Hc) as [Hown (tok & Hck & Hsid)]. eapply isolated_confined; [|exact Hown]. rewrite Hsid.
    assert (Steps (via w_db (isolated (se_tenant (cl_session c)) (hashToken tok))) (logout (request_of r_logout request))) as Hm; [|apply Hm].
    unfold logout, Sessions_Destroy. rewrite Hck. http_steps.
  - intros c Hc. rewrite Hc. destruct (caller_session _ _ _ Hc) as [Hown _]. eapply isolated_confined; [|exact Hown].
    assert (Steps (via w_db (isolated (se_tenant (cl_session c)) (cl_sid c))) (mfaSetup TOTPSealer c)) as Hm by session_op. apply Hm.
  - intros c Hc. rewrite Hc. destruct (caller_session _ _ _ Hc) as [Hown _]. eapply isolated_confined; [|exact Hown].
    assert (Steps (via w_db (isolated (se_tenant (cl_session c)) (cl_sid c))) (mfaVerify TOTPSealer (request_of (r_mfaVerify code) request) c code)) as Hm by session_op.
    apply Hm.
  - intros c Hc _ _. rewrite Hc. destruct (caller_session _ _ _ Hc) as [Hown _]. eapply isolated_confined; [|exact Hown].
    apply (run_page_isolated _ (principal_of _ c)). simpl in Hr. by bool_cases.
Qed.

End routes.

(** *** A concrete server *)

Module Served.
Import Toy Post Demo.
(** The console of the demonstration server. *)
Definition demo_serve : route → Request → host → host * result (reply * option cookie) :=
  serve (λ A _ l, l) demo_master no_smtp "/releases" (λ _ _, "") post_sealer demo_sealer (λ _, "") (λ _, None).
End Served.

Section served.
Import Toy Post Demo Served.

Lemma demo_consistent : consistent (h_db demo).
Proof. by split; intros k c Hk; vm_compute in Hk; destruct k. Qed.
End served.
