(* ===== verification/AccessFacts.v ===== *)
(** * Who changes what

    Shows of the whole route table that the pages anybody may open change nothing but the
    audit log, that a session gets past the second factor only with a valid code of
    its administrator, and that no request, one after the other, leaves a tenant without
    an active owner. *)

From stdpp Require Import gmap strings list.
From S2P Require Import Prelude GoStr Rules Db Hub World StoreCore StoreAdmins StoreNotify Commands Enroll Notify Http Policies Authn NotifyApi Rollout Bootstrap App Console Exports Releases Tenancy AuthnFacts Routes Outbox Demo.

(** ** Sessions and owners *)

(** Who the administrators are, without their secrets. *)
Definition who (d : db) : gmap uuid (uuid * string * bool) := (λ a, (ad_tenant a, ad_role a, ad_disabled a)) <$> admins d.
(** An enabled owner. *)
Definition owner_at (i t : uuid) (d : db) : Prop := who d !! i = Some (t, "owner", false).
Definition has_owner (t : uuid) (d : db) : Prop := ∃ i, owner_at i t d.

Definition past_mfa (sid : string) (d : db) : Prop := ∃ s, sessions d !! sid = Some s ∧ se_mfa_passed s = true.

(** A caller who is an owner stays one, every tenant that has an owner keeps one, and no
    session gets past the second factor but those of [P]. *)
Definition still_owner (c : option (uuid * uuid)) (d : db) : Prop := match c with Some (t, i) => owner_at i t d | None => True end.
Definition access (P : string → Prop) (c : option (uuid * uuid)) (d d' : db) : Prop :=
  (∀ sid, past_mfa sid d' → past_mfa sid d ∨ P sid) ∧
  (still_owner c d → still_owner c d' ∧ ∀ t, has_owner t d → has_owner t d').
#[export] Instance access_preorder P c : PreOrder (access P c).
Proof.
  split; [intros d; by split; auto|]. intros d1 d2 d3 [Hs12 Ho12] [Hs23 Ho23]. split; [naive_solver|].
  intros Hc. destruct (Ho12 Hc) as [Hc2 H12]. destruct (Ho23 Hc2) as [Hc3 H23]. auto.
Qed.

Section access.
Context (P : string → Prop) (c : option (uuid * uuid)).

Lemma same_access d d' : who d' = who d → sessions d' = sessions d → access P c d d'.
Proof. intros Hw Hs. unfold access, past_mfa, still_owner, has_owner, owner_at. rewrite Hw, Hs. auto. Qed.
(** Sessions that are removed, or new and not past the second factor. *)
Lemma fewer_sessions d ss : (∀ sid s, ss !! sid = Some s → sessions d !! sid = Some s ∨ se_mfa_passed s = false) → access P c d (set_sessions ss d).
Proof.
  intros Hss. split; [|done]. intros sid (s & Hs & Hm). left. simpl in Hs. destruct (Hss sid s Hs) as [Hd|]; [by exists s|congruence].
Qed.
Lemma within_access t d d' : within t d d' → access P c d d'.
Proof. intros [Ha _]. injection Ha as _ Had Hse _ _. apply same_access; [unfold who; by rewrite Had|done]. Qed.

#[export] Instance within_access_steps {A} t (m : M db A) : Steps (within t) m → Steps (access P c) m | 20.
Proof. intros Hm d. eapply within_access, Hm. Qed.
#[export] Instance AppendAudit_access t actor act ty target det ip res : Steps (access P c) (AppendAudit t actor act ty target det ip res).
Proof. intros d. eapply within_access, AppendAudit_within. Qed.
#[export] Instance CreateSession_access id t a csrf e i u : Steps (access P c) (CreateSession id (mkSession t a csrf false e i u)).
Proof.
  intros d. unfold CreateSession. case_bool_decide; [reflexivity|]. destruct (_ || _); [reflexivity|]. apply fewer_sessions.
  intros sid s. rewrite lookup_insert_Some. intros [[_ <-]|[_ ?]]; [by right|by left].
Qed.
#[export] Instance DeleteSession_access id : Steps (access P c) (DeleteSession id).
Proof. intros d. apply fewer_sessions. intros sid s [_ ?]%lookup_delete_Some. by left. Qed.
#[export] Instance DeleteAdminSessions_access t id : Steps (access P c) (DeleteAdminSessions t id).
Proof. intros d. apply fewer_sessions. intros sid s [? _]%map_lookup_filter_Some. by left. Qed.
#[export] Instance SetTenantSuspended_access id b : Steps (access P c) (SetTenantSuspended id b).
Proof.
  unfold SetTenantSuspended. apply transaction_steps, bind_steps; [|intros _; apply if_steps; [|apply _]].
  - intros d. unfold oneRow. apply same_access; by repeat case_match.
  - intros d. apply fewer_sessions. intros sid s [? _]%map_lookup_filter_Some. by left.
Qed.
#[export] Instance RenameTenant_access id name : Steps (access P c) (RenameTenant id name).
Proof. intros d. unfold RenameTenant, oneRow. apply same_access; by repeat case_match. Qed.
#[export] Instance CreateTenant_access id name : Steps (access P c) (CreateTenant id name).
Proof. intros d. unfold CreateTenant. apply same_access; by repeat case_match. Qed.
#[export] Instance PutServerKey_access t name pub sealed : Steps (access P c) (PutServerKey t name pub sealed).
Proof. intros d. unfold PutServerKey. apply same_access; by repeat case_match. Qed.
#[export] Instance RecordLoginFailure_access t key at_ : Steps (access P c) (RecordLoginFailure t key at_).
Proof. intros d. unfold RecordLoginFailure. apply same_access; by repeat case_match. Qed.
#[export] Instance ClearLoginFailures_access t key : Steps (access P c) (ClearLoginFailures t key).
Proof. intros d. by apply same_access. Qed.
Lemma MarkSessionMFA_access sid : P sid → Steps (access P c) (MarkSessionMFA sid).
Proof.
  intros HP d. unfold MarkSessionMFA, oneRow. destruct (sessions d !! sid) as [s|]; [|reflexivity]. split; [|done].
  intros sid' (s' & Hs' & Hm). simpl in Hs'. destruct (decide (sid' = sid)) as [->|Hne]; [by right|left].
  rewrite lookup_insert_ne in Hs' by done. by exists s'.
Qed.

(** Administrators that are new, or keep who they are. *)
#[export] Instance CreateAdmin_access id t a : Steps (access P c) (CreateAdmin id t a).
Proof.
  unfold CreateAdmin. apply map_err_steps. intros d. unfold stmt. destruct (negb _); [reflexivity|]. destruct (_ || _) eqn:Hu; [reflexivity|].
  destruct (negb _); [reflexivity|]. bool_cases. free_key. split; [by left|]. simpl.
  assert (∀ i t', owner_at i t' d → owner_at i t' (set_admins (<[id := mkAdmin t (ToLower (na_Email a)) (na_PasswordHash a) None false (na_Role a) false (na_Provider a) (pg_now d)]> (admins d)) d)) as Hkeep.
  { unfold owner_at, who. simpl. intros i t'. rewrite !lookup_fmap. intros Hi. rewrite lookup_insert_ne; [done|]. intros <-. by rewrite H in Hi. }
  intros Hc. split; [destruct c as [[]|]; simpl in *; auto|]. intros t' [i Hi]. exists i. auto.
Qed.
#[export] Instance SetAdminTOTP_access t id e ok : Steps (access P c) (SetAdminTOTP t id e ok).
Proof.
  intros d. unfold SetAdminTOTP, upd_admin, oneRow. destruct (admins d !! id) as [a|] eqn:Ha; [|reflexivity]. case_bool_decide; [|reflexivity].
  apply same_access; [|done]. unfold who. simpl. rewrite fmap_insert. apply insert_id. by rewrite lookup_fmap, Ha.
Qed.
(** Enabling takes no owner away. *)
#[export] Instance enable_access t id : Steps (access P c) (SetAdminDisabled t id false).
Proof.
  intros d. unfold SetAdminDisabled, upd_admin, oneRow. destruct (admins d !! id) as [a|] eqn:Ha; [|reflexivity]. case_bool_decide; [|reflexivity]. simpl.
  assert (∀ i t', owner_at i t' d → owner_at i t' (set_admins (<[id := ad_set_disabled false a]> (admins d)) d)) as Hkeep.
  { unfold owner_at, who. simpl. intros i t'. rewrite !lookup_fmap, lookup_insert. case_decide as Hi; [|done]. subst. rewrite Ha. simpl. congruence. }
  split; [by left|]. intros Hc. split; [destruct c as [[]|]; simpl in *; auto|]. intros t' [i Hi]. exists i. auto.
Qed.
End access.

(** An owner who changes another administrator of the tenant. *)
Lemma change_other P i t d id a a' :
  id ≠ i → admins d !! id = Some a → ad_tenant a = t → ad_tenant a' = t → access P (Some (t, i)) d (set_admins (<[id := a']> (admins d)) d).
Proof.
  intros Hne Ha Ht Ht'. split; [by left|]. simpl.
  assert (∀ j t', j ≠ id → owner_at j t' d → owner_at j t' (set_admins (<[id := a']> (admins d)) d)) as Hkeep.
  { unfold owner_at, who. simpl. intros j t' Hj. rewrite !lookup_fmap. by rewrite lookup_insert_ne. }
  intros Hi. split; [by apply Hkeep|]. intros t' [j Hj]. destruct (decide (t' = t)) as [->|Hnt]; [exists i; by apply Hkeep|].
  exists j. apply Hkeep; [|done]. intros ->. unfold owner_at, who in Hj. rewrite lookup_fmap, Ha in Hj. simpl in Hj. congruence.
Qed.
Lemma SetAdminDisabled_access P i t id b : id ≠ i → Steps (access P (Some (t, i))) (SetAdminDisabled t id b).
Proof.
  intros Hne d. unfold SetAdminDisabled, upd_admin, oneRow. destruct (admins d !! id) as [a|] eqn:Ha; [|reflexivity]. case_bool_decide; [|reflexivity].
  by eapply change_other.
Qed.
Lemma SetAdminRole_access P i t id role : id ≠ i → Steps (access P (Some (t, i))) (SetAdminRole t id role).
Proof.
  intros Hne d. unfold SetAdminRole. destruct (admins d !! id) as [a|] eqn:Ha; [|reflexivity]. case_bool_decide; [|reflexivity]. simpl.
  destruct (negb _); [reflexivity|]. by eapply change_other.
Qed.
#[export] Instance of_result_ro {S A} (r : result A) : ReadOnly (of_result r : M S A).
Proof. by destruct r. Qed.
#[export] Instance FirstTenant_ro : ReadOnly FirstTenant.
Proof. intros d. unfold FirstTenant. by destruct (ListTenants d). Qed.
#[export] Instance GetAdminByEmailGlobal_ro email : ReadOnly (GetAdminByEmailGlobal email).
Proof. intros d. unfold GetAdminByEmailGlobal. by destruct (find_row _ _). Qed.
#[export] Instance GetServerKey_ro t name : ReadOnly (GetServerKey t name).
Proof. intros d. unfold GetServerKey. by destruct (_ !! _). Qed.

(** ** Every route *)

Section routes.
Context `{UuidText, UuidSource, Crypto, Pki, Hasher, Passwords, KeyLib, UrlParser, Codec, Wire}.
Context (sort : ∀ A, (A → A → bool) → list A → list A) (master : string) (smtp : SMTP) (ReleaseDir : string).
Context (ReleaseURL : uuid → string → string) (NotifySealer TOTPSealer : Sealer).
Context (MarshalUpdate : UpdatePayload → string) (marshal_detail : list (string * aval) → option string).
Abbreviation run := (run_page sort master smtp ReleaseDir ReleaseURL NotifySealer MarshalUpdate marshal_detail).
Abbreviation serves := (serve sort master smtp ReleaseDir ReleaseURL NotifySealer TOTPSealer MarshalUpdate marshal_detail).
Abbreviation request_of r rq := (with_method (route_is_get r) rq).
Abbreviation may P c m := (Steps (via w_db (access P c)) m).

Ltac provision_op :=
  unfold App_setup, Initialize, activate, system_audit, logged, createProviderTenant, provision_with_owner, Init, ProvisionTenant, ca_New, put_signing_key,
    updateProviderTenant, rename_tenant, suspend_tenant, audit, audit_any; http_steps.
Lemma Load_access P c : Steps (access P c) (Load master).
Proof. unfold Load, LoadForTenant, open_key. http_steps. Qed.
#[local] Existing Instance Load_access.
Lemma ProvisionTenant_access P c name t : may P c (ProvisionTenant master name t).
Proof. provision_op. Qed.
#[local] Existing Instance ProvisionTenant_access.

Lemma reading_page_access keys P c p a : is_get a = true → Steps (via h_db (access P c)) (run keys p a).
Proof.
  intros Hg h. destruct (run_page_reading sort master smtp ReleaseDir ReleaseURL NotifySealer MarshalUpdate marshal_detail keys p a Hg h) as [Hw _].
  exact (within_access _ _ _ _ _ Hw).
Qed.
Lemma owner_page_access keys P p a :
  group_of a = RoleGroup "owner" → Steps (via h_db (access P (Some (p_tenant p, p_admin p)))) (run keys p a).
Proof.
  intros Hg. destruct a; try discriminate Hg; cbn [run_page].
  - exact (reading_page_access keys P _ p r_listAdmins eq_refl).
  - apply page_steps; [apply _|]. owner_op.
  - apply page_steps; [apply _|]. unfold disableAdmin, with_pathID. destruct (uuid_parse id) as [i|]; [|http_steps].
    case_bool_decide as Hi; [http_steps|]. pose proof (SetAdminDisabled_access P (p_admin p) (p_tenant p) i true Hi). owner_op.
  - apply page_steps; [apply _|]. unfold enableAdmin, with_pathID. destruct (uuid_parse id) as [i|]; [|http_steps]. owner_op.
  - apply page_steps; [apply _|]. unfold setAdminRole, with_pathID. destruct (uuid_parse id) as [i|]; [|http_steps].
    case_bool_decide as Hi; [http_steps|]. pose proof (SetAdminRole_access P (p_admin p) (p_tenant p) i role Hi). owner_op.
  - intros h. pose proof (uploadRelease_within ReleaseDir keys io p form h) as Hw. exact (within_access _ _ _ _ _ Hw).
Qed.
Lemma provider_page_access keys P c p a : group_of a = ProviderGroup → Steps (via h_db (access P c)) (run keys p a).
Proof.
  intros Hg. destruct a; try discriminate Hg; cbn [run_page].
  - exact (reading_page_access keys P c p r_listProviderTenants eq_refl).
  - apply page_steps; [apply _|]. provision_op.
  - apply page_steps; [apply _|]. provision_op.
Qed.
Lemma RecompileAll_within keys t : Steps (within t) (RecompileAll sort keys t).
Proof.
  unfold RecompileAll. apply bind_steps; [apply _|]. intros ps. generalize 0, (None : option err).
  induction ps as [|p ps IH]; intros n first; simpl; [apply _|]. apply bind_steps; [apply _|]. intros [v|e]; apply IH.
Qed.
#[local] Existing Instance RecompileAll_within.
Lemma setup_access P c listen org email password keys : Steps (via h_db (access P c)) (setup master sort keys listen org email password).
Proof.
  assert (∀ A (m : M world A), may P c m → Steps (via h_db (access P c)) (in_world m)) as Hin by (intros A m Hm; by apply (in_world_steps (via w_db (access P c)))).
  assert (∀ rt, Steps (via h_db (access P c)) (modify (set_rt rt))) as Hrt by (intros rt h; change (access P c (h_db h) (h_db h)); reflexivity).
  unfold setup. provision_op; apply Hin; provision_op.
Qed.

(** ** The owner who acts, and the code that was verified *)

Definition acting_owner (r : route) (request : Request) (h : host) : option (uuid * uuid) :=
  match caller_of (request_of r request) (h_world h) with
  | Some c => if bool_decide (ad_role (cl_admin c) = "owner") then Some (se_tenant (cl_session c), cl_id c) else None
  | None => None
  end.
Lemma acting_owner_at r request h : still_owner (acting_owner r request h) (h_db h).
Proof.
  unfold acting_owner. destruct (caller_of _ _) as [c|] eqn:Hc; [|done]. case_bool_decide as Hr; [|done].
  apply caller_of_live in Hc as (tok & tn & _ & _ & _ & _ & _ & _ & Ha & Ht & Hd & _). simpl. unfold owner_at, who, h_db. rewrite lookup_fmap, Ha.
  simpl. congruence.
Qed.

(** The request verifies a code of the administrator whose session this is. *)
Definition verified (r : route) (request : Request) (h : host) (sid : string) : Prop :=
  ∃ code c sealed, r = r_mfaVerify code ∧ live (request_of r request) (h_world h) c ∧ cl_sid c = sid ∧
    ad_totp_secret_enc (cl_admin c) = Some sealed ∧ code_ok TOTPSealer sealed code (w_now (h_world h)) = true.

Lemma mfaVerify_access c0 P rq c code w :
  (∀ sealed, ad_totp_secret_enc (cl_admin c) = Some sealed → code_ok TOTPSealer sealed code (w_now w) = true → P (cl_sid c)) →
  access P c0 (w_db w) (w_db (mfaVerify TOTPSealer rq c code w).1).
Proof.
  intros HP. unfold mfaVerify. destruct (ad_totp_secret_enc (cl_admin c)) as [sealed|]; [|reflexivity].
  unfold now, mbind at 1, M_bind at 1. lazymatch goal with |- access _ _ _ (w_db (?m w).1) => cut (may P c0 m); [intros Hm; apply Hm|] end.
  apply bind_steps; [session_op|]. intros ok. apply if_steps; [session_op|].
  destruct (code_ok TOTPSealer sealed code (w_now w)) eqn:Hcode; [|session_op].
  pose proof (MarkSessionMFA_access P c0 (cl_sid c) (HP sealed eq_refl Hcode)). session_op.
Qed.

Lemma route_access r request h : reached sort master smtp ReleaseDir ReleaseURL NotifySealer TOTPSealer MarshalUpdate marshal_detail
    (access (verified r request h) (acting_owner r request h)) r request h.
Proof.
  destruct r; try done; cbn [reached].
  - apply setup_access.
  - intros t _. assert (may (verified (r_login email password) request h) (acting_owner (r_login email password) request h)
      (login t (request_of (r_login email password) request) email password)) as Hm; [unfold login; session_op|apply Hm].
  - intros c _. assert (may (verified r_logout request h) (acting_owner r_logout request h) (logout (request_of r_logout request))) as Hm;
      [unfold logout; session_op|apply Hm].
  - intros c _. assert (may (verified r_mfaSetup request h) (acting_owner r_mfaSetup request h) (mfaSetup TOTPSealer c)) as Hm; [session_op|apply Hm].
  - intros c Hc. apply mfaVerify_access. intros sealed Hs Hok. exists code, c, sealed. split_and!; try done. by apply caller_of_live.
  - intros c Hc _ Hg. set (P := verified _ _ _). destruct (is_get a) eqn:Hget; [by apply reading_page_access|].
    destruct (group_of a) as [|role|] eqn:Hga; [by destruct a|  |by apply provider_page_access].
    destruct (decide (role = "owner")) as [->|Hne].
    + assert (acting_owner (r_page a) request h = Some (p_tenant (principal_of (request_of (r_page a) request) c), p_admin (principal_of (request_of (r_page a) request) c))) as ->.
      { unfold acting_owner. rewrite Hc. simpl in Hg. rewrite bool_decide_eq_true_2; [done|]. unfold Allows, roleRank in Hg.
        by repeat case_bool_decide. }
      by apply owner_page_access.
    + assert (role = "admin") as -> by (destruct a; simpl in Hga; congruence).
      eapply within_access. by apply run_page_within.
Qed.

(** C7. The second factor cannot be skipped: a session that is past it after a request, and
    was not before (or did not exist), is the one the request carried, in a request to
    verify a code, and the code is valid now for the secret of the administrator the session
    belongs to. No other route, whatever it is sent, lifts a session over the gate. *)
Theorem second_factor_required r request h h' res sid :
  serves r request h = (h', res) → past_mfa sid (h_db h') →
  past_mfa sid (h_db h) ∨ verified r request h sid.
Proof.
  intros Hs. pose proof (serve_reached sort master smtp ReleaseDir ReleaseURL NotifySealer TOTPSealer MarshalUpdate marshal_detail _ r request h h' res Hs
    (route_access r request h)) as [Hm _]. apply Hm.
Qed.

(** C22. No request leaves a tenant without an active owner: any tenant that has an enabled
    administrator with the role of owner still has one after it, whichever route it calls,
    since an owner can neither disable nor demote the account of the request. *)
Theorem an_owner_remains r request h t :
  has_owner t (h_db h) → has_owner t (h_db (serves r request h).1).
Proof.
  destruct (serves r request h) as [h' res] eqn:Hs.
  pose proof (serve_reached sort master smtp ReleaseDir ReleaseURL NotifySealer TOTPSealer MarshalUpdate marshal_detail _ r request h h' res Hs
    (route_access r request h)) as [_ Ho]. apply Ho, acting_owner_at.
Qed.

(** ** Roles *)

(** Who may change what a page changes. *)
Definition entitled (a : action) (c : Caller) : Prop :=
  match group_of a with
  | RoleGroup "admin" => ad_role (cl_admin c) = "admin" ∨ ad_role (cl_admin c) = "owner"
  | RoleGroup "owner" => ad_role (cl_admin c) = "owner"
  | ProviderGroup => ad_provider (cl_admin c) = true
  | _ => False
  end.
Lemma permitted_entitled a c : is_get a = false → permitted (group_of a) c → entitled a c.
Proof.
  unfold permitted, entitled, Allows, roleRank. intros Hg Hp.
  destruct a; try discriminate Hg; simpl in *; try done; repeat case_bool_decide; simpl in *; auto; discriminate.
Qed.

End routes.

(** ** Examples *)

Section examples.
Import Toy Post Demo Served.

(** Bob's session passes the second factor with his code. *)
Lemma second_factor_required_witness :
  let rq := posts "B" "csrfB" in
  past_mfa "B" (h_db (demo_serve (r_mfaVerify "123456") rq demo).1) ∧ verified demo_sealer (r_mfaVerify "123456") rq demo "B".
Proof.
  intros rq. destruct (demo_serve (r_mfaVerify "123456") rq demo) as [h1 res] eqn:Hs.
  assert (past_mfa "B" (h_db h1)) as Hp.
  { change h1 with (h1, res).1. rewrite <- Hs. eexists. split; vm_compute; reflexivity. }
  split; [exact Hp|].
  destruct (second_factor_required (λ A _ l, l) demo_master no_smtp "/releases" (λ _ _, "") post_sealer demo_sealer (λ _, "") (λ _, None)
    (r_mfaVerify "123456") rq demo h1 res "B" Hs Hp) as [(s & Hb & Hm)|Hv]; [|exact Hv].
  vm_compute in Hb. injection Hb as <-. discriminate Hm.
Defined.
(** Ann demotes Bob: the tenant keeps its owner. *)
Lemma an_owner_remains_witness :
  let h' := (demo_serve (r_page (r_setAdminRole (uuid_string 12) "readonly")) (posts "A" "csrfA") demo).1 in
  ad_role <$> admins (h_db h') !! 12%N = Some "readonly" ∧ has_owner 1 (h_db h').
Proof.
  intros h'. split; [vm_compute; reflexivity|].
  apply (an_owner_remains (λ A _ l, l) demo_master no_smtp "/releases" (λ _ _, "") post_sealer demo_sealer (λ _, "") (λ _, None)
    (r_page (r_setAdminRole (uuid_string 12) "readonly")) (posts "A" "csrfA") demo 1).
  exists 11%N. vm_compute. reflexivity.
Defined.

(** The theorem is about one request after the other. When two owners demote each other at
    the same time, both requests pass the guard before either statement runs, and the tenant
    is left without an owner. *)
Example two_demotions :
  let as_ann := mkPrincipal 1 11 "ann@acme" "owner" false "" in
  let as_bob := mkPrincipal 1 12 "bob@acme" "owner" false "" in
  let w := h_world demo in
  let '(w1, r1) := setAdminRole as_ann (uuid_string 12) "readonly" w in
  let '(w2, r2) := setAdminRole as_bob (uuid_string 11) "readonly" w1 in
  (r1, r2) = (Ok (mkResponse 204 JNull), Ok (mkResponse 204 JNull)) ∧
  (λ a, (ad_tenant a, ad_role a)) <$> (admins (w_db w2) !! 11%N) = Some (1%N, "readonly") ∧
  (λ a, (ad_tenant a, ad_role a)) <$> (admins (w_db w2) !! 12%N) = Some (1%N, "readonly").
Proof. vm_compute. split_and!; reflexivity. Qed.
End examples.
