(* ===== verification/AppFacts.v ===== *)
(** * The first run

    Shows what a successful first-run setup leaves: an owner who can log in, a tenant whose
    keys load, and a server that refuses to be set up again; and what happens when
    provisioning, logging in and token creation meet their edges. *)

From stdpp Require Import gmap strings list.
From S2P Require Import Prelude GoStr Db Hub World StoreCore StoreAdmins Commands Enroll Notify Http Policies Authn Bootstrap App Demo BootstrapFacts AuthnFacts Console Outbox Tenancy Routes AccessFacts.

Section setup.
Context `{UuidText, UuidSource, Crypto, Pki, KeyLib, !KeyLibOk, Hasher, Passwords, !PasswordsOk} (master : string).
Context (sort : ∀ A, (A → A → bool) → list A → list A) (keys : uuid → result Keys).

Lemma no_tenants d : ListTenants d = [] → tenants d = ∅.
Proof.
  unfold ListTenants, ListTenantDetails. intros Hl%fmap_nil_inv. apply map_to_list_empty_iff.
  apply Permutation_nil. rewrite <- Hl. apply order_by_perm.
Qed.
Lemma one_tenant d t tn : tenants d = {[t := tn]} → FirstTenant d = (d, Ok t).
Proof.
  intros Ht. unfold FirstTenant, ListTenants, ListTenantDetails. rewrite Ht, map_to_list_singleton. done.
Qed.
Lemma Init_Ok org t w w' tenant :
  Init master org t w = (w', Ok tenant) → tenants (w_db w) = ∅ ∧ tenants (w_db w') = {[tenant := mkTenant org false (pg_now (w_db w))]}.
Proof.
  unfold Init, attempt, mbind, M_bind, on_db, FirstTenant. destruct (ListTenants (w_db w)) as [|t0 l] eqn:Hl; [|done].
  simpl. rewrite set_db_id. intros (sealer & ca & cmd & upd & _ & _ & -> & _)%ProvisionTenant_Ok. apply no_tenants in Hl. by rewrite Hl.
Qed.

(** An account that is new is the one its address names. *)
Lemma CreateAdmin_Ok id t a d d' i :
  CreateAdmin id t a d = (d', Ok i) →
  i = id ∧ admins d !! id = None ∧ email_taken (ToLower (na_Email a)) d = false ∧
  d' = set_admins (<[id := mkAdmin t (ToLower (na_Email a)) (na_PasswordHash a) None false (na_Role a) false (na_Provider a) (pg_now d)]> (admins d)) d.
Proof.
  unfold CreateAdmin, map_err, stmt. destruct (negb _); [done|]. destruct (_ || _) eqn:Hu; [done|]. destruct (negb _); [done|].
  bool_cases. free_key. by intros [= <- <-].
Qed.
Lemma account_new email id a d :
  email_taken (ad_email a) d = false → ad_email a = ToLower (login_email email) →
  account email (set_admins (<[id := a]> (admins d)) d) = Some (id, a).
Proof.
  intros Hfree He. unfold account. simpl. destruct (find_row _ _) as [[k b]|] eqn:Hf.
  - apply find_row_Some in Hf as [Hk Hb]. apply lookup_insert_Some in Hk as [[-> ->]|[Hne Hk]]; [done|]. exfalso. bool_cases.
    pose proof (proj1 (exists_row_false _ _) Hfree k b Hk) as Hno. simpl in Hno. bool_cases. congruence.
  - rewrite find_row_None in Hf. specialize (Hf id a (lookup_insert_eq _ _ _)). simpl in Hf. rewrite He in Hf. by rewrite bool_decide_eq_true_2 in Hf.
Qed.

(** What a first run leaves behind. *)
Definition first_run (org email password : string) (d d' : db) (t : uuid) (k : Keys) : Prop :=
  tenants d = ∅ ∧ tenants d' = {[t := mkTenant org false (pg_now d)]} ∧ LoadForTenant master t d' = (d', Ok k) ∧
  ∃ id a, admins d' !! id = Some a ∧ ad_tenant a = t ∧ ad_role a = "owner" ∧ ad_disabled a = false ∧ ad_provider a = true ∧
    ad_email a = ToLower email ∧ (TrimSpace email = email → credentials email password d' = Some (id, a)).

Lemma first_run_accounts org email password d d1 d2 t k :
  first_run org email password d d1 t k → accounts d2 = accounts d1 → first_run org email password d d2 t k.
Proof.
  intros (Hn & Ht & Hl & id & a & Ha & Hrest) Hacc. injection Hacc as Htn Had _ _ Hsk.
  split_and!; [done|by rewrite Htn| |].
  - destruct (LoadForTenant_local master t d1 d2) as [Hr _]; [intros n; by rewrite Hsk|].
    destruct (LoadForTenant_local master t d2 d2 (λ _, eq_refl)) as [_ Hid]. rewrite Hl in Hr. simpl in Hr.
    destruct (LoadForTenant master t d2) as [d3 r]. simpl in *. by subst.
  - exists id, a. unfold credentials, account. rewrite Had, Htn. by split.
Qed.

Lemma Load_Ok d d' t k : Load master d = (d', Ok (t, k)) → d' = d ∧ FirstTenant d = (d, Ok t) ∧ LoadForTenant master t d = (d, Ok k).
Proof.
  unfold Load, attempt, mbind, M_bind. pose proof (read_only (m:=FirstTenant) d) as Hro. destruct (FirstTenant d) as [d1 [t1|e]]; [|done].
  simpl in Hro. subst d1. destruct (LoadForTenant_local master t1 d d (λ _, eq_refl)) as [_ Hid].
  destruct (LoadForTenant master t1 d) as [d4 [k4|e]] eqn:Hk; [|done]. simpl in Hid. subst d4. intros [= <- <- <-]. by rewrite Hk.
Qed.
Lemma system_audit_accounts t action ty target detail w w' u :
  logged (on_db (system_audit t action ty target detail)) w = (w', Ok u) → accounts (w_db w') = accounts (w_db w).
Proof.
  unfold logged, attempt, system_audit, on_db, mbind, M_bind.
  match goal with |- context [AppendAudit ?t ?a ?b ?c ?x ?y ?z ?r ?dd] => destruct (AppendAudit_within t a b c x y z r dd) as [Hacc _]; destruct (AppendAudit t a b c x y z r dd) as [d9 r9] end.
  by intros [= <- _].
Qed.

Lemma Initialize_Ok org email password w w' t k :
  Initialize master org email password w = (w', Ok (t, k)) → first_run org email password (w_db w) (w_db w') t k.
Proof.
  unfold Initialize. destruct (negb _); [done|]. intros (n & w1 & [= <- <-] & Hw)%bind_Ok.
  apply bind_Ok in Hw as (hash & w2 & [Hh ->]%of_result_Ok & Hw). apply bind_Ok in Hw as (now0 & w3 & [= <- <-] & Hw).
  apply bind_Ok in Hw as (t1 & w4 & [Hempty Htn]%Init_Ok & Hw). apply bind_Ok in Hw as ([t2 k2] & w5 & (d & (-> & Hft & Hload)%Load_Ok & ->)%on_db_Ok & Hw).
  rewrite (one_tenant _ _ _ Htn) in Hft. injection Hft as <-.
  apply bind_Ok in Hw as (id & w6 & [= <- <-] & Hw). apply bind_Ok in Hw as (i & w7 & (d7 & Hc & ->)%on_db_Ok & Hw).
  apply bind_Ok in Hw as ([] & w8 & Hlog%system_audit_accounts & [= <- <- <-]). apply CreateAdmin_Ok in Hc as (-> & _ & Hfree & ->). simpl in *.
  eapply first_run_accounts; [|exact Hlog]. set (a := mkAdmin _ _ _ _ _ _ _ _ _) in *. set (d2 := set_admins _ _). split_and!; [done|done| |].
  - destruct (LoadForTenant_local master t1 (w_db w4) d2 (λ _, eq_refl)) as [Hr _].
    destruct (LoadForTenant_local master t1 d2 d2 (λ _, eq_refl)) as [_ Hid]. rewrite Hload in Hr. simpl in Hr.
    destruct (LoadForTenant master t1 d2) as [d3 r]. simpl in *. by subst.
  - exists (uuid_at (w_drawn w4)), a. split_and!; try done; [apply lookup_insert_eq|]. intros Htrim. unfold credentials.
    assert (account email d2 = Some (uuid_at (w_drawn w4), a)) as -> by (apply account_new; [done|unfold login_email; by rewrite Htrim, ToLower_idemp]). simpl. rewrite Htn, lookup_singleton_eq. simpl.
    unfold HashPassword in Hh. destruct (_ <? _)%nat; [done|]. by rewrite (bcrypt_roundtrip _ _ _ Hh).
Qed.

(** C35. The first run works out: when the setup page answers 201, the server had no tenant and
    was not set up; now it has exactly one, whose keys load from the database under the master secret; the
    account of the given address is its enabled owner and a provider, and logs in with the given
    password, provided the address was typed without surrounding blanks. From then on the page
    answers 409 and changes nothing. *)
Theorem setup_lets_the_owner_in listen org email password h h' r :
  setup master sort keys listen org email password h = (h', Ok r) → rs_code r = 201%Z →
  h_rt h = None ∧
  (∃ t k, h_rt h' = Some t ∧ first_run (TrimSpace org) email password (h_db h) (h_db h') t k) ∧
  (∀ listen' org' email' password', setup master sort keys listen' org' email' password' h' =
     (h', Ok (mkResponse 409 (JO [("error", JS "already initialized")])))).
Proof.
  unfold setup at 1. intros (h0 & h1 & [= <- <-] & Hs)%bind_Ok Hcode. destruct (h_rt h) as [t0|] eqn:Hrt; [by injection Hs as <- <-|]. simpl in Hs.
  destruct (_ || _); [by injection Hs as <- <-|]. apply bind_Ok in Hs as (res & h2 & Hs & Hr). unfold attempt in Hs.
  destruct (App_setup _ _ _ _ _ _ _ h) as [h3 [[]|e]] eqn:Happ; injection Hs as <- <-; [|by destruct (is_err _ e); injection Hr as <- <-].
  injection Hr as <- <-. unfold App_setup in Happ. apply bind_Ok in Happ as ([t k] & h4 & Hin & Hact).
  unfold in_world in Hin. destruct (Initialize _ _ _ _ (h_world h)) as [w1 r1] eqn:Hi. injection Hin as <- ->. apply Initialize_Ok in Hi.
  unfold activate in Hact. apply bind_Ok in Hact as (u & h5 & Hre & Hl). destruct listen as [[]|e]; [|done]. injection Hl as <-.
  split; [done|]. split; [exists t, k; split; [done|]|].
  - eapply first_run_accounts; [exact Hi|]. unfold in_world, logged, attempt, on_db, mbind, M_bind in Hre. simpl in Hre.
    destruct (RecompileAll_within sort keys t (w_db w1)) as [Hacc _]. destruct (RecompileAll sort keys t (w_db w1)) as [d9 r9].
    by injection Hre as <- _.
  - intros. unfold setup, mbind, M_bind, get, gets. simpl. done.
Qed.
End setup.

(** ** Examples *)

Section examples.
Import Toy Demo Post Served.
Abbreviation by_size := (λ (A : Type) (_ : A → A → bool) (l : list A), l).

(** A server that was never set up. *)
Definition fresh_host : host := mkHost (mkWorld empty_db New Hour 0) None ∅.
Definition first_setup (email : string) : host * result response :=
  setup demo_master by_size lab_keys (Ok tt) " Acme " email "correct horse" fresh_host.
Lemma setup_lets_the_owner_in_witness :
  let h' := (first_setup "Ann@acme").1 in
  ∃ t k, h_rt h' = Some t ∧ first_run demo_master "Acme" "Ann@acme" "correct horse" empty_db (h_db h') t k.
Proof.
  intros h'. destruct (first_setup "Ann@acme") as [h1 res] eqn:Hs. destruct res as [r|e]; [|vm_compute in Hs; discriminate Hs].
  assert (rs_code r = 201%Z) as Hr.
  { assert (match (first_setup "Ann@acme").2 with Ok r => Some (rs_code r) | Err _ => None end = Some 201%Z) as Hc by (vm_compute; reflexivity).
    rewrite Hs in Hc. injection Hc as Hc. exact Hc. }
  destruct (setup_lets_the_owner_in demo_master by_size lab_keys (Ok tt) " Acme " "Ann@acme" "correct horse" fresh_host h1 r Hs Hr)
    as (_ & (t & k & Hrt & Hf) & _).
  exists t, k. split; [exact Hrt|exact Hf].
Defined.

(** The setup page keeps the blank before the address: nobody can log in. *)
Example untrimmed_owner :
  let '(h', r) := first_setup " Ann@acme" in
  (match r with Ok r => rs_code r | Err _ => 0%Z end, ad_email <$> (map_to_list (admins (h_db h'))).*2,
   credentials " Ann@acme" "correct horse" (h_db h'), credentials "ann@acme" "correct horse" (h_db h')) =
  (201%Z, [" ann@acme"], None, None).
Proof. vm_compute. reflexivity. Qed.

(** A new tenant whose owner's address is taken: 409, and the tenant stays, without an account. *)
Example orphan_tenant :
  let ann := mkPrincipal 1 11 "ann@acme" "owner" true "" in
  let '(w', r) := createProviderTenant demo_master ann "Newco" "bob@acme" "password1234" (h_world demo) in
  (match r with Ok r => rs_code r | Err _ => 0%Z end, tn_name <$> tenants (w_db w') !! 101%N,
   List.filter (λ a, bool_decide (ad_tenant a = 101%N)) (map_to_list (admins (w_db w'))).*2) = (409%Z, Some "Newco", []).
Proof. vm_compute. reflexivity. Qed.

(** Five wrong codes stop Bob's session; a login makes another one, with codes of its own. *)
Definition code_of (r : result (reply * option cookie)) : Z :=
  match r with Ok (Answer r, _) => rs_code r | _ => 0 end.
Example fresh_session_fresh_budget :
  let wrong tok csrf h := demo_serve (r_mfaVerify "000000") (posts tok csrf) h in
  let h5 := Nat.iter 5 (λ h, (wrong "B" "csrfB" h).1) demo in
  let '(h6, r6) := demo_serve (r_login "bob@acme" "correct horse") (posts "" "") h5 in
  match r6 with
  | Ok (Answer (mkResponse _ (JO (("csrf_token", JS csrf) :: _))), Some (SetCookie tok _)) =>
      (code_of (wrong "B" "csrfB" h5).2, code_of (wrong tok csrf h6).2) = (429%Z, 401%Z)
  | _ => False
  end.
Proof. vm_compute. reflexivity. Qed.

(** A token that should last for 292 years is expired when it is created. *)
Example token_already_expired :
  let ann := mkPrincipal 1 11 "ann@acme" "owner" false "" in
  let '(w', r) := createToken lab_keys ann (mkTokenReq "lab" None (Some 2562048%Z) None) (h_world demo) in
  (match r with Ok r => rs_code r | Err _ => 0%Z end,
   (λ t, match it_expires_at t with Some e => (e <? w_now w')%Z | None => false end) <$> (map_to_list (install_tokens (w_db w'))).*2) = (201%Z, [true]).
Proof. vm_compute. reflexivity. Qed.

(** Starting the server compiles the policies of the first tenant only. *)
Example one_tenant_recompiled :
  let d := set_policies {[40%N := mkAppPolicy 1 "ours" "audit" 1; 41%N := mkAppPolicy 2 "theirs" "audit" 1]} demo_db in
  let h' := (activate by_size lab_keys (Ok tt) 1 (set_world (set_db d (h_world demo)) demo)).1 in
  (map_to_list (policy_versions (h_db h'))).*1.*1 = [40%N].
Proof. vm_compute. reflexivity. Qed.
End examples.
