(* ===== verification/Authenticode.v ===== *)
(** * The hash of an executable

    Models [internal/agent/scan/authenticode.go] and [scan.go] ([HashFile]): which bytes of a
    PE file the Authenticode hash covers, and of [internal/appcontrol/signature/signature.go]
    the choice of the signing certificate and its TBS hash. A file is its list of bytes;
    every offset is computed in 64 bits from fields of at most 32, so nothing wraps. *)

From Stdlib Require Import Ascii.
From stdpp Require Import strings list.
From S2P Require Import Prelude GoStr World.
Local Open Scope Z_scope.

(** ** authenticode.go *)

Definition size (f : bytes) : Z := Z.of_nat (length f).
Definition byte_at (f : bytes) (i : Z) : Z := match f !! Z.to_nat i with Some c => Z.of_nat (nat_of_ascii c) | None => 0 end.
(** [io.NewSectionReader(f, a, b-a)] read to its end. *)
Definition section (f : bytes) (r : Z * Z) : bytes := take (Z.to_nat r.2 - Z.to_nat r.1) (drop (Z.to_nat r.1) f).

(** The readers [u16] and [u32]: little endian, and within the file. *)
Definition u16 (f : bytes) (off : Z) : option Z :=
  if (off <? 0) || (size f <? off + 2) then None else Some (byte_at f off + 256 * byte_at f (off + 1)).
Definition u32 (f : bytes) (off : Z) : option Z :=
  if (off <? 0) || (size f <? off + 4) then None
  else Some (byte_at f off + 256 * (byte_at f (off + 1) + 256 * (byte_at f (off + 2) + 256 * byte_at f (off + 3)))).

(** Where the headers put what the hash leaves out: the checksum, and the directory entry
    of the certificate table, if the image has one. *)
Record Layout := mkLayout { checksumOff : Z; certDirOff : option Z }.
Definition certDirIndex : Z := 4.

Definition pe_layout (f : bytes) : option Layout :=
  mz ← u16 f 0;
  if negb (mz =? 0x5A4D) then None else
  peOff ← u32 f 0x3C;
  sig ← u32 f peOff;
  if negb (sig =? 0x00004550) then None else
  optSize ← u16 f (peOff + 4 + 16);
  let optOff := peOff + 4 + 20 in
  magic ← u16 f optOff;
  dirs ← (if magic =? 0x10b then Some (optOff + 92, optOff + 96)
          else if magic =? 0x20b then Some (optOff + 108, optOff + 112) else None);
  let optEnd := optOff + optSize in
  let checksumOff := optOff + 64 in
  if (size f <? optEnd) || (optEnd <? checksumOff + 4) then None else
  numDirs ← u32 f dirs.1;
  let certDirOff := dirs.2 + certDirIndex * 8 in
  if (numDirs <=? certDirIndex) || (optEnd <? certDirOff + 8) then Some (mkLayout checksumOff None)
  else Some (mkLayout checksumOff (Some certDirOff)).

(** The rest of [peHashRanges], once the headers are read. A failed read of the entry gives
    0, as in the code; it cannot fail there. *)
Definition layout_ranges (f : bytes) (l : Layout) : list (Z * Z) :=
  match certDirOff l with
  | None => [(0, checksumOff l); (checksumOff l + 4, size f)]
  | Some d =>
      let certOff := default 0 (u32 f d) in
      let certLen := default 0 (u32 f (d + 4)) in
      let ranges := [(0, checksumOff l); (checksumOff l + 4, d)] in
      if (certLen =? 0) || (certOff <? d + 8) || (size f <? certOff + certLen) then ranges ++ [(d + 8, size f)]
      else ranges ++ [(d + 8, certOff)] ++ (if certOff + certLen <? size f then [(certOff + certLen, size f)] else [])
  end.
Definition peHashRanges (f : bytes) : option (list (Z * Z)) := l ← pe_layout f; Some (layout_ranges f l).

Definition hashed (f : bytes) : bytes := concat (section f <$> default [(0, size f)] (peHashRanges f)).
Definition AuthenticodeHash `{Hasher} (f : bytes) : string := ToUpper (sha256_hex (of_list (hashed f))).
(** scan.go *)
Definition HashFile `{Hasher} (f : bytes) : string := ToUpper (sha256_hex (of_list f)).

(** ** signature.go *)

(** [crypto/x509]: the parts of a parsed certificate that are looked at. *)
Inductive SignatureAlgorithm :=
  | SHA256WithRSA | ECDSAWithSHA256 | SHA256WithRSAPSS | SHA384WithRSA | ECDSAWithSHA384 | SHA384WithRSAPSS
  | SHA512WithRSA | ECDSAWithSHA512 | SHA512WithRSAPSS | SHA1WithRSA | ECDSAWithSHA1 | OtherAlgorithm (n : N).
Inductive ExtKeyUsage := CodeSigning | TimeStamping | OtherUsage (n : N).
#[export] Instance ExtKeyUsage_eq_dec : EqDecision ExtKeyUsage.
Proof. solve_decision. Defined.
Record Certificate := mkCertificate {
  x_RawTBS : string; x_RawIssuer : string; x_RawSubject : string; x_SubjectCN : string; x_IssuerCN : string;
  x_Algorithm : SignatureAlgorithm; x_ExtKeyUsage : list ExtKeyUsage;
}.
Inductive HashAlg := SHA1 | SHA256 | SHA384 | SHA512.
(** The digests, in hexadecimal. *)
Class Digest := digest_hex : HashAlg → string → string.

Definition hashFor (alg : SignatureAlgorithm) : result HashAlg :=
  match alg with
  | SHA256WithRSA | ECDSAWithSHA256 | SHA256WithRSAPSS => Ok SHA256
  | SHA384WithRSA | ECDSAWithSHA384 | SHA384WithRSAPSS => Ok SHA384
  | SHA512WithRSA | ECDSAWithSHA512 | SHA512WithRSAPSS => Ok SHA512
  | SHA1WithRSA | ECDSAWithSHA1 => Ok SHA1
  | OtherAlgorithm _ => Err (EFmt "signature: unsupported certificate signature algorithm %v" [])
  end.
Definition TBSHash `{Digest} (c : Certificate) : result string :=
  h ← hashFor (x_Algorithm c); Ok (ToUpper (digest_hex h (x_RawTBS c))).

Definition codeSigner (c : Certificate) : bool := existsb (λ u, bool_decide (u = CodeSigning)) (x_ExtKeyUsage c).
Definition timestamper (c : Certificate) : bool := existsb (λ u, bool_decide (u = TimeStamping)) (x_ExtKeyUsage c).

(** Whether the [i]th certificate issued another one of the list: the code compares pointers. *)
Definition issues (certs : list Certificate) (i : nat) (c : Certificate) : bool :=
  existsb (λ jo : nat * Certificate, negb (Nat.eqb jo.1 i) && bool_decide (x_RawIssuer jo.2 = x_RawSubject c))
    (imap pair certs).
Fixpoint leaf_loop (certs : list Certificate) (i : nat) (rest : list Certificate) (fallback : option Certificate)
    : option Certificate :=
  match rest with
  | [] => fallback
  | c :: rest' =>
      if issues certs i c then leaf_loop certs (S i) rest' fallback
      else if codeSigner c then Some c
      else leaf_loop certs (S i) rest'
             (if bool_decide (fallback = None) && negb (timestamper c) then Some c else fallback)
  end.
Definition leaf (certs : list Certificate) : option Certificate := leaf_loop certs 0 certs None.

(** [debug/pe], the PKCS#7 parsing over [encoding/asn1] and [crypto/x509], and
    [WinVerifyTrust]. [pe_security] is the certificate-table directory of the optional
    header: its file offset and its size, both 0 when the image has no such entry. *)
Class SignatureLib := {
  pe_security : bytes → result (Z * Z);
  certsFromPKCS7 : bytes → result (list Certificate);
  win_verify : string → bool;
}.

(** [ReadAt] into a blob of zeros. *)
Definition read_blob (f : bytes) (off n : Z) : bytes :=
  let b := section f (off, off + n) in b ++ replicate (Z.to_nat n - length b) "000"%char.
(** The PKCS#7 data of a [WIN_CERTIFICATE], its declared length clamped to the blob. *)
Definition win_certificate (blob : bytes) : bytes :=
  let length := default 0 (u32 blob 0) in
  let length := if (length <? 8) || (size blob <? length) then size blob else length in
  section blob (8, length).

Section from_file.
Context `{SignatureLib, Digest}.
Definition embeddedCerts (f : bytes) : result (list Certificate) :=
  match pe_security f with
  | Err e => Err e
  | Ok (off, n) =>
      if (off =? 0) || (n <? 8) then Ok []
      else
        let p7 := win_certificate (read_blob f off n) in
        if bool_decide (p7 = []) then Ok [] else certsFromPKCS7 p7
  end.

Record Info := mkInfo { si_TBSHash : string; si_SubjectName : string; si_Issuer : string; si_Verified : bool }.
Definition FromFile (path : string) (f : bytes) : result Info :=
  certs ← embeddedCerts f;
  if bool_decide (certs = []) then Ok (mkInfo "" "" "" false)
  else
    match leaf certs with
    | None => Err (EMsg "signature: no leaf certificate in chain")
    | Some c => tbs ← TBSHash c; Ok (mkInfo tbs (x_SubjectCN c) (x_IssuerCN c) (win_verify path))
    end.
End from_file.

(** ** The ranges of the hash *)

Lemma byte_at_agree f g i : f !! Z.to_nat i = g !! Z.to_nat i → byte_at f i = byte_at g i.
Proof. unfold byte_at. by intros ->. Qed.

(** [g] is [f], longer perhaps, except for the checksum and the directory entry. *)
Definition agree (c d : Z) (f g : bytes) : Prop :=
  size f ≤ size g ∧
  ∀ i, 0 ≤ i < size f → ¬ c ≤ i < c + 4 → ¬ d ≤ i < d + 8 → f !! Z.to_nat i = g !! Z.to_nat i.

Lemma u16_agree c d f g off v :
  agree c d f g → u16 f off = Some v → off + 2 ≤ c ∨ c + 4 ≤ off → off + 2 ≤ d ∨ d + 8 ≤ off → u16 g off = Some v.
Proof.
  intros [Hs Ha]. unfold u16. destruct (off <? 0) eqn:?, (size f <? off + 2) eqn:?; try done. simpl. intros [= <-] ??.
  destruct (size g <? off + 2) eqn:?; [lia|]. by rewrite !(byte_at_agree f g) by (apply Ha; lia).
Qed.
Lemma u32_agree c d f g off v :
  agree c d f g → u32 f off = Some v → off + 4 ≤ c ∨ c + 4 ≤ off → off + 4 ≤ d ∨ d + 8 ≤ off → u32 g off = Some v.
Proof.
  intros [Hs Ha]. unfold u32. destruct (off <? 0) eqn:?, (size f <? off + 4) eqn:?; try done. simpl. intros [= <-] ??.
  destruct (size g <? off + 4) eqn:?; [lia|]. by rewrite !(byte_at_agree f g) by (apply Ha; lia).
Qed.
Lemma byte_at_range f i : 0 ≤ byte_at f i < 256.
Proof. unfold byte_at. case_match; [|lia]. pose proof (nat_ascii_bounded a). lia. Qed.
Lemma u32_range f off v : u32 f off = Some v → 0 ≤ v < 2 ^ 32.
Proof.
  unfold u32. case_match; [done|]. intros [= <-].
  pose proof (byte_at_range f off). pose proof (byte_at_range f (off + 1)).
  pose proof (byte_at_range f (off + 2)). pose proof (byte_at_range f (off + 3)). lia.
Qed.

(** What the headers of an image say, when they are in order. *)
Definition headers (f : bytes) (peOff optOff optEnd : Z) (l : Layout) : Prop :=
  2 ≤ peOff ∧ optOff = peOff + 24 ∧ checksumOff l = optOff + 64 ∧ checksumOff l + 4 ≤ optEnd ≤ size f ∧
  ∀ d, certDirOff l = Some d → (d = optOff + 128 ∨ d = optOff + 144) ∧ d + 8 ≤ optEnd.

(** A file is no PE header and no DOS header at once. *)
Lemma pe_not_mz f peOff : u16 f 0 = Some 0x5A4D → u32 f peOff = Some 0x00004550 → 0 ≤ peOff → 2 ≤ peOff.
Proof.
  unfold u16, u32. simpl. case_match; [done|]. intros [= Hm]. case_match; [done|]. intros [= Hs] Hp. change (0 + 1) with 1 in Hm.
  pose proof (byte_at_range f 0). pose proof (byte_at_range f 1). pose proof (byte_at_range f peOff).
  pose proof (byte_at_range f (peOff + 1)). pose proof (byte_at_range f (peOff + 2)). pose proof (byte_at_range f (peOff + 3)).
  assert (byte_at f 0 = 0x4d ∧ byte_at f 1 = 0x5a) as [Hb0 Hb1] by lia.
  assert (byte_at f peOff = 0x50) as Hq by lia.
  destruct (decide (peOff = 0)) as [->|]; [lia|]. destruct (decide (peOff = 1)) as [->|]; lia.
Qed.

Lemma pe_layout_inv f l :
  pe_layout f = Some l →
  ∃ peOff optSize magic numDirs numDirsOff,
    let optOff := peOff + 24 in
    u16 f 0 = Some 0x5A4D ∧ u32 f 0x3C = Some peOff ∧ u32 f peOff = Some 0x00004550 ∧ u16 f (peOff + 20) = Some optSize ∧
    u16 f optOff = Some magic ∧ u32 f numDirsOff = Some numDirs ∧ headers f peOff optOff (optOff + optSize) l ∧
    (magic = 0x10b ∧ numDirsOff = optOff + 92 ∨ magic = 0x20b ∧ numDirsOff = optOff + 108).
Proof.
  unfold pe_layout. intros (mz & Hmz & Hl)%bind_Some. destruct (mz =? 0x5A4D) eqn:Em; [|done].
  apply bind_Some in Hl as (peOff & Hpe & Hl). apply bind_Some in Hl as (sig & Hsig & Hl).
  destruct (sig =? 0x4550) eqn:Es; [|done]. apply bind_Some in Hl as (optSize & Hopt & Hl).
  apply bind_Some in Hl as (magic & Hmag & Hl). apply bind_Some in Hl as (dirs & Hd & Hl).
  destruct ((size f <? _) || _) eqn:Hs; [done|]. apply bind_Some in Hl as (nd & Hnd & Hl).
  apply Z.eqb_eq in Em as ->. apply Z.eqb_eq in Es as ->.
  assert (2 ≤ peOff) by (eapply pe_not_mz; eauto; apply u32_range in Hpe; lia).
  replace (peOff + 4 + 16) with (peOff + 20) in Hopt by lia. replace (peOff + 4 + 20) with (peOff + 24) in * by lia.
  apply orb_false_iff in Hs as [Hs1 Hs2]. unfold certDirIndex in Hl.
  exists peOff, optSize, magic, nd, dirs.1. simpl. do 6 (split; [done|]).
  destruct (magic =? 0x10b) eqn:E1; [|destruct (magic =? 0x20b) eqn:E2; [|done]];
    injection Hd as <-; simpl in *; destruct (_ || _) eqn:Hc in Hl; injection Hl as <-; unfold headers; simpl;
    (split; [repeat (split; [lia|]); intros d [= <-]; lia | lia]).
Qed.

(** Changing the checksum or the directory entry, or appending to the file, leaves the
    headers as they are. *)
Lemma pe_layout_agree f g c d :
  pe_layout f = Some (mkLayout c (Some d)) → agree c d f g → pe_layout g = Some (mkLayout c (Some d)).
Proof.
  intros Hf Ha. pose proof Hf as (peOff & optSize & magic & nd & ndo & Hmz & Hpe & Hsig & Hopt & Hmag & Hnd & Hh & Hk)%pe_layout_inv.
  destruct Hh as (Hp & _ & Hc & Hs & Hd). simpl in *. destruct (Hd d eq_refl) as [Hd' ?].
  rewrite <- Hf. unfold pe_layout.
  replace (peOff + 4 + 16) with (peOff + 20) by lia.
  rewrite Hmz, (u16_agree _ _ _ _ _ _ Ha Hmz) by lia. simpl.
  rewrite Hpe, (u32_agree _ _ _ _ _ _ Ha Hpe) by lia. simpl.
  rewrite Hsig, (u32_agree _ _ _ _ _ _ Ha Hsig) by lia. simpl.
  replace (peOff + 4 + 16) with (peOff + 20) by lia. replace (peOff + 4 + 20) with (peOff + 24) by lia.
  rewrite Hopt, (u16_agree _ _ _ _ _ _ Ha Hopt) by lia. simpl.
  rewrite Hmag, (u16_agree _ _ _ _ _ _ Ha Hmag) by lia. simpl.
  destruct Ha as [Hle Ha]. assert (agree c d f g) as Ha' by done.
  destruct Hk as [[-> ->]|[-> ->]]; simpl;
    (destruct (size f <? _) eqn:E1; [lia|]); (destruct (size g <? _) eqn:E2; [lia|]); simpl;
    (destruct (_ <? _) eqn:E3; [done|]); by rewrite Hnd, (u32_agree _ _ _ _ _ _ Ha' Hnd) by lia.
Qed.

Lemma layout_ranges_cert f l d :
  certDirOff l = Some d → 0 ≤ checksumOff l → checksumOff l + 4 ≤ d → d + 8 ≤ size f →
  ∃ certOff certLen, u32 f d = Some certOff ∧ u32 f (d + 4) = Some certLen ∧ 0 ≤ certOff ∧ 0 ≤ certLen.
Proof.
  intros _ ???.
  destruct (u32 f d) as [a|] eqn:E1; [|unfold u32 in E1; destruct (d <? 0) eqn:?, (size f <? d + 4) eqn:?; simpl in E1; lia || done].
  destruct (u32 f (d + 4)) as [b|] eqn:E2; [|unfold u32 in E2; destruct (d + 4 <? 0) eqn:?, (size f <? d + 4 + 4) eqn:?; simpl in E2; lia || done].
  exists a, b. apply u32_range in E1 as ?. apply u32_range in E2 as ?. repeat split; auto; lia.
Qed.

(** Ranges that follow one another between two offsets. *)
Fixpoint ordered (lo : Z) (rs : list (Z * Z)) (hi : Z) : Prop :=
  match rs with [] => lo ≤ hi | r :: rs' => lo ≤ r.1 ≤ r.2 ∧ ordered r.2 rs' hi end.
(** The certificate table of an image: from the entry at [d], unless it is empty or lies
    outside the file or in the headers. *)
Definition cert_table (f : bytes) (d : Z) : option (Z * Z) :=
  match u32 f d, u32 f (d + 4) with
  | Some o, Some n => if (n =? 0) || (o <? d + 8) || (size f <? o + n) then None else Some (o, o + n)
  | _, _ => None
  end.
(** The bytes Authenticode leaves out: the checksum, the directory entry, the table. *)
Definition left_out (f : bytes) (l : Layout) (i : Z) : Prop :=
  checksumOff l ≤ i < checksumOff l + 4 ∨
  ∃ d, certDirOff l = Some d ∧ (d ≤ i < d + 8 ∨ ∃ t, cert_table f d = Some t ∧ t.1 ≤ i < t.2).

Lemma left_out_plain f l i : certDirOff l = None → left_out f l i ↔ checksumOff l ≤ i < checksumOff l + 4.
Proof. unfold left_out. intros ->. split; [intros [?|(d & ? & _)]; done | by left]. Qed.
Lemma left_out_dir f l d i :
  certDirOff l = Some d →
  left_out f l i ↔ checksumOff l ≤ i < checksumOff l + 4 ∨ d ≤ i < d + 8 ∨
                   match cert_table f d with Some t => t.1 ≤ i < t.2 | None => False end.
Proof.
  unfold left_out. intros ->. split.
  - intros [?|(d' & [= <-] & [?|(t & -> & ?)])]; [by left | right; by left | right; by right].
  - intros [?|[?|Ht]]; [by left | right; exists d; auto |].
    destruct (cert_table f d) as [t|] eqn:E; [|done]. right. exists d. split; [done|]. right. exists t. auto.
Qed.

(** The ranges [peHashRanges] gives for a PE image follow one another within the file,
    and together they hold exactly the bytes outside the checksum, the directory entry of
    the certificate table and the table itself: no other byte of a program escapes its hash. *)
Theorem hash_covers_file f rs :
  peHashRanges f = Some rs →
  ordered 0 rs (size f) ∧
  ∃ l, pe_layout f = Some l ∧ ∀ i, 0 ≤ i < size f → Exists (λ r, r.1 ≤ i < r.2) rs ↔ ¬ left_out f l i.
Proof.
  unfold peHashRanges. intros (l & Hl & [= <-])%bind_Some.
  pose proof Hl as (peOff & optSize & magic & nd & ndo & _ & _ & _ & _ & _ & _ & (Hp & _ & Hc & Hs & Hd) & _)%pe_layout_inv.
  unfold layout_ranges. destruct (certDirOff l) as [d|] eqn:El.
  - destruct (Hd d eq_refl) as [Hd' ?]. destruct (layout_ranges_cert f l d) as (o & n & Ho & Hn & ? & ?); [done|lia..|].
    assert (cert_table f d = if (n =? 0) || (o <? d + 8) || (size f <? o + n) then None else Some (o, o + n)) as Ht
      by (unfold cert_table; by rewrite Ho, Hn).
    rewrite Ho, Hn. simpl. destruct (_ || _) eqn:Hb in *; [|destruct (o + n <? size f) eqn:?];
      (split; [simpl; lia|]); exists l; (split; [done|]); intros i Hi;
      rewrite (left_out_dir f l d i El), Ht, ?Exists_cons, ?Exists_nil; simpl; lia.
  - split; [simpl; lia|]. exists l. split; [done|]. intros i Hi.
    rewrite (left_out_plain f l i El), ?Exists_cons, ?Exists_nil. simpl. lia.
Qed.

(** ** Signing a file *)

(** Overwrite the bytes from an offset on. *)
Definition overwrite (f : bytes) (off : Z) (b : bytes) : bytes :=
  take (Z.to_nat off) f ++ b ++ drop (Z.to_nat off + length b) f.
Definition le32 (n : Z) : bytes :=
  (λ k, ascii_of_nat (Z.to_nat (n / 256 ^ k mod 256))) <$> [0; 1; 2; 3].
(** What signing does to an image with a certificate directory: the table goes to the end,
    the entry points to it, and the checksum is written anew. *)
Definition attach (f : bytes) (l : Layout) (d : Z) (sum table : bytes) : bytes :=
  overwrite (overwrite f (checksumOff l) sum) d (le32 (size f) ++ le32 (size table)) ++ table.

Lemma overwrite_length f off b : 0 ≤ off → off + size b ≤ size f → size (overwrite f off b) = size f.
Proof. unfold overwrite, size. intros. rewrite !length_app, length_take, length_drop. lia. Qed.
Lemma overwrite_other f off b i :
  0 ≤ off → off + size b ≤ size f → 0 ≤ i → ¬ off ≤ i < off + size b → overwrite f off b !! Z.to_nat i = f !! Z.to_nat i.
Proof.
  unfold overwrite, size. intros ??? Hi. destruct (decide (i < off)).
  - rewrite lookup_app_l by (rewrite length_take; lia). apply lookup_take_lt. lia.
  - rewrite lookup_app_r, lookup_app_r by (rewrite length_take; lia). rewrite lookup_drop, length_take. f_equal. lia.
Qed.
Lemma overwrite_in f off b i :
  0 ≤ off → off + size b ≤ size f → 0 ≤ i < size b → overwrite f off b !! Z.to_nat (off + i) = b !! Z.to_nat i.
Proof.
  unfold overwrite, size. intros ???. rewrite lookup_app_r by (rewrite length_take; lia).
  rewrite length_take, lookup_app_l by lia. f_equal. lia.
Qed.

Lemma le32_u32 (n : Z) g off : 0 ≤ n < 2 ^ 32 → 0 ≤ off → off + 4 ≤ size g →
  (∀ k, 0 ≤ k < 4 → g !! Z.to_nat (off + k) = le32 n !! Z.to_nat k) → u32 g off = Some n.
Proof.
  intros Hn ?? Hg. unfold u32. destruct (off <? 0) eqn:?, (size g <? off + 4) eqn:?; try lia. simpl. f_equal.
  assert (∀ k, 0 ≤ k < 4 → byte_at g (off + k) = n / 256 ^ k mod 256) as Hb.
  { intros k Hk. unfold byte_at. rewrite Hg by done. pose proof (Z.mod_pos_bound (n / 256 ^ k) 256 ltac:(lia)).
    assert (k = 0 ∨ k = 1 ∨ k = 2 ∨ k = 3) as Hk4 by lia; destruct Hk4 as [-> | [-> | [-> | -> ] ] ]; unfold le32; simpl;
      rewrite nat_ascii_embedding by lia; lia. }
  rewrite <- (Z.add_0_r off) at 1. rewrite !Hb by lia.
  change (256 ^ 0) with 1. change (256 ^ 1) with 256. change (256 ^ 2) with 65536. change (256 ^ 3) with 16777216.
  rewrite Z.div_1_r. replace (n / 65536) with (n / 256 / 256) by (rewrite Z.div_div by lia; reflexivity).
  replace (n / 16777216) with (n / 256 / 256 / 256) by (rewrite !Z.div_div by lia; reflexivity).
  pose proof (Z.div_mod n 256). pose proof (Z.div_mod (n / 256) 256). pose proof (Z.div_mod (n / 256 / 256) 256).
  rewrite (Z.mod_small (n / 256 / 256 / 256)); [lia|]. rewrite !Z.div_div by lia.
  split; [apply Z.div_pos; lia | apply Z.div_lt_upper_bound; lia].
Qed.

Lemma section_agree f g a b :
  0 ≤ a → (∀ i, a ≤ i < b → f !! Z.to_nat i = g !! Z.to_nat i) → section f (a, b) = section g (a, b).
Proof.
  intros Ha Hi. unfold section. simpl. apply list_eq. intros k. rewrite !lookup_take.
  destruct (decide (k < Z.to_nat b - Z.to_nat a)%nat); [|done]. rewrite !lookup_drop.
  specialize (Hi (a + Z.of_nat k) ltac:(lia)). by replace (Z.to_nat a + k)%nat with (Z.to_nat (a + Z.of_nat k)) by lia.
Qed.

Section attach.
Context (f : bytes) (l : Layout) (d : Z) (sum table : bytes).
Hypothesis Hl : pe_layout f = Some l.
Hypothesis Hd : certDirOff l = Some d.
Hypothesis Hsum : size sum = 4.

Lemma attach_room : 0 ≤ checksumOff l ∧ checksumOff l + 4 ≤ d ∧ d + 8 ≤ size f.
Proof.
  pose proof Hl as (peOff & optSize & magic & nd & ndo & _ & _ & _ & _ & _ & _ & (Hp & _ & Hc & Hs & Hdd) & _)%pe_layout_inv.
  destruct (Hdd d Hd). lia.
Qed.
Let g0 := overwrite f (checksumOff l) sum.
Let entry := le32 (size f) ++ le32 (size table).
Lemma attach_size : size (attach f l d sum table) = size f + size table.
Proof.
  pose proof attach_room. unfold attach, size. rewrite length_app, Nat2Z.inj_add. f_equal.
  fold (size f). rewrite <- (overwrite_length f (checksumOff l) sum) by lia.
  apply overwrite_length; [lia|]. rewrite overwrite_length by lia. unfold size. simpl. unfold size in *. lia.
Qed.
Lemma attach_other i : 0 ≤ i < size f → ¬ checksumOff l ≤ i < checksumOff l + 4 → ¬ d ≤ i < d + 8 →
  f !! Z.to_nat i = attach f l d sum table !! Z.to_nat i.
Proof.
  pose proof attach_room. intros. unfold attach.
  assert (size (overwrite f (checksumOff l) sum) = size f) as Hs by (apply overwrite_length; lia).
  assert (size (le32 (size f) ++ le32 (size table)) = 8) as Hs8 by done.
  rewrite lookup_app_l by (apply Nat2Z.inj_lt; fold (size (overwrite (overwrite f (checksumOff l) sum) d (le32 (size f) ++ le32 (size table))));
    rewrite overwrite_length; lia).
  rewrite overwrite_other by lia. by rewrite overwrite_other by lia.
Qed.
Lemma attach_entry : 0 ≤ size f < 2 ^ 32 → 0 ≤ size table < 2 ^ 32 →
  u32 (attach f l d sum table) d = Some (size f) ∧ u32 (attach f l d sum table) (d + 4) = Some (size table).
Proof.
  pose proof attach_room. pose proof attach_size.
  assert (size (overwrite f (checksumOff l) sum) = size f) as Hs by (apply overwrite_length; lia).
  assert (size (le32 (size f) ++ le32 (size table)) = 8) as Hs8 by done.
  intros. assert (∀ i, 0 ≤ i < 8 → attach f l d sum table !! Z.to_nat (d + i) = (le32 (size f) ++ le32 (size table)) !! Z.to_nat i) as Hi.
  { intros i Hi. unfold attach.
    rewrite lookup_app_l by (apply Nat2Z.inj_lt; fold (size (overwrite (overwrite f (checksumOff l) sum) d (le32 (size f) ++ le32 (size table))));
      rewrite overwrite_length; lia).
    by rewrite overwrite_in by lia. }
  split; apply le32_u32; try (unfold size in *; lia); intros k Hk.
  - rewrite Hi by lia. apply lookup_app_l. simpl. lia.
  - replace (d + 4 + k) with (d + (4 + k)) by lia. rewrite Hi by lia. rewrite lookup_app_r by (simpl; lia).
    f_equal. simpl. lia.
Qed.
Lemma attach_agree : agree (checksumOff l) d f (attach f l d sum table).
Proof. split; [rewrite attach_size; unfold size; lia | apply attach_other]. Qed.
End attach.

(** The Authenticode hash of a program does not change when it is signed: appending any
    certificate table to an unsigned image, pointing the directory entry at it and
    rewriting the checksum leaves the hash as it was; so a hash rule made
    from the unsigned file, or from one signed by somebody else, keeps matching. *)
Theorem signing_keeps_hash `{Hasher} f l d sum table :
  pe_layout f = Some l → certDirOff l = Some d → u32 f (d + 4) = Some 0 →
  size sum = 4 → table ≠ [] → size f + size table < 2 ^ 32 →
  AuthenticodeHash (attach f l d sum table) = AuthenticodeHash f.
Proof.
  intros Hl Hd Hu Hsum Ht Hsz. pose proof (attach_room f l d Hl Hd).
  assert (0 < size table) by (destruct table; [done|]; unfold size; simpl; lia).
  assert (0 ≤ size f) by (unfold size; lia).
  pose proof (attach_size f l d sum table Hl Hd Hsum) as Hgs.
  destruct (attach_entry f l d sum table Hl Hd Hsum) as [Ho Hn]; [lia..|].
  pose proof (attach_agree f l d sum table Hl Hd Hsum) as Ha.
  assert (∀ a b, 0 ≤ a → b ≤ size f → b ≤ checksumOff l ∨ checksumOff l + 4 ≤ a → b ≤ d ∨ d + 8 ≤ a →
    section (attach f l d sum table) (a, b) = section f (a, b)) as Hsec.
  { intros a b ????. symmetry. apply section_agree; [done|]. intros i Hi. apply Ha; lia. }
  unfold AuthenticodeHash, hashed, peHashRanges. assert (l = mkLayout (checksumOff l) (Some d)) as El by (destruct l; simpl in *; congruence).
  rewrite (pe_layout_agree f (attach f l d sum table) (checksumOff l) d) by (done || congruence). rewrite Hl. simpl. rewrite <- El.
  unfold layout_ranges. rewrite Hd, Ho, Hn, Hu, Hgs. simpl.
  rewrite (proj2 (Z.eqb_neq (size table) 0)), (proj2 (Z.ltb_ge (size f) (d + 8))), !Z.ltb_irrefl by lia. simpl.
  by rewrite !Hsec by lia.
Qed.

(** ** The signing certificate *)

Definition signer_at (certs : list Certificate) (i : nat) (c : Certificate) : Prop :=
  certs !! i = Some c ∧ issues certs i c = false.

Lemma leaf_loop_spec certs done rest fallback c :
  certs = done ++ rest →
  leaf_loop certs (length done) rest fallback = Some c →
  (∃ i, (length done ≤ i)%nat ∧ signer_at certs i c ∧ codeSigner c = true) ∨
  (∀ i c', (length done ≤ i)%nat → signer_at certs i c' → codeSigner c' = false) ∧
  (fallback = Some c ∨ fallback = None ∧ timestamper c = false ∧ ∃ i, (length done ≤ i)%nat ∧ signer_at certs i c).
Proof.
  revert done fallback. induction rest as [|x rest IH]; intros done fallback Hc; simpl.
  - intros ->. right. split; [|by left]. intros i c' Hi [Hlk _]. apply lookup_lt_Some in Hlk.
    rewrite Hc, app_nil_r in Hlk. lia.
  - assert (certs = (done ++ [x]) ++ rest) as Hc' by (by rewrite <- app_assoc).
    specialize (IH (done ++ [x])). rewrite length_app, Nat.add_1_r in IH.
    assert (certs !! length done = Some x) as Hx by (rewrite Hc; by apply list_lookup_middle).
    assert (∀ fb, leaf_loop certs (S (length done)) rest fb = Some c → (issues certs (length done) x = true ∨ codeSigner x = false) →
      (∃ i, (length done ≤ i)%nat ∧ signer_at certs i c ∧ codeSigner c = true) ∨
      (∀ i c', (length done ≤ i)%nat → signer_at certs i c' → codeSigner c' = false) ∧
      (fb = Some c ∨ fb = None ∧ timestamper c = false ∧ ∃ i, (length done ≤ i)%nat ∧ signer_at certs i c)) as Hstep.
    { intros fb Hl Hno. destruct (IH fb Hc' Hl) as [(i & ? & ?)|[Hn Hr]]; [left; exists i; split; [lia|done]|right].
      split; [|destruct Hr as [?|(? & ? & i & ? & ?)]; [by left|right; split_and!; try done; exists i; split; [lia|done]]].
      intros i c' Hi Hs. destruct (decide (i = length done)) as [->|]; [|apply (Hn i); [lia|done]].
      destruct Hs as [Hlk Hiss]. rewrite Hx in Hlk. injection Hlk as <-. destruct Hno; congruence. }
    destruct (issues certs (length done) x) eqn:Hi; [intros Hl; by apply (Hstep fallback); auto|].
    destruct (codeSigner x) eqn:Hcs.
    + intros [= <-]. left. by exists (length done).
    + intros Hl. destruct (Hstep _ Hl (or_intror eq_refl)) as [?|[Hn Hr]]; [by left|right]. split; [done|].
      destruct (bool_decide (fallback = None)) eqn:Hb; bool_cases; simpl in *.
      * destruct (timestamper x) eqn:Ht; simpl in *; [done|]. right.
        destruct Hr as [[= ->]|(? & _)]; [|done]. split_and!; try done. by exists (length done).
      * destruct Hr as [?|(? & _)]; [by left | done].
Qed.

(** The certificate a file is attributed to is one of its certificates that issued none
    of the others; it is a code-signing one whenever there is such a certificate among
    those, and it is never one that only stamps times. *)
Theorem leaf_is_signer certs c :
  leaf certs = Some c →
  (∃ i, signer_at certs i c) ∧
  (codeSigner c = true ∨ timestamper c = false ∧ ∀ i c', signer_at certs i c' → codeSigner c' = false).
Proof.
  intros [(i & _ & ? & ?)|[Hn [?|(_ & ? & i & _ & ?)]]]%(leaf_loop_spec certs [] certs); try done.
  - split; [by exists i | by left].
  - split; [by exists i|right]. split; [done|]. intros j c'. apply Hn. simpl. lia.
Qed.

Module Image.
(** The smallest image: 64 bytes of DOS header, the PE headers and 8 bytes of code. *)
Definition word (n : Z) : bytes := take 2 (le32 n).
Definition zeros (n : nat) : bytes := replicate n "000"%char.
Definition image : bytes :=
  overwrite (overwrite (overwrite (overwrite (overwrite (overwrite (zeros 232)
    0 (word 0x5A4D)) 0x3C (le32 64)) 64 (le32 0x4550)) 84 (word 136)) 88 (word 0x10b)) 180 (le32 16).
Definition image_layout : Layout := mkLayout 152 (Some 216).
#[export] Instance plain_hash : Hasher := λ s, s.
Definition table_bytes : bytes := to_list "certificates".
End Image.

Section image_witnesses.
Import Image.
Lemma hash_covers_file_witness :
  peHashRanges image = Some [(0, 152); (156, 216); (224, 232)] ∧ ordered 0 [(0, 152); (156, 216); (224, 232)] (size image).
Proof.
  assert (peHashRanges image = Some [(0, 152); (156, 216); (224, 232)]) as H by (vm_compute; reflexivity).
  split; [exact H|]. destruct (hash_covers_file image _ H) as [Ho _]. exact Ho.
Defined.
Lemma signing_keeps_hash_witness :
  let g := attach image image_layout 216 (le32 77) table_bytes in
  size g = 244 ∧ AuthenticodeHash g = AuthenticodeHash image.
Proof.
  split; [vm_compute; reflexivity|].
  apply (signing_keeps_hash image image_layout 216 (le32 77) table_bytes); vm_compute; solve [reflexivity | discriminate].
Defined.
Lemma leaf_is_signer_witness :
  let root := mkCertificate "r" "root" "root" "Root" "Root" SHA256WithRSA [] in
  let stamp := mkCertificate "t" "root" "stamp" "Stamp" "Root" SHA256WithRSA [TimeStamping] in
  let signer := mkCertificate "s" "root" "signer" "Acme" "Root" SHA256WithRSA [CodeSigning] in
  leaf [root; stamp; signer] = Some signer ∧
  (codeSigner signer = true ∨ timestamper signer = false ∧ ∀ i c', signer_at [root; stamp; signer] i c' → codeSigner c' = false).
Proof.
  intros root stamp signer. assert (leaf [root; stamp; signer] = Some signer) as H by reflexivity.
  split; [exact H|]. exact (proj2 (leaf_is_signer _ _ H)).
Defined.
End image_witnesses.

(** An image whose size is no multiple of eight is padded before it is signed, and the
    padding counts: its hash does change. *)
Example padding_counts :
  let odd := Image.image ++ to_list "x" in
  let padded := odd ++ Image.zeros 7 in
  bool_decide (hashed (attach padded Image.image_layout 216 (le32 77) Image.table_bytes) = hashed odd) = false.
Proof. vm_compute. reflexivity. Qed.
