(* ===== verification/Endpoint.v ===== *)
(** * The machine an agent runs on

    The file system the agent works with ([os.WriteFile], [ReadFile], [Stat], [Remove],
    [Rename]) with its failures, and [internal/agent/agentpaths]. What can go wrong is
    a list of outcomes that the operations take one by one, so that a theorem over every list
    covers every pattern of failures; an exhausted list means that nothing fails. *)

From stdpp Require Import gmap strings list.
From S2P Require Import Prelude GoStr.

(** An operation succeeds, is refused before it changes anything, or, when it writes,
    stops after some bytes: the file was truncated when it was opened. *)
Inductive io := Fine | Refused | Torn (n : nat).
Record disk := mkDisk { files : gmap string string; faults : list io }.
Definition set_files (f : gmap string string) (d : disk) : disk := mkDisk f (faults d).

Definition next_io (d : disk) : io * list io := match faults d with [] => (Fine, []) | o :: os => (o, os) end.
Definition io_error (op path : string) : err := EFmt "%s %s: input/output error" [op; path].
Definition no_file (path : string) : err := EFmt "open %s: file does not exist" [path].

Definition WriteFile (path data : string) : M disk unit :=
  λ d,
    match next_io d with
    | (Fine, os) => (mkDisk (<[path := data]> (files d)) os, Ok tt)
    | (Refused, os) => (mkDisk (files d) os, Err (io_error "write" path))
    | (Torn n, os) => (mkDisk (<[path := String.substring 0 n data]> (files d)) os, Err (io_error "write" path))
    end.
Definition ReadFile (path : string) : M disk string :=
  λ d, (d, match files d !! path with Some s => Ok s | None => Err (no_file path) end).
(** [os.Stat] succeeds. *)
Definition exists_file (path : string) (d : disk) : bool := bool_decide (is_Some (files d !! path)).

Definition Remove (path : string) : M disk unit :=
  λ d,
    match next_io d with
    | (Fine, os) =>
        (mkDisk (delete path (files d)) os, match files d !! path with Some _ => Ok tt | None => Err (no_file path) end)
    | (_, os) => (mkDisk (files d) os, Err (io_error "remove" path))
    end.
(** Replaces the target when there is one. *)
Definition Rename (old new : string) : M disk unit :=
  λ d,
    match next_io d with
    | (Fine, os) =>
        match files d !! old with
        | Some s => (mkDisk (<[new := s]> (delete old (files d))) os, Ok tt)
        | None => (mkDisk (files d) os, Err (no_file old))
        end
    | (_, os) => (mkDisk (files d) os, Err (io_error "rename" old))
    end.

(** ** agentpaths.go *)

Record Paths := mkPaths { InstallDir : string; DataDir : string }.
(** [filepath.Join] of a clean directory and a plain name, on Windows. *)
Definition Join2 (dir name : string) : string := dir +:+ "\" +:+ name.
Definition ConfigPath (p : Paths) : string := Join2 (DataDir p) "config.yaml".
Definition KeyPath (p : Paths) : string := Join2 (DataDir p) "device.key".
Definition CertPath (p : Paths) : string := Join2 (DataDir p) "device.crt".
Definition CAPath (p : Paths) : string := Join2 (DataDir p) "ca.crt".
Definition EnrollmentPath (p : Paths) : string := Join2 (DataDir p) "enrollment.json".
Definition LogPath (p : Paths) : string := Join2 (DataDir p) "agent.log".
Definition UpdaterExe (p : Paths) : string := Join2 (InstallDir p) "agent-updater.exe".
(** [Default] on Windows, from the environment. *)
Definition DefaultPaths (env : string → string) : Paths :=
  let pf := if bool_decide (env "ProgramFiles" = "") then "C:\Program Files" else env "ProgramFiles" in
  let pd := if bool_decide (env "ProgramData" = "") then "C:\ProgramData" else env "ProgramData" in
  mkPaths (Join2 pf "FreeLocker") (Join2 pd "FreeLocker").

Lemma Join2_inj dir a b : Join2 dir a = Join2 dir b → a = b.
Proof.
  unfold Join2. intros H. apply to_list_inj. apply (f_equal to_list) in H. rewrite !to_list_app in H.
  by apply app_inv_head in H; injection H.
Qed.
(** Files of one directory with different names are different files. *)
Lemma Join2_ne dir a b : a ≠ b → Join2 dir a ≠ Join2 dir b.
Proof. intros Hn H. by apply Join2_inj in H. Qed.

(** ** What the operations do *)

Lemma bind_run {S A B} (m : M S A) (k : A → M S B) s s1 a : m s = (s1, Ok a) → (m ≫= k) s = k a s1.
Proof. unfold mbind, M_bind. by intros ->. Qed.
Lemma bind_fails {S A B} (m : M S A) (k : A → M S B) s s1 e : m s = (s1, Err e) → (m ≫= k) s = (s1, Err e).
Proof. unfold mbind, M_bind. by intros ->. Qed.

(** A machine on which nothing fails any more. *)
Definition calm (d : disk) : Prop := Forall (eq Fine) (faults d).
Lemma next_io_calm d o os : calm d → next_io d = (o, os) → o = Fine ∧ Forall (eq Fine) os.
Proof.
  unfold calm, next_io. destruct (faults d) as [|o' os'].
  - intros _ [= <- <-]. by split.
  - intros Hc [= <- <-]. by apply Forall_cons in Hc as [<- ?].
Qed.

Lemma Remove_run p d d' r :
  Remove p d = (d', r) →
  (files d' = files d ∨ files d' = delete p (files d)) ∧ (calm d → calm d' ∧ files d' = delete p (files d)).
Proof.
  unfold Remove. destruct (next_io d) as [o os] eqn:Ho.
  destruct o; intros [= <- <-]; (split; [simpl; auto|]); intros Hc;
    destruct (next_io_calm _ _ _ Hc Ho) as [? Hos]; try done; by split.
Qed.

Lemma Rename_run old new d d' r :
  Rename old new d = (d', r) →
  match r with
  | Ok _ => ∃ s, files d !! old = Some s ∧ files d' = <[new := s]> (delete old (files d))
  | Err _ => files d' = files d ∧ (calm d → files d !! old = None)
  end ∧ (calm d → calm d').
Proof.
  unfold Rename. destruct (next_io d) as [o os] eqn:Ho. destruct o.
  - destruct (files d !! old) as [s|] eqn:Hs; intros [= <- <-]; simpl.
    + split; [by exists s|]. intros Hc. by destruct (next_io_calm _ _ _ Hc Ho).
    + split; [done|]. intros Hc. by destruct (next_io_calm _ _ _ Hc Ho).
  - intros [= <- <-]. split; [split; [done|]|]; intros Hc; by destruct (next_io_calm _ _ _ Hc Ho).
  - intros [= <- <-]. split; [split; [done|]|]; intros Hc; by destruct (next_io_calm _ _ _ Hc Ho).
Qed.

Lemma WriteFile_run p s d d' r :
  WriteFile p s d = (d', r) →
  (∀ q, q ≠ p → files d' !! q = files d !! q) ∧ (r = Ok tt → files d' = <[p := s]> (files d)).
Proof.
  unfold WriteFile. destruct (next_io d) as [[| |n] os]; intros [= <- <-]; simpl; (split; [|done]);
    intros q Hq; by rewrite ?lookup_insert_ne.
Qed.
