(* ===== verification/Updater.v ===== *)
(** * Updates of the agent

    Models [internal/agent/updater/updater.go] (download, verify, stage), [UpdateAgent] of
    [internal/agent/actions/actions.go], and [cmd/agent-updater/main.go]: the helper that
    swaps the binaries of a stopped service and rolls back. Shown: what takes the place of
    the agent was signed, and the place is never left empty. *)

From stdpp Require Import gmap strings list.
From S2P Require Import Prelude GoStr Db Hub StoreCore World Commands Enroll Demo Endpoint.

(** ** updater.go *)

(** [http.Client.Do]: the status and the body as far as it can be read; and
    [json.Unmarshal] of an update payload. *)
Class Download_lib := {
  http_get : string → result (Z * string);
  unmarshal_update : string → result UpdatePayload;
}.

(** [io.LimitReader]. *)
Definition LimitReader (n : N) (s : string) : string :=
  if (N.of_nat (String.length s) <=? n)%N then s else String.substring 0 (N.to_nat n) s.

Section updater.
Context `{Download_lib, Pki, Crypto}.

Definition Download (url wantSHA256 : string) : result string :=
  match http_get url with
  | Err e => Err e
  | Ok (status, body) =>
      if negb (status =? 200)%Z then Err (EFmt "download: status %d" [])
      else
        let b := LimitReader (N.shiftl 256 20) body in
        if negb (bool_decide (sha256 b = wantSHA256)) then Err (EMsg "downloaded binary hash mismatch") else Ok b
  end.
Definition PublicKeySize : nat := 32.
Definition VerifyUpdate (pub sha256sum signature : string) : result unit :=
  if negb (String.length pub =? PublicKeySize)%nat then Err (EMsg "bad update public key")
  else if negb (ed_verify pub sha256sum signature) then Err (EMsg "update signature invalid") else Ok tt.
Definition staged_path (dir : string) : string := Join2 dir "freelocker-agent.new.exe".
Definition Stage (dir bin : string) : M disk string :=
  _ ← WriteFile (staged_path dir) bin; mret (staged_path dir).

Record Plan := mkPlan { pl_CurrentExe : string; pl_NewExe : string; pl_UpdaterExe : string; pl_ServiceName : string }.
Definition SwapArgs (p : Plan) : list string :=
  ["swap"; "-service"; pl_ServiceName p; "-current"; pl_CurrentExe p; "-new"; pl_NewExe p].

(** ** actions.go, UpdateAgent *)

(** The plan handed to the helper, unless only staging was asked for; [self] is the
    running executable ([os.Executable]). *)
Definition UpdateAgent (paths : Paths) (update_pub : string) (self : result string) (stage_only : bool) (payload : string)
    : M disk (option Plan) :=
  p ← of_result (unmarshal_update payload);
  bin ← of_result (Download (up_url p) (up_sha256 p));
  _ ← of_result (VerifyUpdate update_pub (up_sha256 p) (up_signature p));
  staged ← Stage (InstallDir paths) bin;
  if stage_only then mret None
  else
    current ← of_result self;
    mret (Some (mkPlan current staged (UpdaterExe paths) "FreeLockerAgent")).
End updater.

(** ** cmd/agent-updater *)

(** The service manager as the helper sees it: each call of [sc.exe] takes the next
    answer. A query tells whether the output says RUNNING; a call also takes time. A
    started service runs the file at the path it was installed with. *)
Record sc_answer := mkSc { sc_ok : bool; sc_took : Z }.
Record machine := mkMachine { m_disk : disk; m_sc : list sc_answer; m_now : time; m_started : option string }.
Definition on_disk {A} (m : M disk A) : M machine A :=
  λ w, let '(d, r) := m (m_disk w) in (mkMachine d (m_sc w) (m_now w) (m_started w), r).
Definition next_sc (w : machine) : sc_answer * list sc_answer :=
  match m_sc w with [] => (mkSc true 0, []) | a :: rest => (a, rest) end.
Definition sc_stop : M machine unit :=
  λ w, let '(a, rest) := next_sc w in (mkMachine (m_disk w) rest (m_now w + Z.max 0 (sc_took a))%Z (m_started w), Ok tt).
Definition sc_start (exe : string) : M machine bool :=
  λ w,
    let '(a, rest) := next_sc w in
    let run := if sc_ok a then files (m_disk w) !! exe else None in
    (mkMachine (m_disk w) rest (m_now w + Z.max 0 (sc_took a))%Z (if run is Some b then Some b else m_started w),
     Ok (bool_decide (is_Some run))).
Definition serviceRunning : M machine bool :=
  λ w, let '(a, rest) := next_sc w in (mkMachine (m_disk w) rest (m_now w + Z.max 0 (sc_took a))%Z (m_started w), Ok (sc_ok a)).
Definition Sleep (d : duration) : M machine unit :=
  λ w, (mkMachine (m_disk w) (m_sc w) (m_now w + d)%Z (m_started w), Ok tt).
Definition clock : M machine time := λ w, (w, Ok (m_now w)).

(** The polling loops; the fuel is an upper bound on the number of polls before the deadline. *)
Fixpoint healthy_loop (fuel : nat) (deadline : time) : M machine bool :=
  match fuel with
  | O => fail (EMsg "out of fuel")
  | S fuel =>
      t ← clock;
      if (t <? deadline)%Z then
        up ← serviceRunning;
        if up : bool then mret true else _ ← Sleep (3 * Second)%Z; healthy_loop fuel deadline
      else mret false
  end.
Definition healthy (d : duration) : M machine bool :=
  t ← clock; healthy_loop (S (Z.to_nat (d / Second))) (t + d)%Z.
Fixpoint waitStopped_loop (fuel : nat) (deadline : time) : M machine unit :=
  match fuel with
  | O => fail (EMsg "out of fuel")
  | S fuel =>
      t ← clock;
      if (t <? deadline)%Z then
        up ← serviceRunning;
        if up : bool then _ ← Sleep Second; waitStopped_loop fuel deadline else mret tt
      else mret tt
  end.
Definition waitStopped (d : duration) : M machine unit :=
  t ← clock; waitStopped_loop (S (Z.to_nat (d / Second))) (t + d)%Z.

Definition rollback (current backup : string) (cause : err) : M machine unit :=
  _ ← sc_stop;
  _ ← waitStopped (30 * Second)%Z;
  _ ← attempt (on_disk (Remove current));
  r ← attempt (on_disk (Rename backup current));
  match r with
  | Err e => fail (EWrap "ALSO rollback failed" e)
  | Ok _ => _ ← attempt (sc_start current); fail cause
  end.

Definition swap (current newExe : string) : M machine unit :=
  let backup := current +:+ ".bak" in
  _ ← sc_stop;
  _ ← waitStopped (30 * Second)%Z;
  _ ← attempt (on_disk (Remove backup));
  r ← attempt (on_disk (Rename current backup));
  match r with
  | Err e => fail (EWrap "backup current" e)
  | Ok _ =>
      r ← attempt (on_disk (Rename newExe current));
      match r with
      | Err e =>
          _ ← attempt (on_disk (Rename backup current));
          _ ← attempt (sc_start current);
          fail (EWrap "install new" e)
      | Ok _ =>
          started ← sc_start current;
          if negb started then rollback current backup (EMsg "start new")
          else
            up ← healthy (2 * Minute)%Z;
            if up : bool then _ ← attempt (on_disk (Remove backup)); mret tt
            else rollback current backup (EMsg "new agent did not become healthy")
      end
  end.

(** ** An update leaves a program that works

    What the swap helper leaves behind whatever fails under it, and that a binary
    which reaches the place of the agent carries the tenant's signature. *)

(** *** The service manager *)

(** Calls of [sc.exe] leave the files alone. *)
Definition beside (w w' : machine) : Prop := m_disk w' = m_disk w ∧ m_started w' = m_started w.
#[export] Instance beside_preorder : PreOrder beside.
Proof. split; [done|]. intros x y z [Ha Hb] [Hc Hd]. split; congruence. Qed.

Lemma sc_stop_run w : ∃ w', sc_stop w = (w', Ok tt) ∧ beside w w'.
Proof. unfold sc_stop. destruct (next_sc w). by eexists. Qed.
Lemma serviceRunning_run w : ∃ w' b, serviceRunning w = (w', Ok b) ∧ beside w w' ∧ (m_now w ≤ m_now w')%Z.
Proof. unfold serviceRunning. destruct (next_sc w) as [a rest]. eexists _, _. split; [done|]. split; [done|simpl; lia]. Qed.
Lemma sc_start_run exe w :
  ∃ w' b, sc_start exe w = (w', Ok b) ∧ m_disk w' = m_disk w ∧ (b = true → m_started w' = files (m_disk w) !! exe).
Proof.
  unfold sc_start. destruct (next_sc w) as [a rest]. eexists _, _. split; [done|]. split; [done|].
  simpl. destruct (sc_ok a), (files (m_disk w) !! exe); done.
Qed.

(** *** The polling loops end *)

Section poll.
Context (deadline : time).
Lemma healthy_loop_run fuel w :
  (deadline - m_now w ≤ Z.of_nat fuel * Second)%Z → ∃ w' b, healthy_loop (S fuel) deadline w = (w', Ok b) ∧ beside w w'.
Proof.
  revert w. induction fuel as [|fuel IH]; intros w Hf; cbn [healthy_loop]; rewrite (bind_run _ _ w w (m_now w)) by done.
  - destruct (m_now w <? deadline)%Z eqn:Ht; [unfold Second in *; lia|]. by exists w, false.
  - destruct (m_now w <? deadline)%Z eqn:Ht; [|by exists w, false].
    destruct (serviceRunning_run w) as (w1 & b & Hr & Hb & Ht1). rewrite (bind_run _ _ _ _ _ Hr).
    destruct b; [by exists w1, true|]. rewrite (bind_run _ _ _ _ tt) by done.
    destruct (IH (mkMachine (m_disk w1) (m_sc w1) (m_now w1 + 3 * Second)%Z (m_started w1))) as (w2 & b & Hr2 & Hb2);
      [unfold Second in *; simpl; lia|].
    exists w2, b. split; [exact Hr2|]. etransitivity; [exact Hb | exact Hb2].
Qed.
Lemma waitStopped_loop_run fuel w :
  (deadline - m_now w ≤ Z.of_nat fuel * Second)%Z → ∃ w', waitStopped_loop (S fuel) deadline w = (w', Ok tt) ∧ beside w w'.
Proof.
  revert w. induction fuel as [|fuel IH]; intros w Hf; cbn [waitStopped_loop]; rewrite (bind_run _ _ w w (m_now w)) by done.
  - destruct (m_now w <? deadline)%Z eqn:Ht; [unfold Second in *; lia|]. by exists w.
  - destruct (m_now w <? deadline)%Z eqn:Ht; [|by exists w].
    destruct (serviceRunning_run w) as (w1 & b & Hr & Hb & Ht1). rewrite (bind_run _ _ _ _ _ Hr).
    destruct b; [|by exists w1]. rewrite (bind_run _ _ _ _ tt) by done.
    destruct (IH (mkMachine (m_disk w1) (m_sc w1) (m_now w1 + Second)%Z (m_started w1))) as (w2 & Hr2 & Hb2);
      [unfold Second in *; simpl; lia|].
    exists w2. split; [exact Hr2|]. etransitivity; [exact Hb | exact Hb2].
Qed.
End poll.

Lemma polls_enough d : (0 ≤ d → d mod Second = 0 → d ≤ Z.of_nat (Z.to_nat (d / Second)) * Second)%Z.
Proof.
  intros Hd Hm. rewrite Z2Nat.id by (apply Z.div_pos; unfold Second in *; lia).
  pose proof (Z.div_mod d Second). unfold Second in *. lia.
Qed.
Lemma healthy_run w : ∃ w' b, healthy (2 * Minute)%Z w = (w', Ok b) ∧ beside w w'.
Proof.
  unfold healthy. rewrite (bind_run _ _ w w (m_now w)) by done. apply healthy_loop_run.
  pose proof (polls_enough (2 * Minute) ltac:(done) ltac:(done)). lia.
Qed.
Lemma waitStopped_run w : ∃ w', waitStopped (30 * Second)%Z w = (w', Ok tt) ∧ beside w w'.
Proof.
  unfold waitStopped. rewrite (bind_run _ _ w w (m_now w)) by done. apply waitStopped_loop_run.
  pose proof (polls_enough (30 * Second) ltac:(done) ltac:(done)). lia.
Qed.

(** *** The swap *)

Lemma on_disk_run {A} (m : M disk A) w :
  ∃ w' r, attempt (on_disk m) w = (w', Ok r) ∧ m (m_disk w) = (m_disk w', r) ∧ m_started w' = m_started w.
Proof. unfold attempt, on_disk. destruct (m (m_disk w)) as [d r]. by eexists _, _. Qed.

(** The old program is where it was, or at least its backup is beside it. *)
Definition kept (current backup old bin : string) (w : machine) : Prop :=
  let f := files (m_disk w) in
  f !! current = Some old ∨ f !! backup = Some old ∧ (f !! current = None ∨ f !! current = Some bin).

Section swap.
Context (current newExe old bin : string).
Let backup := current +:+ ".bak".
Lemma backup_ne : backup ≠ current.
Proof.
  unfold backup. intros H. apply (f_equal String.length) in H. rewrite <- !length_to_list, to_list_app, length_app in H.
  simpl in H. lia.
Qed.

(** What swapping achieves: the new program in its place, started and seen running; or the
    old one kept, and back in its place when the disk did not fail. *)
Definition swapped (w w' : machine) (r : result unit) : Prop :=
  match r with
  | Ok _ => files (m_disk w') !! current = Some bin ∧ m_started w' = Some bin
  | Err _ => kept current backup old bin w' ∧ (calm (m_disk w) → files (m_disk w') !! current = Some old)
  end.

Lemma rollback_run cause w :
  files (m_disk w) !! backup = Some old → files (m_disk w) !! current = Some bin →
  ∃ w' e, rollback current backup cause w = (w', Err e) ∧ kept current backup old bin w' ∧
    (calm (m_disk w) → files (m_disk w') !! current = Some old).
Proof.
  intros Hb Hc. pose proof backup_ne. unfold rollback.
  destruct (sc_stop_run w) as (w1 & H1 & Hd1 & _). rewrite (bind_run _ _ _ _ _ H1).
  destruct (waitStopped_run w1) as (w2 & H2 & Hd2 & _). rewrite (bind_run _ _ _ _ _ H2).
  destruct (on_disk_run (Remove current) w2) as (w3 & r3 & H3 & Hr3 & _). rewrite (bind_run _ _ _ _ _ H3).
  apply Remove_run in Hr3 as [Hf3 Hc3]. rewrite Hd2, Hd1 in *.
  assert (files (m_disk w3) !! backup = Some old) as Hb3 by (destruct Hf3 as [-> | ->]; by rewrite ?lookup_delete_ne).
  assert (files (m_disk w3) !! current = None ∨ files (m_disk w3) !! current = Some bin) as Hn3
    by (destruct Hf3 as [-> | ->]; rewrite ?lookup_delete_eq; auto).
  destruct (on_disk_run (Rename backup current) w3) as (w4 & r4 & H4 & Hr4 & _). rewrite (bind_run _ _ _ _ _ H4).
  apply Rename_run in Hr4 as [Hr4 Hc4]. destruct r4 as [[]|e].
  - destruct Hr4 as (s & Hs & Hf4). assert (s = old) as -> by congruence.
    destruct (sc_start_run current w4) as (w5 & b5 & H5 & Hd5 & _).
    assert (attempt (sc_start current) w4 = (w5, Ok (Ok b5))) as H5' by (unfold attempt; by rewrite H5).
    rewrite (bind_run _ _ _ _ _ H5'). exists w5, cause. unfold kept. rewrite Hd5, Hf4, lookup_insert_eq. auto.
  - destruct Hr4 as [Hf4 Hn4]. exists w4, (EWrap "ALSO rollback failed" e). split; [done|].
    unfold kept. cbn zeta. rewrite Hf4. split; [by right|]. intros Hcalm. apply Hc3 in Hcalm as [Hcalm _]. apply Hn4 in Hcalm. congruence.
Qed.

(** From the moment both files are in place and the service is stopped. *)
Lemma start_new_run w0 w :
  files (m_disk w) !! backup = Some old → files (m_disk w) !! current = Some bin → (calm (m_disk w0) → calm (m_disk w)) →
  ∃ w' r,
    (started ← sc_start current;
     if negb started then rollback current backup (EMsg "start new")
     else
       up ← healthy (2 * Minute)%Z;
       if up : bool then _ ← attempt (on_disk (Remove backup)); mret tt
       else rollback current backup (EMsg "new agent did not become healthy")) w = (w', r) ∧ swapped w0 w' r.
Proof.
  intros Hb Hc Hcalm. pose proof backup_ne.
  destruct (sc_start_run current w) as (w1 & b & H1 & Hd1 & Hs1). rewrite (bind_run _ _ _ _ _ H1). destruct b; simpl.
  - destruct (healthy_run w1) as (w2 & up & H2 & Hd2 & Hs2). rewrite (bind_run _ _ _ _ _ H2). destruct up.
    + destruct (on_disk_run (Remove backup) w2) as (w3 & r3 & H3 & Hr3 & Hs3). rewrite (bind_run _ _ _ _ _ H3).
      eexists w3, (Ok tt). split; [done|]. apply Remove_run in Hr3 as [Hf3 _]. rewrite Hd2, Hd1 in Hf3. split.
      * destruct Hf3 as [-> | ->]; by rewrite ?lookup_delete_ne.
      * rewrite Hs3, Hs2, Hs1 by done. exact Hc.
    + rewrite <- Hd1, <- Hd2 in Hb, Hc. destruct (rollback_run (EMsg "new agent did not become healthy") w2 Hb Hc)
        as (w3 & e & H3 & Hk & Hold). exists w3, (Err e). split; [done|]. split; [done|]. intros Hw0. apply Hold.
      rewrite Hd2, Hd1. auto.
  - rewrite <- Hd1 in Hb, Hc. destruct (rollback_run (EMsg "start new") w1 Hb Hc) as (w2 & e & H2 & Hk & Hold).
    exists w2, (Err e). split; [done|]. split; [done|]. intros Hw0. apply Hold. rewrite Hd1. auto.
Qed.

(** How swapping ends. *)
Lemma swap_outcome w :
  files (m_disk w) !! current = Some old → files (m_disk w) !! newExe = Some bin → newExe ≠ current → newExe ≠ backup →
  ∃ w' r, swap current newExe w = (w', r) ∧ swapped w w' r.
Proof.
  intros Hold Hbin Hn1 Hn2. pose proof backup_ne. unfold swap.
  destruct (sc_stop_run w) as (w1 & H1 & Hd1 & _). rewrite (bind_run _ _ _ _ _ H1).
  destruct (waitStopped_run w1) as (w2 & H2 & Hd2 & _). rewrite (bind_run _ _ _ _ _ H2).
  destruct (on_disk_run (Remove backup) w2) as (w3 & r3 & H3 & Hr3 & _). fold backup. rewrite (bind_run _ _ _ _ _ H3).
  apply Remove_run in Hr3 as [Hf3 Hc3]. rewrite Hd2, Hd1 in *.
  assert (files (m_disk w3) !! current = Some old ∧ files (m_disk w3) !! newExe = Some bin) as [Ho3 Hb3]
    by (destruct Hf3 as [-> | ->]; by rewrite ?lookup_delete_ne).
  destruct (on_disk_run (Rename current backup) w3) as (w4 & r4 & H4 & Hr4 & _). rewrite (bind_run _ _ _ _ _ H4).
  apply Rename_run in Hr4 as [Hr4 Hc4]. destruct r4 as [[]|e].
  2: { destruct Hr4 as [Hf4 Hn4]. exists w4, (Err (EWrap "backup current" e)). split; [done|]. unfold swapped, kept.
       rewrite Hf4. auto. }
  destruct Hr4 as (s & Hs & Hf4). assert (s = old) as -> by congruence.
  destruct (on_disk_run (Rename newExe current) w4) as (w5 & r5 & H5 & Hr5 & _). rewrite (bind_run _ _ _ _ _ H5).
  apply Rename_run in Hr5 as [Hr5 Hc5].
  assert (files (m_disk w4) !! newExe = Some bin) as Hb4
    by (rewrite Hf4, lookup_insert_ne, lookup_delete_ne by done; exact Hb3).
  destruct r5 as [[]|e].
  - destruct Hr5 as (s & Hs5 & Hf5). assert (s = bin) as -> by congruence.
    apply start_new_run; [rewrite Hf5, lookup_insert_ne, lookup_delete_ne by done; rewrite Hf4; apply lookup_insert_eq | rewrite Hf5; apply lookup_insert_eq |].
    intros Hw. apply Hc3 in Hw as [Hw _]. auto.
  - destruct Hr5 as [Hf5 Hn5].
    destruct (on_disk_run (Rename backup current) w5) as (w6 & r6 & H6 & Hr6 & _). rewrite (bind_run _ _ _ _ _ H6).
    destruct (sc_start_run current w6) as (w7 & b7 & H7 & Hd7 & _).
    assert (attempt (sc_start current) w6 = (w7, Ok (Ok b7))) as H7' by (unfold attempt; by rewrite H7).
    rewrite (bind_run _ _ _ _ _ H7'). exists w7, (Err (EWrap "install new" e)). split; [done|].
    apply Rename_run in Hr6 as [Hr6 _]. unfold swapped, kept. rewrite Hd7.
    assert (files (m_disk w5) !! backup = Some old ∧ files (m_disk w5) !! current = None) as [Ho5 Hn5']
      by (rewrite Hf5, Hf4; split; [apply lookup_insert_eq | rewrite lookup_insert_ne by done; apply lookup_delete_eq]).
    split.
    + destruct r6 as [[]|e6]; [destruct Hr6 as (s & Hs6 & ->); left; rewrite lookup_insert_eq; congruence |].
      destruct Hr6 as [-> _]. right. auto.
    + intros Hw. apply Hc3 in Hw as [Hw _]. apply Hc4, Hn5 in Hw. congruence.
Qed.

End swap.

(** *** From the command to the running program *)

Section authentic.
Context `{Download_lib, Pki, Crypto}.

(** The payload a binary was accepted for: its digest carries the tenant's signature. *)
Definition vouched (update_pub bin : string) : Prop :=
  ∃ p payload, unmarshal_update payload = Ok p ∧ sha256 bin = up_sha256 p ∧ ed_verify update_pub (sha256 bin) (up_signature p) = true.

Lemma Download_Ok url want bin : Download url want = Ok bin → sha256 bin = want.
Proof. unfold Download. repeat case_match; try done. intros [= <-]. by bool_cases. Qed.
Lemma VerifyUpdate_Ok pub sum sig : VerifyUpdate pub sum sig = Ok tt → ed_verify pub sum sig = true.
Proof. unfold VerifyUpdate. repeat case_match; try done. by bool_cases. Qed.

Lemma UpdateAgent_run paths pub self stage_only payload d d' r :
  UpdateAgent paths pub self stage_only payload d = (d', r) →
  (∀ q, q ≠ staged_path (InstallDir paths) → files d' !! q = files d !! q) ∧
  ∀ plan, r = Ok (Some plan) →
    self = Ok (pl_CurrentExe plan) ∧ pl_NewExe plan = staged_path (InstallDir paths) ∧
    ∃ bin, files d' !! pl_NewExe plan = Some bin ∧ vouched pub bin.
Proof.
  unfold UpdateAgent. destruct (unmarshal_update payload) as [p|e] eqn:Hp; [|by intros [= <- <-]].
  rewrite (bind_run _ _ d d p) by done. destruct (Download _ _) as [bin|e] eqn:Hd; [|by intros [= <- <-]].
  rewrite (bind_run _ _ d d bin) by done. destruct (VerifyUpdate _ _ _) as [[]|e] eqn:Hv; [|by intros [= <- <-]].
  rewrite (bind_run _ _ d d tt) by done. unfold Stage, mbind, M_bind.
  destruct (WriteFile _ bin d) as [d1 r1] eqn:Hw. apply WriteFile_run in Hw as [Ho Hi].
  destruct r1 as [[]|e]; [|by intros [= <- <-]]. simpl. destruct stage_only; [by intros [= <- <-]|].
  destruct self as [self|e]; [|by intros [= <- <-]]. intros [= <- <-]. split; [exact Ho|].
  intros plan [= <-]. simpl. split_and!; try done. exists bin. rewrite Hi, lookup_insert_eq by done. split; [done|].
  apply Download_Ok in Hd. exists p, payload. rewrite Hd. apply VerifyUpdate_Ok in Hv. auto.
Qed.

(** An update whose download is the file the payload speaks of is staged. *)
Lemma UpdateAgent_stages paths pub self payload p content d :
  unmarshal_update payload = Ok p → http_get (up_url p) = Ok (200%Z, content) → (N.of_nat (String.length content) ≤ N.shiftl 256 20)%N →
  sha256 content = up_sha256 p → String.length pub = PublicKeySize → ed_verify pub (up_sha256 p) (up_signature p) = true → calm d →
  ∃ d', UpdateAgent paths pub (Ok self) false payload d =
          (d', Ok (Some (mkPlan self (staged_path (InstallDir paths)) (UpdaterExe paths) "FreeLockerAgent"))) ∧
    files d' = <[staged_path (InstallDir paths) := content]> (files d) ∧ calm d'.
Proof.
  intros Hp Hg Hlen Hsum Hpub Hsig Hc. unfold UpdateAgent. rewrite Hp, (bind_run _ _ d d p) by done.
  assert (Download (up_url p) (up_sha256 p) = Ok content) as ->.
  { unfold Download. rewrite Hg. cbn [Z.eqb negb Pos.eqb]. unfold LimitReader. rewrite (proj2 (N.leb_le _ _) Hlen).
    by rewrite bool_decide_eq_true_2. }
  rewrite (bind_run _ _ d d content) by done. unfold VerifyUpdate. rewrite Hpub, Hsig. cbn [negb Nat.eqb PublicKeySize].
  rewrite (bind_run _ _ d d tt) by done. unfold Stage, WriteFile, mbind, M_bind. destruct (next_io d) as [o os] eqn:Hio.
  destruct (next_io_calm _ _ _ Hc Hio) as [-> Hos]. eexists. by split_and!.
Qed.
(** One that is longer than what the agent reads is not, unless the part it reads has the
    same hash. *)
Lemma UpdateAgent_too_long paths pub self payload p content d :
  unmarshal_update payload = Ok p → http_get (up_url p) = Ok (200%Z, content) → (N.shiftl 256 20 < N.of_nat (String.length content))%N →
  sha256 (LimitReader (N.shiftl 256 20) content) ≠ up_sha256 p →
  UpdateAgent paths pub self false payload d = (d, Err (EMsg "downloaded binary hash mismatch")).
Proof.
  intros Hp Hg Hlen Hsum. unfold UpdateAgent. rewrite Hp, (bind_run _ _ d d p) by done. unfold Download. rewrite Hg.
  cbn [Z.eqb negb Pos.eqb]. by rewrite bool_decide_eq_false_2.
Qed.

(** C6. Only binaries the tenant signed become the agent. When an update command is carried
    out and the helper it launches has run, the file the service starts is the
    old program, or one whose SHA-256 digest verifies under the update key the agent
    learned at enrollment, or absent with the old program beside it: no download,
    whatever the server at the URL sent, and no failure of the disk or the service manager puts anything
    else there. *)
Theorem update_installs_signed paths pub self payload d d1 plan old w w' r :
  UpdateAgent paths pub (Ok self) false payload d = (d1, Ok (Some plan)) →
  files d !! self = Some old → self ≠ staged_path (InstallDir paths) → self +:+ ".bak" ≠ staged_path (InstallDir paths) →
  m_disk w = d1 → swap (pl_CurrentExe plan) (pl_NewExe plan) w = (w', r) →
  files (m_disk w') !! self = Some old ∨
  (∃ bin, files (m_disk w') !! self = Some bin ∧ vouched pub bin) ∨
  files (m_disk w') !! self = None ∧ files (m_disk w') !! (self +:+ ".bak") = Some old.
Proof.
  intros Hu Hold Hn1 Hn2 Hw Hsw. apply UpdateAgent_run in Hu as [Ho Hp]. specialize (Hp plan eq_refl) as ([= Hself] & Hnew & bin & Hbin & Hv).
  rewrite <- Hself, Hnew in *. subst d1.
  destruct (swap_outcome self (staged_path (InstallDir paths)) old bin w) as (w2 & r2 & Hsw2 & Hsp); try done.
  - by rewrite Ho.
  - rewrite Hsw in Hsw2. injection Hsw2 as <- <-. unfold swapped, kept in Hsp. destruct r as [[]|e]; naive_solver.
Qed.
End authentic.

(** *** A machine *)

Module Swap.
Import Demo.
Definition exe : string := "C:\Program Files\FreeLocker\freelocker-agent.exe".
Definition dirs : Paths := mkPaths "C:\Program Files\FreeLocker" "C:\ProgramData\FreeLocker".
Definition installed : disk := mkDisk {[exe := "version 1"]} [].
Definition key32 : string := padding 32.
#[export] Instance net : Download_lib := {
  http_get _ := Ok (200%Z, "version 2");
  unmarshal_update s := Ok (mkUpdatePayload "2" "https://releases" "#version 2" s);
}.
#[export] Instance any_key : Crypto := {
  ed_public k := k; ed_sign k m := k +:+ m; ed_verify pub m s := bool_decide (s = pub +:+ m);
  marshal _ := None; unmarshal _ := None;
}.
Definition staged : disk := (UpdateAgent dirs key32 (Ok exe) false (key32 +:+ "#version 2") installed).1.
Definition plan : Plan := mkPlan exe (staged_path (InstallDir dirs)) (UpdaterExe dirs) "FreeLockerAgent".
(** The new program starts and is seen running at the second poll. *)
Definition good : machine := mkMachine staged [mkSc true 0; mkSc false 0; mkSc true 0; mkSc false 0; mkSc true 0] 5 None.
(** The new program does not start, and the first rename of the helper works while the
    last one is refused. *)
Definition bad : machine :=
  mkMachine (mkDisk (files staged) [Fine; Fine; Fine; Fine; Refused]) [mkSc true 0; mkSc false 0; mkSc false 0] 5 None.
End Swap.

Section swap_witnesses.
Import Demo Swap.
Lemma update_installs_signed_witness :
  let w' := (swap exe (pl_NewExe plan) good).1 in
  files (m_disk w') !! exe = Some "version 2" ∧
  (files (m_disk w') !! exe = Some "version 1" ∨
   (∃ bin, files (m_disk w') !! exe = Some bin ∧ vouched key32 bin) ∨
   files (m_disk w') !! exe = None ∧ files (m_disk w') !! (exe +:+ ".bak") = Some "version 1").
Proof.
  split; [vm_compute; reflexivity|].
  assert (UpdateAgent dirs key32 (Ok exe) false (key32 +:+ "#version 2") installed = (staged, Ok (Some plan))) as Hu
    by (vm_compute; reflexivity).
  destruct (swap exe (pl_NewExe plan) good) as [w' r] eqn:Hs.
  apply (update_installs_signed dirs key32 exe (key32 +:+ "#version 2") installed staged plan "version 1" good w' r Hu);
    [vm_compute; reflexivity | vm_compute; discriminate | vm_compute; discriminate | reflexivity | exact Hs].
Defined.

(** The helper takes the first RUNNING for health: a program that is running when it is
    asked and dies afterwards is kept, and the backup of the old one is deleted. *)
Example running_once_is_healthy :
  let w' := (swap exe (pl_NewExe plan) (mkMachine staged [mkSc true 0; mkSc false 0; mkSc true 0; mkSc true 0; mkSc false 0] 5 None)).1 in
  files (m_disk w') !! exe = Some "version 2" ∧ files (m_disk w') !! (exe +:+ ".bak") = None ∧ m_sc w' = [mkSc false 0].
Proof. split; [|split]; vm_compute; reflexivity. Qed.
End swap_witnesses.
