(* ===== verification/Identity.v ===== *)
(** * The identity of an agent

    Models [internal/agent/identity/identity.go] and [internal/agent/secret/secret.go]: the
    files that hold a device's key, its certificate and what it learned at enrollment, the
    calls that obtain and renew them, and the check of the server's chain against the pin
    of the install token. *)

From stdpp Require Import gmap strings list.
From S2P Require Import Prelude GoStr Db Hub World StoreCore Commands Enroll Bootstrap Endpoint.

(** ** Libraries and interfaces *)

(** What [crypto/x509] tells of a certificate. *)
Record LeafInfo := mkLeaf { lf_CommonName : string; lf_Serial : N; lf_NotAfter : time; lf_PublicKey : string }.
Record Enrollment := mkEnrollment { en_DeviceID : string; en_CommandPub : string; en_UpdatePub : string; en_UninstallHash : string }.
Class IdentityLib := {
  CreateCSR : string → string → result string;           (* common name, private key *)
  parse_leaf : string → result LeafInfo;
  parse_private : string → result string;                (* [ParsePKCS8PrivateKey] *)
  verify_server : string → string → result unit;         (* [Verify] of a leaf under a root, for a server *)
  pem_encode : string → string → string;                 (* type, bytes *)
  pem_decode : string → option (string * string);
  marshal_enrollment : Enrollment → string;              (* [json.MarshalIndent] *)
  unmarshal_enrollment : string → result Enrollment;
}.
(** Their documented round trips. *)
Class IdentityLibOk `{IdentityLib, Pki, KeyLib} : Prop := {
  pem_roundtrip : ∀ typ b, pem_decode (pem_encode typ b) = Some (typ, b);
  enrollment_roundtrip : ∀ e, unmarshal_enrollment (marshal_enrollment e) = Ok e;
  csr_parsed : ∀ cn key csr, CreateCSR cn key = Ok csr → ParseCertificateRequest csr = Ok (mkCsr (Ok tt) true (ec_public key));
  private_parsed : ∀ key der, MarshalPKCS8 key = Ok der → parse_private der = Ok key;
  leaf_parsed : ∀ t ca pub key der, CreateCertificate t ca pub key = Ok der →
    parse_leaf der = Ok (mkLeaf (tp_CommonName t) (tp_SerialNumber t) (tp_NotAfter t) pub);
}.

(** secret.go: what protects the private key at rest. *)
Class Protector := { Protect : string → result string; Unprotect : string → result string }.
Class ProtectorOk `{Protector} : Prop := unprotect_protect : ∀ p s, Protect p = Ok s → Unprotect s = Ok p.
Definition FileProtector : Protector := {| Protect p := Ok p; Unprotect s := Ok s |}.
Lemma FileProtector_ok : ProtectorOk (H := FileProtector).
Proof. by intros p s [= ->]. Qed.

(** ** The agent's state *)

(** The disk, the clock, the draws from the random source and what lies beyond the
    network, with the two calls the identity needs. A call has an answer with a gRPC status,
    or fails to be made. *)
Record agent (Srv : Type) := mkAgent { ag_disk : disk; ag_now : time; ag_drawn : nat; ag_srv : Srv }.
Arguments mkAgent {Srv} _ _ _ _.
Arguments ag_disk {Srv} _.
Arguments ag_now {Srv} _.
Arguments ag_drawn {Srv} _.
Arguments ag_srv {Srv} _.

(** What an agent loaded from its files. *)
Record Loaded := mkLoaded {
  ld_Enrollment : Enrollment; ld_certDER : string; ld_keyDER : string; ld_caDER : string; ld_CertNotAfter : time;
}.
(** The client's side of its TLS configuration, as [Loaded.TLSConfig] makes it. *)
Record ClientTLS := mkClientTLS { ct_Cert : string; ct_Key : string; ct_Root : string; ct_ServerName : string }.

Class EnrollServer (Srv : Type) := {
  rpc_Enroll : (list string → result unit) → EnrollRequest → M Srv (rpc_error + EnrollResponse); (* the check of the chain *)
  rpc_Renew : ClientTLS → string → M Srv (rpc_error + string);
}.

Definition ErrNotEnrolled : err := EMsg "agent is not enrolled".
Definition ErrRpc (e : rpc_error) : err :=
  match e with RpcErr _ m => EFmt "rpc error: %s" [m] | RpcErrOf _ e => EWrap "rpc error" e end.
Definition of_rpc {S A} (r : rpc_error + A) : M S A := match r with inl e => fail (ErrRpc e) | inr a => mret a end.

Section identity.
Context {Srv : Type} `{EnrollServer Srv}.
Context `{IdentityLib, KeyLib, Pki, Hasher, Protector} (paths : Paths).

Definition ag_on_disk {A} (m : M disk A) : M (agent Srv) A :=
  λ a, let '(d, r) := m (ag_disk a) in (mkAgent d (ag_now a) (ag_drawn a) (ag_srv a), r).
Definition ag_on_srv {A} (m : M Srv A) : M (agent Srv) A :=
  λ a, let '(s, r) := m (ag_srv a) in (mkAgent (ag_disk a) (ag_now a) (ag_drawn a) s, r).
Definition ag_draw : M (agent Srv) nat := λ a, (mkAgent (ag_disk a) (ag_now a) (S (ag_drawn a)) (ag_srv a), Ok (ag_drawn a)).

Definition Enrolled (d : disk) : bool := exists_file (EnrollmentPath paths) d.

Definition writePEM (path typ der : string) : M disk unit := WriteFile path (pem_encode typ der).
Definition readPEM (path typ : string) : M disk string :=
  b ← ReadFile path;
  match pem_decode b with
  | Some (t, der) => if bool_decide (t = typ) then mret der else fail (EFmt "%s: expected PEM %q" [path; typ])
  | None => fail (EFmt "%s: expected PEM %q" [path; typ])
  end.

Definition sealed_type : string := "FREELOCKER SEALED KEY".
Definition writeIdentity (key certDER caDER : string) : M disk unit :=
  keyDER ← of_result (MarshalPKCS8 key);
  sealed ← of_result (Protect keyDER);
  _ ← writePEM (KeyPath paths) sealed_type sealed;
  _ ← writePEM (CertPath paths) "CERTIFICATE" certDER;
  writePEM (CAPath paths) "CERTIFICATE" caDER.
Definition writeEnrollment (e : Enrollment) : M disk unit := WriteFile (EnrollmentPath paths) (marshal_enrollment e).

(** [pinnedTLS]: the check of the raw chain the server presents. *)
Definition check_pinned (pin : string) (raw : list string) : result unit :=
  match raw, last raw with
  | leaf :: _ :: _, Some caDER =>
      if negb (bool_decide (PinFromCert caDER = pin)) then Err (EMsg "server CA does not match install token pin")
      else
        match ParseCertificate caDER with
        | Err e => Err e
        | Ok root => match parse_leaf leaf with Err e => Err e | Ok _ => verify_server leaf root end
        end
  | _, _ => Err (EMsg "server did not present a CA chain")
  end.

Definition Load : M disk Loaded :=
  d ← get;
  if negb (Enrolled d) then fail ErrNotEnrolled
  else
    b ← ReadFile (EnrollmentPath paths);
    enr ← of_result (unmarshal_enrollment b);
    certDER ← readPEM (CertPath paths) "CERTIFICATE";
    caDER ← readPEM (CAPath paths) "CERTIFICATE";
    sealed ← readPEM (KeyPath paths) sealed_type;
    keyDER ← of_result (match Unprotect sealed with Ok k => Ok k | Err e => Err (EWrap "unprotect key" e) end);
    cert ← of_result (parse_leaf certDER);
    mret (mkLoaded enr certDER keyDER caDER (lf_NotAfter cert)).

Definition TLSConfig (l : Loaded) : result ClientTLS :=
  match parse_private (ld_keyDER l) with
  | Err e => Err e
  | Ok key =>
      match ParseCertificate (ld_caDER l) with
      | Err e => Err e
      | Ok root => Ok (mkClientTLS (ld_certDER l) key root (PinFromCert (ld_caDER l)))
      end
  end.

Definition AgentEnroll (installToken : string) (hw : HardwareInfo) : M (agent Srv) Enrollment :=
  '(secretPart, pin) ← of_result (Parse installToken);
  n ← ag_draw;
  key ← of_result (ec_generate n);
  csr ← of_result (CreateCSR (hw_hostname hw) key);
  r ← ag_on_srv (rpc_Enroll (check_pinned pin) (mkEnrollRequest secretPart csr hw));
  resp ← match r with inl e => fail (EWrap "enroll" (ErrRpc e)) | inr resp => mret resp end;
  _ ← ag_on_disk (writeIdentity key (es_cert_der resp) (es_ca_cert_der resp));
  let enr := mkEnrollment (es_device_id resp) (es_command_key resp) (es_update_key resp) (es_uninstall resp) in
  _ ← ag_on_disk (writeEnrollment enr);
  mret enr.

Definition Renew (l : Loaded) : M (agent Srv) unit :=
  tls ← of_result (TLSConfig l);
  n ← ag_draw;
  key ← of_result (ec_generate n);
  csr ← of_result (CreateCSR (en_DeviceID (ld_Enrollment l)) key);
  r ← ag_on_srv (rpc_Renew tls csr);
  der ← of_rpc r;
  ag_on_disk (writeIdentity key der (ld_caDER l)).
End identity.
