(* ===== verification/TenantTls.v ===== *)
(** * The listener of the agents

    Models [internal/server/agentapi/tenanttls.go] and [IssueServerCert] of
    [internal/server/ca/ca.go]: which server certificate an agent is shown for the name it
    asks for, and which authorities its own certificate may come from; then
    that every agent meets the authority of its own tenant. *)

From stdpp Require Import gmap strings list.
From S2P Require Import Prelude Db Hub StoreCore World Commands Enroll Bootstrap Demo BootstrapFacts Endpoint Identity.

(** A server certificate's template; names that parse as an address go to [IPAddresses]. *)
Record ServerTemplate := mkServerTemplate {
  st_SerialNumber : N; st_NotBefore : time; st_NotAfter : time; st_IPAddresses : list string; st_DNSNames : list string;
}.
Class ServerCertLib := {
  is_ip : string → bool;                                                      (* [net.ParseIP] *)
  CreateServerCert : ServerTemplate → string → string → string → result string; (* CA, public key, CA key *)
}.
Definition serverCertValidity : duration := (365 * 24 * Hour)%Z.
(** [tls.Certificate]: the chain and the key. *)
Record ServerCert := mkServerCert { sv_Chain : list string; sv_Key : string }.

(** [TenantTLS] without its constants. *)
Record TenantTLS := mkTenantTLS {
  refreshedAt : time; pinToTenant : gmap string uuid; defaultTID : uuid; serverCerts : gmap uuid ServerCert;
  clientCAs : list string;
}.
Definition NewTenantTLS : TenantTLS := mkTenantTLS 0 ∅ 0 ∅ [].
Definition ttl : duration := (30 * Second)%Z.

(** What the listener works on: the database and the key cache of the provider, the clock,
    the draws and its own state. The clock is read with [time.Now] and [time.Since]. *)
Record listener := mkListener { ls_db : db; ls_keys : cache; ls_now : time; ls_drawn : nat; ls_tls : TenantTLS }.
Definition set_tls (t : TenantTLS) (s : listener) : listener := mkListener (ls_db s) (ls_keys s) (ls_now s) (ls_drawn s) t.
Definition set_serverCerts (c : gmap uuid ServerCert) (t : TenantTLS) : TenantTLS :=
  mkTenantTLS (refreshedAt t) (pinToTenant t) (defaultTID t) c (clientCAs t).

Section tenanttls.
Context `{UuidSource, Crypto, Pki, KeyLib, ServerCertLib, Hasher} (master : string) (hostnames : list string).

Definition ls_draw : M listener nat := λ s, (mkListener (ls_db s) (ls_keys s) (ls_now s) (S (ls_drawn s)) (ls_tls s), Ok (ls_drawn s)).
(** [t.provider.For]. *)
Definition For (tid : uuid) : M listener Keys :=
  λ s, let '((d, c), r) := Provider_For master tid (ls_db s, ls_keys s) in (mkListener d c (ls_now s) (ls_drawn s) (ls_tls s), r).

(** [IssueServerCert] *)
Definition IssueServerCert (k : Keys) (names : list string) (now : time) : M listener ServerCert :=
  n ← ls_draw;
  key ← of_result (ec_generate n);
  m ← ls_draw;
  der ← of_result (CreateServerCert (mkServerTemplate (rand_serial m) (now - backdate) (now + serverCertValidity)
                     (List.filter is_ip names) (List.filter (λ h, negb (is_ip h)) names)) (CA_Cert k) (ec_public key) (CA_key k));
  mret (mkServerCert [der; CA_Cert k] key).

(** [refresh]: the loop over the tenants, with the pins and the pool it has built. *)
Fixpoint collect (tids : list uuid) (pins : gmap string uuid) (pool : list string) : M listener (gmap string uuid * list string) :=
  match tids with
  | [] => mret (pins, pool)
  | tid :: rest =>
      k ← For tid;
      collect rest (<[PinFromCert (CA_Cert k) := tid]> pins) (pool ++ [CA_Cert k])
  end.
Definition is_fresh (s : listener) : bool :=
  (ls_now s - refreshedAt (ls_tls s) <? ttl)%Z && negb (bool_decide (pinToTenant (ls_tls s) = ∅)).
Definition refresh : M listener unit :=
  s ← get;
  if is_fresh s then mret tt
  else
    let tenants := ListTenants (ls_db s) in
    '(pins, pool) ← collect tenants ∅ [];
    modify (λ s, set_tls (mkTenantTLS (ls_now s) pins (default 0%N (head tenants)) (serverCerts (ls_tls s)) pool) s).

Definition clientCAPool : M listener (list string) := _ ← refresh; gets (λ s, clientCAs (ls_tls s)).

Definition getCertificate (serverName : string) : M listener ServerCert :=
  _ ← refresh;
  s ← get;
  let t := ls_tls s in
  let tid := default (defaultTID t) (pinToTenant t !! serverName) in
  match serverCerts t !! tid with
  | Some cert => mret cert
  | None =>
      k ← For tid;
      let sans := hostnames ++ [PinFromCert (CA_Cert k)] in
      cert ← IssueServerCert k sans (ls_now s);
      _ ← modify (λ s, set_tls (set_serverCerts (<[tid := cert]> (serverCerts (ls_tls s))) (ls_tls s)) s);
      mret cert
  end.

(** [Config]: per connection, the pool of authorities and then the certificate; an error of
    either ends the handshake. *)
Definition handshake (serverName : string) : M listener (list string * ServerCert) :=
  pool ← clientCAPool;
  cert ← getCertificate serverName;
  mret (pool, cert).

(** [ServerName], what an agent asks for. *)
Definition ServerName (caPin : string) : string := caPin.
End tenanttls.

(** ** Every agent meets its own tenant's authority

    Shows that an agent that asks for a pin is shown a chain which ends in the authority with that
    pin, that a new tenant is known within the refresh interval, and what one tenant
    whose keys cannot be loaded does to the others. *)

Section listener.
Context `{UuidSource, Crypto, Pki, KeyLib, ServerCertLib, Hasher} (master : string) (hostnames : list string).

(** Keys that came out of a database: their authority's certificate was parsed. *)
Definition loaded_keys (k : Keys) : Prop := ∃ der, ParseCertificate der = Ok (CA_Cert k).
(** A certificate made for a tenant's keys, with the pin among its names. *)
Definition made_for (k : Keys) (c : ServerCert) : Prop :=
  ∃ leaf t pub, sv_Chain c = [leaf; CA_Cert k] ∧ CreateServerCert t (CA_Cert k) pub (CA_key k) = Ok leaf ∧
    PinFromCert (CA_Cert k) ∈ st_IPAddresses t ++ st_DNSNames t.
Definition certs_ok (s : listener) : Prop :=
  ∀ tid c, serverCerts (ls_tls s) !! tid = Some c → ∃ k, ls_keys s !! tid = Some k ∧ made_for k c.
Definition pins_ok (keys : cache) (pins : gmap string uuid) : Prop :=
  ∀ pin tid, pins !! pin = Some tid → ∃ k, keys !! tid = Some k ∧ PinFromCert (CA_Cert k) = pin.
Definition listener_ok (s : listener) : Prop :=
  certs_ok s ∧ pins_ok (ls_keys s) (pinToTenant (ls_tls s)) ∧ ∀ tid k, ls_keys s !! tid = Some k → loaded_keys k.

(** The state a call leaves: the same database and clock, and more keys. *)
Definition more (s s' : listener) : Prop :=
  ls_db s' = ls_db s ∧ ls_now s' = ls_now s ∧ ls_keys s ⊆ ls_keys s' ∧
  ((∀ tid k, ls_keys s !! tid = Some k → loaded_keys k) → ∀ tid k, ls_keys s' !! tid = Some k → loaded_keys k).
#[export] Instance more_preorder : PreOrder more.
Proof.
  split; [intros x; split_and!; auto|]. intros x y z (? & ? & Hk & Ho) (? & ? & Hk' & Ho'). split_and!; try congruence; [by transitivity (ls_keys y) | exact (λ Hx, Ho' (Ho Hx))].
Qed.

Lemma LoadForTenant_loaded t d d' k : LoadForTenant master t d = (d', Ok k) → loaded_keys k.
Proof.
  unfold LoadForTenant. intros (sl & d1 & _ & Hl)%bind_Ok. apply bind_Ok in Hl as ([der kd] & d2 & _ & Hl).
  apply bind_Ok in Hl as (ca & d3 & Hca & Hl). apply of_result_Ok in Hca as [Hca ->].
  apply bind_Ok in Hl as ([? ?] & d4 & _ & Hl). apply bind_Ok in Hl as ([? ?] & d5 & _ & Hl).
  apply bind_Ok in Hl as (uk & d6 & _ & [= _ <-]). exists der. unfold ca_Load in Hca. by repeat case_match; simplify_eq/=.
Qed.

Lemma For_run tid s s' r :
  For master tid s = (s', r) →
  more s s' ∧ ls_tls s' = ls_tls s ∧ ls_drawn s' = ls_drawn s ∧ (∀ k, r = Ok k → ls_keys s' !! tid = Some k).
Proof.
  unfold For, Provider_For. destruct (ls_keys s !! tid) as [k|] eqn:Hk.
  - intros [= <- <-]. split_and!; try done. by intros k' [= <-].
  - destruct (LoadForTenant master tid (ls_db s)) as [d [k|e]] eqn:Hl; pose proof (proj2 (LoadForTenant_local master tid (ls_db s) (ls_db s) (λ _, eq_refl))) as Hid;
      rewrite Hl in Hid; simpl in Hid; intros [= <- <-]; simpl.
    + split_and!; try done; [split_and!; try done; simpl|].
      * by apply insert_subseteq.
      * intros Ho t k' [[<- <-]|[_ ?]]%lookup_insert_Some; [by eapply LoadForTenant_loaded | by eapply Ho].
      * intros k' [= <-]. apply lookup_insert_eq.
    + by split_and!.
Qed.

Lemma made_for_more s s' : more s s' → certs_ok s → ls_tls s' = ls_tls s → certs_ok s'.
Proof.
  intros (_ & _ & Hk & _) Hc Ht tid c Hl. rewrite Ht in Hl. destruct (Hc tid c Hl) as (k & Hk' & ?). exists k.
  split; [by eapply lookup_weaken | done].
Qed.
Lemma pins_more keys keys' pins : keys ⊆ keys' → pins_ok keys pins → pins_ok keys' pins.
Proof. intros Hk Hp pin tid Hl. destruct (Hp pin tid Hl) as (k & ? & ?). exists k. split; [by eapply lookup_weaken | done]. Qed.

Lemma collect_run tids pins pool s s' r :
  collect master tids pins pool s = (s', r) → pins_ok (ls_keys s) pins →
  more s s' ∧ ls_tls s' = ls_tls s ∧
  ∀ pins' pool', r = Ok (pins', pool') →
    pins_ok (ls_keys s') pins' ∧ (∀ pin, is_Some (pins !! pin) → is_Some (pins' !! pin)) ∧ (∀ c, c ∈ pool → c ∈ pool') ∧
    ∀ tid, tid ∈ tids → ∃ k, ls_keys s' !! tid = Some k ∧ CA_Cert k ∈ pool' ∧ is_Some (pins' !! PinFromCert (CA_Cert k)).
Proof.
  revert pins pool s. induction tids as [|tid tids IH]; intros pins pool s; simpl.
  - intros [= <- <-] Hp. split_and!; try done. intros pins' pool' [= <- <-]. split_and!; try done. intros tid []%elem_of_nil.
  - unfold mbind, M_bind. destruct (For master tid s) as [s1 [k|e]] eqn:Hf; apply For_run in Hf as (Hm & Ht & _ & Hk).
    + intros Hc Hp. pose proof Hm as (_ & _ & Hsub & _).
      apply IH in Hc as (Hm2 & Ht2 & Hr).
      * split; [by transitivity s1|]. split; [congruence|]. intros pins' pool' Heq. destruct (Hr pins' pool' Heq) as (Hp' & Hpi & Hpo & Hall).
        split_and!; [done | | |].
        -- intros pin Hpin. apply Hpi. destruct (decide (PinFromCert (CA_Cert k) = pin)) as [<-|];
             [rewrite lookup_insert_eq; eauto | by rewrite lookup_insert_ne].
        -- intros c Hc. apply Hpo, elem_of_app. by left.
        -- intros t [->|Ht']%elem_of_cons; [|by apply Hall]. exists k. destruct Hm2 as (_ & _ & Hsub2 & _).
           split; [eapply lookup_weaken; [by apply Hk | done]|]. split.
           ++ apply Hpo, elem_of_app. right. by apply list_elem_of_singleton.
           ++ apply Hpi. rewrite lookup_insert_eq. eauto.
      * intros pin t [[<- <-]|[_ Hl]]%lookup_insert_Some; [exists k; auto|]. by apply (pins_more _ _ _ Hsub Hp).
    + intros [= <- <-] _. by split_and!.
Qed.

(** After a refresh every tenant's authority is in the pool and its pin in the map, or
    the last refresh is less than 30 seconds old. *)
Definition knows (s : listener) (tid : uuid) : Prop :=
  ∃ k, ls_keys s !! tid = Some k ∧ CA_Cert k ∈ clientCAs (ls_tls s) ∧ is_Some (pinToTenant (ls_tls s) !! PinFromCert (CA_Cert k)).

Lemma refresh_run s s' r :
  refresh master s = (s', r) → listener_ok s →
  listener_ok s' ∧ more s s' ∧
  (r = Ok tt → (ls_now s < refreshedAt (ls_tls s) + ttl)%Z ∧ s' = s ∨ refreshedAt (ls_tls s') = ls_now s ∧ ∀ tid, tid ∈ ListTenants (ls_db s) → knows s' tid).
Proof.
  intros Hr Hok. unfold refresh in Hr. rewrite (bind_run _ _ s s s) in Hr by done. destruct (is_fresh s) eqn:Hf.
  - injection Hr as <- <-. split_and!; try done. intros _. left. split; [|done]. unfold is_fresh in Hf. bool_cases. lia.
  - unfold mbind, M_bind in Hr. destruct (collect master _ ∅ [] s) as [s1 [[pins pool]|e]] eqn:Hc;
      apply collect_run in Hc as (Hm & Ht & Hall); try (by intros ? ? ?%lookup_empty_Some);
      destruct Hok as (Hco & Hpo & Hko); pose proof Hm as (Hdb & Hnow & Hsub & Hlo).
    + injection Hr as <- <-. destruct (Hall pins pool eq_refl) as (Hp & _ & _ & Hk).
      split; [split_and!; simpl; [|done|exact (Hlo Hko)]|].
      * intros tid c Hl. simpl in Hl. rewrite Ht in Hl. destruct (Hco tid c Hl) as (k & Hkk & ?). exists k.
        split; [by eapply lookup_weaken | done].
      * split; [by split_and!|]. intros _. right. simpl. split; [by rewrite Hnow|]. intros tid Htid. by apply Hk.
    + injection Hr as <- <-. split; [|by split].
      split_and!; [by eapply made_for_more | by rewrite Ht; eapply pins_more | exact (Hlo Hko)].
Qed.

Lemma IssueServerCert_run k names t s s' r :
  IssueServerCert k names t s = (s', r) →
  more s s' ∧ ls_tls s' = ls_tls s ∧ ls_keys s' = ls_keys s ∧
  ∀ c, r = Ok c → ∃ leaf tm pub, sv_Chain c = [leaf; CA_Cert k] ∧ CreateServerCert tm (CA_Cert k) pub (CA_key k) = Ok leaf ∧
    st_IPAddresses tm = List.filter is_ip names ∧ st_DNSNames tm = List.filter (λ h, negb (is_ip h)) names.
Proof.
  unfold IssueServerCert. rewrite (bind_run _ _ _ _ (ls_drawn s)) by done.
  destruct (ec_generate (ls_drawn s)) as [key|e]; [|by intros [= <- <-]]. erewrite (bind_run _ _ _ _ key) by done.
  erewrite (bind_run _ _ _ _ (S (ls_drawn s))) by done.
  destruct (CreateServerCert _ _ _ _) as [der|e] eqn:Hd; [|by intros [= <- <-]]. erewrite (bind_run _ _ _ _ der) by done.
  intros [= <- <-]. split_and!; try done. intros c [= <-]. simpl. eexists _, _, _. split; [done|]. split; [exact Hd|]. by split.
Qed.

Lemma getCertificate_run name s s' r :
  getCertificate master hostnames name s = (s', r) → listener_ok s →
  listener_ok s' ∧ more s s' ∧
  ∀ c, r = Ok c → ∃ tid k, tid = default (defaultTID (ls_tls s')) (pinToTenant (ls_tls s') !! name) ∧
    ls_keys s' !! tid = Some k ∧ made_for k c.
Proof.
  intros Hg Hok. unfold getCertificate in Hg. destruct (refresh master s) as [s1 [[]|e]] eqn:Hr;
    apply refresh_run in Hr as Hr'; try done; destruct Hr' as (Hok1 & Hm1 & _);
    [|rewrite (bind_fails _ _ _ _ _ Hr) in Hg; by injection Hg as <- <-].
  rewrite (bind_run _ _ _ _ _ Hr), (bind_run _ _ s1 s1 s1) in Hg by done.
  set (tid := default (defaultTID (ls_tls s1)) (pinToTenant (ls_tls s1) !! name)) in *. cbn zeta in Hg.
  pose proof Hok1 as (Hco & Hpo & Hko). destruct (serverCerts (ls_tls s1) !! tid) as [c|] eqn:Hc.
  { injection Hg as <- <-. split; [done|]. split; [done|]. intros c' [= <-]. destruct (Hco tid c Hc) as (k & ? & ?). by exists tid, k. }
  destruct (For master tid s1) as [s2 [k|e]] eqn:Hf; apply For_run in Hf as Hf'; destruct Hf' as (Hm2 & Ht2 & _ & Hk2);
    [rewrite (bind_run _ _ _ _ _ Hf) in Hg | rewrite (bind_fails _ _ _ _ _ Hf) in Hg].
  2: { injection Hg as <- <-. pose proof Hm2 as (? & ? & Hsub & Hlo). split; [|split; [by transitivity s1 | done]].
       split_and!; [by eapply made_for_more | by rewrite Ht2; eapply pins_more | exact (Hlo Hko)]. }
  destruct (IssueServerCert k (hostnames ++ [PinFromCert (CA_Cert k)]) (ls_now s1) s2) as [s3 [c|e]] eqn:Hi;
    apply IssueServerCert_run in Hi as Hi'; destruct Hi' as (Hm3 & Ht3 & Hk3 & Hc3);
    (assert (more s1 s3) as Hm13 by (by transitivity s2)); pose proof Hm13 as (Hdb & Hnow & Hsub & Hlo);
    [rewrite (bind_run _ _ _ _ _ Hi) in Hg; erewrite (bind_run _ _ _ _ tt) in Hg by done | rewrite (bind_fails _ _ _ _ _ Hi) in Hg].
  2: { injection Hg as <- <-. split; [|split; [by transitivity s1 | done]].
       split_and!; [eapply (made_for_more s1); [done|done|congruence] | rewrite Ht3, Ht2; by eapply pins_more | exact (Hlo Hko)]. }
  injection Hg as <- <-. assert (made_for k c) as Hmk.
  { destruct (Hc3 c eq_refl) as (leaf & tm & pub & ? & ? & Hip & Hdn). exists leaf, tm, pub. split_and!; try done.
    rewrite Hip, Hdn, elem_of_app, !list_elem_of_In, !List.filter_In. destruct (is_ip _); [left|right]; (split; [|done]);
      apply in_or_app; right; by left. }
  split; [split_and! | split].
  - intros t c' Hl. simpl in *. rewrite Ht3, Ht2 in Hl. apply lookup_insert_Some in Hl as [[<- <-]|[_ Hl]].
    + exists k. rewrite Hk3. auto.
    + destruct (Hco t c' Hl) as (k' & ? & ?). exists k'. split; [by eapply lookup_weaken | done].
  - simpl. rewrite Ht3, Ht2. by eapply pins_more.
  - exact (Hlo Hko).
  - simpl. transitivity s1; [done|]. by split_and!.
  - intros c' [= <-]. exists tid, k. simpl. rewrite Ht3, Ht2, Hk3. auto.
Qed.

(** *** The listener over time *)

(** A connection, whatever name it asks for and however it ends; and time passes, and the
    database changes under other hands. *)
Inductive listener_step : listener → listener → Prop :=
  | step_handshake name s s' r : handshake master hostnames name s = (s', r) → listener_step s s'
  | step_outside d t n s : listener_step s (mkListener d (ls_keys s) t n (ls_tls s)).

Lemma handshake_run name s s' r :
  handshake master hostnames name s = (s', r) → listener_ok s →
  listener_ok s' ∧ more s s' ∧
  ∀ pool c, r = Ok (pool, c) → ∃ s1, refresh master s = (s1, Ok tt) ∧ pool = clientCAs (ls_tls s1) ∧
    getCertificate master hostnames name s1 = (s', Ok c).
Proof.
  intros Hh Hok. unfold handshake, clientCAPool, mbind, M_bind in Hh. destruct (refresh master s) as [s1 [[]|e]] eqn:Hr;
    apply refresh_run in Hr as Hr'; try done; destruct Hr' as (Hok1 & Hm1 & _); [|by injection Hh as <- <-]. simpl in Hh.
  destruct (getCertificate master hostnames name s1) as [s2 [c|e]] eqn:Hg; apply getCertificate_run in Hg as Hg'; try done;
    destruct Hg' as (Hok2 & Hm2 & _); injection Hh as <- <-; (split; [done|]); (split; [by transitivity s1|]); [|done].
  intros pool c' [= <- <-]. by exists s1.
Qed.
Lemma fresh_listener_ok d n : listener_ok (mkListener d ∅ n 0 NewTenantTLS).
Proof. split_and!; [intros t c Hl | intros p t Hl | intros t k Hl]; simpl in Hl; by rewrite lookup_empty in Hl. Qed.
Lemma listener_steps_ok s s' : rtc listener_step s s' → listener_ok s → listener_ok s'.
Proof.
  induction 1 as [|s s1 s2 Hs _ IH]; [done|]. intros Hok. apply IH. destruct Hs as [name s s1 r Hh|d t n s]; [|exact Hok].
  by apply handshake_run in Hh as [? _].
Qed.
End listener.

(** *** What an agent sees *)

(** Server certificates verify under the authority that made them. *)
Class ServerCertOk `{ServerCertLib, IdentityLib, KeyLib} : Prop := {
  created_verifies : ∀ t ca pub key leaf, CreateServerCert t ca pub key = Ok leaf →
    is_ok (parse_leaf leaf) = true ∧ verify_server leaf ca = Ok tt;
  parsed_again : ∀ der cert, ParseCertificate der = Ok cert → ParseCertificate cert = Ok cert;
}.

Section agents.
Context `{UuidSource, Crypto, Pki, IdentityLib, KeyLib, ServerCertLib, !ServerCertOk, Hasher} (master : string) (hostnames : list string).


(** Tenants added at runtime are picked up: a connection made 30 seconds or more after the last
    refresh that gets through knows every tenant of the database, its authority is in the
    pool for client certificates and its pin leads to a server certificate. *)
Theorem new_tenants_known d n s s' name pool c tid :
  rtc (listener_step master hostnames) (mkListener d ∅ n 0 NewTenantTLS) s →
  handshake master hostnames name s = (s', Ok (pool, c)) → (refreshedAt (ls_tls s) + ttl ≤ ls_now s)%Z →
  tid ∈ ListTenants (ls_db s) →
  ∃ k, ls_keys s' !! tid = Some k ∧ CA_Cert k ∈ pool.
Proof.
  intros Hs Hh Ht Htid. apply listener_steps_ok in Hs as Hok.
  2: apply fresh_listener_ok.
  apply handshake_run in Hh as (_ & _ & Hg); [|done]. destruct (Hg pool c eq_refl) as (s1 & Hr & -> & Hgc).
  apply refresh_run in Hr as (Hok1 & _ & Hr); [|done]. destruct (Hr eq_refl) as [[? _]|[_ Hall]]; [lia|].
  destruct (Hall tid Htid) as (k & Hk & Hin & _). exists k. split; [|done].
  apply getCertificate_run in Hgc as (_ & (_ & _ & Hsub & _) & _); [|done]. by eapply lookup_weaken.
Qed.

(** A tenant whose keys do not load stops the refresh, and with it every connection: of all
    tenants. *)
Lemma collect_fails tids pins pool s tid e :
  tid ∈ tids → ls_keys s !! tid = None → (LoadForTenant master tid (ls_db s)).2 = Err e →
  ∃ s' e', collect master tids pins pool s = (s', Err e').
Proof.
  revert pins pool s. induction tids as [|t tids IH]; intros pins pool s; [by intros []%elem_of_nil|].
  intros Hin Hn Hl. cbn [collect]. destruct (For master t s) as [s1 [k|e1]] eqn:Hf; [|rewrite (bind_fails _ _ _ _ _ Hf); eauto].
  rewrite (bind_run _ _ _ _ _ Hf). apply For_run in Hf as Hf'. destruct Hf' as ((Hdb & _ & _ & _) & _ & _ & Hk).
  destruct (decide (t = tid)) as [->|Hne].
  - unfold For, Provider_For in Hf. rewrite Hn in Hf. destruct (LoadForTenant master tid (ls_db s)) as [d [k'|]]; simpl in *; congruence.
  - apply IH; [by apply elem_of_cons in Hin as [->|] | | by rewrite Hdb].
    unfold For, Provider_For in Hf. destruct (ls_keys s !! t); [injection Hf as <- <-; done|].
    destruct (LoadForTenant master t (ls_db s)) as [d [k'|]]; simplify_eq/=. by rewrite lookup_insert_ne.
Qed.

(** One tenant without loadable keys shuts every agent out: once the listener is due to
    refresh, no connection gets through as long as some tenant of the database has
    keys that neither are cached nor load, whichever tenant the agent belongs to. *)
Theorem broken_tenant_blocks_all s name tid e :
  is_fresh s = false → tid ∈ ListTenants (ls_db s) → ls_keys s !! tid = None → (LoadForTenant master tid (ls_db s)).2 = Err e →
  ∃ e', (handshake master hostnames name s).2 = Err e'.
Proof.
  intros Hf Hin Hn Hl. destruct (collect_fails (ListTenants (ls_db s)) ∅ [] s tid e Hin Hn Hl) as (s' & e' & Hc). exists e'.
  assert (refresh master s = (s', Err e')) as Hr
    by (unfold refresh; rewrite (bind_run _ _ s s s) by done; rewrite Hf; by apply bind_fails).
  unfold handshake, clientCAPool. rewrite (bind_fails _ _ s s' e'); [done | by apply bind_fails].
Qed.
End agents.

(** *** A listener *)

Module Listener.
Import Toy Demo.
#[export] Instance certs : ServerCertLib := {
  is_ip s := bool_decide (s = "127.0.0.1");
  CreateServerCert t ca pub key := Ok (ca +:+ "/" +:+ pub);
}.
#[export] Instance ids : IdentityLib := {
  CreateCSR cn key := Ok (cn +:+ key);
  parse_leaf der := Ok (mkLeaf "" 0 0 der);
  parse_private k := Ok k;
  verify_server leaf root := Ok tt;
  pem_encode t b := b;
  pem_decode b := None;
  marshal_enrollment e := "";
  unmarshal_enrollment s := Err (EMsg "json");
}.
#[export] Instance certs_lawful : ServerCertOk.
Proof. split; [done|]. by intros der cert [= ->]. Qed.
(** One provisioned tenant, and the same with one whose provisioning stopped half way. *)
Definition one : world := (ProvisionTenant demo_master "acme" 5 (mkWorld empty_db New 5 0)).1.
Definition start : listener := mkListener (w_db one) ∅ Hour 0 NewTenantTLS.
Definition half : db := set_tenants (<[77%N := mkTenant "half" false 9]> (tenants (w_db one))) (w_db one).
Definition pin : string := PinFromCert "ec1".
End Listener.

Section listener_witnesses.
Import Toy Demo Listener.
Lemma new_tenants_known_witness :
  ∃ s' pool c k, handshake demo_master ["fl.example"] "" start = (s', Ok (pool, c)) ∧ ls_keys s' !! 100%N = Some k ∧ CA_Cert k ∈ pool.
Proof.
  destruct (handshake demo_master ["fl.example"] "" start) as [s' r] eqn:Hh.
  destruct r as [[pool c]|e]; [|vm_compute in Hh; discriminate Hh]. exists s', pool, c.
  destruct (new_tenants_known demo_master ["fl.example"] (w_db one) Hour start s' "" pool c 100%N (rtc_refl _ _) Hh)
    as (k & Hk & Hin); [vm_compute; discriminate | vm_compute; left | ].
  exists k. split; [reflexivity|]. split; [exact Hk | exact Hin].
Defined.
Lemma broken_tenant_blocks_all_witness :
  is_ok (handshake demo_master ["fl.example"] pin start).2 = true ∧
  ∃ e', (handshake demo_master ["fl.example"] pin (mkListener half ∅ Hour 0 NewTenantTLS)).2 = Err e'.
Proof.
  split; [vm_compute; reflexivity|].
  destruct (LoadForTenant demo_master 77 half).2 as [k|e] eqn:Hl; [vm_compute in Hl; discriminate Hl|].
  apply (broken_tenant_blocks_all demo_master ["fl.example"] (mkListener half ∅ Hour 0 NewTenantTLS) pin 77%N e);
    [vm_compute; reflexivity | vm_compute; right; left | reflexivity | exact Hl].
Defined.

(** A certificate once made is shown for as long as the server runs: a year later it is the
    same, past its end. *)
Example certificate_never_renewed :
  let s1 := (handshake demo_master ["fl.example"] pin start).1 in
  let later := mkListener (ls_db s1) (ls_keys s1) (ls_now s1 + 2 * serverCertValidity) (ls_drawn s1) (ls_tls s1) in
  (handshake demo_master ["fl.example"] pin later).2 = (handshake demo_master ["fl.example"] pin start).2 ∧
  is_ok (handshake demo_master ["fl.example"] pin later).2 = true.
Proof. split; vm_compute; reflexivity. Qed.
End listener_witnesses.
