(* ===== verification/WinEvents.v ===== *)
(** * What the agent reads on the endpoint

    Models the portable readers of the agent: block events of the CodeIntegrity log
    ([internal/agent/blocks/blocks.go]), process and logon events of the Security log
    ([events/events.go]), the violations of a ringfence ([ringfence/parse.go]) and the mark of
    the web ([motw/motw.go]). An event log's XML is decoded by [encoding/xml]. *)

From Stdlib Require Import Ascii.
From stdpp Require Import gmap strings list pretty.
From S2P Require Import Prelude GoStr Enroll.

(** ** More of Go's strings *)

(** [strings.Index(s, substr)] and the rest of [s] from there. *)
Fixpoint index_bytes (p l : bytes) : option bytes :=
  match strip_prefix p l with
  | Some _ => Some l
  | None => match l with [] => None | _ :: l' => index_bytes p l' end
  end.
Definition FromIndex (s substr : string) : option string := of_list <$> index_bytes (to_list substr) (to_list s).
(** [strings.Cut] at a byte. *)
Fixpoint cut_byte (sep : ascii) (l : bytes) : option (bytes * bytes) :=
  match l with
  | [] => None
  | c :: l' => if Ascii.eqb c sep then Some ([], l') else (λ p, (c :: p.1, p.2)) <$> cut_byte sep l'
  end.
Definition CutByte (s : string) (sep : ascii) : option (string * string) :=
  (λ p, (of_list p.1, of_list p.2)) <$> cut_byte sep (to_list s).
(** [strconv.Atoi]: a sign, digits, and a value that fits 64 bits. *)
Definition digits (l : bytes) : option Z :=
  match l with
  | [] => None
  | _ => foldl (λ acc c, n ← acc; if is_num c && negb (Ascii.eqb c "-"%char)
                                   then Some (10 * n + Z.of_nat (nat_of_ascii c - 48))%Z else None) (Some 0%Z) l
  end.
Definition Atoi (s : string) : option Z :=
  n ← (match to_list s with
       | "-"%char :: l => Z.opp <$> digits l
       | "+"%char :: l => digits l
       | l => digits l
       end);
  if ((- 2 ^ 63 <=? n) && (n <? 2 ^ 63))%Z then Some n else None.

(** ** Event logs *)

(** An event as the decoders see it: its number, its record number, the time it carries and its named data. *)
Record evt := mkEvt { EventID : Z; RecordID : Z; SystemTime : string; EventData : list (string * string) }.
(** [encoding/xml] into the list of events below the root, and [time.Parse] of
    [RFC3339Nano]. *)
Class EventXml := { xml_events : string → result (list evt); parse_time : string → option time }.
Definition wrap_events (raw : string) : string := "<Events>" +:+ raw +:+ "</Events>".

(** ** blocks.go *)

(** [blocks.BlockEvent]; a zero time means that it could not be read. *)
Record BlockEvent := mkBlock {
  bk_SHA256 : string; bk_Path : string; bk_Signer : string; bk_Blocked : bool; bk_At : time; bk_SignerTBS : string;
  bk_SignerVerified : bool;
}.
Definition stripDevicePrefix (p : string) : string :=
  match FromIndex p "HarddiskVolume" with
  | None => p
  | Some rest => default p (FromIndex rest "\")
  end.
Definition one_of (name : string) (names : list string) : bool := bool_decide (name ∈ names).
Definition block_data (be : BlockEvent) (d : string * string) : BlockEvent :=
  let v := TrimSpace d.2 in
  if one_of d.1 ["File Name"; "FileName"; "FilePath"]
  then mkBlock (bk_SHA256 be) (stripDevicePrefix v) (bk_Signer be) (bk_Blocked be) (bk_At be) "" false
  else if one_of d.1 ["SHA256 Hash"; "SHA256Hash"; "Sha256"]
  then mkBlock (ToUpper v) (bk_Path be) (bk_Signer be) (bk_Blocked be) (bk_At be) "" false
  else if one_of d.1 ["Publisher"; "PublisherName"; "Signer"]
  then mkBlock (bk_SHA256 be) (bk_Path be) v (bk_Blocked be) (bk_At be) "" false
  else be.

Section readers.
Context `{EventXml}.

Definition block_of (e : evt) : option BlockEvent :=
  if negb (EventID e =? 3076)%Z && negb (EventID e =? 3077)%Z then None
  else
    let at_ := default 0%Z (parse_time (SystemTime e)) in
    Some (foldl block_data (mkBlock "" "" "" (EventID e =? 3077)%Z at_ "" false) (EventData e)).
Definition ParseCodeIntegrity (raw : string) : result (list BlockEvent) :=
  evs ← xml_events (wrap_events raw); Ok (omap (M := list) block_of evs).

(** ** events.go *)

Record DevEvent := mkDevEvent { de_Kind : string; de_Summary : string; de_At : time }.
Definition tokenElevationFull : string := "%%1937".
Definition firstNonEmpty (a b : string) : string := if bool_decide (a = "") then b else a.
(** The map of an event's data: a later value replaces an earlier one. *)
Definition data_of (e : evt) (name : string) : string :=
  foldl (λ (acc : string) (d : string * string), if bool_decide (d.1 = name) then TrimSpace d.2 else acc) "" (EventData e).
Definition security_of (e : evt) : option DevEvent :=
  let at_ := default 0%Z (parse_time (SystemTime e)) in
  if (EventID e =? 4688)%Z then
    let user := firstNonEmpty (data_of e "SubjectUserName") "?" in
    let image := firstNonEmpty (data_of e "NewProcessName") "?" in
    if bool_decide (data_of e "TokenElevationType" = tokenElevationFull)
    then Some (mkDevEvent "elevation" (user +:+ " launched " +:+ image +:+ " elevated (full administrator token)") at_)
    else Some (mkDevEvent "process_launch" (user +:+ " launched " +:+ image) at_)
  else if (EventID e =? 4624)%Z then
    Some (mkDevEvent "logon" (firstNonEmpty (data_of e "TargetUserName") "?" +:+ " logged on (type " +:+
                                firstNonEmpty (data_of e "LogonType") "?" +:+ ")") at_)
  else None.
Definition ParseSecurity (raw : string) : result (list DevEvent) :=
  evs ← xml_events (wrap_events raw); Ok (omap (M := list) security_of evs).

(** ** ringfence/parse.go *)

Record Violation := mkViolation { vi_Kind : string; vi_Program : string; vi_Detail : string; vi_Enforced : bool; vi_At : time }.
(** [evt.field]: the first datum of that name. *)
Definition field (e : evt) (name : string) : string :=
  match List.find (λ d, bool_decide (d.1 = name)) (EventData e) with Some d => TrimSpace d.2 | None => "" end.
Definition parseEvents (raw : string) : result (list evt) :=
  match xml_events raw with
  | Ok (e :: es) => Ok (e :: es)
  | _ => match xml_events (wrap_events raw) with Ok es => Ok es | Err e => Err (EWrap "parse event xml" e) end
  end.
Definition eventTime (now : time) (raw : string) : time := if bool_decide (raw = "") then now else default now (parse_time raw).

Definition EventQuery (eventIDs : list Z) (afterRecordID : Z) : string :=
  let idExpr := Join ((λ id, "EventID=" +:+ pretty id) <$> eventIDs) " or " in
  if (0 <? afterRecordID)%Z then "*[System[(" +:+ idExpr +:+ ") and (EventRecordID>" +:+ pretty afterRecordID +:+ ")]]"
  else "*[System[(" +:+ idExpr +:+ ")]]".

Definition max_record (evs : list evt) : Z := foldl (λ m e, if (m <? RecordID e)%Z then RecordID e else m) 0%Z evs.
Definition MaxRecordID (raw : string) : result Z := evs ← parseEvents raw; Ok (max_record evs).

(** The volume name of a path in device form and what follows it; the pattern wants a name of
    at least one byte. *)
Fixpoint upto_backslash (l : bytes) : bytes * bytes :=
  match l with
  | [] => ([], [])
  | c :: l' => if Ascii.eqb c "\"%char then ([], l) else (λ p : bytes * bytes, (c :: p.1, p.2)) (upto_backslash l')
  end.
Definition device_path (p : string) : option (string * string) :=
  match strip_prefix (to_list "\device\") (to_list p) with
  | None => None
  | Some l => match upto_backslash l with ([], _) => None | (v, rest) => Some (of_list v, of_list rest) end
  end.
Definition resolveAppPath (p : string) (volumes : gmap string string) : option string :=
  let p := ToLower (TrimSpace p) in
  if bool_decide (p = "") then None
  else
    match device_path p with
    | None => Some p
    | Some (volume, rest) => (λ letter, letter +:+ rest) <$> volumes !! volume
    end.

Definition wfp_of (now : time) (ringfenced : gset string) (volumes : gmap string string) (e : evt) : option Violation :=
  if negb (EventID e =? 5156)%Z && negb (EventID e =? 5157)%Z then None
  else
    app ← resolveAppPath (field e "Application") volumes;
    if bool_decide (app ∈ ringfenced)
    then Some (mkViolation "network" app (field e "DestAddress" +:+ ":" +:+ field e "DestPort") (EventID e =? 5157)%Z
                 (eventTime now (SystemTime e)))
    else None.
Definition ParseWFP (now : time) (raw : string) (ringfenced : gset string) (volumes : gmap string string) : result (list Violation) :=
  evs ← parseEvents raw; Ok (omap (M := list) (wfp_of now ringfenced volumes) evs).

Definition asr_of (now : time) (e : evt) : option Violation :=
  if negb (EventID e =? 1121)%Z && negb (EventID e =? 1122)%Z then None
  else Some (mkViolation "child_process" (field e "Path") ("ASR " +:+ field e "ID" +:+ ": " +:+ field e "ProcessName")
               (EventID e =? 1121)%Z (eventTime now (SystemTime e))).
Definition ParseDefenderASR (now : time) (raw : string) : result (list Violation) :=
  evs ← parseEvents raw; Ok (omap (M := list) (asr_of now) evs).
End readers.

(** The loop of [Dedupe], with the keys it has seen and the number it has kept: it stops
    when the cap is reached exactly. *)
Definition violation_key (v : Violation) : string := vi_Kind v +:+ "|" +:+ vi_Program v +:+ "|" +:+ vi_Detail v.
Fixpoint dedupe_loop (cap : nat) (seen : gset string) (n : nat) (vs : list Violation) : list Violation :=
  match vs with
  | [] => []
  | x :: vs' =>
      if bool_decide (violation_key x ∈ seen) then dedupe_loop cap seen n vs'
      else x :: (if (S n =? cap)%nat then [] else dedupe_loop cap ({[violation_key x]} ∪ seen) (S n) vs')
  end.
Definition Dedupe (v : list Violation) (cap : nat) : list Violation := dedupe_loop cap ∅ 0 v.

(** ** motw.go *)

Record MotwInfo := mkMotw { mw_Present : bool; mw_ZoneID : Z; mw_HostURL : string; mw_ReferrerURL : string }.
Definition ZoneInternet : Z := 3.
Definition Downloaded (i : MotwInfo) : bool := mw_Present i && (ZoneInternet <=? mw_ZoneID i)%Z.
Definition motw_line (i : MotwInfo) (line : string) : MotwInfo :=
  let line := TrimSpace line in
  if bool_decide (line = "") || has_prefix line "[" || has_prefix line ";" then i
  else
    match CutByte line "="%char with
    | None => i
    | Some (key, value) =>
        let value := TrimSpace value in
        let key := ToLower (TrimSpace key) in
        if bool_decide (key = "zoneid") then
          match Atoi value with Some n => mkMotw (mw_Present i) n (mw_HostURL i) (mw_ReferrerURL i) | None => i end
        else if bool_decide (key = "hosturl") then mkMotw (mw_Present i) (mw_ZoneID i) value (mw_ReferrerURL i)
        else if bool_decide (key = "referrerurl") then mkMotw (mw_Present i) (mw_ZoneID i) (mw_HostURL i) value
        else i
    end.
(** The lines of [bufio.Scanner]; the stream is at most 8 KiB ([motw_windows.go]), so no line is too long for it. *)
Definition ParseMotw (raw : string) : MotwInfo := foldl motw_line (mkMotw true 0 "" "") (SplitByte raw "010"%char).
Definition Source (i : MotwInfo) : string := if bool_decide (mw_HostURL i = "") then mw_ReferrerURL i else mw_HostURL i.
