(* ===== verification/Fence.v ===== *)
(** * Ringfences on the endpoint

    Models [internal/agent/ringfence/ringfence.go] and [ringfence_windows.go]: how an assigned
    ringfence becomes firewall rules and Defender ASR values, and how violations are
    collected from the event logs. The firewall, the registry key and the logs are a state;
    the commands that read and change them may fail one by one. *)

From Stdlib Require Import Ascii.
From stdpp Require Import gmap strings list.
From S2P Require Import Prelude GoStr World Endpoint WinEvents.

(** ** ringfence.go *)

Definition RulePrefix : string := "FreeLocker-RF-".
Definition CuratedASRRules : gset string :=
  {["D4F940AB-401B-4EFC-AADC-AD5F3C50688A"; "3B576869-A4EC-4529-8536-B80A7769E899"; "D3E037E1-3EB8-44C8-A917-57927947596D";
    "5BEB7EFE-FD9A-4556-801D-275E5FFC04CC"; "92E97FA1-2EDF-4476-BDD6-9DD0B4DDDC7B"; "D1E49AAC-8F56-4280-B9BA-993A6D77406C"]}.

Definition StaleASRValues (present : list string) (want : gmap string string) : list string :=
  List.filter (λ n, let u := ToUpper n in bool_decide (u ∈ CuratedASRRules) && bool_decide (want !! u = None)) present.

Record Program := mkProgram { pr_Path : string; pr_NetworkBlocked : bool }.
Record Protection := mkProtection { pt_ASRRule : string; pt_Action : string }.
Record Ringfence := mkRingfence { rf_Version : string; rf_Mode : string; rf_Programs : list Program; rf_Protections : list Protection }.
Record FenceStatus := mkFenceStatus { fs_Applied : string; fs_ASRAvailable : bool }.
#[export] Instance Program_eq_dec : EqDecision Program.
Proof. solve_decision. Defined.

Definition RuleName `{Hasher} (path : string) : string := RulePrefix +:+ String.substring 0 16 (sha256_hex path).

(** The order of a Go map's entries is unspecified; here it is that of [map_to_list]. *)
Definition Diff (existing : list string) (desired : gmap string Program) : list Program * list string :=
  (omap (M := list) (λ np : string * Program, if pr_NetworkBlocked np.2 && negb (bool_decide (np.1 ∈ existing)) then Some np.2 else None)
     (map_to_list desired),
   List.filter (λ n, match desired !! n with None => true | Some p => negb (pr_NetworkBlocked p) end) existing).

(** [NoopEnforcer]: its state is its status. *)
Definition Noop_Apply (r : Ringfence) (_ : FenceStatus) : FenceStatus * result unit := (mkFenceStatus (rf_Version r) false, Ok tt).
Definition Noop_Violations (s : FenceStatus) : FenceStatus * result (list Violation) := (s, Ok []).

(** ** ringfence_windows.go *)

(** An outbound block rule of the firewall, and what the enforcer changes: the rules, the
    values below the ASR policy key by their upper-case name, as stored and with their
    number, and whether connections are audited. *)
Record FwRule := mkFwRule { fw_Name : string; fw_Program : string }.
#[export] Instance FwRule_eq_dec : EqDecision FwRule.
Proof. solve_decision. Defined.
Record WinHost := mkWinHost {
  wh_rules : list FwRule; wh_asr : gmap string (string * Z); wh_audited : bool; wh_now : time; wh_faults : list bool;
}.
(** The memory of [WinEnforcer]. *)
Record WinEnforcer := mkWinEnforcer {
  we_applied : string; we_last : Ringfence; we_sec : Z; we_def : Z; we_cache : bool; we_cachedAt : time;
}.
Definition NewWinEnforcer : WinEnforcer := mkWinEnforcer "" (mkRingfence "" "" [] []) 0 0 false 0.
Record fence := mkFence { fc_host : WinHost; fc_mem : WinEnforcer }.

(** What the commands print: [netsh ... show rule name=all], [wevtutil qe] with a query and
    a limit, and PowerShell's answer about Defender; and [volumeMap]. *)
Class WinTools := {
  netsh_show : list FwRule → string;
  wevtutil : time → string → string → Z → result string;    (* when, log, query, at most *)
  mp_status : time → result string;
  volumeMap : gmap string string;
}.

(** The next command works, or it does not. *)
Definition next_command (h : WinHost) : bool * WinHost :=
  match wh_faults h with
  | [] => (true, h)
  | b :: bs => (b, mkWinHost (wh_rules h) (wh_asr h) (wh_audited h) (wh_now h) bs)
  end.
Definition set_rules (rs : list FwRule) (h : WinHost) : WinHost := mkWinHost rs (wh_asr h) (wh_audited h) (wh_now h) (wh_faults h).
Definition set_asr (v : gmap string (string * Z)) (h : WinHost) : WinHost := mkWinHost (wh_rules h) v (wh_audited h) (wh_now h) (wh_faults h).
Definition command (name : string) (f : WinHost → WinHost) : M WinHost unit :=
  λ h, match next_command h with (true, h) => (f h, Ok tt) | (false, h) => (h, Err (EWrap "netsh" (EMsg name))) end.

(** [netsh advfirewall firewall delete rule name=...], which fails when there is no such
    rule, and [add rule]. *)
Definition netsh_delete (name : string) : M WinHost unit :=
  h ← get;
  if bool_decide (name ∈ fw_Name <$> wh_rules h)
  then command "delete rule" (λ h, set_rules (List.filter (λ r, negb (bool_decide (fw_Name r = name))) (wh_rules h)) h)
  else fail (EMsg "no rules match the specified criteria").
Definition netsh_add (r : FwRule) : M WinHost unit := command "add rule" (λ h, set_rules (wh_rules h ++ [r]) h).

Section enforcer.
Context `{Hasher, EventXml, WinTools} (agentImages : list string).

Definition existingRules : M WinHost (list string) :=
  λ h, match next_command h with
       | (false, h) => (h, Ok [])
       | (true, h) => (h, Ok (omap (M := list) (λ line, TrimSpace <$> FromIndex line RulePrefix) (SplitByte (netsh_show (wh_rules h)) "010"%char)))
       end.

Definition desired_programs (r : Ringfence) : gmap string Program :=
  if bool_decide (rf_Mode r = "enforce") then foldl (λ m p, <[RuleName (pr_Path p) := p]> m) ∅ (rf_Programs r) else ∅.

Definition applyNetwork (r : Ringfence) : M WinHost unit :=
  existing ← existingRules;
  let '(add, remove) := Diff existing (desired_programs r) in
  _ ← for_each remove (λ name, _ ← attempt (netsh_delete name); mret tt);
  _ ← for_each add (λ p, netsh_add (mkFwRule (RuleName (pr_Path p)) (pr_Path p)));
  _ ← attempt (command "auditpol" (λ h, mkWinHost (wh_rules h) (wh_asr h) true (wh_now h) (wh_faults h)));
  mret tt.

Definition asr_want (r : Ringfence) : gmap string string := foldl (λ m p, <[ToUpper (pt_ASRRule p) := pt_Action p]> m) ∅ (rf_Protections r).
Definition asr_number (action : string) : Z := if bool_decide (action = "audit") then 2 else 1.
(** Value names do not depend on case; a value keeps the name it was made with. *)
Definition SetDWordValue (guid : string) (v : Z) : M WinHost unit :=
  command "set value" (λ h, set_asr (<[ToUpper guid := (default guid (fst <$> wh_asr h !! ToUpper guid), v)]> (wh_asr h)) h).
Definition DeleteValue (name : string) : M WinHost unit :=
  command "delete value" (λ h, set_asr (delete (ToUpper name) (wh_asr h)) h).

Definition applyASR (r : Ringfence) : M WinHost unit :=
  _ ← command "open ASR policy key" id;
  let want := asr_want r in
  _ ← command "read ASR policy values" id;
  names ← gets (λ h, (map_to_list (wh_asr h)).*2.*1);
  _ ← for_each (StaleASRValues names want) DeleteValue;
  for_each (map_to_list want) (λ ga : string * string, SetDWordValue ga.1 (asr_number ga.2)).

Definition on_host {A} (m : M WinHost A) : M fence A := λ f, let '(h, r) := m (fc_host f) in (mkFence h (fc_mem f), r).
(** [strings.EqualFold], on ASCII letters. *)
Definition EqualFold (s t : string) : bool := bool_decide (ToLower s = ToLower t).
Definition own_image (r : Ringfence) : option Program :=
  List.find (λ p, existsb (λ self, EqualFold (pr_Path p) self) agentImages) (rf_Programs r).

Definition Apply (r : Ringfence) : M fence unit :=
  f ← get;
  if bool_decide (we_applied (fc_mem f) = rf_Version r) && negb (bool_decide (rf_Version r = "")) then mret tt
  else
    match own_image r with
    | Some p => fail (EFmt "refusing to ringfence the agent's own image %q: that would sever management" [pr_Path p])
    | None =>
        _ ← on_host (applyNetwork r);
        _ ← on_host (applyASR r);
        modify (λ f, let m := fc_mem f in mkFence (fc_host f) (mkWinEnforcer (rf_Version r) r (we_sec m) (we_def m) (we_cache m) (we_cachedAt m)))
    end.

Definition network_set (r : Ringfence) : gset string :=
  list_to_set (omap (M := list) (λ p, if pr_NetworkBlocked p then Some (ToLower (pr_Path p)) else None) (rf_Programs r)).
(** One source: the violations it yields, and the watermark moved past everything read. *)
Definition read_source (log : string) (ids : list Z) (limit wm : Z) (t : time) (parse : string → result (list Violation)) : list Violation * Z :=
  match wevtutil t log (EventQuery ids wm) limit with
  | Err _ => ([], wm)
  | Ok raw =>
      (match parse raw with Ok v => v | Err _ => [] end,
       match MaxRecordID raw with Ok m => if (wm <? m)%Z then m else wm | Err _ => wm end)
  end.
Definition Violations : M fence (list Violation) :=
  f ← get;
  let m := fc_mem f in
  let t := wh_now (fc_host f) in
  if bool_decide (rf_Version (we_last m) = "") then mret []
  else
    let wfpID := if bool_decide (rf_Mode (we_last m) = "enforce") then 5157%Z else 5156%Z in
    let '(v1, sec) := read_source "Security" [wfpID] 500 (we_sec m) t (λ raw, ParseWFP t raw (network_set (we_last m)) volumeMap) in
    let '(v2, def) := read_source "Microsoft-Windows-Windows Defender/Operational" [1121; 1122]%Z 200 (we_def m) t (ParseDefenderASR t) in
    _ ← modify (λ f, mkFence (fc_host f) (mkWinEnforcer (we_applied m) (we_last m) sec def (we_cache m) (we_cachedAt m)));
    mret (Dedupe (v1 ++ v2) 200).

Definition defenderStatusTTL : duration := (3 * Minute)%Z.
Definition defenderActive (t : time) : bool :=
  match mp_status t with Ok out => EqualFold (TrimSpace out) "True" | Err _ => false end.
Definition Status : M fence FenceStatus :=
  f ← get;
  let t := wh_now (fc_host f) in
  let m := fc_mem f in
  let m := if (defenderStatusTTL <? t - we_cachedAt m)%Z
           then mkWinEnforcer (we_applied m) (we_last m) (we_sec m) (we_def m) (defenderActive t) t else m in
  _ ← put (mkFence (fc_host f) m);
  mret (mkFenceStatus (we_applied m) (we_cache m)).
End enforcer.
