(* ===== verification/FenceFacts.v ===== *)
(** * A ringfence touches what is its own

    Shows that applying a ringfence, whatever fails on the way, leaves foreign firewall rules
    and foreign ASR values alone and never constrains the agent; that on a host where nothing
    fails it leaves exactly the rules and values the ringfence asks for; and
    that violations are attributed to ringfenced programs and reported once. *)

From Stdlib Require Import Ascii.
From stdpp Require Import gmap strings list pretty.
From S2P Require Import Prelude GoStr World Endpoint WinEvents Fence.

#[local] Opaque CuratedASRRules.

(** ** Names with the prefix *)

(** A byte that is in no blank. *)
Definition solid (c : ascii) : bool := forallb (forallb (λ d, negb (Ascii.eqb c d))) space_runes.
Lemma trim_fuel_keeps n y c t :
  solid c = true → ∃ y', trim_fuel n (map (@rev _) space_runes) (y ++ c :: t) = y' ++ c :: t.
Proof.
  intros Hc. revert y. induction n as [|n IH]; intros y; cbn [trim_fuel]; [exists y; reflexivity|].
  destruct (strip_any (map (@rev _) space_runes) (y ++ c :: t)) as [k|] eqn:Hs; [|exists y; reflexivity].
  apply strip_any_Some in Hs as (p & Hp & Hy). apply list_elem_of_In, in_map_iff in Hp as (q & <- & Hq).
  assert (c ∉ rev q) as Hn.
  { rewrite list_elem_of_In, <- in_rev, <- list_elem_of_In. intros Hin. unfold solid in Hc. rewrite forallb_forall in Hc.
    specialize (Hc q Hq). rewrite forallb_forall in Hc. apply list_elem_of_In, Hc in Hin. by rewrite Ascii.eqb_refl in Hin. }
  assert (∃ y', k = y' ++ c :: t) as [y' ->]; [|apply IH].
  clear -Hy Hn. revert y Hy Hn. induction (rev q) as [|d p IH]; intros y Hy Hn; [by exists y|].
  destruct y as [|e y]; simpl in Hy; injection Hy as -> Hy.
  - destruct Hn. by left.
  - apply (IH y Hy). intros Hin. apply Hn. by right.
Qed.
Lemma TrimSpace_prefix p c x :
  solid c = true → strip_any space_runes (to_list (p +:+ String c x)) = None → has_prefix (TrimSpace (p +:+ String c x)) (p +:+ String c "") = true.
Proof.
  intros Hc Hs. unfold TrimSpace, trim_left. rewrite trim_fuel_id by done. unfold trim_right.
  assert (to_list (p +:+ String c x) = to_list p ++ c :: to_list x) as -> by (by rewrite to_list_app).
  assert (rev (to_list p ++ c :: to_list x) = rev (to_list x) ++ c :: rev (to_list p)) as ->
    by (rewrite rev_app_distr; simpl; by rewrite <- app_assoc).
  destruct (trim_fuel_keeps (length (to_list p ++ c :: to_list x)) (rev (to_list x)) c (rev (to_list p)) Hc) as [y' ->].
  unfold has_prefix. rewrite to_of_list, rev_app_distr. simpl. rewrite rev_involutive, to_list_app. simpl.
  by rewrite (proj2 (strip_prefix_Some _ _ (rev y')) eq_refl).
Qed.

Lemma FromIndex_prefix line sub rest : FromIndex line sub = Some rest → ∃ k, rest = sub +:+ k.
Proof.
  unfold FromIndex. intros (l & Hl & ->)%fmap_Some. revert Hl. induction (to_list line) as [|c l0 IH]; simpl.
  - destruct (strip_prefix (to_list sub) []) as [b|] eqn:Hs; [|done]. intros [= <-]. apply strip_prefix_Some in Hs.
    exists (of_list b). rewrite Hs at 1. by rewrite of_list_app, of_to_list.
  - destruct (strip_prefix (to_list sub) (c :: l0)) as [b|] eqn:Hs; [|exact IH]. intros [= <-]. apply strip_prefix_Some in Hs.
    exists (of_list b). rewrite Hs at 1. by rewrite of_list_app, of_to_list.
Qed.
(** What [existingRules] reads off a line always carries the prefix. *)
Lemma owned_name line rest : FromIndex line RulePrefix = Some rest → has_prefix (TrimSpace rest) RulePrefix = true.
Proof.
  intros (k & ->)%FromIndex_prefix.
  change (RulePrefix +:+ k) with ("FreeLocker-RF" +:+ String "-" k).
  apply (TrimSpace_prefix "FreeLocker-RF" "-" k); [done|]. apply strip_any_None. intros p l Hp Hl.
  change (to_list ("FreeLocker-RF" +:+ String "-" k)) with ("F"%char :: to_list ("reeLocker-RF" +:+ String "-" k)) in Hl.
  destruct p as [|c p]; [by apply space_runes_ne|]. injection Hl as <- _.
  apply list_elem_of_In in Hp. vm_compute in Hp. intuition discriminate.
Qed.

Section host.
Context `{Hasher, EventXml, WinTools} (agentImages : list string).

(** ** What may change *)

(** The values a ringfence may write or delete. *)
Definition managed (r : Ringfence) (guid : string) : Prop := guid ∈ CuratedASRRules ∨ is_Some (asr_want r !! guid).
Definition foreign_rules (h : WinHost) : list FwRule := List.filter (λ x, negb (has_prefix (fw_Name x) RulePrefix)) (wh_rules h).
Definition only_ours (r : Ringfence) (h h' : WinHost) : Prop :=
  foreign_rules h' = foreign_rules h ∧ wh_now h' = wh_now h ∧ ∀ g, ¬ managed r g → wh_asr h' !! g = wh_asr h !! g.
#[export] Instance only_ours_preorder r : PreOrder (only_ours r).
Proof.
  split; [intros x; unfold only_ours; auto|]. intros x y z (? & ? & Hx) (? & ? & Hy). split_and!; try congruence.
  intros g Hg. by rewrite Hy, Hx.
Qed.

Lemma command_steps R name f : (∀ h bs, R h (f (mkWinHost (wh_rules h) (wh_asr h) (wh_audited h) (wh_now h) bs))) →
  (∀ h bs, R h (mkWinHost (wh_rules h) (wh_asr h) (wh_audited h) (wh_now h) bs)) → Steps R (command name f).
Proof.
  intros Hf Hn h. unfold command, next_command. destruct (wh_faults h) as [|[] bs] eqn:Hb; simpl; [|apply Hf|apply Hn].
  specialize (Hf h []). destruct h. simpl in *. by subst.
Qed.
Lemma fault_only r h bs : only_ours r h (mkWinHost (wh_rules h) (wh_asr h) (wh_audited h) (wh_now h) bs).
Proof. by split_and!. Qed.
#[export] Instance auditpol_steps r : Steps (only_ours r) (command "auditpol" (λ h, mkWinHost (wh_rules h) (wh_asr h) true (wh_now h) (wh_faults h))).
Proof. by apply command_steps. Qed.
#[export] Instance look_steps r name : Steps (only_ours r) (command name id).
Proof. by apply command_steps. Qed.
Lemma netsh_add_steps r rule : has_prefix (fw_Name rule) RulePrefix = true → Steps (only_ours r) (netsh_add rule).
Proof.
  intros Hp. apply command_steps; [|intros; apply fault_only]. intros h bs. split; [|done]. unfold foreign_rules. simpl.
  rewrite List.filter_app. simpl. rewrite Hp. simpl. apply app_nil_r.
Qed.
Lemma netsh_delete_steps r name : has_prefix name RulePrefix = true → Steps (only_ours r) (netsh_delete name).
Proof.
  intros Hp. unfold netsh_delete. apply bind_steps; [apply _|]. intros h0. case_bool_decide; [|apply _].
  apply command_steps; [|intros; apply fault_only]. intros h bs. split; [|done]. unfold foreign_rules. simpl.
  induction (wh_rules h) as [|x xs IH]; simpl; [done|]. case_bool_decide as Hx; simpl; [|by rewrite IH]. rewrite Hx, Hp. done.
Qed.
Lemma DeleteValue_steps r n : ToUpper n ∈ CuratedASRRules → Steps (only_ours r) (DeleteValue n).
Proof.
  intros Hn. apply command_steps; [|intros; apply fault_only]. intros h bs. split; [done|]. split; [done|]. intros g Hg. simpl.
  apply lookup_delete_ne. intros <-. apply Hg. by left.
Qed.
Lemma SetDWordValue_steps r g v : is_Some (asr_want r !! g) → ToUpper g = g → Steps (only_ours r) (SetDWordValue g v).
Proof.
  intros Hn Hu. apply command_steps; [|intros; apply fault_only]. intros h bs. split; [done|]. split; [done|]. intros g' Hg. simpl.
  rewrite Hu. apply lookup_insert_ne. intros <-. apply Hg. by right.
Qed.

Lemma for_each_in_steps {S A} (R : relation S) `{!PreOrder R} (xs : list A) (body : A → M S unit) :
  (∀ x, x ∈ xs → Steps R (body x)) → Steps R (for_each xs body).
Proof.
  induction xs as [|x xs IH]; intros Hb; simpl; [apply _|].
  apply bind_steps; [apply Hb; by left|]. intros []. apply IH. intros y Hy. apply Hb. by right.
Qed.

Lemma existingRules_run h :
  ∃ bs names, existingRules h = (mkWinHost (wh_rules h) (wh_asr h) (wh_audited h) (wh_now h) bs, Ok names) ∧
    ∀ n, n ∈ names → has_prefix n RulePrefix = true.
Proof.
  unfold existingRules, next_command.
  assert (∀ text n, n ∈ omap (M := list) (λ line, TrimSpace <$> FromIndex line RulePrefix) (SplitByte text "010"%char) → has_prefix n RulePrefix = true) as Hp.
  { intros text n (line & _ & (rest & Hr & ->)%fmap_Some)%list_elem_of_omap. by eapply owned_name. }
  destruct (wh_faults h) as [|[] bs] eqn:Hf.
  - eexists (wh_faults h), _. split; [|apply (Hp (netsh_show (wh_rules h)))]. by destruct h.
  - eexists bs, _. split; [done|]. apply Hp.
  - exists bs, []. split; [done|]. intros n []%elem_of_nil.
Qed.
Lemma RuleName_prefix path : has_prefix (RuleName path) RulePrefix = true.
Proof.
  unfold RuleName, has_prefix. rewrite to_list_app. destruct (strip_prefix _ _) eqn:Hs; [done|].
  by rewrite (proj2 (strip_prefix_Some _ _ _) eq_refl) in Hs.
Qed.

#[export] Instance applyNetwork_steps r : Steps (only_ours r) (applyNetwork r).
Proof.
  intros h. unfold applyNetwork. destruct (existingRules_run h) as (bs & names & He & Hn). rewrite (bind_run _ _ _ _ _ He).
  set (h1 := mkWinHost _ _ _ _ bs). assert (only_ours r h h1) as Hh1 by done. transitivity h1; [done|].
  destruct (Diff names (desired_programs r)) as [add remove] eqn:Hd. injection Hd as Hadd Hrem.
  assert (Steps (only_ours r)
    (_ ← for_each remove (λ name, _ ← attempt (netsh_delete name); mret tt);
     _ ← for_each add (λ p, netsh_add (mkFwRule (RuleName (pr_Path p)) (pr_Path p)));
     _ ← attempt (command "auditpol" (λ h, mkWinHost (wh_rules h) (wh_asr h) true (wh_now h) (wh_faults h))); mret tt)) as Hs; [|apply Hs].
  apply bind_steps.
  - apply for_each_in_steps; [apply _|]. intros n Hin. apply bind_steps; [|apply _]. apply attempt_steps, netsh_delete_steps, Hn.
    rewrite <- Hrem in Hin. by apply list_elem_of_In, filter_In in Hin as [?%list_elem_of_In _].
  - intros []. apply bind_steps; [|apply _]. apply for_each_in_steps; [apply _|]. intros p _. apply netsh_add_steps, RuleName_prefix.
Qed.

Lemma asr_want_upper r g : is_Some (asr_want r !! g) → ToUpper g = g.
Proof.
  unfold asr_want. assert (∀ ps m, (∀ g, is_Some (m !! g) → ToUpper g = g) →
    ∀ g, is_Some (foldl (λ (m : gmap string string) p, <[ToUpper (pt_ASRRule p) := pt_Action p]> m) m ps !! g) → ToUpper g = g) as Hf.
  { intros ps. induction ps as [|p ps IH]; simpl; intros m Hm; [done|]. apply IH. intros g' [v [[<- _]|[_ Hl]]%lookup_insert_Some];
      [apply ToUpper_idemp | apply Hm; eauto]. }
  apply Hf. intros g' [v Hl]. by rewrite lookup_empty in Hl.
Qed.
#[export] Instance applyASR_steps r : Steps (only_ours r) (applyASR r).
Proof.
  unfold applyASR. do 2 (apply bind_steps; [apply _|intros []]). apply bind_steps; [apply _|]. intros names. apply bind_steps.
  - apply for_each_in_steps; [apply _|]. intros n Hin. apply DeleteValue_steps.
    apply list_elem_of_In, filter_In in Hin as [_ Hin]. apply andb_true_iff in Hin as [Hin _]. by apply bool_decide_eq_true in Hin.
  - intros []. apply for_each_in_steps; [apply _|]. intros [g a] Hin%elem_of_map_to_list. simpl.
    apply SetDWordValue_steps; [eauto | eapply asr_want_upper; eauto].
Qed.

(** C21. Applying a ringfence changes only what is FreeLocker's. Whatever the ringfence, the state of
    the host and the commands that fail on the way: the firewall rules whose names do not start
    with the product's prefix are those of before, and so is every ASR value that is
    neither one of the six curated rules nor named by the ringfence; and a ringfence that
    lists the agent's own executable or its updater, in whatever case, changes nothing at all. *)
Theorem Apply_touches_only_ours r f f' res :
  Apply agentImages r f = (f', res) →
  only_ours r (fc_host f) (fc_host f') ∧
  ((∃ p self, p ∈ rf_Programs r ∧ self ∈ agentImages ∧ EqualFold (pr_Path p) self = true) → fc_host f' = fc_host f).
Proof.
  intros Ha. unfold Apply in Ha. rewrite (bind_run _ _ f f f) in Ha by done. destruct (_ && _).
  { injection Ha as <- _. by split. }
  destruct (own_image agentImages r) as [p|] eqn:Ho.
  { injection Ha as <- _. by split. }
  split.
  - match type of Ha with ?m f = _ => assert (Steps (via fc_host (only_ours r)) m) as Hs end.
    { assert (∀ A (m : M WinHost A), Steps (only_ours r) m → Steps (via fc_host (only_ours r)) (on_host m)) as Hon.
      { intros A m Hm g. unfold via, on_host. specialize (Hm (fc_host g)). by destruct (m (fc_host g)). }
      apply bind_steps; [apply Hon, _|intros []]. apply bind_steps; [apply Hon, _|intros []]. intros g. unfold via. simpl. reflexivity. }
    specialize (Hs f). by rewrite Ha in Hs.
  - intros (p & self & Hp & Hself & He). unfold own_image in Ho. apply List.find_none with (x := p) in Ho; [|by apply list_elem_of_In].
    apply not_true_iff_false in Ho. destruct Ho. apply existsb_exists. exists self. split; [by apply list_elem_of_In | done].
Qed.

(** ** A host on which nothing fails *)

Lemma for_each_calm {S A} (P : S → Prop) (body : A → M S unit) (f : A → S → S) xs s :
  (∀ x s, P s → body x s = (f x s, Ok tt) ∧ P (f x s)) → P s →
  for_each xs body s = (foldl (λ s x, f x s) s xs, Ok tt) ∧ P (foldl (λ s x, f x s) s xs).
Proof.
  intros Hb. revert s. induction xs as [|x xs IH]; intros s Hs; simpl; [done|].
  destruct (Hb x s Hs) as [Hx Hp]. rewrite (bind_run _ _ _ _ _ Hx). by apply IH.
Qed.
Definition sound (h : WinHost) : Prop := wh_faults h = [].
Lemma command_calm name f h : sound h → command name f h = (f h, Ok tt).
Proof. unfold sound, command, next_command. by intros ->. Qed.

Definition drop_name (n : string) (h : WinHost) : WinHost :=
  set_rules (List.filter (λ r, negb (bool_decide (fw_Name r = n))) (wh_rules h)) h.
Lemma netsh_delete_calm n h : sound h → attempt (netsh_delete n) h = (drop_name n h, Ok (snd (netsh_delete n h))) ∧ sound (drop_name n h).
Proof.
  intros Hs. split; [|done]. unfold attempt, netsh_delete. rewrite (bind_run _ _ h h h) by done. case_bool_decide as Hn.
  - by rewrite command_calm.
  - simpl. unfold drop_name. f_equal. assert (List.filter (λ r, negb (bool_decide (fw_Name r = n))) (wh_rules h) = wh_rules h) as ->; [|by destruct h].
    revert Hn. induction (wh_rules h) as [|x xs IH]; [done|]. rewrite fmap_cons, not_elem_of_cons. intros [Hx Hxs]. simpl.
    rewrite bool_decide_eq_false_2 by congruence. simpl. by rewrite IH.
Qed.

(** Everything [applyNetwork] leaves, by the rules it finds. *)
Definition network_after (r : Ringfence) (existing : list string) (rules : list FwRule) : list FwRule :=
  let '(add, remove) := Diff existing (desired_programs r) in
  List.filter (λ x, negb (bool_decide (fw_Name x ∈ remove))) rules ++ ((λ p, mkFwRule (RuleName (pr_Path p)) (pr_Path p)) <$> add).
Definition existing_of (h : WinHost) : list string :=
  omap (M := list) (λ line, TrimSpace <$> FromIndex line RulePrefix) (SplitByte (netsh_show (wh_rules h)) "010"%char).

Lemma drop_names_rules ns h :
  foldl (λ h n, drop_name n h) h ns = set_rules (List.filter (λ x, negb (bool_decide (fw_Name x ∈ ns))) (wh_rules h)) h.
Proof.
  revert h. induction ns as [|n ns IH]; intros h; cbn [foldl].
  - destruct h as [rs ? ? ? ?]; unfold set_rules; cbn. f_equal. induction rs as [|x rs IH]; [done|]. cbn [List.filter].
    rewrite bool_decide_eq_false_2 by apply not_elem_of_nil. cbn [negb]. by rewrite <- IH.
  - rewrite IH. unfold drop_name, set_rules. simpl. f_equal. induction (wh_rules h) as [|x xs IHx]; simpl; [done|].
    destruct (decide (fw_Name x = n)) as [->|Hn].
    + rewrite bool_decide_eq_true_2 by done. simpl. rewrite bool_decide_eq_true_2 by (by left). simpl. exact IHx.
    + rewrite bool_decide_eq_false_2 by done. simpl. rewrite (bool_decide_ext (fw_Name x ∈ n :: ns) (fw_Name x ∈ ns));
        [destruct (negb _); simpl; by rewrite IHx | rewrite elem_of_cons; naive_solver].
Qed.
Lemma add_rules (add : list Program) h :
  foldl (λ h p, set_rules (wh_rules h ++ [mkFwRule (RuleName (pr_Path p)) (pr_Path p)]) h) h add =
  set_rules (wh_rules h ++ ((λ p, mkFwRule (RuleName (pr_Path p)) (pr_Path p)) <$> add)) h.
Proof.
  revert h. induction add as [|p add IH]; intros h; cbn [foldl]; [destruct h; unfold set_rules; cbn; by rewrite app_nil_r|].
  rewrite IH. unfold set_rules. cbn. by rewrite <- app_assoc.
Qed.
Lemma applyNetwork_calm r h :
  sound h →
  applyNetwork r h = (mkWinHost (network_after r (existing_of h) (wh_rules h)) (wh_asr h) true (wh_now h) [], Ok tt).
Proof.
  intros Hs. unfold applyNetwork.
  assert (existingRules h = (h, Ok (existing_of h))) as He by (unfold existingRules, next_command; unfold sound in Hs; by rewrite Hs).
  rewrite (bind_run _ _ _ _ _ He). unfold network_after. destruct (Diff _ _) as [add remove].
  destruct (for_each_calm sound (λ name, _ ← attempt (netsh_delete name); mret tt) drop_name remove h) as [H1' Hs1]; [|done|].
  { intros n h0 Hs0. destruct (netsh_delete_calm n h0 Hs0) as [Hd Hs1]. split; [|done]. by rewrite (bind_run _ _ _ _ _ Hd). }
  rewrite (bind_run _ _ _ _ _ H1').
  set (h1 := foldl _ h remove) in *.
  destruct (for_each_calm sound (λ p, netsh_add (mkFwRule (RuleName (pr_Path p)) (pr_Path p)))
              (λ p h, set_rules (wh_rules h ++ [mkFwRule (RuleName (pr_Path p)) (pr_Path p)]) h) add h1) as [H2' Hs2]; [|done|].
  { intros p h0 Hs0. split; [|done]. unfold netsh_add. by rewrite command_calm. }
  rewrite (bind_run _ _ _ _ _ H2'). set (h2 := foldl _ h1 add) in *.
  assert (attempt (command "auditpol" (λ h, mkWinHost (wh_rules h) (wh_asr h) true (wh_now h) (wh_faults h))) h2 =
    (mkWinHost (wh_rules h2) (wh_asr h2) true (wh_now h2) (wh_faults h2), Ok (Ok tt))) as H3' by (unfold attempt; by rewrite command_calm).
  rewrite (bind_run _ _ _ _ _ H3').
  unfold h2, h1. rewrite add_rules, drop_names_rules. simpl. by rewrite Hs.
Qed.

(** The value names of a registry key, by their upper-case form. *)
Definition names_filed (m : gmap string (string * Z)) : Prop := ∀ g n v, m !! g = Some (n, v) → ToUpper n = g.
(** The number a value has. *)
Definition asr_value (m : gmap string (string * Z)) (g : string) : option Z := snd <$> m !! g.

Lemma deleted_values ns (m : gmap string (string * Z)) g :
  foldl (λ m n, delete (ToUpper n) m) m ns !! g = if bool_decide (g ∈ ToUpper <$> ns) then None else m !! g.
Proof.
  revert m. induction ns as [|n ns IH]; intros m; cbn [foldl fmap list_fmap].
  - by rewrite bool_decide_eq_false_2 by apply not_elem_of_nil.
  - rewrite IH. destruct (decide (g ∈ ToUpper <$> ns)) as [Hg|Hg].
    + by rewrite !bool_decide_eq_true_2 by (try right; done).
    + rewrite (bool_decide_eq_false_2 (g ∈ ToUpper <$> ns)) by done. destruct (decide (g = ToUpper n)) as [->|Hne].
      * rewrite bool_decide_eq_true_2 by left. apply lookup_delete_eq.
      * rewrite bool_decide_eq_false_2 by (rewrite elem_of_cons; naive_solver). by rewrite lookup_delete_ne.
Qed.
Definition put_value (m : gmap string (string * Z)) (ga : string * string) : gmap string (string * Z) :=
  <[ToUpper ga.1 := (default ga.1 (fst <$> m !! ToUpper ga.1), asr_number ga.2)]> m.
Lemma put_values l m g :
  NoDup l.*1 → (∀ ga, ga ∈ l → ToUpper ga.1 = ga.1) →
  asr_value (foldl put_value m l) g =
    match (list_to_map l : gmap string string) !! g with Some a => Some (asr_number a) | None => asr_value m g end.
Proof.
  revert m. induction l as [|[g' a] l IH]; intros m Hn Hu; [simpl; by rewrite lookup_empty|]. cbn [foldl list_to_map fst snd] in *.
  apply NoDup_cons in Hn as [Hg' Hn]. rewrite IH by (done || (intros; apply Hu; by right)). simpl.
  assert (ToUpper g' = g') as Hgu by (apply (Hu (g', a)); by left).
  destruct (decide (g' = g)) as [->|Hne].
  - rewrite lookup_insert_eq, (not_elem_of_list_to_map_1 l g) by done. unfold asr_value, put_value. simpl.
    by rewrite Hgu, lookup_insert_eq.
  - rewrite lookup_insert_ne by done. destruct (list_to_map l !! g); [done|].
    unfold asr_value, put_value. simpl. by rewrite Hgu, lookup_insert_ne.
Qed.

Lemma applyASR_calm r h :
  sound h → names_filed (wh_asr h) →
  ∃ m, applyASR r h = (set_asr m h, Ok tt) ∧
    ∀ g, asr_value m g = match asr_want r !! g with
                         | Some a => Some (asr_number a)
                         | None => if bool_decide (g ∈ CuratedASRRules) then None else asr_value (wh_asr h) g
                         end.
Proof.
  intros Hs Hf. unfold applyASR. rewrite (bind_run _ _ h h tt) by (by rewrite command_calm).
  rewrite (bind_run _ _ h h tt) by (by rewrite command_calm).
  set (names := (map_to_list (wh_asr h)).*2.*1). rewrite (bind_run _ _ h h names) by done.
  set (stale := StaleASRValues names (asr_want r)).
  destruct (for_each_calm sound DeleteValue (λ n h, set_asr (delete (ToUpper n) (wh_asr h)) h) stale h) as [Hd1 Hs1]; [|done|].
  { intros n h0 Hs0. split; [|done]. unfold DeleteValue. by rewrite command_calm. }
  rewrite (bind_run _ _ _ _ _ Hd1).
  destruct (for_each_calm sound (λ ga : string * string, SetDWordValue ga.1 (asr_number ga.2))
              (λ ga h, set_asr (put_value (wh_asr h) ga) h) (map_to_list (asr_want r)) (foldl (λ h n, set_asr (delete (ToUpper n) (wh_asr h)) h) h stale))
    as [Hd2 _]; [|done|].
  { intros ga h0 Hs0. split; [|done]. unfold SetDWordValue. by rewrite command_calm. }
  rewrite Hd2.
  assert (∀ ns h, foldl (λ h n, set_asr (delete (ToUpper n) (wh_asr h)) h) h ns = set_asr (foldl (λ m n, delete (ToUpper n) m) (wh_asr h) ns) h) as E1
    by (intros ns; induction ns as [|n ns IH]; intros [? ? ? ? ?]; [done|]; cbn [foldl]; by rewrite IH).
  assert (∀ l h, foldl (λ h ga, set_asr (put_value (wh_asr h) ga) h) h l = set_asr (foldl put_value (wh_asr h) l) h) as E2
    by (intros l; induction l as [|n ns IH]; intros [? ? ? ? ?]; [done|]; cbn [foldl]; by rewrite IH).
  rewrite E1, E2. eexists. split; [reflexivity|]. intros g. cbn [wh_asr set_asr].
  rewrite put_values by (apply NoDup_fst_map_to_list || (intros [g' a] Hga%elem_of_map_to_list; simpl; eapply asr_want_upper; eauto)).
  rewrite list_to_map_to_list. destruct (asr_want r !! g) as [a|] eqn:Hw; [done|]. unfold asr_value. rewrite deleted_values.
  assert (g ∈ ToUpper <$> stale ↔ g ∈ CuratedASRRules ∧ is_Some (wh_asr h !! g)) as Hstale.
  { unfold stale, StaleASRValues, names. rewrite list_elem_of_fmap. split.
    - intros (n & -> & Hn). apply list_elem_of_In, filter_In in Hn as [Hn Ht]. apply andb_true_iff in Ht as [Ht _].
      apply bool_decide_eq_true in Ht. split; [done|]. apply list_elem_of_In, list_elem_of_fmap in Hn as ([n' v] & -> & Hn).
      apply list_elem_of_fmap in Hn as ([g' nv] & Hnv & Hg'%elem_of_map_to_list). simpl in *. subst nv.
      rewrite (Hf g' n' v Hg'). eauto.
    - intros [Hc [[n v] Hv]]. exists n. split; [symmetry; by eapply Hf|]. apply list_elem_of_In, filter_In. split.
      + apply list_elem_of_In, list_elem_of_fmap. exists (n, v). split; [done|]. apply list_elem_of_fmap. exists (g, (n, v)).
        split; [done|]. by apply elem_of_map_to_list.
      + rewrite (Hf g n v Hv), Hw. by rewrite !bool_decide_eq_true_2. }
  rewrite (bool_decide_ext _ _ Hstale), bool_decide_and. generalize (bool_decide (g ∈ CuratedASRRules)). intros b.
  destruct (wh_asr h !! g) as [nv|]; destruct b; reflexivity.
Qed.

(** What the listing of the firewall promises: of rules with such names, the lines with the
    prefix are those of the rules that start with it. *)
Definition plain_name (n : string) : Prop :=
  one_line n = true ∧ TrimSpace n = n ∧ (has_prefix n RulePrefix = true ∨ FromIndex n RulePrefix = None).
Definition lists_names : Prop :=
  ∀ h, Forall (λ x, plain_name (fw_Name x)) (wh_rules h) →
    existing_of h = List.filter (λ n, has_prefix n RulePrefix) (fw_Name <$> wh_rules h).
(** A host FreeLocker has been the only one to write its rules on. *)
Definition tidy (h : WinHost) : Prop :=
  Forall (λ x, plain_name (fw_Name x)) (wh_rules h) ∧ names_filed (wh_asr h) ∧
  ∀ x, x ∈ wh_rules h → has_prefix (fw_Name x) RulePrefix = true → fw_Name x = RuleName (fw_Program x).
(** The truncated hashes of the paths in play differ. *)
Definition no_collision (r : Ringfence) (h : WinHost) : Prop :=
  let paths := (pr_Path <$> rf_Programs r) ++ (fw_Program <$> wh_rules h) in
  ∀ p q, p ∈ paths → q ∈ paths → RuleName p = RuleName q → p = q.

(** The programs a ringfence contains: those whose last entry blocks the network, and only
    in enforce mode. *)
Definition contained (r : Ringfence) (path : string) : Prop :=
  ∃ p, desired_programs r !! RuleName path = Some p ∧ pr_NetworkBlocked p = true ∧ pr_Path p = path.
Lemma desired_from r n p : desired_programs r !! n = Some p → rf_Mode r = "enforce" ∧ p ∈ rf_Programs r ∧ n = RuleName (pr_Path p).
Proof.
  unfold desired_programs. case_bool_decide as Hm; [|by rewrite lookup_empty].
  assert (∀ ps m, foldl (λ (m : gmap string Program) p, <[RuleName (pr_Path p) := p]> m) m ps !! n = Some p →
    p ∈ ps ∧ n = RuleName (pr_Path p) ∨ m !! n = Some p) as Hf.
  { intros ps. induction ps as [|q ps IH]; intros m Hl; [by right|]. cbn [foldl] in Hl.
    destruct (IH _ Hl) as [[? ?]|[[<- <-]|[_ ?]]%lookup_insert_Some]; [left; split; [by right|done] | left; split; [by left|done] | by right]. }
  intros [[? ?]|Hl]%Hf; [done|]. by rewrite lookup_empty in Hl.
Qed.

Lemma network_after_owned r h x :
  lists_names → tidy h → no_collision r h → has_prefix (fw_Name x) RulePrefix = true →
  x ∈ network_after r (existing_of h) (wh_rules h) ↔ fw_Name x = RuleName (fw_Program x) ∧ contained r (fw_Program x).
Proof.
  intros Hln (Hplain & _ & Hown) Hnc Hp. rewrite (Hln h Hplain). unfold network_after, Diff.
  set (existing := List.filter _ (fw_Name <$> wh_rules h)).
  assert (∀ n, n ∈ existing ↔ has_prefix n RulePrefix = true ∧ ∃ y, y ∈ wh_rules h ∧ n = fw_Name y) as Hex.
  { intros n. unfold existing. rewrite list_elem_of_In, filter_In, <- list_elem_of_In, list_elem_of_fmap. naive_solver. }
  rewrite elem_of_app, list_elem_of_fmap. rewrite list_elem_of_In, filter_In, <- list_elem_of_In.
  assert (∀ p, fw_Program p ∈ fw_Program <$> wh_rules h ↔ ∃ y, fw_Program p = fw_Program y ∧ y ∈ wh_rules h) as Hpr
    by (intros; apply list_elem_of_fmap).
  split.
  - intros [[Hx Hr]|(p & -> & Hp2)].
    + apply negb_true_iff, bool_decide_eq_false in Hr. pose proof (Hown x Hx Hp) as Hn. split; [done|].
      destruct (desired_programs r !! fw_Name x) as [p|] eqn:Hd.
      * destruct (pr_NetworkBlocked p) eqn:Hb.
        -- exists p. rewrite <- Hn. split_and!; try done. destruct (desired_from _ _ _ Hd) as (_ & Hin & Hpn).
           apply (Hnc (pr_Path p) (fw_Program x)); [..|congruence]; apply elem_of_app;
             [left; by apply list_elem_of_fmap_2 | right; by apply list_elem_of_fmap_2].
        -- destruct Hr. apply list_elem_of_In, filter_In. split; [apply list_elem_of_In, Hex; eauto|]. by rewrite Hd, Hb.
      * destruct Hr. apply list_elem_of_In, filter_In. split; [apply list_elem_of_In, Hex; eauto|]. by rewrite Hd.
    + apply list_elem_of_omap in Hp2 as ([n q] & Hq & Hs). apply elem_of_map_to_list in Hq. simpl in Hs.
      destruct (pr_NetworkBlocked q) eqn:Hb; [|done]. destruct (negb _); [|done]. injection Hs as <-. simpl. split; [done|].
      destruct (desired_from _ _ _ Hq) as (_ & _ & ->). by exists q.
  - intros [Hn (p & Hd & Hb & Hpp)]. rewrite <- Hn in Hd. destruct (decide (fw_Name x ∈ existing)) as [Hin|Hout].
    + left. destruct (proj1 (Hex _) Hin) as (_ & y & Hy & Hny). assert (y = x) as ->.
      { assert (fw_Program y = fw_Program x) as Hpy.
        { apply Hnc; [apply elem_of_app; right; by apply list_elem_of_fmap_2 | apply elem_of_app; left | ].
          - rewrite <- Hpp. apply list_elem_of_fmap_2. by destruct (desired_from _ _ _ Hd) as (_ & ? & _).
          - rewrite <- Hn, Hny. symmetry. apply Hown; [done|]. by rewrite <- Hny. }
        destruct x, y. simpl in *. by subst. }
      split; [done|]. apply negb_true_iff, bool_decide_eq_false_2. intros [_ Hf]%list_elem_of_In%filter_In. by rewrite Hd, Hb in Hf.
    + right. exists p. split; [destruct x; simpl in *; by subst|]. apply list_elem_of_omap. exists (fw_Name x, p).
      split; [by apply elem_of_map_to_list|]. simpl. rewrite Hb. by rewrite bool_decide_eq_false_2.
Qed.

(** What a host is after a ringfence was applied: its rules with the product's prefix, and its ASR values. *)
Definition fenced (r : Ringfence) (h h' : WinHost) : Prop :=
  (∀ x, has_prefix (fw_Name x) RulePrefix = true →
     x ∈ wh_rules h' ↔ fw_Name x = RuleName (fw_Program x) ∧ contained r (fw_Program x)) ∧
  ∀ g, asr_value (wh_asr h') g =
    match asr_want r !! g with
    | Some a => Some (asr_number a)
    | None => if bool_decide (g ∈ CuratedASRRules) then None else asr_value (wh_asr h) g
    end.
Lemma Apply_fenced r f :
  lists_names → sound (fc_host f) → tidy (fc_host f) → no_collision r (fc_host f) → own_image agentImages r = None →
  (we_applied (fc_mem f) ≠ rf_Version r ∨ rf_Version r = "") →
  ∃ f', Apply agentImages r f = (f', Ok tt) ∧ we_applied (fc_mem f') = rf_Version r ∧ fenced r (fc_host f) (fc_host f').
Proof.
  intros Hln Hs Ht Hnc Hown Hv. pose proof Ht as (_ & Hnf & _). unfold Apply. rewrite (bind_run _ _ f f f) by done.
  assert (bool_decide (we_applied (fc_mem f) = rf_Version r) && negb (bool_decide (rf_Version r = "")) = false) as ->
    by (destruct Hv; [by rewrite bool_decide_eq_false_2 | rewrite (bool_decide_eq_true_2 (rf_Version r = "")) by done; apply andb_false_r]).
  rewrite Hown. pose proof (applyNetwork_calm r (fc_host f) Hs) as Hn.
  set (h1 := mkWinHost (network_after _ _ _) _ _ _ _) in Hn.
  assert (on_host (applyNetwork r) f = (mkFence h1 (fc_mem f), Ok tt)) as E1 by (unfold on_host; by rewrite Hn).
  rewrite (bind_run _ _ _ _ _ E1). destruct (applyASR_calm r h1) as (m & Ha & Hm); [done|done|].
  assert (on_host (applyASR r) (mkFence h1 (fc_mem f)) = (mkFence (set_asr m h1) (fc_mem f), Ok tt)) as E2
    by (unfold on_host; cbn [fc_host]; by rewrite Ha).
  rewrite (bind_run _ _ _ _ _ E2). eexists. split; [reflexivity|]. split; [done|]. split.
  - intros x Hx. by apply network_after_owned.
  - intros g. apply Hm.
Qed.

(** On a host where the commands work, applying a ringfence leaves exactly what it asks
    for: the rules with the product's prefix are, one for one, those of the
    programs it contains, none of them in audit mode; every ASR rule it names has its action's
    number, whatever the mode; every other curated one has no value; and the version counts as
    applied. In particular an empty ringfence removes every trace of the one before. *)
Theorem Apply_reconciles r f :
  lists_names → sound (fc_host f) → tidy (fc_host f) → no_collision r (fc_host f) → own_image agentImages r = None →
  (we_applied (fc_mem f) ≠ rf_Version r ∨ rf_Version r = "") →
  ∃ f', Apply agentImages r f = (f', Ok tt) ∧ we_applied (fc_mem f') = rf_Version r ∧
    (∀ x, has_prefix (fw_Name x) RulePrefix = true →
       x ∈ wh_rules (fc_host f') ↔ fw_Name x = RuleName (fw_Program x) ∧ contained r (fw_Program x)) ∧
    ∀ g, asr_value (wh_asr (fc_host f')) g =
      match asr_want r !! g with
      | Some a => Some (asr_number a)
      | None => if bool_decide (g ∈ CuratedASRRules) then None else asr_value (wh_asr (fc_host f)) g
      end.
Proof. apply Apply_fenced. Qed.

(** ** Violations *)

Lemma dedupe_loop_spec cap seen n vs :
  (n < cap)%nat →
  (length (dedupe_loop cap seen n vs) ≤ cap - n)%nat ∧ (∀ v, v ∈ dedupe_loop cap seen n vs → v ∈ vs ∧ violation_key v ∉ seen) ∧
  NoDup (violation_key <$> dedupe_loop cap seen n vs).
Proof.
  revert seen n. induction vs as [|x vs IH]; intros seen n Hn; cbn [dedupe_loop].
  { split_and!; [simpl; lia | by intros v []%elem_of_nil | constructor]. }
  case_bool_decide as Hx.
  - destruct (IH seen n Hn) as (Hl & Hv & Hd). split_and!; [done| |done]. intros v Hin. destruct (Hv v Hin). split; [by right|done].
  - destruct (S n =? cap)%nat eqn:Hc.
    + bool_cases. split_and!; [simpl; lia | | repeat constructor; apply not_elem_of_nil].
      intros v ->%list_elem_of_singleton. split; [by left|done].
    + bool_cases. destruct (IH ({[violation_key x]} ∪ seen) (S n) ltac:(lia)) as (Hl & Hv & Hd). split_and!.
      * simpl. lia.
      * intros v [->|Hin]%elem_of_cons; [split; [by left|done]|]. destruct (Hv v Hin) as [? Hns]. split; [by right|set_solver].
      * rewrite fmap_cons. constructor; [|done]. intros (v & Hk & Hin)%list_elem_of_fmap. destruct (Hv v Hin) as [_ Hns].
        rewrite <- Hk in Hns. set_solver.
Qed.

Lemma max_record_spec evs e : e ∈ evs → (RecordID e ≤ max_record evs)%Z.
Proof.
  unfold max_record. assert (∀ evs m, (m ≤ foldl (λ m e, if m <? RecordID e then RecordID e else m) m evs)%Z ∧
    ∀ e, e ∈ evs → (RecordID e ≤ foldl (λ m e, if m <? RecordID e then RecordID e else m) m evs)%Z) as Hf.
  { clear. intros evs. induction evs as [|e evs IH]; intros m; cbn [foldl]; [split; [lia | by intros e []%elem_of_nil]|].
    destruct (IH (if (m <? RecordID e)%Z then RecordID e else m)) as [Hm He].
    assert (m ≤ (if (m <? RecordID e)%Z then RecordID e else m) ∧ RecordID e ≤ (if (m <? RecordID e)%Z then RecordID e else m))%Z
      as [? ?] by (destruct (m <? RecordID e)%Z eqn:?; lia).
    split; [lia|]. intros e' [->|Hin]%elem_of_cons; [lia | by apply He]. }
  apply Hf.
Qed.

(** What [wevtutil] promises of a query: the events it prints match it. *)
Definition queries_respected : Prop :=
  ∀ t log ids wm limit raw evs,
    wevtutil t log (EventQuery ids wm) limit = Ok raw → parseEvents raw = Ok evs →
    ∀ e, e ∈ evs → EventID e ∈ ids ∧ (0 < wm → wm < RecordID e)%Z.

Lemma read_source_spec log ids limit wm t (parse_one : evt → option Violation) parse vs wm' :
  queries_respected →
  (∀ raw, parse raw = match parseEvents raw with Ok evs => Ok (omap (M := list) parse_one evs) | Err e => Err e end) →
  read_source log ids limit wm t parse = (vs, wm') →
  (wm ≤ wm')%Z ∧ ∀ v, v ∈ vs → ∃ e, parse_one e = Some v ∧ EventID e ∈ ids ∧ (0 < wm → wm < RecordID e)%Z ∧ (RecordID e ≤ wm')%Z.
Proof.
  intros Hq Hp. unfold read_source. destruct (wevtutil t log _ limit) as [raw|] eqn:Hw;
    [|intros [= <- <-]; split; [lia | by intros v []%elem_of_nil]].
  rewrite Hp. unfold MaxRecordID. destruct (parseEvents raw) as [evs|] eqn:He; simpl;
    [|intros [= <- <-]; split; [lia | by intros v []%elem_of_nil]].
  intros [= <- <-]. split; [destruct (wm <? max_record evs)%Z eqn:?; lia|].
  intros v (e & Hin & Hv)%list_elem_of_omap. exists e. destruct (Hq _ _ _ _ _ _ _ Hw He e Hin). split_and!; try done.
  pose proof (max_record_spec evs e Hin). destruct (wm <? max_record evs)%Z eqn:?; lia.
Qed.

(** The violation an event of the logs stands for, under the ringfence in force. *)
Definition wfp_id (r : Ringfence) : Z := if bool_decide (rf_Mode r = "enforce") then 5157%Z else 5156%Z.
(** Violations are attributed to ringfenced programs and reported once. Every violation a call
    of [Violations] reports comes from one event: a network one of a program the
    applied ringfence blocks, enforced exactly in enforce mode; the event's record lies after the watermark the
    call started from and not after the one it leaves, so no later call reports it again;
    the watermarks never move back, and a report has at most 200 violations, no two of the same
    kind, program and detail. *)
Theorem Violations_once f f' vs :
  queries_respected → Violations f = (f', Ok vs) →
  let m := fc_mem f in let m' := fc_mem f' in
  (we_sec m ≤ we_sec m' ∧ we_def m ≤ we_def m')%Z ∧ (length vs ≤ 200)%nat ∧ NoDup (violation_key <$> vs) ∧
  ∀ v, v ∈ vs →
    (∃ e, wfp_of (wh_now (fc_host f)) (network_set (we_last m)) volumeMap e = Some v ∧ vi_Program v ∈ network_set (we_last m) ∧
       vi_Enforced v = bool_decide (rf_Mode (we_last m) = "enforce") ∧
       (0 < we_sec m → we_sec m < RecordID e)%Z ∧ (RecordID e ≤ we_sec m')%Z) ∨
    (∃ e, asr_of (wh_now (fc_host f)) e = Some v ∧ (0 < we_def m → we_def m < RecordID e)%Z ∧ (RecordID e ≤ we_def m')%Z).
Proof.
  intros Hq. unfold Violations. rewrite (bind_run _ _ f f f) by done. cbn zeta. case_bool_decide.
  { intros [= <- <-]. split_and!; try lia; [simpl; lia | constructor | by intros v []%elem_of_nil]. }
  set (ringf := we_last (fc_mem f)). set (t := wh_now (fc_host f)).
  destruct (read_source "Security" _ _ _ _ _) as [v1 sec] eqn:E1.
  destruct (read_source "Microsoft-Windows-Windows Defender/Operational" _ _ _ _ _) as [v2 def] eqn:E2.
  apply (read_source_spec _ _ _ _ _ (wfp_of t (network_set ringf) volumeMap)) in E1 as [Hm1 Hv1]; [|done|].
  2: { intros raw. unfold ParseWFP. by destruct (parseEvents raw). }
  apply (read_source_spec _ _ _ _ _ (asr_of t)) in E2 as [Hm2 Hv2]; [|done|].
  2: { intros raw. unfold ParseDefenderASR. by destruct (parseEvents raw). }
  intros [= <- <-]. cbn [fc_mem we_sec we_def].
  destruct (dedupe_loop_spec 200 ∅ 0 (v1 ++ v2) ltac:(lia)) as (Hl & Hin & Hnd). split; [done|]. split; [unfold Dedupe; lia|]. split; [done|].
  intros v Hv. apply Hin in Hv as [[Hv|Hv]%elem_of_app _].
  - left. destruct (Hv1 v Hv) as (e & He & Hid%list_elem_of_singleton & Hr1 & Hr2). exists e. split; [exact He|].
    unfold wfp_of in He. destruct (_ && _); [done|]. apply bind_Some in He as (app & _ & He).
    destruct (bool_decide (app ∈ network_set ringf)) eqn:Happ; [|done]. apply bool_decide_eq_true in Happ.
    injection He as <-. cbn [vi_Program vi_Enforced]. split; [done|]. split; [|done]. rewrite Hid. by case_bool_decide.
  - right. destruct (Hv2 v Hv) as (e & He & _ & Hr1 & Hr2). by exists e.
Qed.
End host.

(** ** An endpoint *)

(** A firewall listing with one line per rule. *)
Lemma split_byte_line (sep : ascii) (w l : bytes) : sep ∉ w → split_byte sep (w ++ sep :: l) = w :: split_byte sep l.
Proof.
  induction w as [|c w IH]; intros Hn; cbn [app split_byte].
  - by rewrite Ascii.eqb_refl.
  - apply not_elem_of_cons in Hn as [Hc Hn]. rewrite (proj2 (Ascii.eqb_neq c sep)) by congruence. by rewrite IH.
Qed.
Definition listing (rs : list FwRule) : string := of_list (concat (map (λ x, to_list ("Rule Name: " +:+ fw_Name x) ++ ["010"%char]) rs)).
Lemma one_line_bytes s : one_line s = true → "010"%char ∉ to_list s.
Proof.
  unfold one_line, all_bytes. rewrite forallb_forall. intros Hs Hin. apply list_elem_of_In, Hs in Hin. by rewrite Ascii.eqb_refl in Hin.
Qed.
Lemma listing_names rs :
  Forall (λ x, plain_name (fw_Name x)) rs →
  omap (M := list) (λ line, TrimSpace <$> FromIndex line RulePrefix) (SplitByte (listing rs) "010"%char) =
    List.filter (λ n, has_prefix n RulePrefix) (fw_Name <$> rs).
Proof.
  unfold listing, SplitByte. rewrite to_of_list. induction 1 as [|x rs (H1 & Ht & Hp) _ IH]; [done|].
  cbn [concat map]. rewrite <- app_assoc. cbn [app]. rewrite split_byte_line.
  2: { rewrite to_list_app, elem_of_app. intros [Hin|Hin]; [|by apply one_line_bytes in Hin].
       apply list_elem_of_In in Hin. vm_compute in Hin. intuition discriminate. }
  cbn [map]. change (fw_Name <$> x :: rs) with (fw_Name x :: (fw_Name <$> rs)). cbn [List.filter]. rewrite of_to_list.
  match goal with |- omap ?f (?a :: ?l) = _ => change (omap f (a :: l)) with (match f a with Some y => y :: omap f l | None => omap f l end) end.
  rewrite IH. cbn beta.
  assert (FromIndex ("Rule Name: " +:+ fw_Name x) RulePrefix = FromIndex (fw_Name x) RulePrefix) as ->.
  { unfold FromIndex. rewrite to_list_app. reflexivity. }
  destruct (has_prefix (fw_Name x) RulePrefix) eqn:Hpre.
  - assert (FromIndex (fw_Name x) RulePrefix = Some (fw_Name x)) as ->; [|simpl; by rewrite Ht].
    unfold FromIndex, has_prefix in *. destruct (to_list (fw_Name x)) as [|c l] eqn:Hx; [done|]. cbn [index_bytes].
    destruct (strip_prefix (to_list RulePrefix) (c :: l)); [|done].
    change (Some (of_list (c :: l)) = Some (fw_Name x)). by rewrite <- Hx, of_to_list.
  - destruct Hp as [|Hp]; [congruence|]. by rewrite Hp.
Qed.

(** The query for one event number says what it asks for. *)
Lemma Join_ids ids s : Join ((λ id : Z, "EventID=" +:+ pretty id) <$> ids) " or " = "EventID=" +:+ s → all_bytes is_num s = true → ∃ n, ids = [n] ∧ pretty n = s.
Proof.
  destruct ids as [|n [|n' ids]]; cbn [fmap list_fmap Join]; [done| |].
  - intros Hs _. exists n. split; [done|]. by injection Hs.
  - intros Hs Ha. exfalso. apply (f_equal (all_bytes (λ c, negb (Ascii.eqb c " "%char)))) in Hs.
    rewrite !all_bytes_app in Hs. rewrite (all_bytes_impl is_num _ s) in Hs; [|intros c; by destruct (Ascii.eqb_spec c " "%char) as [->|] | done].
    change (all_bytes _ " or ") with false in Hs. by rewrite andb_false_r in Hs.
Qed.
Lemma EventQuery_one ids wm n :
  EventQuery ids wm = EventQuery [n] 0 → ids = [n] ∧ (wm ≤ 0)%Z.
Proof.
  unfold EventQuery. cbn [fmap list_fmap Join]. change (0 <? 0)%Z with false. cbn iota.
  set (idExpr := Join _ " or "). destruct (0 <? wm)%Z eqn:Hw; intros Hq; apply (inj (String.append "*[System[(")) in Hq.
  - exfalso. rewrite <- (str_app_assoc _ _ ")]]"), <- (str_app_assoc _ _ ")]]") in Hq.
    apply str_app_inj_r in Hq. apply (f_equal (all_bytes (λ c, negb (Ascii.eqb c ")"%char)))) in Hq.
    rewrite !all_bytes_app in Hq. rewrite (all_bytes_impl is_num _ (pretty n)) in Hq; [|intros c; by destruct (Ascii.eqb_spec c ")"%char) as [->|] | apply pretty_Z_num].
    simpl in Hq. by rewrite andb_false_r in Hq.
  - change (String "E" (String "v" (String "e" (String "n" (String "t" (String "I" (String "D" (String "=" (pretty n +:+ ")]]")))))))))
      with (("EventID=" +:+ pretty n) +:+ ")]]") in Hq.
    apply str_app_inj_r in Hq. apply Join_ids in Hq as (m & -> & Hm); [|apply pretty_Z_num].
    apply (inj pretty) in Hm as ->. split; [done|]. lia.
Qed.

Module Endpoint.
#[export] Instance short_hash : Hasher := λ s, s.
#[export] Instance log_xml : EventXml := {
  xml_events s := if bool_decide (s = "blocked") then Ok [mkEvt 5157 8 "t" [("Application", "\Device\HarddiskVolume3\App\x.exe"); ("DestAddress", "1.2.3.4"); ("DestPort", "443")]] else Ok [];
  parse_time _ := Some 7%Z;
}.
#[export] Instance tools : WinTools := {
  netsh_show := listing;
  wevtutil t log q n := if bool_decide (q = EventQuery [5157%Z] 0) then Ok "blocked" else Ok "";
  mp_status _ := Ok "True";
  volumeMap := {["harddiskvolume3" := "c:"]};
}.
Definition one_program : Ringfence :=
  mkRingfence "v1" "enforce" [mkProgram "C:\app\x.exe" true; mkProgram "C:\y.exe" false] [mkProtection "d4f940ab-401b-4efc-aadc-ad5f3c50688a" "block"].
(** A stale rule of FreeLocker's, a rule of an administrator, a curated value nobody wants any
    more and one of a group policy. *)
Definition before : WinHost :=
  mkWinHost [mkFwRule (RuleName "C:\z.exe") "C:\z.exe"; mkFwRule "block telnet" "telnet.exe"]
    {["3B576869-A4EC-4529-8536-B80A7769E899" := ("3b576869-a4ec-4529-8536-b80a7769e899", 1%Z); "GPO" := ("gpo", 2%Z)]} false 5 [].
Definition agent_fence : fence := mkFence before NewWinEnforcer.
Definition own_exes : list string := ["c:\program files\freelocker\freelocker-agent.exe"].
Definition applied_fence : fence := (Apply own_exes one_program agent_fence).1.
End Endpoint.

Section endpoint_witnesses.
Import Endpoint.
Lemma Apply_touches_only_ours_witness :
  let f := mkFence before NewWinEnforcer in
  only_ours one_program before (fc_host applied_fence) ∧
  fc_host (Apply own_exes (mkRingfence "v2" "enforce" [mkProgram "C:\Program Files\FreeLocker\FREELOCKER-agent.exe" true] []) f).1 = before.
Proof.
  intros f. split.
  - destruct (Apply own_exes one_program agent_fence) as [f' r] eqn:Ha.
    assert (applied_fence = f') as -> by (unfold applied_fence; by rewrite Ha).
    exact (proj1 (Apply_touches_only_ours own_exes one_program agent_fence f' r Ha)).
  - destruct (Apply own_exes (mkRingfence "v2" "enforce" _ []) f) as [f' r] eqn:Ha.
    apply (proj2 (Apply_touches_only_ours own_exes _ f f' r Ha)).
    exists (mkProgram "C:\Program Files\FreeLocker\FREELOCKER-agent.exe" true), "c:\program files\freelocker\freelocker-agent.exe".
    split; [left|]. split; [left|]. vm_compute. reflexivity.
Defined.
Lemma Apply_reconciles_witness :
  ∃ f', Apply own_exes one_program agent_fence = (f', Ok tt) ∧ we_applied (fc_mem f') = "v1" ∧
    (mkFwRule "FreeLocker-RF-C:\app\x.exe" "C:\app\x.exe" ∈ wh_rules (fc_host f')) ∧
    asr_value (wh_asr (fc_host f')) "GPO" = Some 2%Z.
Proof.
  destruct (Apply_reconciles own_exes one_program agent_fence) as (f' & Ha & Hv & Hr & Hg).
  - intros h Hh. exact (listing_names (wh_rules h) Hh).
  - reflexivity.
  - split; [|split].
    + repeat constructor; vm_compute; solve [reflexivity | left; reflexivity | right; reflexivity].
    + intros g n v Hl. cbn [wh_asr before agent_fence fc_host] in Hl.
      apply lookup_insert_Some in Hl as [[<- [= <- <-]]|[_ Hl]]; [vm_compute; reflexivity|].
      apply lookup_singleton_Some in Hl as [<- [= <- <-]]. vm_compute. reflexivity.
    + intros x Hx Hp. cbn in Hx. apply elem_of_cons in Hx as [->|Hx]; [vm_compute; reflexivity|].
      apply list_elem_of_singleton in Hx as ->. vm_compute in Hp. discriminate Hp.
  - intros p q Hp Hq. cbn in Hp, Hq. rewrite !elem_of_cons in Hp, Hq.
    repeat match goal with H : _ ∨ _ |- _ => destruct H as [->|H] | H : _ ∈ [] |- _ => by apply elem_of_nil in H end;
      vm_compute; solve [reflexivity | discriminate].
  - vm_compute. reflexivity.
  - left. vm_compute. discriminate.
  - exists f'. split; [exact Ha|]. split; [exact Hv|]. split.
    + apply Hr; [vm_compute; reflexivity|]. split; [vm_compute; reflexivity|].
      exists (mkProgram "C:\app\x.exe" true). split; [vm_compute; reflexivity|]. by split.
    + rewrite Hg. vm_compute. reflexivity.
Defined.
Lemma Violations_once_witness :
  (Violations applied_fence).2 = Ok [mkViolation "network" "c:\app\x.exe" "1.2.3.4:443" true 7] ∧
  (we_sec (fc_mem applied_fence) ≤ we_sec (fc_mem (Violations applied_fence).1))%Z.
Proof.
  split; [vm_compute; reflexivity|]. destruct (Violations applied_fence) as [f' r] eqn:Hv.
  destruct r as [vs|e]; [|vm_compute in Hv; discriminate Hv].
  apply (Violations_once applied_fence f' vs); [|exact Hv].
  intros t log ids wm limit raw evs. cbn [wevtutil tools]. destruct (bool_decide _) eqn:Hq.
  - apply bool_decide_eq_true, EventQuery_one in Hq as [-> Hw]. intros [= <-].
    assert (RecordID <$> match parseEvents "blocked" with Ok es => es | Err _ => [] end = [8%Z] ∧
            EventID <$> match parseEvents "blocked" with Ok es => es | Err _ => [] end = [5157%Z]) as [Hr Hi] by (vm_compute; by split).
    intros He e Hin. rewrite He in Hr, Hi. apply (list_elem_of_fmap_2 EventID) in Hin as He1. apply (list_elem_of_fmap_2 RecordID) in Hin as He2.
    rewrite Hi in He1. rewrite Hr in He2. apply list_elem_of_singleton in He1, He2. rewrite He1, He2. split; [left | lia].
  - intros [= <-]. vm_compute. intros [= <-] e []%elem_of_nil.
Defined.
End endpoint_witnesses.
