(* ===== verification/EndpointControls.v ===== *)
(** * Policies and controls on the endpoint

    Models [internal/agent/enforcer] (the WDAC enforcer and the one that does nothing) and
    [internal/agent/controls] (USB storage, elevation, network). The commands and system
    calls take their outcome, one by one, from a list: one that fails changes nothing, so a
    list that fails from some point on also describes the state in the middle of a call. *)

From stdpp Require Import gmap strings list.
From S2P Require Import Prelude GoStr Endpoint WinEvents.

(** ** enforcer.go *)

Definition ErrBadMode : err := EMsg "mode must be audit or enforce".
Record EnforcerStatus := mkEnforcerStatus { AppliedVersion : string; AppliedMode : string }.
Definition good_mode (mode : string) : bool := bool_decide (mode = "audit") || bool_decide (mode = "enforce").

(** [NoopEnforcer] is its status. *)
Definition Noop_Enforce (version mode xml : string) : M EnforcerStatus unit :=
  if negb (good_mode mode) then fail ErrBadMode else put (mkEnforcerStatus version mode).

(** ** wdac_windows.go *)

(** [ConvertFrom-CIPolicy]: the binary of a policy, from its XML. *)
Class CiTools := { ConvertFrom_CIPolicy : string → result string; codeintegrity_log : result string }.
(** The disk, the policy that is active, and the memory of the enforcer. [CiTool] takes its
    outcome from [wd_citool]. *)
Record wdac := mkWdac { wd_disk : disk; wd_active : option string; wd_citool : list bool; wd_status : EnforcerStatus }.
Definition wd_on_disk {A} (m : M disk A) : M wdac A :=
  λ w, let '(d, r) := m (wd_disk w) in (mkWdac d (wd_active w) (wd_citool w) (wd_status w), r).

Section wdac.
Context `{CiTools, EventXml} (DataDir : string).
Definition enforceAllowed (d : disk) : bool := exists_file (Join2 DataDir "allow-enforce") d.
Definition CiTool_update (cip : string) : M wdac unit :=
  λ w, match wd_citool w with
       | [] => (mkWdac (wd_disk w) (Some cip) [] (wd_status w), Ok tt)
       | true :: bs => (mkWdac (wd_disk w) (Some cip) bs (wd_status w), Ok tt)
       | false :: bs => (mkWdac (wd_disk w) (wd_active w) bs (wd_status w), Err (EMsg "CiTool --update-policy"))
       end.
Definition Wdac_Apply (version mode xml : string) : M wdac unit :=
  if negb (good_mode mode) then fail ErrBadMode
  else
    w ← get;
    if bool_decide (AppliedVersion (wd_status w) = version) then mret tt
    else
      let effectiveMode := if bool_decide (mode = "enforce") && negb (enforceAllowed (wd_disk w)) then "audit" else mode in
      _ ← wd_on_disk (WriteFile (Join2 DataDir "policy.xml") xml);
      cip ← of_result (match ConvertFrom_CIPolicy xml with Ok c => Ok c | Err e => Err (EWrap "ConvertFrom-CIPolicy" e) end);
      _ ← wd_on_disk (WriteFile (Join2 DataDir "policy.cip") cip);
      _ ← CiTool_update cip;
      modify (λ w, mkWdac (wd_disk w) (wd_active w) (wd_citool w) (mkEnforcerStatus version effectiveMode)).
(** The query has no lower bound: it prints the latest events, seen or not. *)
Definition Wdac_Events : M wdac (list BlockEvent) :=
  of_result (match codeintegrity_log with Ok out => ParseCodeIntegrity out | Err e => Err (EWrap "wevtutil" e) end).
End wdac.

(** ** controls.go and controls_windows.go *)

Record Controls := mkControls { USBStorageBlocked : bool; NetworkBlocked : bool; ElevationBlocked : bool }.
#[export] Instance Controls_eq_dec : EqDecision Controls.
Proof. solve_decision. Defined.

(** What the controls change: the two registry values, the allow rules by name with the
    addresses or ports they let out, and whether outbound traffic is blocked by default. *)
Record ControlHost := mkControlHost {
  ch_usb : Z; ch_elevation : Z; ch_rules : list (string * string); ch_block : bool; ch_faults : list bool;
}.
Record WinControls := mkWinControls { wc_host : ControlHost; wc_last : option Controls }.
Definition try (name : string) (f : ControlHost → ControlHost) : M ControlHost unit :=
  λ h,
    match ch_faults h with
    | [] => (f h, Ok tt)
    | b :: bs =>
        let h := mkControlHost (ch_usb h) (ch_elevation h) (ch_rules h) (ch_block h) bs in
        if b : bool then (f h, Ok tt) else (h, Err (EMsg name))
    end.
Definition set_dword_usb (v : Z) (h : ControlHost) : ControlHost := mkControlHost v (ch_elevation h) (ch_rules h) (ch_block h) (ch_faults h).
Definition set_dword_elevation (v : Z) (h : ControlHost) : ControlHost := mkControlHost (ch_usb h) v (ch_rules h) (ch_block h) (ch_faults h).
Definition set_allow (rs : list (string * string)) (h : ControlHost) : ControlHost := mkControlHost (ch_usb h) (ch_elevation h) rs (ch_block h) (ch_faults h).
Definition set_block (b : bool) (h : ControlHost) : ControlHost := mkControlHost (ch_usb h) (ch_elevation h) (ch_rules h) b (ch_faults h).
Definition add_allow (name what : string) : M ControlHost unit := try "add rule" (λ h, set_allow (ch_rules h ++ [(name, what)]) h).
Definition delete_allow (name : string) : M ControlHost unit :=
  try "delete rule" (λ h, set_allow (List.filter (λ r, negb (bool_decide (r.1 = name))) (ch_rules h)) h).
(** [netsh], whose failure is ignored. *)
Definition ignored {A} (m : M ControlHost A) : M ControlHost unit := _ ← attempt m; mret tt.

Definition usbAllow : Z := 3.
Definition usbBlock : Z := 4.
Definition elevationAllow : Z := 3.
Definition elevationBlock : Z := 0.
Definition fwRulePrefix : string := "FreeLocker-Net".
Definition server_rule : string := fwRulePrefix +:+ "-Server".
Definition dns_rule : string := fwRulePrefix +:+ "-DNS".
Definition dhcp_rule : string := fwRulePrefix +:+ "-DHCP".

Section controls.
(** [serverIPs]: the addresses the server's host resolves to now; none when it does not. *)
Context (serverIPs : list string).

Definition applyUSB (blocked : bool) : M ControlHost unit := try "USBSTOR" (set_dword_usb (if blocked then usbBlock else usbAllow)).
Definition applyElevation (blocked : bool) : M ControlHost unit :=
  try "ConsentPromptBehaviorUser" (set_dword_elevation (if blocked then elevationBlock else elevationAllow)).
Definition control_network (blocked : bool) : M ControlHost unit :=
  if negb blocked then
    _ ← ignored (delete_allow server_rule);
    _ ← ignored (delete_allow dns_rule);
    _ ← ignored (delete_allow dhcp_rule);
    try "firewallpolicy" (set_block false)
  else if bool_decide (serverIPs = []) then fail (EFmt "cannot block network: server host %q did not resolve; refusing to risk cutting management" [])
  else
    _ ← add_allow server_rule ("remoteip=" +:+ Join serverIPs ",");
    _ ← ignored (add_allow dns_rule "protocol=UDP remoteport=53");
    _ ← ignored (add_allow dhcp_rule "protocol=UDP remoteport=67,68");
    try "firewallpolicy" (set_block true).

Definition wc_on_host {A} (m : M ControlHost A) : M WinControls A :=
  λ w, let '(h, r) := m (wc_host w) in (mkWinControls h (wc_last w), r).
Definition Controls_Apply (c : Controls) : M WinControls unit :=
  w ← get;
  if bool_decide (wc_last w = Some c) then mret tt
  else
    _ ← wc_on_host (applyUSB (USBStorageBlocked c));
    _ ← wc_on_host (applyElevation (ElevationBlocked c));
    _ ← wc_on_host (control_network (NetworkBlocked c));
    modify (λ w, mkWinControls (wc_host w) (Some c)).
End controls.
(** [NoopEnforcer] of the controls. *)
Definition Noop_Controls (c : Controls) (_ : Controls) : Controls * result unit := (c, Ok tt).

(** ** What they promise *)

(** The agent's connection gets out: by default, or through the rule for the server. *)
Definition manageable (h : ControlHost) : Prop := ch_block h = false ∨ server_rule ∈ fst <$> ch_rules h.

Lemma try_run name f h :
  ∃ bs r, (try name f h = (mkControlHost (ch_usb h) (ch_elevation h) (ch_rules h) (ch_block h) bs, r) ∧ is_ok r = false) ∨
          (try name f h = (f (mkControlHost (ch_usb h) (ch_elevation h) (ch_rules h) (ch_block h) bs), r) ∧ r = Ok tt).
Proof.
  unfold try. destruct (ch_faults h) as [|[] bs] eqn:Hf.
  - exists [], (Ok tt). right. split; [|done]. destruct h. simpl in *. by subst.
  - exists bs, (Ok tt). by right.
  - exists bs, (Err (EMsg name)). by left.
Qed.

(** What the calls on the way keep: the rules grow and the default stays. *)
Definition grows (h h' : ControlHost) : Prop :=
  ch_block h' = ch_block h ∧ ∀ r, r ∈ ch_rules h → r ∈ ch_rules h'.
#[export] Instance grows_preorder : PreOrder grows.
Proof. split; [by split|]. intros x y z [? Hx] [? Hy]. split; [congruence | auto]. Qed.
Lemma try_steps R name f :
  (∀ h, R h (f h)) → (∀ h bs, R h (mkControlHost (ch_usb h) (ch_elevation h) (ch_rules h) (ch_block h) bs)) → PreOrder R → Steps R (try name f).
Proof.
  intros Hf Hb ? h. destruct (try_run name f h) as (bs & r & [[-> _]|[-> _]]); simpl; [apply Hb|]. etransitivity; [apply Hb | apply Hf].
Qed.
#[export] Instance usb_grows b : Steps grows (applyUSB b).
Proof. apply try_steps; [done|done|apply _]. Qed.
#[export] Instance elevation_grows b : Steps grows (applyElevation b).
Proof. apply try_steps; [done|done|apply _]. Qed.
#[export] Instance add_allow_grows n w : Steps grows (add_allow n w).
Proof. apply try_steps; [|done|apply _]. intros h. split; [done|]. intros r Hr. apply elem_of_app. by left. Qed.
#[export] Instance ignored_steps {A} R (m : M ControlHost A) `{!PreOrder R} : Steps R m → Steps R (ignored m).
Proof. intros. unfold ignored. apply _. Qed.
Lemma grows_manageable h h' : grows h h' → manageable h → manageable h'.
Proof.
  intros [Hb Hr] [?|Hs]; [left; congruence | right]. apply list_elem_of_fmap in Hs as (r & Hs & ?). rewrite Hs.
  apply list_elem_of_fmap_2. by apply Hr.
Qed.

Section facts.
Context (serverIPs : list string).

Lemma add_allow_Ok n w h h' : add_allow n w h = (h', Ok tt) → n ∈ fst <$> ch_rules h'.
Proof.
  unfold add_allow. destruct (try_run "add rule" (λ h, set_allow (ch_rules h ++ [(n, w)]) h) h) as (bs & r & [[-> Hr]|[-> ->]]).
  - intros [= _ ->]. done.
  - intros [= <-]. simpl. rewrite fmap_app, elem_of_app. right. by left.
Qed.
Lemma set_block_run b h :
  ∃ h' r, try "firewallpolicy" (set_block b) h = (h', r) ∧ ch_rules h' = ch_rules h ∧
    (ch_block h' = ch_block h ∧ is_ok r = false ∨ ch_block h' = b ∧ r = Ok tt).
Proof.
  destruct (try_run "firewallpolicy" (set_block b) h) as (bs & r & [[-> Hr]|[-> ->]]); eexists _, _; (split; [done|]); simpl; auto.
Qed.

Lemma ignored_grows {A} (m : M ControlHost A) `{!Steps grows m} h : ∃ h', ignored m h = (h', Ok tt) ∧ grows h h'.
Proof.
  pose proof (steps_of (R := grows) (m := m) h) as Hg. unfold ignored, attempt, mbind, M_bind. destruct (m h) as [h' r].
  by exists h'.
Qed.

(** Blocking never cuts the agent off. *)
Lemma network_blocked_run h h' r : control_network serverIPs true h = (h', r) → manageable h → manageable h'.
Proof.
  intros Hc Hm. unfold control_network in Hc. simpl in Hc. case_bool_decide; [by injection Hc as <- <-|].
  set (add := add_allow server_rule ("remoteip=" +:+ Join serverIPs ",")) in Hc.
  destruct (add h) as [h1 [[]|e]] eqn:Ha.
  2: { rewrite (bind_fails _ _ _ _ _ Ha) in Hc. injection Hc as <- _.
       pose proof (steps_of (R := grows) (m := add) h) as Hg. rewrite Ha in Hg. by eapply grows_manageable. }
  rewrite (bind_run _ _ _ _ _ Ha) in Hc. apply add_allow_Ok in Ha. right.
  destruct (ignored_grows (add_allow dns_rule "protocol=UDP remoteport=53") h1) as (h2 & H2 & _ & Hg2).
  rewrite (bind_run _ _ _ _ _ H2) in Hc.
  destruct (ignored_grows (add_allow dhcp_rule "protocol=UDP remoteport=67,68") h2) as (h3 & H3 & _ & Hg3).
  rewrite (bind_run _ _ _ _ _ H3) in Hc.
  destruct (set_block_run true h3) as (h4 & r4 & Hb & Hr & _). rewrite Hb in Hc. injection Hc as <- _. rewrite Hr.
  apply list_elem_of_fmap in Ha as (x & Hx & Hin). rewrite Hx. apply list_elem_of_fmap_2. by apply Hg3, Hg2.
Qed.
(** Unblocking can, when it stops before its end. *)
Lemma network_allowed_run h h' r : control_network serverIPs false h = (h', r) → manageable h' ∨ is_ok r = false.
Proof.
  assert (∀ (m : M ControlHost unit) g, ∃ g', ignored m g = (g', Ok tt)) as Hi.
  { intros m g. unfold ignored, attempt, mbind, M_bind. destruct (m g) as [g' ?]. by exists g'. }
  unfold control_network. simpl. destruct (Hi (delete_allow server_rule) h) as [h1 H1]. rewrite (bind_run _ _ _ _ _ H1).
  destruct (Hi (delete_allow dns_rule) h1) as [h2 H2]. rewrite (bind_run _ _ _ _ _ H2).
  destruct (Hi (delete_allow dhcp_rule) h2) as [h3 H3]. rewrite (bind_run _ _ _ _ _ H3).
  destruct (set_block_run false h3) as (h4 & r4 & -> & _ & Hf). intros [= <- <-].
  destruct Hf as [[_ Hf]|[Hf _]]; [by right | left; by left].
Qed.

Lemma wc_on_host_run {A} (m : M ControlHost A) w h r :
  m (wc_host w) = (h, r) → wc_on_host m w = (mkWinControls h (wc_last w), r).
Proof. unfold wc_on_host. by intros ->. Qed.

End facts.

Definition quiet_host : ControlHost := mkControlHost 3 3 [] false [].

(** The exception: the network is blocked, unblocking it deletes the three rules, and the
    default cannot be set back. The error is returned; the next [Apply] is over a
    connection that is gone. *)
Example unblocking_cut_short :
  let w := mkWinControls (mkControlHost 3 3 [(server_rule, "remoteip=192.0.2.1")] true [true; true; true; true; true; false]) None in
  let '(w', r) := Controls_Apply ["192.0.2.1"] (mkControls false false false) w in
  is_ok r = false ∧ ch_block (wc_host w') = true ∧ ch_rules (wc_host w') = [].
Proof. by vm_compute. Qed.

(** ** What the WDAC enforcer does *)

Section wdac_facts.
Context `{CiTools, EventXml} (DataDir : string).
Implicit Types w : wdac.

Lemma wd_on_disk_run {A} (m : M disk A) w d r :
  m (wd_disk w) = (d, r) → wd_on_disk m w = (mkWdac d (wd_active w) (wd_citool w) (wd_status w), r).
Proof. unfold wd_on_disk. by intros ->. Qed.

(** The enforcer applies a policy whole or reports that it did not. An unknown mode and a
    version already applied change nothing. Otherwise, after success the active policy is
    the one converted from the XML that was passed, and the status names its version; after
    an error the policy and the status are what they were, so the next sync tries
    again. The mode is no more than a report: without the opt-in file the status says audit,
    and the policy that is made active is the same as with it. *)
Theorem wdac_applies_or_reports version mode xml w w' r :
  Wdac_Apply DataDir version mode xml w = (w', r) →
  match r with
  | Err _ => wd_active w' = wd_active w ∧ wd_status w' = wd_status w
  | Ok _ =>
      good_mode mode = true ∧ AppliedVersion (wd_status w') = version ∧
      (w' = w ∨
       ∃ cip, ConvertFrom_CIPolicy xml = Ok cip ∧ wd_active w' = Some cip ∧
         AppliedMode (wd_status w') = (if bool_decide (mode = "enforce") && negb (enforceAllowed DataDir (wd_disk w)) then "audit" else mode))
  end.
Proof.
  intros Ha. unfold Wdac_Apply in Ha. destruct (good_mode mode); cbn [negb] in Ha; [|by injection Ha as <- <-].
  rewrite (bind_run _ _ w w w) in Ha by done.
  destruct (bool_decide (AppliedVersion (wd_status w) = version)) eqn:Hv.
  { injection Ha as <- <-. apply bool_decide_eq_true in Hv. auto. }
  cbv zeta in Ha. set (eff := if _ : bool then "audit" else mode) in *. clearbody eff.
  destruct (WriteFile (Join2 DataDir "policy.xml") xml (wd_disk w)) as [d1 r1] eqn:E1. apply wd_on_disk_run in E1.
  destruct r1 as [[]|e]; [rewrite (bind_run _ _ _ _ _ E1) in Ha | rewrite (bind_fails _ _ _ _ _ E1) in Ha; by injection Ha as <- <-].
  destruct (ConvertFrom_CIPolicy xml) as [cip|e] eqn:Ec; [|by injection Ha as <- <-].
  match type of Ha with (of_result ?c ≫= ?k) ?s = _ => rewrite (bind_run (of_result (Ok cip)) k s s cip eq_refl) in Ha end.
  destruct (WriteFile (Join2 DataDir "policy.cip") cip d1) as [d2 r2] eqn:E2.
  apply (wd_on_disk_run _ (mkWdac d1 (wd_active w) (wd_citool w) (wd_status w))) in E2.
  destruct r2 as [[]|e]; [rewrite (bind_run _ _ _ _ _ E2) in Ha | rewrite (bind_fails _ _ _ _ _ E2) in Ha; by injection Ha as <- <-].
  set (w2 := mkWdac d2 _ _ _) in Ha.
  destruct (CiTool_update cip w2) as [w3 r3] eqn:E3. assert (Hc := E3). unfold CiTool_update, w2 in Hc. simpl in Hc.
  destruct (wd_citool w) as [|[] bs]; injection Hc as <- <-;
    first [rewrite (bind_run _ _ _ _ _ E3) in Ha | rewrite (bind_fails _ _ _ _ _ E3) in Ha]; injection Ha as <- <-; simpl; eauto 10.
Qed.
End wdac_facts.

(** Tools that convert a policy to itself. *)
Definition plain_tools : CiTools := {| ConvertFrom_CIPolicy xml := Ok xml; codeintegrity_log := Ok "" |}.
Lemma wdac_applies_or_reports_witness :
  let w := mkWdac (mkDisk ∅ []) None [] (mkEnforcerStatus "" "") in
  let '(w', r) := @Wdac_Apply plain_tools "C:" "v1" "enforce" "<enforce/>" w in
  r = Ok tt ∧ wd_active w' = Some "<enforce/>" ∧ AppliedVersion (wd_status w') = "v1" ∧ AppliedMode (wd_status w') = "audit".
Proof.
  pose proof (@wdac_applies_or_reports plain_tools "C:" "v1" "enforce" "<enforce/>" (mkWdac (mkDisk ∅ []) None [] (mkEnforcerStatus "" ""))) as Hw.
  specialize (Hw _ _ eq_refl). simpl in Hw. destruct Hw as (_ & Hv & [Hw | (cip & [= <-] & Ha & Hm)]).
  - discriminate Hw.
  - split_and!; [reflexivity | exact Ha | exact Hv | exact Hm].
Defined.
