(* ===== verification/Machine.v ===== *)
(** * What an agent asks of its machine

    Models [internal/agent/metrics] (the samples of processor, memory and disk),
    [internal/agent/inventory] (the facts of a heartbeat) and the table of volumes of
    [ringfence/volumes_windows.go]. What Windows answers is given to the definitions;
    what the code makes of it is modelled, floats and wrap-around included. *)

From Stdlib Require Import SpecFloat.
From stdpp Require Import gmap strings list sorting.
From S2P Require Import Prelude GoStr Db StoreCore StorePolicies StoreTelemetry StoreMetrics Endpoint WinEvents.

(** ** metrics.go, metrics_windows.go *)

Definition wrap64 (z : Z) : Z := (z mod 2 ^ 64)%Z.
(** [float64] of a uint64. *)
Definition float_of_u64 (n : Z) : spec_float := binary_normalize 53 1024 n 0 false.
Definition float_div : spec_float → spec_float → spec_float := SFdiv 53 1024.
Definition float_mul : spec_float → spec_float → spec_float := SFmul 53 1024.
Definition float_sub : spec_float → spec_float → spec_float := SFsub 53 1024.
Definition f_zero : spec_float := S754_zero false.
Definition f_hundred : spec_float := float_of_u64 100.

Definition clampPct (v : spec_float) : spec_float :=
  if float_lt v f_zero then f_zero else if float_gt v f_hundred then f_hundred else v.

Record Sample := mkPctSample { sp_CPUPct : spec_float; sp_MemPct : spec_float; sp_DiskPct : spec_float }.

(** [windows.Filetime]: two halves of 32 bits. *)
Record Filetime := mkFiletime { LowDateTime : Z; HighDateTime : Z }.
Definition fileTimeToUint64 (lo hi : Z) : Z := Z.lor (Z.shiftl hi 32) lo.
Definition ticks (f : Filetime) : Z := fileTimeToUint64 (LowDateTime f) (HighDateTime f).
(** [GetSystemTimes]: idle, kernel and user. *)
Record SystemTimes := mkSystemTimes { st_idle : Filetime; st_kernel : Filetime; st_user : Filetime }.
Definition systemTimes (t : SystemTimes) : Z * Z * Z := (ticks (st_idle t), ticks (st_kernel t), ticks (st_user t)).

(** [cpuPercent], of the times before and after the pause. *)
Definition cpuPercent (before after : SystemTimes) : spec_float :=
  let '(i0, k0, u0) := systemTimes before in
  let '(i1, k1, u1) := systemTimes after in
  let idle := float_of_u64 (wrap64 (i1 - i0)) in
  let total := float_of_u64 (wrap64 (wrap64 (k1 + u1) - wrap64 (k0 + u0))) in
  if SFleb total f_zero then f_zero else float_mul (float_div (float_sub total idle) total) f_hundred.
(** [GlobalMemoryStatusEx]: none when it fails, or the load it reports. *)
Definition memPercent (status : option Z) : spec_float := match status with None => f_zero | Some memoryLoad => float_of_u64 memoryLoad end.
(** [GetDiskFreeSpaceEx]: none when it fails, or the total and what is free. *)
Definition diskPercent (space : option (Z * Z)) : spec_float :=
  match space with
  | None => f_zero
  | Some (total, totalFree) =>
      if (total =? 0)%Z then f_zero
      else float_mul (float_div (float_of_u64 (wrap64 (total - totalFree))) (float_of_u64 total)) f_hundred
  end.
Definition collect (before after : SystemTimes) (status : option Z) (space : option (Z * Z)) : Sample :=
  mkPctSample (clampPct (cpuPercent before after)) (clampPct (memPercent status)) (clampPct (diskPercent space)).

(** ** inventory.go, inventory_windows.go *)

(** An address of an interface: an [IPNet], or something else. *)
Record IPNet := mkIPNet { ip_text : string; ip_loopback : bool; ip_link_local : bool }.
Definition LocalIPs (addrs : list (option IPNet)) : list string :=
  omap (λ a, match a with
             | Some ip => if ip_loopback ip || ip_link_local ip then None else Some (ip_text ip)
             | None => None
             end) addrs.
(** A key of the registry, none when it cannot be opened; a value that is missing reads as
    an empty string. *)
Abbreviation reg_key := (option (gmap string string)).
Definition reg_string (k : gmap string string) (name : string) : string := default "" (k !! name).
Definition osBuild (current_version : reg_key) : string :=
  match current_version with
  | None => ""
  | Some k =>
      let product := reg_string k "ProductName" in
      let build := reg_string k "CurrentBuild" in
      if bool_decide (build = "") then product else product +:+ " " +:+ build
  end.
Definition loggedOnUser (logon_ui : reg_key) : string := match logon_ui with None => "" | Some k => reg_string k "LastLoggedOnUser" end.
(** [Base.base], with whole seconds of uptime, and [Collect]. *)
Definition base_inventory (version host : string) (addrs : list (option IPNet)) (startedAt t : time) : Inventory :=
  mkInventory host "" (LocalIPs addrs) "" version (Z.quot (t - startedAt) Second).
Definition Collect (version host : string) (addrs : list (option IPNet)) (current_version logon_ui : reg_key) (startedAt t : time) : Inventory :=
  let inv := base_inventory version host addrs startedAt t in
  mkInventory (iv_hostname inv) (osBuild current_version) (iv_ips inv) (loggedOnUser logon_ui) (iv_agent_version inv) (iv_uptime_seconds inv).

(** ** volumes_windows.go *)

Definition volumeMapTTL : duration := (5 * Minute)%Z.
Definition letters : list string :=
  ["a:"; "b:"; "c:"; "d:"; "e:"; "f:"; "g:"; "h:"; "i:"; "j:"; "k:"; "l:"; "m:"; "n:"; "o:"; "p:"; "q:"; "r:"; "s:"; "t:"; "u:"; "v:"; "w:"; "x:";
   "y:"; "z:"].
(** What [QueryDosDevice] answers for a letter, up to the first NUL; none for one that is not
    assigned. *)
Definition volume_name (target : string) : string := TrimPrefix (ToLower target) "\device\".
Definition add_volume (query : string → option string) (m : gmap string string) (letter : string) : gmap string string :=
  match query letter with
  | None => m
  | Some target => let v := volume_name target in if bool_decide (v = "") then m else <[v := letter]> m
  end.
Definition build_volumes (query : string → option string) : gmap string string := foldl (add_volume query) ∅ letters.
(** The cache and when it runs out; the machine's answers at an instant. *)
Record volumes := mkVolumes { vo_cache : option (gmap string string); vo_expiry : time }.
Definition volumeMap (query : time → string → option string) (now : time) : M volumes (gmap string string) :=
  λ v,
    match vo_cache v with
    | Some m => if (now <? vo_expiry v)%Z then (v, Ok m)
                else let m := build_volumes (query now) in (mkVolumes (Some m) (now + volumeMapTTL)%Z, Ok m)
    | None => let m := build_volumes (query now) in (mkVolumes (Some m) (now + volumeMapTTL)%Z, Ok m)
    end.

(** ** Floats that are numbers *)

(** The number of bits of a mantissa. *)
Lemma digits2_pos_size p : digits2_pos p = Pos.size p.
Proof. induction p; simpl; congruence. Qed.
Lemma Zdigits2_bound m k : (0 ≤ m < 2 ^ k → 0 ≤ k → 0 ≤ Zdigits2 m ≤ k)%Z.
Proof.
  intros Hm Hk. destruct m as [|p|]; simpl; [lia| |lia]. rewrite digits2_pos_size. split; [lia|].
  pose proof (Pos.size_le p) as Hs. apply Pos2Z.pos_le_pos in Hs. rewrite Pos2Z.inj_pow in Hs.
  assert (2 ^ Z.pos (Pos.size p) < 2 ^ (k + 1))%Z as Hlt by (rewrite Z.pow_add_r by lia; lia).
  apply Z.pow_lt_mono_r_iff in Hlt; lia.
Qed.

(** Shifting right makes a mantissa smaller. *)
Lemma shr_1_shrinks r : (0 ≤ shr_m r → 0 ≤ shr_m (shr_1 r) ≤ shr_m r)%Z.
Proof. destruct r as [[|[p|p|]|p] b1 b2]; simpl; lia. Qed.
Lemma shr_iter_shrinks p r : (0 ≤ shr_m r → 0 ≤ shr_m (SpecFloat.iter_pos shr_1 p r) ≤ shr_m r)%Z.
Proof.
  revert r. induction p as [p IH|p IH|]; intros r Hr; simpl; [| |by apply shr_1_shrinks].
  - pose proof (shr_1_shrinks r Hr) as H1. pose proof (IH (shr_1 r) ltac:(lia)) as H2.
    pose proof (IH (SpecFloat.iter_pos shr_1 p (shr_1 r)) ltac:(lia)). lia.
  - pose proof (IH r Hr) as H1. pose proof (IH (SpecFloat.iter_pos shr_1 p r) ltac:(lia)). lia.
Qed.
Lemma shr_fexp_shrinks prec emax m e l r e' :
  (0 ≤ m)%Z → shr_fexp prec emax m e l = (r, e') → (0 ≤ shr_m r ≤ m ∧ e' ≤ Z.max e (fexp prec emax (Zdigits2 m + e)))%Z.
Proof.
  intros Hm. unfold shr_fexp, shr. assert (shr_m (shr_record_of_loc m l) = m) as Hl by (by destruct l as [|[]]).
  destruct (_ - e)%Z as [|p|p] eqn:Hn; intros [= <- <-]; rewrite ?Hl; try lia.
  pose proof (shr_iter_shrinks p (shr_record_of_loc m l)). rewrite Hl in *. lia.
Qed.
(** It halves at each step, so it keeps a bit when it keeps 53. *)
Lemma shr_1_halves r : (0 ≤ shr_m r → shr_m (shr_1 r) = shr_m r / 2)%Z.
Proof.
  destruct r as [[|[p|p|]|p] b1 b2]; intros Hr; cbn [shr_1 shr_m] in *; try done; [|by rewrite (Pos2Z.inj_xO p), Z.mul_comm, Z.div_mul]. rewrite (Pos2Z.inj_xI p). apply (Z.div_unique _ _ _ 1); lia.
Qed.
Lemma shr_iter_halves p r : (0 ≤ shr_m r → shr_m (SpecFloat.iter_pos shr_1 p r) = shr_m r / 2 ^ Z.pos p)%Z.
Proof.
  assert (∀ a n k, 0 ≤ n → 0 ≤ k → a / 2 ^ n / 2 ^ k = a / 2 ^ (n + k))%Z as Hdiv.
  { intros a n k Hn Hk. rewrite Z.pow_add_r, Z.div_div; [done| |apply Z.pow_pos_nonneg|..]; lia. }
  revert r. induction p as [p IH|p IH|]; intros r Hr; cbn [SpecFloat.iter_pos]; [| |by apply shr_1_halves].
  - pose proof (shr_1_shrinks r Hr) as H1. pose proof (shr_iter_shrinks p (shr_1 r) ltac:(lia)) as H2.
    rewrite !IH, shr_1_halves by lia. rewrite <- (Z.pow_1_r 2) at 1. rewrite !Hdiv by lia. do 2 f_equal. lia.
  - pose proof (shr_iter_shrinks p r Hr) as H2. rewrite !IH by lia. rewrite Hdiv by lia. do 2 f_equal. lia.
Qed.
Lemma shr_fexp_positive m e l r e' :
  (0 < m → -1000 ≤ e → shr_fexp 53 1024 m e l = (r, e') → 0 < shr_m r ∧ e ≤ e')%Z.
Proof.
  intros Hm He. unfold shr_fexp, shr. assert (shr_m (shr_record_of_loc m l) = m) as Hl by (by destruct l as [|[]]).
  destruct (_ - e)%Z as [|p|p] eqn:Hn; intros [= <- <-]; rewrite ?Hl; [lia| |lia]. split; [|lia].
  rewrite shr_iter_halves, Hl by lia. apply Z.div_str_pos. split; [lia|]. unfold fexp, emin in Hn. destruct m as [|m|]; [lia| |lia].
  simpl in Hn. rewrite digits2_pos_size in Hn. pose proof (Pos.size_le m) as Hs. apply Pos2Z.pos_le_pos in Hs. rewrite Pos2Z.inj_pow in Hs.
  assert (2 ^ (Z.pos p + 1) ≤ 2 ^ Z.pos (Pos.size m))%Z as Hle by (apply Z.pow_le_mono_r; lia). rewrite Z.pow_add_r in Hle by lia. lia.
Qed.

Lemma round_up_bound m l : (0 ≤ m → 0 ≤ round_nearest_even m l ≤ m + 1)%Z.
Proof. intros Hm. unfold round_nearest_even. destruct l as [|[]]; [lia|destruct (Z.even m); lia | lia | lia]. Qed.

(** Rounding never makes a NaN, nor an infinity of a number of moderate size. *)
Lemma binary_round_aux_number prec emax s m e l : (0 ≤ m)%Z → binary_round_aux prec emax s m e l ≠ S754_nan.
Proof.
  intros Hm. unfold binary_round_aux. destruct (shr_fexp prec emax m e l) as [r1 e1] eqn:E1.
  destruct (shr_fexp_shrinks _ _ _ _ _ _ _ Hm E1) as [H1 _].
  pose proof (round_up_bound (shr_m r1) (loc_of_shr_record r1)) as Hr.
  destruct (shr_fexp prec emax _ e1 loc_Exact) as [r2 e2] eqn:E2. apply shr_fexp_shrinks in E2 as [H2 _]; [|lia].
  destruct (shr_m r2); [done| |lia]. by destruct (_ <=? _)%Z.
Qed.
Definition finite (f : spec_float) : Prop := match f with S754_zero _ | S754_finite _ _ _ => True | _ => False end.
Lemma binary_round_aux_finite s m e l : (0 ≤ m < 2 ^ 200 → e ≤ 300 → finite (binary_round_aux 53 1024 s m e l))%Z.
Proof.
  intros Hm He. pose proof (binary_round_aux_number 53 1024 s m e l ltac:(lia)) as Hn. revert Hn. unfold binary_round_aux.
  destruct (shr_fexp 53 1024 m e l) as [r1 e1] eqn:E1. apply shr_fexp_shrinks in E1 as [H1 He1]; [|lia].
  pose proof (round_up_bound (shr_m r1) (loc_of_shr_record r1)) as Hr.
  pose proof (Zdigits2_bound m 200 Hm ltac:(lia)) as Hd. unfold fexp, emin in He1.
  destruct (shr_fexp 53 1024 _ e1 loc_Exact) as [r2 e2] eqn:E2. apply shr_fexp_shrinks in E2 as [H2 He2]; [|lia].
  assert (2 ^ 201 = 2 * 2 ^ 200)%Z as H201 by reflexivity.
  pose proof (Zdigits2_bound (round_nearest_even (shr_m r1) (loc_of_shr_record r1)) 201 ltac:(lia) ltac:(lia)) as Hd2.
  unfold fexp, emin in He2. destruct (shr_m r2); [done| |done]. rewrite (proj2 (Z.leb_le _ _)) by lia. done.
Qed.

Lemma shl_align_bound m e e' mz ez k :
  shl_align m e e' = (mz, ez) → (Z.pos m < 2 ^ k → 0 ≤ k → ez ≤ e ∧ Z.pos mz < 2 ^ (k + Z.max 0 (e - e')))%Z.
Proof.
  unfold shl_align. intros Hs Hm Hk. destruct (e' - e)%Z as [|d|d] eqn:Hd; injection Hs as <- <-.
  - split; [lia|]. by replace (Z.max 0 (e - e'))%Z with 0%Z by lia; rewrite Z.add_0_r.
  - split; [lia|]. replace (Z.max 0 (e - e'))%Z with 0%Z by lia. by rewrite Z.add_0_r.
  - split; [lia|]. replace (Z.max 0 (e - e'))%Z with (Z.pos d) by lia. clear Hd e e'.
    assert (∀ n, Z.pos (Nat.iter n xO m) < 2 ^ (k + Z.of_nat n))%Z as Hn.
    { induction n as [|n IH]; [simpl; by rewrite Z.add_0_r|]. rewrite Nat2Z.inj_succ, <- Z.add_1_r, Z.add_assoc, Z.pow_add_r by lia. simpl.
      rewrite Pos2Z.inj_xO. lia. }
    rewrite Pos2Nat.inj_iter. rewrite <- (positive_nat_Z d). apply Hn.
Qed.
Lemma float_of_u64_finite n : (0 ≤ n < 2 ^ 64 → finite (float_of_u64 n))%Z.
Proof.
  intros Hn. unfold float_of_u64, binary_normalize. destruct n as [|p|p]; [done| |lia]. unfold binary_round.
  destruct (shl_align p 0 _) as [mz ez] eqn:Hs. destruct (shl_align_bound _ _ _ _ _ 64 Hs) as [He Hm]; [lia..|].
  apply binary_round_aux_finite; [|lia]. split; [lia|]. eapply Z.lt_le_trans; [exact Hm|]. apply Z.pow_le_mono_r; [lia|].
  unfold fexp, emin. lia.
Qed.

(** What the percentages are computed with. *)
Definition number (f : spec_float) : Prop := f ≠ S754_nan.
Lemma finite_number f : finite f → number f.
Proof. by destruct f. Qed.
Lemma binary_normalize_number m e s : number (binary_normalize 53 1024 m e s).
Proof.
  unfold binary_normalize, binary_round. destruct m; [done| |]; destruct (shl_align _ _ _); by apply binary_round_aux_number.
Qed.
Lemma float_sub_number x y : finite x → number y → number (float_sub x y).
Proof.
  intros Hx Hy. unfold float_sub, SFsub. destruct x as [sx| | |sx mx ex]; try done; destruct y as [sy|sy| |sy my ey]; try done;
    [by destruct sx, sy | apply binary_normalize_number].
Qed.
Lemma float_div_number x y : number x → finite y → SFleb y f_zero = false → number (float_div x y).
Proof.
  intros Hx Hy Hp. unfold float_div, SFdiv. destruct y as [sy| | |sy my ey]; try done. destruct x as [sx|sx| |sx mx ex]; try done.
  destruct (SFdiv_core_binary _ _ _ _ _ _) as [[q e] l] eqn:Hq. apply binary_round_aux_number. revert Hq. unfold SFdiv_core_binary.
  set (m' := match _ with Z0 => _ | Zpos _ => _ | Zneg _ => _ end). assert (0 ≤ m')%Z as Hm.
  { subst m'. destruct (_ - _)%Z; [lia| |lia]. rewrite Z.shiftl_nonneg. lia. }
  pose proof (Z_div_mod m' (Z.pos my) ltac:(lia)) as Hdm. destruct (Z.div_eucl m' (Z.pos my)) as [q0 r0]. intros [= <- _ _].
  destruct Hdm as [Hm' Hr]. assert (¬ (q0 < 0)%Z); [|lia]. intros Hneg. assert (Z.pos my * q0 ≤ Z.pos my * -1)%Z by nia. lia.
Qed.
Lemma float_mul_number x : number x → number (float_mul x f_hundred).
Proof. intros Hx. unfold float_mul. destruct x as [s|s| |s m e]; try done. by apply binary_round_aux_number. Qed.

(** ** Percentages *)

Lemma SFcompare_swap x y : SFcompare y x = CompOpp <$> SFcompare x y.
Proof.
  assert (∀ p q, Pos.compare_cont Eq q p = CompOpp (Pos.compare_cont Eq p q)) as Hp by (intros p q; by rewrite Pos.compare_cont_antisym).
  destruct x as [[]|[]| |[] mx ex], y as [[]|[]| |[] my ey]; try done; simpl; f_equal;
    rewrite (Z.compare_antisym ex ey); destruct (ex ?= ey)%Z; simpl; rewrite ?(Hp mx my); done.
Qed.
Definition in_percent (f : spec_float) : Prop := SFleb f_zero f = true ∧ SFleb f f_hundred = true.
Lemma clampPct_percent v : number v → in_percent (clampPct v).
Proof.
  intros Hv. unfold clampPct, float_lt, float_gt. destruct (SFltb v f_zero) eqn:Hlo; [done|].
  destruct (SFltb f_hundred v) eqn:Hhi; [done|]. unfold in_percent, SFleb, SFltb in *.
  rewrite (SFcompare_swap v f_zero). rewrite (SFcompare_swap v f_hundred) in Hhi.
  assert (∀ w, number w → is_Some (SFcompare v w)) as Hsome by (intros w Hw; destruct v as [|[]| |], w as [|[]| |]; try done; by eexists).
  destruct (Hsome f_zero) as [c1 H1]; [done|]. destruct (Hsome f_hundred) as [c2 H2]; [done|]. rewrite H1, H2 in *. simpl in *.
  by destruct c1, c2.
Qed.

Definition u32 (z : Z) : Prop := (0 ≤ z < 2 ^ 32)%Z.
Definition u64 (z : Z) : Prop := (0 ≤ z < 2 ^ 64)%Z.
Lemma wrap64_u64 z : u64 (wrap64 z).
Proof. apply Z.mod_pos_bound. lia. Qed.
#[local] Hint Resolve wrap64_u64 : core.
Lemma cpuPercent_number before after : number (cpuPercent before after).
Proof.
  unfold cpuPercent, systemTimes. set (idle := wrap64 (ticks _ - ticks _)). set (total := wrap64 (wrap64 _ - wrap64 _)).
  destruct (SFleb (float_of_u64 total) f_zero) eqn:Hz; [done|].
  assert (finite (float_of_u64 total)) as Hf by (apply float_of_u64_finite, wrap64_u64).
  apply float_mul_number, float_div_number; [|done|done].
  apply float_sub_number; [done|]. apply finite_number, float_of_u64_finite, wrap64_u64.
Qed.
Lemma float_of_u64_positive n : (0 < n < 2 ^ 64 → SFleb (float_of_u64 n) f_zero = false)%Z.
Proof.
  intros Hn. unfold float_of_u64, binary_normalize. destruct n as [|p|]; [lia| |lia]. unfold binary_round.
  destruct (shl_align p 0 _) as [mz ez] eqn:Hs. assert (-1000 ≤ ez)%Z as He.
  { revert Hs. unfold shl_align, fexp, emin. destruct (_ - 0)%Z eqn:Hd; intros [= <- <-]; lia. }
  unfold binary_round_aux. destruct (shr_fexp 53 1024 (Z.pos mz) ez _) as [r1 e1] eqn:E1. apply shr_fexp_positive in E1 as [H1 He1]; [|lia..].
  assert (0 < round_nearest_even (shr_m r1) (loc_of_shr_record r1))%Z as Hr
    by (unfold round_nearest_even; destruct (loc_of_shr_record r1) as [|[]]; try destruct (Z.even _); lia).
  destruct (shr_fexp 53 1024 _ e1 loc_Exact) as [r2 e2] eqn:E2. apply shr_fexp_positive in E2 as [H2 He2]; [|lia..].
  destruct (shr_m r2); [lia| |lia]. by destruct (_ <=? _)%Z.
Qed.
Lemma diskPercent_number space : (∀ total free, space = Some (total, free) → u64 total) → number (diskPercent space).
Proof.
  intros Hu. unfold diskPercent. destruct space as [[total free]|]; [|done]. specialize (Hu total free eq_refl). unfold u64 in Hu.
  destruct (Z.eqb_spec total 0); [done|].
  apply float_mul_number, float_div_number; [|apply float_of_u64_finite; lia | apply float_of_u64_positive; lia].
  apply finite_number, float_of_u64_finite, wrap64_u64.
Qed.

(** C32. A sample holds percentages. Whatever the system calls report, also counters that run
    backwards, more free space than there is, or a load above a hundred, each of the three
    values is a number between zero and a hundred, and never the NaN that a division of two
    floats can give, which [clampPct] would let through. *)
Theorem metrics_are_percentages before after status space :
  (∀ load, status = Some load → u32 load) → (∀ total free, space = Some (total, free) → u64 total) →
  let s := collect before after status space in
  in_percent (sp_CPUPct s) ∧ in_percent (sp_MemPct s) ∧ in_percent (sp_DiskPct s).
Proof.
  intros Hm Hd s. subst s. unfold collect. simpl. split_and!; apply clampPct_percent.
  - apply cpuPercent_number.
  - unfold memPercent. destruct status as [load|]; [|done]. specialize (Hm load eq_refl). unfold u32 in Hm.
    apply finite_number, float_of_u64_finite. lia.
  - by apply diskPercent_number.
Qed.
(** Times that did not move back, and a machine whose counters did: the quotient is over a hundred. *)
Definition times (idle kernel user : Z) : SystemTimes := mkSystemTimes (mkFiletime idle 0) (mkFiletime kernel 1) (mkFiletime user 0).
Lemma metrics_are_percentages_witness :
  (∃ m e, sp_CPUPct (collect (times 100 400 0) (times 150 500 100) (Some 41%Z) (Some (1000, 250))%Z) = S754_finite false m e) ∧
  let s := collect (times 100 400 0) (times 90 500 0) (Some 300%Z) (Some (1000, 2000))%Z in
  in_percent (sp_CPUPct s) ∧ in_percent (sp_MemPct s) ∧ in_percent (sp_DiskPct s).
Proof.
  split; [eexists _, _; vm_compute; reflexivity|].
  apply metrics_are_percentages; [intros load [= <-]; unfold u32; lia | intros total free [= <- <-]; unfold u64; lia].
Defined.

(** ** Volumes *)

Lemma foldl_add_volume query ls m0 v l :
  foldl (add_volume query) m0 ls !! v = Some l →
  m0 !! v = Some l ∨ (l ∈ ls ∧ ∃ target, query l = Some target ∧ volume_name target = v).
Proof.
  revert m0. induction ls as [|l0 ls IH]; intros m0; simpl; [by left|]. intros [Hm|[Hl Ht]]%IH; [|right; split; [by right|done]].
  unfold add_volume in Hm. destruct (query l0) as [target|] eqn:Hq; [|by left]. case_bool_decide; [by left|].
  apply lookup_insert_Some in Hm as [[<- <-]|[_ Hm]]; [|by left]. right. split; [left|]. by exists target.
Qed.
(** A letter of the table names the volume it is found under. *)
Lemma build_volumes_sound query v l :
  build_volumes query !! v = Some l → l ∈ letters ∧ ∃ target, query l = Some target ∧ volume_name target = v.
Proof. unfold build_volumes. intros [Hn|Hq]%foldl_add_volume; [by rewrite lookup_empty in Hn | exact Hq]. Qed.

#[local] Opaque build_volumes.

(** What the cache holds at an instant. *)
Definition volumes_ok (query : time → string → option string) (now : time) (v : volumes) : Prop :=
  ∀ m, vo_cache v = Some m → ∃ t0, m = build_volumes (query t0) ∧ vo_expiry v = (t0 + volumeMapTTL)%Z ∧ (t0 ≤ now)%Z.
Lemma volumeMap_run query now v :
  volumes_ok query now v →
  ∃ v' t0, volumeMap query now v = (v', Ok (build_volumes (query t0))) ∧ volumes_ok query now v' ∧ (now - volumeMapTTL < t0 ≤ now)%Z.
Proof.
  intros Hok. assert (∃ v' t0, (mkVolumes (Some (build_volumes (query now))) (now + volumeMapTTL)%Z, Ok (build_volumes (query now)))
    = (v', Ok (build_volumes (query t0))) ∧ volumes_ok query now v' ∧ (now - volumeMapTTL < t0 ≤ now)%Z) as Hnew.
  { eexists _, now. split; [done|]. split; [intros m [= <-]; exists now; by split_and!|]. unfold volumeMapTTL, Minute, Second. lia. }
  unfold volumeMap. destruct (vo_cache v) as [m|] eqn:Hc; [|done]. destruct (Z.ltb_spec now (vo_expiry v)) as [Hlt|]; [|done].
  destruct (Hok m Hc) as (t0 & -> & He & Ht). exists v, t0. split; [done|]. split; [done|]. lia.
Qed.
Lemma volumes_ok_later query now now' v : (now ≤ now')%Z → volumes_ok query now v → volumes_ok query now' v.
Proof. intros Hle Hok m Hm. destruct (Hok m Hm) as (t0 & ? & ? & ?). exists t0. split_and!; [done | done | lia]. Qed.
(** Calls at one instant after the other. *)
Fixpoint volume_calls (query : time → string → option string) (calls : list time) : M volumes unit :=
  match calls with [] => mret tt | t :: calls => _ ← volumeMap query t; volume_calls query calls end.
Lemma volume_calls_ok query calls now v v' :
  Sorted Z.le (calls ++ [now]) → (∀ t, head calls = Some t → volumes_ok query t v) → (calls = [] → volumes_ok query now v) →
  volume_calls query calls v = (v', Ok tt) → volumes_ok query now v'.
Proof.
  revert v. induction calls as [|t calls IH]; intros v Hs Hh Hn Hc; simpl in *; [injection Hc as <-; auto|].
  destruct (volumeMap_run query t v (Hh t eq_refl)) as (v1 & t0 & Hr & Hok & _). rewrite (bind_run _ _ _ _ _ Hr) in Hc.
  apply Sorted_inv in Hs as [Hs Hle]. apply (IH v1); [done | | |done].
  - intros t' Ht'. destruct calls as [|t1 calls]; [done|]. injection Ht' as ->. inversion Hle. by eapply volumes_ok_later.
  - intros ->. simpl in Hle. inversion Hle. by eapply volumes_ok_later.
Qed.

(** A connection is attributed to the program that made it. After any number of calls at instants
    in order, the table of volumes that a reader of the security log uses comes from what the machine
    answered at most five minutes before; so if a network event is counted for
    a ringfenced program given by letter, either its path came without a volume, or the
    letter named the volume of the path at that instant: a file of the same name on another
    volume is never taken for it. *)
Theorem volumes_attribute `{EventXml} query calls now v' :
  Sorted Z.le (calls ++ [now]) → volume_calls query calls (mkVolumes None 0) = (v', Ok tt) →
  ∃ v2 m, volumeMap query now v' = (v2, Ok m) ∧
    ∀ now' ringfenced e vio, wfp_of now' ringfenced m e = Some vio →
     vi_Program vio ∈ ringfenced ∧
     (device_path (ToLower (TrimSpace (field e "Application"))) = None → vi_Program vio = ToLower (TrimSpace (field e "Application"))) ∧
     ∀ volume rest, device_path (ToLower (TrimSpace (field e "Application"))) = Some (volume, rest) →
       ∃ t0 letter target, (now - volumeMapTTL < t0 ≤ now)%Z ∧ letter ∈ letters ∧
         query t0 letter = Some target ∧ volume_name target = volume ∧ vi_Program vio = (letter +:+ rest)%string.
Proof.
  intros Hs Hc. assert (volumes_ok query now v') as Hok by (apply (volume_calls_ok query calls now (mkVolumes None 0)); done).
  destruct (volumeMap_run query now v' Hok) as (v2 & t0 & Hr & _ & Ht). exists v2, (build_volumes (query t0)). split; [done|].
  intros now' ringfenced e vio. unfold wfp_of. destruct (_ && _); [done|]. unfold resolveAppPath. intros Hw. case_bool_decide as Hp; [done|].
  destruct (device_path _) as [[volume rest]|] eqn:Hd.
  - destruct (build_volumes (query t0) !! volume) as [letter|] eqn:Hl; [|done]. simpl in Hw.
    case_bool_decide as Hin; [|done]. injection Hw as <-. split_and!; [done | done |]. intros ? ? [= <- <-].
    destruct (build_volumes_sound _ _ _ Hl) as (Hlet & target & Hq & Hv). by exists t0, letter, target.
  - simpl in Hw. case_bool_decide as Hin; [|done]. injection Hw as <-. by split_and!.
Qed.

Section volumes_witness.
#[local] Instance no_events : EventXml := {| xml_events _ := Ok []; parse_time _ := None |}.
(** A disk that is [C:] at first and [D:] later. *)
Definition moving_disk (t : time) (letter : string) : option string :=
  if bool_decide (letter = (if (t <? Minute)%Z then "c:" else "d:")) then Some "\Device\HarddiskVolume3" else None.
Definition connection (path : string) : evt := mkEvt 5156 1 "" [("Application", path); ("DestAddress", "10.0.0.1"); ("DestPort", "443")].
Definition watched : gset string := {["c:\app.exe"]}.
Definition after_calls : volumes * result unit := volume_calls moving_disk [Second] (mkVolumes None 0).
Lemma after_calls_Ok : volume_calls moving_disk [Second] (mkVolumes None 0) = (after_calls.1, Ok tt).
Proof. by vm_compute. Qed.
Definition counted (m : gmap string string) : Prop :=
  vi_Program <$> wfp_of 0 watched m (connection "\Device\HarddiskVolume3\app.exe") = Some "c:\app.exe".
Lemma connection_counted : match (volumeMap moving_disk (2 * Minute)%Z after_calls.1).2 with Ok m => counted m | Err _ => False end.
Proof. by vm_compute. Qed.
Lemma answer_of {A S} (P : A → Prop) (x : S * result A) s a : match x.2 with Ok a => P a | Err _ => False end → x = (s, Ok a) → P a.
Proof. by intros Hp ->. Qed.
Lemma in_order : Sorted Z.le [Second; (2 * Minute)%Z].
Proof. repeat constructor. by vm_compute. Qed.
Lemma volumes_attribute_witness :
  ∃ v2 m, volumeMap moving_disk (2 * Minute)%Z after_calls.1 = (v2, Ok m) ∧
    ∃ vio, wfp_of 0 watched m (connection "\Device\HarddiskVolume3\app.exe") = Some vio ∧
      vi_Program vio ∈ watched.
Proof.
  destruct (volumes_attribute moving_disk [Second] (2 * Minute)%Z after_calls.1 in_order after_calls_Ok) as (v2 & m & Hm & Ha).
  exists v2, m. split; [exact Hm|]. pose proof (answer_of counted (volumeMap moving_disk (2 * Minute)%Z after_calls.1) v2 m connection_counted Hm) as Hw. unfold counted in Hw. revert Ha Hw.
  generalize (connection "\Device\HarddiskVolume3\app.exe") watched. intros c w Ha Hw.
  destruct (wfp_of 0 w m c) as [vio|] eqn:Hv; [|discriminate Hw]. exists vio. split; [reflexivity|]. exact (proj1 (Ha _ _ _ _ Hv)).
Defined.
(** The table is kept for five minutes: a minute after the disk moved, its program is still taken for one
    on the old letter. *)
Definition letter_at (t : time) (v : volumes) : option string :=
  match (volumeMap moving_disk t v).2 with Ok m => m !! "harddiskvolume3" | Err _ => None end.
Example stale_letter :
  let v1 := (volumeMap moving_disk Second (mkVolumes None 0)).1 in
  letter_at (2 * Minute)%Z v1 = Some "c:" ∧ letter_at (6 * Minute)%Z v1 = Some "d:".
Proof. by vm_compute. Qed.
End volumes_witness.
