(* ===== verification/Executor.v ===== *)
(** * Retrying and executing commands

    Models [internal/sim/backoff.go], the delay before an agent tries again, and
    [internal/agent/executor/executor.go], which runs the commands of the server. *)

From stdpp Require Import gmap strings list.
From S2P Require Import Prelude World Commands Endpoint.

(** ** backoff.go *)

Definition backoffBase : duration := Second.
Definition backoffCap : duration := (5 * Minute)%Z.

(** [rand.Float64] is [k] over [2^53], with [0 <= k < 2^53]; times a whole number below
    [2^53] it is a whole number over [2^53], which the multiplication of floats rounds to 53
    significant bits, half to even. *)
Definition round53 (p : Z) : Z :=
  let e := Z.max 0 (Z.log2 p - 52) in
  let q := (p / 2 ^ e)%Z in
  let r := (p mod 2 ^ e)%Z in
  let up := (2 ^ e <? 2 * r)%Z || ((2 ^ e =? 2 * r)%Z && Z.odd q) in
  ((if up then q + 1 else q) * 2 ^ e)%Z.
(** [time.Duration(rnd()*float64(half))]: the conversion drops the fraction. *)
Definition jitter (k half : Z) : duration := (round53 (k * half) / 2 ^ 53)%Z.

Definition Backoff (attempt : nat) (k : Z) : duration :=
  let d := if (attempt <? 20)%nat then Z.min (Z.shiftl backoffBase (Z.of_nat attempt)) backoffCap else backoffCap in
  let half := (d / 2)%Z in
  (half + jitter k half)%Z.

(** A rounded product does not pass a bound that is itself a float. *)
Lemma round53_bound p half :
  (0 ≤ half < 2 ^ 52 → 0 ≤ p ≤ 2 ^ 53 * half → 0 ≤ round53 p ≤ 2 ^ 53 * half)%Z.
Proof.
  intros Hh Hp. unfold round53. set (e := Z.max 0 (Z.log2 p - 52)).
  assert (0 ≤ e ≤ 53)%Z as He.
  { unfold e. split; [lia|]. destruct (decide (p = 0%Z)) as [->|]; [by vm_compute|].
    enough (Z.log2 p < 105)%Z by lia. apply Z.log2_lt_pow2; [lia|].
    change (2 ^ 105)%Z with (2 ^ 53 * 2 ^ 52)%Z. nia. }
  assert (2 ^ 53 = 2 ^ (53 - e) * 2 ^ e)%Z as H53 by (rewrite <- Z.pow_add_r by lia; f_equal; lia).
  pose proof (Z.pow_pos_nonneg 2 e) as Hpos. pose proof (Z.pow_pos_nonneg 2 (53 - e)) as Hpos'.
  pose proof (Z.div_mod p (2 ^ e)) as Hdm. pose proof (Z.mod_pos_bound p (2 ^ e)) as Hr.
  pose proof (Z.div_pos p (2 ^ e)) as Hq.
  set (c := (2 ^ e)%Z) in *. set (f := (2 ^ (53 - e))%Z) in *. set (q := (p / c)%Z) in *. set (r := (p mod c)%Z) in *.
  rewrite H53 in *. clearbody c f q r.
  destruct (_ || _) eqn:Hup; [|nia].
  assert (0 < r)%Z as Hr0 by (apply orb_true_iff in Hup as [Hu|[Hu _]%andb_true_iff]; lia).
  assert (q < f * half)%Z by nia. nia.
Qed.
Lemma jitter_bound k half : (0 ≤ half < 2 ^ 52 → 0 ≤ k < 2 ^ 53 → 0 ≤ jitter k half ≤ half)%Z.
Proof.
  intros Hh Hk. unfold jitter. pose proof (round53_bound (k * half) half) as Hb.
  assert (0 ≤ k * half ≤ 2 ^ 53 * half)%Z as Hp by nia. specialize (Hb Hh Hp). split.
  - apply Z.div_pos; lia.
  - apply Z.div_le_upper_bound; lia.
Qed.

(** What one failure after another doubles, up to the cap. *)
Definition full_delay (attempt : nat) : duration := Z.min (2 ^ Z.of_nat attempt * Second) (5 * Minute).
Lemma full_delay_bounds n : (Second ≤ full_delay n ≤ 5 * Minute)%Z.
Proof.
  unfold full_delay, Minute, Second. pose proof (Z.pow_pos_nonneg 2 (Z.of_nat n)). lia.
Qed.

Lemma Backoff_full n k : Backoff n k = (full_delay n / 2 + jitter k (full_delay n / 2))%Z.
Proof.
  unfold Backoff. enough ((if (n <? 20)%nat then Z.min (Z.shiftl backoffBase (Z.of_nat n)) backoffCap else backoffCap) = full_delay n) as -> by done.
  unfold full_delay, backoffBase, backoffCap. destruct (Nat.ltb_spec n 20).
  - rewrite Z.shiftl_mul_pow2 by lia. lia.
  - assert (2 ^ 20 ≤ 2 ^ Z.of_nat n)%Z by (apply Z.pow_le_mono_r; lia). unfold Minute, Second in *. lia.
Qed.
Lemma Backoff_between n k : (0 ≤ k < 2 ^ 53 → full_delay n / 2 ≤ Backoff n k ≤ full_delay n)%Z.
Proof.
  intros Hk. rewrite Backoff_full. pose proof (full_delay_bounds n) as Hf. unfold Minute, Second in *.
  assert (0 ≤ full_delay n / 2 < 2 ^ 52)%Z as Hh.
  { split; [apply Z.div_pos; lia|]. apply Z.div_lt_upper_bound; [lia|]. apply (Z.le_lt_trans _ (5 * (60 * 1000000000))); [lia | reflexivity]. }
  pose proof (jitter_bound k (full_delay n / 2) Hh Hk) as Hj. pose proof (Z.mul_div_le (full_delay n) 2 ltac:(lia)) as H2.
  revert Hj H2. generalize (jitter k (full_delay n / 2)) (full_delay n / 2)%Z (full_delay n). lia.
Qed.
Lemma Backoff_within n k : (0 ≤ k < 2 ^ 53 → Second / 2 ≤ Backoff n k ≤ 5 * Minute)%Z.
Proof.
  intros Hk. pose proof (Backoff_between n k Hk) as [Hlo Hhi]. pose proof (full_delay_bounds n) as Hf. split; [|lia].
  etransitivity; [|exact Hlo]. apply Z.div_le_mono; lia.
Qed.

(** The delay before attempt [n] is the doubled base, at least half of it and at most all
    of it, whatever the random draw: it never exceeds five minutes and is never under half
    a second. The number of failed attempts has no bound, and neither the shift nor
    the sum ever leaves the 64 bits of a duration. *)
Theorem Backoff_bounds n k :
  (0 ≤ k < 2 ^ 53)%Z →
  (full_delay n / 2 ≤ Backoff n k ≤ full_delay n ∧ Second / 2 ≤ Backoff n k ≤ 5 * Minute)%Z ∧
  ((n < 20)%nat → Z.shiftl backoffBase (Z.of_nat n) < 2 ^ 63)%Z.
Proof.
  intros Hk. split; [split; [by apply Backoff_between | by apply Backoff_within]|].
  intros Hn. unfold backoffBase, Second. rewrite Z.shiftl_mul_pow2 by lia.
  assert (2 ^ Z.of_nat n ≤ 2 ^ 20)%Z by (apply Z.pow_le_mono_r; lia). lia.
Qed.
Lemma Backoff_bounds_witness :
  (0 ≤ 2 ^ 52 < 2 ^ 53)%Z ∧ Backoff 3 (2 ^ 52) = (6 * Second)%Z ∧ (full_delay 3 / 2 ≤ Backoff 3 (2 ^ 52) ≤ full_delay 3)%Z.
Proof.
  split; [lia|]. split; [reflexivity|].
  destruct (Backoff_bounds 3 (2 ^ 52)) as [[Hb _] _]; [split; [discriminate | reflexivity] | exact Hb].
Defined.

(** ** executor.go *)

Definition ok_result (msg : string) : bool * string := (true, msg).
Definition fail_result (msg : string) : bool * string := (false, msg).

(** The interface [Actions], over the state of whoever implements it. *)
Class Actions (S : Type) := {
  act_RefreshInventory : M S unit;
  act_RotateCertificate : M S unit;
  act_Uninstall : M S unit;
  act_UpdateAgent : CommandPB → M S unit;
}.
(** [error.Error] *)
Class ErrorText := error_string : err → string.

(** The executor's map of results, in memory, beside what its actions change. *)
Record executor (S : Type) := mkExecutor { ex_host : S; ex_seen : gmap string CommandResult }.
Arguments mkExecutor {S} _ _.
Arguments ex_host {S} _.
Arguments ex_seen {S} _.

Section executor.
Context {S : Type} `{Actions S, ErrorText}.

Definition answered (r : result unit) : bool * string :=
  match r with Ok _ => ok_result "done" | Err e => fail_result (error_string e) end.
(** [dispatch]; its result gets the id of the command in [Run]. *)
Definition dispatch (cmd : CommandPB) : M S (bool * string) :=
  match pb_type cmd with
  | PING => mret (ok_result "pong")
  | REFRESH_INVENTORY => r ← attempt act_RefreshInventory; mret (answered r)
  | ROTATE_CERTIFICATE => r ← attempt act_RotateCertificate; mret (answered r)
  | UNINSTALL => r ← attempt act_Uninstall; mret (answered r)
  | UPDATE_AGENT => r ← attempt (act_UpdateAgent cmd); mret (answered r)
  | UNSPECIFIED => mret (fail_result "unsupported command")
  end.

(** The loop of a session calls it from one goroutine, so that nothing happens between
    the two critical sections. *)
Definition Run_command (cmd : CommandPB) : M (executor S) CommandResult :=
  λ e,
    match ex_seen e !! pb_id cmd with
    | Some prev => (e, Ok prev)
    | None =>
        let '(h, r) := dispatch cmd (ex_host e) in
        match r with
        | Ok (b, msg) =>
            let res := mkCommandResult (pb_id cmd) b msg in
            (mkExecutor h (<[pb_id cmd := res]> (ex_seen e)), Ok res)
        | Err x => (mkExecutor h (ex_seen e), Err x)
        end
    end.

(** [dispatch] always has an answer. *)
Lemma dispatch_Ok cmd s : ∃ s' b msg, dispatch cmd s = (s', Ok (b, msg)).
Proof.
  assert (∀ m : M S unit, ∃ s' b msg, (r ← attempt m; mret (answered r)) s = (s', Ok (b, msg))) as Hm.
  { intros m. unfold attempt, mbind, M_bind. destruct (m s) as [s1 [[]|x]]; eexists _, _, _; reflexivity. }
  unfold dispatch. destruct (pb_type cmd); try apply Hm; eexists _, _, _; reflexivity.
Qed.

(** ** Every command at most once *)

Fixpoint run_commands (cmds : list CommandPB) : M (executor S) (list CommandResult) :=
  match cmds with
  | [] => mret []
  | c :: cs => r ← Run_command c; rs ← run_commands cs; mret (r :: rs)
  end.
(** The reference: the actions themselves, one after the other. *)
Fixpoint dispatch_all (cmds : list CommandPB) : M S (list CommandResult) :=
  match cmds with
  | [] => mret []
  | c :: cs => bm ← dispatch c; rs ← dispatch_all cs; mret (mkCommandResult (pb_id c) bm.1 bm.2 :: rs)
  end.
(** The first command of each id that is not known yet. *)
Fixpoint firsts (seen : gset string) (cmds : list CommandPB) : list CommandPB :=
  match cmds with
  | [] => []
  | c :: cs => if decide (pb_id c ∈ seen) then firsts seen cs else c :: firsts ({[pb_id c]} ∪ seen) cs
  end.

Lemma firsts_new seen cmds c : c ∈ firsts seen cmds → pb_id c ∉ seen ∧ c ∈ cmds.
Proof.
  revert seen. induction cmds as [|c0 cs IH]; intros seen; simpl; [by intros ?%elem_of_nil|].
  case_decide as Hs.
  - intros Hc. apply IH in Hc as [? ?]. split; [done|]. by right.
  - intros [->|Hc]%elem_of_cons; [split; [done|by left]|]. apply IH in Hc as [? ?]. split; [set_solver | by right].
Qed.
Lemma firsts_nodup seen cmds : NoDup (pb_id <$> firsts seen cmds).
Proof.
  revert seen. induction cmds as [|c cs IH]; intros seen; simpl; [constructor|].
  case_decide; [apply IH|]. simpl. constructor; [|apply IH].
  intros (c' & Hq & Hc')%list_elem_of_fmap. apply firsts_new in Hc' as [Hn _]. set_solver.
Qed.

(** One command more, in the program and in the reference. *)
Lemma Run_command_first c e :
  pb_id c ∉ dom (ex_seen e) →
  ∃ s b msg, dispatch c (ex_host e) = (s, Ok (b, msg)) ∧
    Run_command c e = (mkExecutor s (<[pb_id c := mkCommandResult (pb_id c) b msg]> (ex_seen e)), Ok (mkCommandResult (pb_id c) b msg)).
Proof.
  intros Hn%not_elem_of_dom. destruct (dispatch_Ok c (ex_host e)) as (s & b & msg & Hd). exists s, b, msg.
  split; [done|]. unfold Run_command. by rewrite Hn, Hd.
Qed.
Lemma Run_command_again c e : pb_id c ∈ dom (ex_seen e) → ∃ r, ex_seen e !! pb_id c = Some r ∧ Run_command c e = (e, Ok r).
Proof. intros [r Hr]%elem_of_dom. exists r. split; [done|]. unfold Run_command. by rewrite Hr. Qed.

(** C28. A command is executed at most once in the life of the agent's process. Running any
    sequence of commands, repeats included, leaves the device exactly as executing the first
    command of each new id, one after the other, and nothing else. Every command is
    answered, a repeat with the very answer of the first time. *)
Theorem commands_run_once cmds e :
  ∃ e' rs first_rs,
    run_commands cmds e = (e', Ok rs) ∧
    dispatch_all (firsts (dom (ex_seen e)) cmds) (ex_host e) = (ex_host e', Ok first_rs) ∧
    NoDup (pb_id <$> firsts (dom (ex_seen e)) cmds) ∧
    ex_seen e' = foldl (λ m r, <[cr_id r := r]> m) (ex_seen e) first_rs ∧
    Forall2 (λ c r, ex_seen e' !! pb_id c = Some r) cmds rs ∧ ex_seen e ⊆ ex_seen e'.
Proof.
  revert e. induction cmds as [|c cs IH]; intros e.
  { exists e, [], []. split_and!; try done; constructor. }
  simpl. case_decide as Hs.
  - destruct (Run_command_again c e Hs) as (r & Hr & Hc). destruct (IH e) as (e' & rs & frs & Hrs & Hd & Hn & Hf & Hall & Hsub).
    exists e', (r :: rs), frs. rewrite (bind_run _ _ _ _ _ Hc), (bind_run _ _ _ _ _ Hrs). split_and!; try done.
    constructor; [|done]. by apply (lookup_weaken (ex_seen e)).
  - destruct (Run_command_first c e Hs) as (s & b & msg & Hd & Hc). set (res := mkCommandResult _ b msg) in *.
    destruct (IH (mkExecutor s (<[pb_id c := res]> (ex_seen e)))) as (e' & rs & frs & Hrs & Hds & Hn & Hf & Hall & Hsub).
    simpl in Hds, Hn, Hf, Hsub. rewrite dom_insert_L in Hds, Hn.
    exists e', (res :: rs), (res :: frs). cbn [dispatch_all]. rewrite (bind_run _ _ _ _ _ Hc), (bind_run _ _ _ _ _ Hrs), (bind_run _ _ _ _ _ Hd), (bind_run _ _ _ _ _ Hds). split_and!; try done.
    + simpl. constructor; [|done]. intros (c' & Hq & [Hc' _]%firsts_new)%list_elem_of_fmap. set_solver.
    + constructor; [|done]. apply (lookup_weaken _ _ _ _ (lookup_insert_eq _ _ _) Hsub).
    + etransitivity; [|done]. apply insert_subseteq. by apply not_elem_of_dom.
Qed.
End executor.
