(* ===== verification/Runner.v ===== *)
(** * The agent's control loop

    Models [internal/agent/runner/runner.go] with the parts of the agent it drives: the
    scan of running processes ([scan/scan_windows.go], [motw/motw_windows.go]), the actions
    of [actions/actions.go] as [cmd/agent/main.go] wires them, and the loop itself:
    connect, heartbeat, obey, synchronize, report, and try again. *)

From Stdlib Require Import Ascii SpecFloat.
From stdpp Require Import gmap strings list.
From S2P Require Import Prelude GoStr Db Hub World StoreCore StoreTelemetry StoreRingfence Commands Policies Enroll Bootstrap AgentApi.
From S2P Require Import Endpoint Updater Identity Executor Authenticode WinEvents Fence EndpointControls.

(** ** What runs on the endpoint: scan.go, scan_windows.go, motw_windows.go *)

Record Observed := mkObserved {
  ob_SHA256 : string; ob_Path : string; ob_Signer : string; ob_SignerTBS : string; ob_SignerVerified : bool;
  ob_Downloaded : bool; ob_DownloadSource : string;
}.
Definition maxStreamBytes : N := N.shiftl 8 10.
Definition streamName : string := ":Zone.Identifier".
(** [motw.Read]: no stream is no mark. *)
Definition motw_Read (path : string) (d : disk) : MotwInfo :=
  match files d !! (path +:+ streamName) with
  | Some raw => ParseMotw (LimitReader maxStreamBytes raw)
  | None => mkMotw false 0 "" ""
  end.
(** [signature.FromFile] of a file on the disk. *)
Definition signature_of `{SignatureLib, Digest} (path : string) (d : disk) : result Info :=
  match files d !! path with Some f => FromFile path (to_list f) | None => Err (no_file path) end.

Section scan.
Context `{Hasher, SignatureLib, Digest}.
Definition observe (path f : string) (d : disk) : Observed :=
  let m := motw_Read path d in
  match signature_of path d with
  | Ok i => mkObserved (AuthenticodeHash (to_list f)) path (si_SubjectName i) (si_TBSHash i) (si_Verified i) (Downloaded m) (Source m)
  | Err _ => mkObserved (AuthenticodeHash (to_list f)) path "" "" false (Downloaded m) (Source m)
  end.
(** The loop over the snapshot; a process whose image cannot be told has an empty path. *)
Fixpoint scan_loop (seen : gset string) (paths : list string) (d : disk) : list Observed :=
  match paths with
  | [] => []
  | p :: ps =>
      if bool_decide (p = "") || bool_decide (p ∈ seen) then scan_loop seen ps d
      else
        match files d !! p with
        | Some f => observe p f d :: scan_loop ({[p]} ∪ seen) ps d
        | None => scan_loop ({[p]} ∪ seen) ps d
        end
  end.
Definition Running (snapshot : result (list string)) (d : disk) : result (list Observed) :=
  paths ← snapshot; Ok (scan_loop ∅ paths d).

(** [EnrichBlockEvents] *)
Definition enrich (d : disk) (e : BlockEvent) : BlockEvent :=
  if bool_decide (bk_Path e = "") || negb (bool_decide (bk_SignerTBS e = "")) then e
  else
    match signature_of (bk_Path e) d with
    | Err _ => e
    | Ok i =>
        mkBlock (bk_SHA256 e) (bk_Path e) (if bool_decide (bk_Signer e = "") then si_SubjectName i else bk_Signer e)
          (bk_Blocked e) (bk_At e) (si_TBSHash i) (si_Verified i)
    end.
Definition EnrichBlockEvents (d : disk) (evs : list BlockEvent) : list BlockEvent := enrich d <$> evs.
End scan.

(** ** The interfaces the runner drives *)

Class PolicyEnforcer (En : Type) := {
  en_Apply : string → string → string → M En unit;    (* version, mode, XML *)
  en_Events : M En (list BlockEvent);
  en_Status : En → EnforcerStatus;
}.
Class ControlEnforcer (Ct : Type) := ct_Apply : Controls → M Ct unit.
Class FenceEnforcer (Rf : Type) := {
  rf_Apply : Ringfence → M Rf unit; rf_Violations : M Rf (list Violation); rf_Status : M Rf FenceStatus;
}.

(** The server as an agent calls it, over a connection with its client certificate. A call
    has an answer or a gRPC status; one that fails otherwise has an error. [rpc_Connect] opens
    the stream at an instant, and [stream_Send] sends on it. *)
Class AgentServer (Srv : Type) := {
  rpc_Connect : time → ClientTLS → M Srv (rpc_error + unit);
  stream_Send : ClientTLS → AgentMessage → M Srv unit;
  rpc_GetPolicy : ClientTLS → M Srv (rpc_error + Effective);
  rpc_Observe : ClientTLS → list Seen → M Srv (rpc_error + unit);
  rpc_ReportBlocks : ClientTLS → list BlockMsg → M Srv (rpc_error + unit);
  rpc_GetControls : ClientTLS → M Srv (rpc_error + DeviceControls);
  rpc_GetRingfence : ClientTLS → M Srv (rpc_error + ResolvedRingfence);
  rpc_ReportRingfenceEvents : ClientTLS → list RingfenceMsg → bool → M Srv (rpc_error + unit);
  rpc_ReportMetrics : ClientTLS → spec_float → spec_float → spec_float → M Srv (rpc_error + unit);
  rpc_ReportEvents : ClientTLS → list (string * string * Z) → M Srv (rpc_error + unit);
}.

(** An error with a gRPC status, or another one. *)
Inductive failure := Status_err (e : rpc_error) | Plain (e : err).
Definition code_of (e : rpc_error) : rpc_code := match e with RpcErr c _ | RpcErrOf c _ => c end.
Definition is_unauthenticated (f : failure) : bool :=
  match f with Status_err e => match code_of e with Unauthenticated => true | _ => false end | Plain _ => false end.

(** What one session meets, in order: the context ends, the stream ends, the heartbeat is
    due, a requested heartbeat is picked up, a message arrives (with or without a command),
    or the ticker of one of the background loops fires. *)
Inductive event :=
  | EvCancel | EvRecvErr (f : failure) | EvTick | EvRefresh | EvRecv (m : option SignedCommand) | EvApp (i : nat) | EvMetrics (i : nat).
(** One attempt of the environment: how long dialling takes, the draw for the backoff, and
    the events with the time before each. *)
Record script := mkScript { s_dial : duration; s_random : Z; s_events : list (duration * event) }.

(** ** The process *)

(** The agent's files, clock and server, the three enforcers, whether a heartbeat was
    requested, [asrReported], how many sessions started their background loops, and the
    programs started. *)
Record proc (Srv En Ct Rf : Type) := mkProc {
  pc_agent : agent Srv; pc_en : En; pc_ct : Ct; pc_rf : Rf; pc_refresh : bool; pc_asr : option bool; pc_loops : nat;
  pc_started : list (list string);
}.
Arguments mkProc {Srv En Ct Rf} _ _ _ _ _ _ _ _.
Arguments pc_agent {Srv En Ct Rf} _.
Arguments pc_en {Srv En Ct Rf} _.
Arguments pc_ct {Srv En Ct Rf} _.
Arguments pc_rf {Srv En Ct Rf} _.
Arguments pc_refresh {Srv En Ct Rf} _.
Arguments pc_asr {Srv En Ct Rf} _.
Arguments pc_loops {Srv En Ct Rf} _.
Arguments pc_started {Srv En Ct Rf} _.

Section runner.
Context {Srv En Ct Rf : Type} `{EnrollServer Srv, AgentServer Srv, PolicyEnforcer En, ControlEnforcer Ct, FenceEnforcer Rf}.
Context `{IdentityLib, KeyLib, Pki, Hasher, Protector, Crypto, SignatureLib, Digest, Download_lib, EventXml, ErrorText}.
(** The fields of [Runner] that do not change: which of the optional parts are set, and
    [UpdatePub]. *)
Context (paths : Paths) (enforcer_on controls_on ringfence_on events_on metrics_on : bool) (update_pub : string).
(** The machine: its inventory, the images of its processes, its metrics, what [wevtutil]
    prints of the security log, its own executable, and whether a program can be started. *)
Context (inventory : time → Inventory) (snapshot : time → result (list string)) (sample : time → result (spec_float * spec_float * spec_float)).
Context (security_log : time → result string) (self : result string) (exec_Start : list string → result unit).

Abbreviation process := (proc Srv En Ct Rf).
Definition on_agent {A} (m : M (agent Srv) A) : M process A :=
  λ p, let '(a, r) := m (pc_agent p) in
       (mkProc a (pc_en p) (pc_ct p) (pc_rf p) (pc_refresh p) (pc_asr p) (pc_loops p) (pc_started p), r).
Definition on_en {A} (m : M En A) : M process A :=
  λ p, let '(e, r) := m (pc_en p) in
       (mkProc (pc_agent p) e (pc_ct p) (pc_rf p) (pc_refresh p) (pc_asr p) (pc_loops p) (pc_started p), r).
Definition on_ct {A} (m : M Ct A) : M process A :=
  λ p, let '(c, r) := m (pc_ct p) in
       (mkProc (pc_agent p) (pc_en p) c (pc_rf p) (pc_refresh p) (pc_asr p) (pc_loops p) (pc_started p), r).
Definition on_rf {A} (m : M Rf A) : M process A :=
  λ p, let '(f, r) := m (pc_rf p) in
       (mkProc (pc_agent p) (pc_en p) (pc_ct p) f (pc_refresh p) (pc_asr p) (pc_loops p) (pc_started p), r).
Definition set_refresh (b : bool) (p : process) : process :=
  mkProc (pc_agent p) (pc_en p) (pc_ct p) (pc_rf p) b (pc_asr p) (pc_loops p) (pc_started p).
Definition set_asr_reported (b : bool) (p : process) : process :=
  mkProc (pc_agent p) (pc_en p) (pc_ct p) (pc_rf p) (pc_refresh p) (Some b) (pc_loops p) (pc_started p).
Definition start_loops (p : process) : process :=
  mkProc (pc_agent p) (pc_en p) (pc_ct p) (pc_rf p) (pc_refresh p) (pc_asr p) (S (pc_loops p)) (pc_started p).
Definition elapse (d : duration) : M process unit :=
  on_agent (λ a, (mkAgent (ag_disk a) (ag_now a + d)%Z (ag_drawn a) (ag_srv a), Ok tt)).
Definition pc_now : M process time := gets (λ p, ag_now (pc_agent p)).
Definition pc_disk : M process disk := gets (λ p, ag_disk (pc_agent p)).
Definition on_srv {A} (m : M Srv A) : M process A := on_agent (ag_on_srv m).

(** *** The actions of the executor, as main.go wires them *)

(** [RequestHeartbeat]: a request while one is pending is dropped. *)
Definition RequestHeartbeat : M process unit := modify (set_refresh true).
Definition start_program (argv : list string) : M process unit :=
  match exec_Start argv with
  | Err e => fail e
  | Ok _ => modify (λ p, mkProc (pc_agent p) (pc_en p) (pc_ct p) (pc_rf p) (pc_refresh p) (pc_asr p) (pc_loops p) (pc_started p ++ [argv]))
  end.
(** The closures: [Renew] and [UpdatePub]. *)
Definition renew_now : M process unit :=
  l ← on_agent (ag_on_disk (Load paths)); on_agent (Renew paths l).
Definition current_update_pub : M process string :=
  r ← attempt (on_agent (ag_on_disk (Load paths)));
  mret (match r with Ok l => en_UpdatePub (ld_Enrollment l) | Err _ => "" end).
Definition uninstaller : M process unit :=
  start_program [Join2 (InstallDir paths) "freelocker-agent.exe"; "uninstall"; "-force-fromserver"].
Definition update_action (cmd : CommandPB) : M process unit :=
  pub ← current_update_pub;
  plan ← on_agent (ag_on_disk (UpdateAgent paths pub self false (pb_payload cmd)));
  match plan with Some p => start_program (pl_UpdaterExe p :: SwapArgs p) | None => mret tt end.
#[export] Instance agent_actions : Actions process := {
  act_RefreshInventory := RequestHeartbeat; act_RotateCertificate := renew_now; act_Uninstall := uninstaller;
  act_UpdateAgent := update_action;
}.

(** *** runner.go *)

Definition EnsureEnrolled (token : string) (hw : HardwareInfo) : M process unit :=
  d ← pc_disk;
  if Enrolled paths d then mret tt else _ ← on_agent (AgentEnroll paths token hw); mret tt.

Definition heartbeat (tls : ClientTLS) : M process unit :=
  t ← pc_now;
  p ← get;
  let version := if enforcer_on then AppliedVersion (en_Status (pc_en p)) else "" in
  on_srv (stream_Send tls (Heartbeat (inventory t) version)).

(** The client of a background loop: its session's connection, or that connection closed. *)
Abbreviation client := (option ClientTLS).
Definition call {A} (c : client) (f : ClientTLS → M Srv (rpc_error + A)) : M process (failure + A) :=
  match c with
  | None => mret (inl (Plain (EMsg "grpc: the client connection is closing")))
  | Some tls =>
      r ← attempt (on_srv (f tls));
      mret (match r with Ok (inl e) => inl (Status_err e) | Ok (inr a) => inr a | Err e => inl (Plain e) end)
  end.

(** An error of the functions below is a panic, as they return nothing; [ed25519.Verify]
    panics on a key of the wrong length. *)
Definition panic_key_length : err := EMsg "ed25519: bad public key length".
Definition syncPolicy (c : client) : M process unit :=
  r ← call c rpc_GetPolicy;
  match r with
  | inl _ => mret tt
  | inr eff =>
      p ← get;
      if bool_decide (ef_Version eff = AppliedVersion (en_Status (pc_en p))) then mret tt
      else if negb (String.length update_pub =? PublicKeySize)%nat then fail panic_key_length
      else if negb (ed_verify update_pub (ef_Version eff) (ef_Signature eff)) then mret tt
      else _ ← attempt (on_en (en_Apply (ef_Version eff) (ef_Mode eff) (ef_XML eff))); mret tt
  end.

Definition to_seen (o : Observed) : Seen :=
  mkSeen (ob_SHA256 o) (ob_Path o) (ob_Signer o) (ob_SignerTBS o) (ob_SignerVerified o) (Some (ob_Downloaded o)) (ob_DownloadSource o).
Definition reportObservations (c : client) : M process unit :=
  t ← pc_now;
  d ← pc_disk;
  match Running (snapshot t) d with
  | Err _ | Ok [] => mret tt
  | Ok obs => _ ← call c (λ tls, rpc_Observe tls (to_seen <$> obs)); mret tt
  end.

Definition to_block_msg (e : BlockEvent) : BlockMsg :=
  mkBlockMsg (bk_SHA256 e) (bk_Path e) (bk_Signer e) (bk_Blocked e) (to_unix (bk_At e)) (bk_SignerTBS e) (bk_SignerVerified e).
Definition reportBlocks (c : client) : M process unit :=
  r ← attempt (on_en en_Events);
  match r with
  | Err _ | Ok [] => mret tt
  | Ok evs =>
      d ← pc_disk;
      _ ← call c (λ tls, rpc_ReportBlocks tls (to_block_msg <$> EnrichBlockEvents d evs)); mret tt
  end.

Definition syncControls (c : client) : M process unit :=
  if negb controls_on then mret tt
  else
    r ← call c rpc_GetControls;
    match r with
    | inl _ => mret tt
    | inr dc =>
        _ ← attempt (on_ct (ct_Apply (mkControls (StoreTelemetry.USBStorageBlocked dc) (StoreTelemetry.NetworkBlocked dc)
                                        (StoreTelemetry.ElevationBlocked dc))));
        mret tt
    end.

Definition to_ringfence (r : ResolvedRingfence) : Ringfence :=
  mkRingfence (rr_Version r) (rr_Mode r) ((λ p : string * bool, mkProgram p.1 p.2) <$> rr_Programs r)
    ((λ p : string * string, mkProtection p.1 p.2) <$> rr_Protections r).
Definition to_ringfence_msg (v : Violation) : RingfenceMsg := (vi_Kind v, vi_Program v, vi_Detail v, vi_Enforced v, to_unix (vi_At v)).
Definition syncRingfence (c : client) : M process unit :=
  if negb ringfence_on then mret tt
  else
    r ← call c rpc_GetRingfence;
    match r with
    | inl _ => mret tt
    | inr resp =>
        st ← on_rf rf_Status;
        st ← (if bool_decide (rr_Version resp = fs_Applied st) then mret st
              else _ ← attempt (on_rf (rf_Apply (to_ringfence resp))); on_rf rf_Status);
        vs ← attempt (on_rf rf_Violations);
        match vs with
        | Err _ => mret tt
        | Ok vs =>
            p ← get;
            if bool_decide (vs = []) && bool_decide (pc_asr p = Some (fs_ASRAvailable st)) then mret tt
            else
              r ← call c (λ tls, rpc_ReportRingfenceEvents tls (to_ringfence_msg <$> vs) (fs_ASRAvailable st));
              match r with
              | inl _ => mret tt
              | inr _ => modify (set_asr_reported (fs_ASRAvailable st))
              end
        end
    end.

Definition appControlTick (c : client) : M process unit :=
  _ ← (if enforcer_on then _ ← syncPolicy c; _ ← reportObservations c; reportBlocks c else mret tt);
  _ ← syncControls c;
  syncRingfence c.

(** [winReader.Read]: the latest events of the log, seen or not. *)
Definition Events_Read (t : time) : result (list DevEvent) :=
  match security_log t with Ok out => ParseSecurity out | Err e => Err (EWrap "wevtutil" e) end.
Definition reportEvents (c : client) : M process unit :=
  if negb events_on then mret tt
  else
    t ← pc_now;
    match Events_Read t with
    | Err _ | Ok [] => mret tt
    | Ok evs => _ ← call c (λ tls, rpc_ReportEvents tls ((λ e, (de_Kind e, de_Summary e, to_unix (de_At e))) <$> evs)); mret tt
    end.
Definition metrics_report (c : client) : M process unit :=
  t ← pc_now;
  _ ← match sample t with
      | Err _ => mret tt
      | Ok (cpu, mem, dsk) => _ ← call c (λ tls, rpc_ReportMetrics tls cpu mem dsk); mret tt
      end;
  reportEvents c.

Abbreviation agent_process := (executor process).
Definition on_proc {A} (m : M process A) : M agent_process A :=
  λ e, let '(p, r) := m (ex_host e) in (mkExecutor p (ex_seen e), r).

Definition handleCommand (l : Loaded) (tls : ClientTLS) (sc : SignedCommand) : M agent_process unit :=
  t ← on_proc pc_now;
  if negb (String.length (en_CommandPub (ld_Enrollment l)) =? PublicKeySize)%nat then fail panic_key_length
  else match Verify (en_CommandPub (ld_Enrollment l)) sc (en_DeviceID (ld_Enrollment l)) t with
  | Err _ => mret tt
  | Ok cmd =>
      res ← Run_command cmd;
      _ ← attempt (on_proc (on_srv (stream_Send tls (CommandResultMsg res))));
      mret tt
  end.

(** A tick of background loop [i]: the loops of a session get its connection, and outlive it. *)
Definition client_of (tls : ClientTLS) (live : bool) (i : nat) (p : process) : client :=
  if live && (S i =? pc_loops p)%nat then Some tls else None.
Definition app_tick (tls : ClientTLS) (live : bool) (i : nat) : M agent_process unit :=
  on_proc (p ← get;
           if (enforcer_on || controls_on || ringfence_on) && (i <? pc_loops p)%nat then appControlTick (client_of tls live i p) else mret tt).
Definition metrics_tick (tls : ClientTLS) (live : bool) (i : nat) : M agent_process unit :=
  on_proc (p ← get; if metrics_on && (i <? pc_loops p)%nat then metrics_report (client_of tls live i p) else mret tt).

(** A session ends with the context, or fails, with the events that are left for the time it
    waits; or it still goes on when the script is over. *)
Inductive outcome := Live | Cancelled | Failed (f : failure) (rest : list (duration * event)).
Fixpoint event_loop (l : Loaded) (tls : ClientTLS) (evs : list (duration * event)) : M agent_process outcome :=
  match evs with
  | [] => mret Live
  | (d, ev) :: evs =>
      _ ← on_proc (elapse d);
      match ev with
      | EvCancel => _ ← attempt (on_proc (on_srv (stream_Send tls Goodbye))); mret Cancelled
      | EvRecvErr f => mret (Failed f evs)
      | EvTick =>
          r ← attempt (on_proc (heartbeat tls));
          match r with Err e => mret (Failed (Plain e) evs) | Ok _ => event_loop l tls evs end
      | EvRefresh =>
          p ← gets ex_host;
          if pc_refresh p then
            _ ← on_proc (modify (set_refresh false));
            r ← attempt (on_proc (heartbeat tls));
            match r with Err e => mret (Failed (Plain e) evs) | Ok _ => event_loop l tls evs end
          else event_loop l tls evs
      | EvRecv None => event_loop l tls evs
      | EvRecv (Some sc) => _ ← handleCommand l tls sc; event_loop l tls evs
      | EvApp i => _ ← app_tick tls true i; event_loop l tls evs
      | EvMetrics i => _ ← metrics_tick tls true i; event_loop l tls evs
      end
  end.

Definition RenewAfter : duration := (60 * 24 * Hour)%Z.
(** The first half of [session]: the identity, renewed when it is due. *)
Definition open_identity : M process Loaded :=
  l ← on_agent (ag_on_disk (Load paths));
  t ← pc_now;
  if (ld_CertNotAfter l - t <? RenewAfter)%Z then
    r ← attempt (on_agent (Renew paths l));
    match r with Err _ => mret l | Ok _ => on_agent (ag_on_disk (Load paths)) end
  else mret l.
Definition session (s : script) : M agent_process (bool * outcome) :=
  r ← attempt (on_proc open_identity);
  match r with
  | Err e => mret (false, Failed (Plain e) (s_events s))
  | Ok l =>
      match TLSConfig l with
      | Err e => mret (false, Failed (Plain e) (s_events s))
      | Ok tls =>
          _ ← on_proc (elapse (s_dial s));
          t ← on_proc pc_now;
          c ← on_proc (call (Some tls) (rpc_Connect t));
          match c with
          | inl f => mret (false, Failed f (s_events s))
          | inr _ =>
              h ← attempt (on_proc (heartbeat tls));
              match h with
              | Err e => mret (false, Failed (Plain e) (s_events s))
              | Ok _ =>
                  _ ← on_proc (modify start_loops);
                  o ← event_loop l tls (s_events s);
                  mret (true, o)
              end
          end
      end
  end.

(** The wait before the next attempt, in which the loops of earlier sessions go on: whether
    the context ends. *)
Definition no_tls : ClientTLS := mkClientTLS "" "" "" "".
Fixpoint idle (evs : list (duration * event)) : M agent_process bool :=
  match evs with
  | [] => mret false
  | (_, ev) :: evs =>
      match ev with
      | EvCancel => mret true
      | EvApp i => _ ← app_tick no_tls false i; idle evs
      | EvMetrics i => _ ← metrics_tick no_tls false i; idle evs
      | _ => idle evs
      end
  end.

(** [Run] over the attempts the environment provides: whether it returned, and what it logs of
    each attempt: when it began, whether it connected and how long it waits. *)
Inductive run_end := Running_still | Stopped (f : option failure).
Record attempt_log := mkAttempt { at_started : time; at_connected : bool; at_wait : duration }.
Fixpoint Run (n : nat) (ss : list script) : M agent_process (run_end * list attempt_log) :=
  match ss with
  | [] => mret (Running_still, [])
  | s :: ss =>
      t ← on_proc pc_now;
      co ← session s;
      let n := if co.1 : bool then 0 else n in
      let d := Backoff n (s_random s) in
      match co.2 with
      | Live => mret (Running_still, [mkAttempt t co.1 0])
      | Cancelled => mret (Stopped None, [mkAttempt t co.1 0])
      | Failed f rest =>
          if is_unauthenticated f then mret (Stopped (Some f), [mkAttempt t co.1 0])
          else
            stop ← idle rest;
            if stop : bool then mret (Stopped None, [mkAttempt t co.1 d])
            else
              _ ← on_proc (elapse d);
              el ← Run (S n) ss;
              mret (el.1, mkAttempt t co.1 d :: el.2)
      end
  end.
End runner.

(** ** The enforcers of the builds *)

(** Elsewhere than on Windows: [NoopEnforcer] of the three packages. *)
Definition noop_enforcer : PolicyEnforcer EnforcerStatus :=
  {| en_Apply := Noop_Enforce; en_Events := mret []; en_Status := id |}.
Definition noop_controls : ControlEnforcer Controls := Noop_Controls.
Definition noop_fence : FenceEnforcer FenceStatus :=
  {| rf_Apply := Noop_Apply; rf_Violations := Noop_Violations; rf_Status := gets id |}.

(** On Windows. *)
Definition wdac_enforcer `{CiTools, EventXml} (DataDir : string) : PolicyEnforcer wdac :=
  {| en_Apply := Wdac_Apply DataDir; en_Events := Wdac_Events; en_Status := wd_status |}.
Definition win_controls (serverIPs : list string) : ControlEnforcer WinControls := Controls_Apply serverIPs.
Definition win_fence `{Hasher, EventXml, WinTools} (agentImages : list string) : FenceEnforcer fence :=
  {| rf_Apply := Fence.Apply agentImages; rf_Violations := Fence.Violations; rf_Status := Fence.Status |}.
