(* ===== verification/Backend.v ===== *)
(** * The server behind an agent

    The interfaces through which an agent calls its server ([EnrollServer] of [Identity] and
    [AgentServer] of [Runner]), implemented by the modelled handlers of [agentapi] behind
    the authentication of [auth.go]; and a concrete agent with the laws its libraries
    promise, on which the examples and witnesses of the agent compute. *)

From Stdlib Require Import Ascii SpecFloat.
From stdpp Require Import gmap strings list pretty countable.
From S2P Require Import Prelude GoStr Db Hub World StoreCore StoreTelemetry StoreRingfence Commands Policies Enroll Bootstrap BootstrapFacts Alerting AgentApi.
From S2P Require Import Endpoint Updater Identity Executor Authenticode WinEvents Fence EndpointControls Runner.

(** The server, with the device its stream of this agent belongs to. *)
Record backend := mkBackend { be_world : world; be_stream : option device }.
Definition on_world {A} (m : M world A) : M backend A := λ b, let '(w, r) := m (be_world b) in (mkBackend w (be_stream b), r).

Section backend.
Context `{UuidText, UuidSource, Crypto, Pki, Hasher, IdentityLib}.
Context (sort : ∀ A, (A → A → bool) → list A → list A) (keys : uuid → result Keys).
Context (commands_on policy_on : bool) (notify : option Emitter) (alerting : option (option Emitter)).
(** The chain the listener shows this agent, and what keeps it from reaching the server at an
    instant. *)
Context (chain : list string) (network : time → option err).

(** What the TLS layer tells of the caller. *)
Definition peer_of (tls : ClientTLS) : peer :=
  match parse_leaf (ct_Cert tls) with Ok lf => Leaf (lf_CommonName lf) (lf_Serial lf) | Err _ => NoCertificate end.
(** A method of the agent service, behind [unaryAuth]. *)
Definition as_device {A} (method : string) (tls : ClientTLS) (handler : device → M world (rpc_error + A)) : M backend (rpc_error + A) :=
  on_world (withAuth (agentServicePrefix +:+ method) (peer_of tls)
    (λ dev, match dev with Some dev => handler dev | None => refuse Unauthenticated "client certificate required" end)).

#[export] Instance enroll_backend : EnrollServer backend := {
  rpc_Enroll check req :=
    match check chain with
    | Err e => mret (inl (RpcErrOf Unavailable e))
    | Ok _ => on_world (Enroll.Enroll keys req)
    end;
  rpc_Renew tls csr := as_device "RenewCertificate" tls (λ dev, RenewCertificate keys dev csr);
}.

(** [streamAuth] and the start of [Connect]. A stream that is not let in is ended by the
    server, which its client learns when it receives. *)
Definition open_stream (tls : ClientTLS) : M backend unit :=
  r ← on_world (on_db (authenticate (peer_of tls)));
  match r with
  | inl _ => modify (λ b, mkBackend (be_world b) None)
  | inr dev =>
      _ ← on_world (Connect_start keys commands_on dev);
      modify (λ b, mkBackend (be_world b) (Some dev))
  end.
#[export] Instance agent_backend : AgentServer backend := {
  rpc_Connect t tls :=
    match network t with
    | Some e => mret (inl (RpcErrOf Unavailable e))
    | None => _ ← open_stream tls; mret (inr tt)
    end;
  stream_Send tls m := b ← get; match be_stream b with Some dev => on_world (handle commands_on dev m) | None => mret tt end;
  rpc_GetPolicy tls := as_device "GetPolicy" tls (GetPolicy_rpc sort keys policy_on);
  rpc_Observe tls apps := as_device "Observe" tls (λ dev, Observe dev apps);
  rpc_ReportBlocks tls msgs := as_device "ReportBlocks" tls (λ dev, ReportBlocks notify dev msgs);
  rpc_GetControls tls := as_device "GetControls" tls GetControls_rpc;
  rpc_GetRingfence tls := as_device "GetRingfence" tls GetRingfence_rpc;
  rpc_ReportRingfenceEvents tls msgs asr := as_device "ReportRingfenceEvents" tls (λ dev, ReportRingfenceEvents dev msgs asr);
  rpc_ReportMetrics tls cpu mem dsk := as_device "ReportMetrics" tls (λ dev, ReportMetrics alerting dev cpu mem dsk);
  rpc_ReportEvents tls msgs := as_device "ReportEvents" tls (λ dev, ReportEvents dev msgs);
}.

Lemma as_device_run {A} method tls (handler : device → M world (rpc_error + A)) b dev :
  authenticate (peer_of tls) (w_db (be_world b)) = (w_db (be_world b), Ok (inr dev)) →
  as_device method tls handler b = on_world (handler dev) b.
Proof.
  intros Ha. unfold as_device, on_world, withAuth.
  assert (∀ s, String.prefix agentServicePrefix (agentServicePrefix +:+ s) = true) as Hpre by (intros s; by destruct s).
  rewrite Hpre. simpl. unfold on_db, mbind, M_bind. rewrite Ha. by destruct (be_world b).
Qed.
End backend.

(** ** A concrete agent *)

Module AgentDemo.
Import Toy.
(** A pair of texts, by the length of the first. *)
Fixpoint unary (n : nat) (s : string) : string := match n with O => String "0"%char s | S n => String "1"%char (unary n s) end.
Fixpoint read_unary (s : string) : option (nat * string) :=
  match s with
  | String "0" s => Some (O, s)
  | String "1" s => match read_unary s with Some (n, s) => Some (S n, s) | None => None end
  | _ => None
  end.
Definition pair_text (a b : string) : string := unary (String.length a) (a +:+ b).
Definition text_pair (s : string) : option (string * string) :=
  match read_unary s with
  | Some (n, s) => Some (String.substring 0 n s, String.substring n (String.length s - n) s)
  | None => None
  end.
Lemma read_unary_unary n s : read_unary (unary n s) = Some (n, s).
Proof. induction n as [|n IH]; simpl; [done|]. by rewrite IH. Qed.
Lemma text_pair_text a b : text_pair (pair_text a b) = Some (a, b).
Proof.
  unfold text_pair, pair_text. rewrite read_unary_unary, substring_0_app by done. rewrite length_str_app.
  replace (String.length a + String.length b - String.length a)%nat with (String.length b) by lia. by rewrite substring_skip_app.
Qed.
Definition number (z : Z) : string := pos_text (encode z).
Definition read_number (s : string) : Z := default 0%Z (decode (text_pos s)).
Lemma read_number_number z : read_number (number z) = z.
Proof. unfold read_number, number. by rewrite text_pos_text, decode_encode. Qed.

#[export] Instance agent_pki : Pki := {
  ParseCertificateRequest s := Ok (mkCsr (Ok tt) true s);
  CreateCertificate t ca pub key :=
    Ok (pair_text (tp_CommonName t) (pair_text (number (Z.of_N (tp_SerialNumber t))) (pair_text (number (tp_NotAfter t)) pub)));
  rand_serial n := N.of_nat (1000 + n);
  sha256 s := "#" +:+ s;
  hmac_sha256 k s := k +:+ s;
  base32 s := s;
  base64_url s := s;
  rand_bytes _ _ := "";
  uuid_bytes _ := "";
}.
#[export] Instance agent_hash : Hasher := λ s, s.
#[export] Instance agent_keylib : KeyLib := {
  hkdf_key _ info := Ok info;
  gcm_seal _ _ p := p;
  gcm_open _ _ s := Some s;
  ec_generate n := Ok ("ec" +:+ pretty (N.of_nat n));
  ec_public k := k;
  ed_generate n := Ok ("ed" +:+ pretty (N.of_nat n));
  CreateRoot t pub _ := Ok pub;
  ParseCertificate der := Ok der;
  MarshalPKCS8 key := Ok key;
  ParsePKCS8 der := Ok (Some der);
}.
Definition read_leaf (der : string) : option LeafInfo :=
  '(cn, r) ← text_pair der; '(sn, r) ← text_pair r; '(na, pub) ← text_pair r;
  Some (mkLeaf cn (Z.to_N (read_number sn)) (read_number na) pub).
Definition enrollment_text (e : Enrollment) : string :=
  pair_text (en_DeviceID e) (pair_text (en_CommandPub e) (pair_text (en_UpdatePub e) (en_UninstallHash e))).
Definition read_enrollment (s : string) : option Enrollment :=
  '(i, r) ← text_pair s; '(c, r) ← text_pair r; '(u, h) ← text_pair r; Some (mkEnrollment i c u h).
Definition or_fail {A} (o : option A) : result A := match o with Some a => Ok a | None => Err (EMsg "malformed") end.
#[export] Instance agent_lib : IdentityLib := {
  CreateCSR cn key := Ok key;
  parse_leaf der := or_fail (read_leaf der);
  parse_private k := Ok k;
  verify_server leaf root := Ok tt;
  pem_encode := pair_text;
  pem_decode := text_pair;
  marshal_enrollment := enrollment_text;
  unmarshal_enrollment s := or_fail (read_enrollment s);
}.
#[export] Instance agent_lib_ok : IdentityLibOk.
Proof.
  split.
  - apply text_pair_text.
  - intros [i c u h]. simpl. unfold read_enrollment, enrollment_text. simpl. rewrite text_pair_text. simpl. rewrite text_pair_text. simpl.
    by rewrite text_pair_text.
  - intros cn key csr Hc. simpl in Hc. injection Hc as <-. reflexivity.
  - intros key der Hk. simpl in Hk. injection Hk as <-. reflexivity.
  - intros [sn cn nb na cl] ca pub key der [= <-]. simpl. unfold read_leaf. rewrite text_pair_text. simpl. rewrite text_pair_text. simpl.
    rewrite text_pair_text. simpl. by rewrite !read_number_number, N2Z.id.
Qed.
#[export] Instance agent_protector : Protector := FileProtector.
#[export] Instance agent_protector_ok : ProtectorOk := FileProtector_ok.

(** A tenant with an install token, keys of the right length, and a machine to enroll. *)
Definition command_key : string := "cccccccccccccccccccccccccccccccc".
Definition update_key : string := "uuuuuuuuuuuuuuuuuuuuuuuuuuuuuuuu".
Definition agent_keys (t : uuid) : result Keys := Ok (mkKeys command_key update_key "authority" "cak" "unk").
Definition tenant_db : db :=
  set_install_tokens {[5%N := mkInstallToken 1 "#secret" "lab" None (Some (10 * Hour)%Z) (Some 5%Z) 0 false None 1]}
    (set_tenants {[1%N := mkTenant "acme" false 1]} empty_db).
Definition server : backend := mkBackend (mkWorld tenant_db New Hour 0) None.
Definition machine_paths : Paths := DefaultPaths (λ _, "").
Definition fresh_agent : agent backend := mkAgent (mkDisk ∅ []) Hour 0 server.
Definition token : string := "secret.authority".
Definition hardware : HardwareInfo := mkHardwareInfo "pc" "10.0" "guid".
Definition server_leaf : string := pair_text "fl" (pair_text (number 1) (pair_text (number 0) "pub")).
#[export] Instance demo_enroll : EnrollServer backend := enroll_backend agent_keys [server_leaf; "authority"].
Definition enrolled : agent backend := (AgentEnroll machine_paths token hardware fresh_agent).1.
Example enrolls : is_ok (AgentEnroll machine_paths token hardware fresh_agent).2 = true.
Proof. by vm_compute. Qed.
End AgentDemo.
