(* ===== verification/IdentityFacts.v ===== *)
(** * The identity survives on disk

    What an agent enrolled with is what it loads, a failed enrollment leaves it to try
    again, and a renewal replaces the key and the certificate and nothing else. *)

From stdpp Require Import gmap strings list.
From S2P Require Import Prelude GoStr Db Hub World StoreCore Commands Enroll Bootstrap Endpoint Identity Demo.

Section identity.
Context {Srv : Type} `{EnrollServer Srv}.
Context `{!IdentityLib, !KeyLib, !Pki, !Hasher, !Protector, !IdentityLibOk, !ProtectorOk} (paths : Paths).

(** The files of an identity with a key, a certificate and an authority. *)
Definition holds_identity (key certDER caDER : string) (f : gmap string string) : Prop :=
  ∃ keyDER sealed,
    MarshalPKCS8 key = Ok keyDER ∧ Protect keyDER = Ok sealed ∧
    f !! KeyPath paths = Some (pem_encode sealed_type sealed) ∧
    f !! CertPath paths = Some (pem_encode "CERTIFICATE" certDER) ∧ f !! CAPath paths = Some (pem_encode "CERTIFICATE" caDER).

Definition identity_files : list string := [KeyPath paths; CertPath paths; CAPath paths].
Lemma enrollment_apart : EnrollmentPath paths ∉ identity_files.
Proof. unfold identity_files. rewrite !elem_of_cons. intros [Hq|[Hq|[Hq|[]%elem_of_nil]]]; by apply Join2_inj in Hq. Qed.

Lemma writePEM_run path typ der d d' r :
  writePEM path typ der d = (d', r) →
  (∀ q, q ≠ path → files d' !! q = files d !! q) ∧ (r = Ok tt → files d' = <[path := pem_encode typ der]> (files d)).
Proof. apply WriteFile_run. Qed.

Lemma writeIdentity_run key cert ca d d' r :
  writeIdentity paths key cert ca d = (d', r) →
  (∀ q, q ∉ identity_files → files d' !! q = files d !! q) ∧ (r = Ok tt → holds_identity key cert ca (files d')).
Proof.
  unfold writeIdentity, mbind, M_bind. destruct (MarshalPKCS8 key) as [kd|] eqn:Hk; [|by intros [= <- <-]]. simpl.
  destruct (Protect kd) as [sealed|] eqn:Hs; [|by intros [= <- <-]]. simpl.
  destruct (writePEM (KeyPath paths) _ _ d) as [d1 r1] eqn:E1. apply writePEM_run in E1 as [Ho1 Hi1].
  assert (∀ q, q ∉ identity_files → q ≠ KeyPath paths ∧ q ≠ CertPath paths ∧ q ≠ CAPath paths) as Hq
    by (unfold identity_files; intros q; rewrite !not_elem_of_cons; tauto).
  destruct r1 as [[]|]; [|intros [= <- <-]; split; [|done]; intros q Hn; apply Hq in Hn as (? & ? & ?); auto].
  destruct (writePEM (CertPath paths) _ _ d1) as [d2 r2] eqn:E2. apply writePEM_run in E2 as [Ho2 Hi2].
  destruct r2 as [[]|]; [|intros [= <- <-]; split; [|done]; intros q Hn; apply Hq in Hn as (? & ? & ?); rewrite Ho2; auto].
  intros E3. apply writePEM_run in E3 as [Ho3 Hi3].
  split; [intros q Hn; apply Hq in Hn as (? & ? & ?); rewrite Ho3, Ho2; auto|].
  intros ->. exists kd, sealed. split_and!; try done; rewrite Hi3 by done.
  - rewrite !lookup_insert_ne by (by apply Join2_ne). rewrite Hi2 by done. rewrite lookup_insert_ne by (by apply Join2_ne).
    rewrite Hi1 by done. apply lookup_insert_eq.
  - rewrite lookup_insert_ne by (by apply Join2_ne). rewrite Hi2 by done. apply lookup_insert_eq.
  - apply lookup_insert_eq.
Qed.

Lemma readPEM_run path typ der d : files d !! path = Some (pem_encode typ der) → readPEM path typ d = (d, Ok der).
Proof.
  intros Hf. unfold readPEM, ReadFile, mbind, M_bind. rewrite Hf, pem_roundtrip. by rewrite bool_decide_eq_true_2.
Qed.

Lemma Load_holds e b key keyDER cert ca leaf d :
  files d !! EnrollmentPath paths = Some b → unmarshal_enrollment b = Ok e → holds_identity key cert ca (files d) → parse_leaf cert = Ok leaf →
  MarshalPKCS8 key = Ok keyDER → Load paths d = (d, Ok (mkLoaded e cert keyDER ca (lf_NotAfter leaf))).
Proof.
  intros He Hu (kd & sealed & Hk & Hs & Hfk & Hfc & Hfa) Hl Hk'. rewrite Hk in Hk'. injection Hk' as <-.
  unfold Load, Enrolled, exists_file, get, ReadFile. rewrite (bind_run _ _ d d d) by done. rewrite He.
  rewrite bool_decide_eq_true_2 by done. simpl. rewrite (bind_run _ _ d d b) by (by rewrite He).
  rewrite Hu, (bind_run _ _ d d e) by done.
  rewrite (bind_run _ _ d d cert) by (by apply readPEM_run). rewrite (bind_run _ _ d d ca) by (by apply readPEM_run).
  rewrite (bind_run _ _ d d sealed) by (by apply readPEM_run).
  rewrite (unprotect_protect _ _ Hs), (bind_run _ _ d d kd) by done. by rewrite Hl, (bind_run _ _ d d leaf) by done.
Qed.
Lemma Load_run e b key cert ca leaf d :
  files d !! EnrollmentPath paths = Some b → unmarshal_enrollment b = Ok e → holds_identity key cert ca (files d) → parse_leaf cert = Ok leaf →
  ∃ keyDER, Load paths d = (d, Ok (mkLoaded e cert keyDER ca (lf_NotAfter leaf))) ∧ parse_private keyDER = Ok key.
Proof.
  intros He Hu Hid Hl. pose proof Hid as (kd & _ & Hk & _). exists kd. split; [by eapply Load_holds | by apply private_parsed].
Qed.

(** The calls an enrollment makes before it writes anything, and what it then writes. *)
Lemma AgentEnroll_run tok hw a a' r :
  AgentEnroll paths tok hw a = (a', r) →
  ag_now a' = ag_now a ∧
  ((∃ e, r = Err e) ∧ ag_disk a' = ag_disk a ∨
   ∃ secret pin key csr resp,
     Parse tok = Ok (secret, pin) ∧ ec_generate (ag_drawn a) = Ok key ∧ CreateCSR (hw_hostname hw) key = Ok csr ∧
     rpc_Enroll (check_pinned pin) (mkEnrollRequest secret csr hw) (ag_srv a) = (ag_srv a', Ok (inr resp)) ∧
     let enr := mkEnrollment (es_device_id resp) (es_command_key resp) (es_update_key resp) (es_uninstall resp) in
     (_ ← writeIdentity paths key (es_cert_der resp) (es_ca_cert_der resp); _ ← writeEnrollment paths enr; mret enr) (ag_disk a)
       = (ag_disk a', r)).
Proof.
  unfold AgentEnroll. destruct (Parse tok) as [[secret pin]|e] eqn:Hp; [|intros [= <- <-]; eauto].
  rewrite (bind_run _ _ a a (secret, pin)) by done. rewrite (bind_run _ _ _ _ (ag_drawn a)) by done.
  destruct (ec_generate _) as [key|e] eqn:Hg; [|intros [= <- <-]; eauto]. erewrite (bind_run _ _ _ _ key) by done.
  destruct (CreateCSR _ _) as [csr|e] eqn:Hc; [|intros [= <- <-]; eauto]. erewrite (bind_run _ _ _ _ csr) by done.
  unfold ag_on_srv, ag_on_disk, mbind, M_bind. simpl. destruct (rpc_Enroll _ _ _) as [s [[e|resp]|e]] eqn:Hr; simpl;
    [intros [= <- <-]; eauto | | intros [= <- <-]; eauto].
  destruct (writeIdentity _ _ _ _ _) as [d1 [[]|e]] eqn:Hw; simpl.
  - destruct (writeEnrollment _ _ _) as [d2 [[]|e]] eqn:Hw2; simpl; intros [= <- <-]; (split; [done|]); right;
      exists secret, pin, key, csr, resp; split_and!; try done; by rewrite Hw, ?Hw2.
  - intros [= <- <-]. split; [done|]. right. exists secret, pin, key, csr, resp. split_and!; try done. by rewrite Hw.
Qed.

(** What enrollment returns is what the agent has from then on: when it succeeds, loading
    the identity gives back the device id and the keys of the answer, the certificate and
    the authority it came with, and the very private key whose public half the request carried. *)
Theorem Enroll_then_Load tok hw a a' enr :
  AgentEnroll paths tok hw a = (a', Ok enr) →
  ∃ secret pin key csr resp,
    Parse tok = Ok (secret, pin) ∧ CreateCSR (hw_hostname hw) key = Ok csr ∧
    rpc_Enroll (check_pinned pin) (mkEnrollRequest secret csr hw) (ag_srv a) = (ag_srv a', Ok (inr resp)) ∧
    enr = mkEnrollment (es_device_id resp) (es_command_key resp) (es_update_key resp) (es_uninstall resp) ∧
    ∀ leaf, parse_leaf (es_cert_der resp) = Ok leaf →
      ∃ keyDER, Load paths (ag_disk a') =
          (ag_disk a', Ok (mkLoaded enr (es_cert_der resp) keyDER (es_ca_cert_der resp) (lf_NotAfter leaf))) ∧
        parse_private keyDER = Ok key.
Proof.
  intros (_ & [[[? [=]] _]|(secret & pin & key & csr & resp & Hp & _ & Hc & Hr & Hw)])%AgentEnroll_run.
  apply bind_Ok in Hw as ([] & d1 & Hw1 & Hw). apply bind_Ok in Hw as ([] & d2 & Hw2 & [= Hd He]).
  exists secret, pin, key, csr, resp. split_and!; try done. intros leaf Hl.
  apply writeIdentity_run in Hw1 as [_ Hid]. apply WriteFile_run in Hw2 as [Ho Hi].
  rewrite <- He, <- Hd. apply (Load_run _ (marshal_enrollment enr) key); [rewrite Hi, He by done; apply lookup_insert_eq | rewrite <- He; apply enrollment_roundtrip | | done].
  destruct (Hid eq_refl) as (kd & sealed & Hk & Hs & Hf). exists kd, sealed.
  split; [done|]. split; [done|]. by rewrite !Ho by (by apply Join2_ne).
Qed.

(** No write of the list stops in the middle. *)
Definition untorn (d : disk) : Prop := Forall (λ o, ∀ n, o ≠ Torn n) (faults d).

Lemma WriteFile_untorn p s d d' r :
  untorn d → WriteFile p s d = (d', r) → untorn d' ∧ (r = Ok tt ∨ files d' = files d).
Proof.
  unfold untorn, WriteFile, next_io. destruct (faults d) as [|o os] eqn:Hf.
  - intros _ [= <- <-]. by auto.
  - intros [Ho Hos]%Forall_cons. destruct o as [| |n]; intros [= <- <-]; simpl; auto. by destruct (Ho n).
Qed.
Lemma writeIdentity_untorn key cert ca d d' r :
  untorn d → writeIdentity paths key cert ca d = (d', r) → untorn d'.
Proof.
  unfold writeIdentity, writePEM, mbind, M_bind. intros Hu. destruct (MarshalPKCS8 key) as [kd|]; [|by intros [= <- <-]]. simpl.
  destruct (Protect kd) as [sealed|]; [|by intros [= <- <-]]. simpl.
  destruct (WriteFile _ _ d) as [d1 r1] eqn:E1. apply WriteFile_untorn in E1 as [Hu1 _]; [|done].
  destruct r1 as [[]|]; [|by intros [= <- <-]].
  destruct (WriteFile _ _ d1) as [d2 r2] eqn:E2. apply WriteFile_untorn in E2 as [Hu2 _]; [|done].
  destruct r2 as [[]|]; [|by intros [= <- <-]]. intros E3. by apply WriteFile_untorn in E3 as [Hu3 _].
Qed.

(** C27. An enrollment that fails can be tried again: on an agent that is not enrolled, as long
    as no write stops in the middle, the agent counts as enrolled afterwards
    exactly when enrollment returned no error, whichever of its calls or writes failed; it
    never takes itself for enrolled with half an identity. *)
Theorem Enroll_all_or_nothing tok hw a a' r :
  AgentEnroll paths tok hw a = (a', r) → Enrolled paths (ag_disk a) = false → untorn (ag_disk a) →
  Enrolled paths (ag_disk a') = is_ok r.
Proof.
  intros (_ & [[[e ->] ->]|(secret & pin & key & csr & resp & _ & _ & _ & _ & Hw)])%AgentEnroll_run Hn Hu; [done|].
  unfold mbind, M_bind in Hw. destruct (writeIdentity _ _ _ _ _) as [d1 r1] eqn:Hw1.
  pose proof (writeIdentity_untorn _ _ _ _ _ _ Hu Hw1) as Hu1. apply writeIdentity_run in Hw1 as [Ho1 _].
  assert (Enrolled paths d1 = false) as Hn1.
  { revert Hn. unfold Enrolled, exists_file. by rewrite Ho1 by apply enrollment_apart. }
  destruct r1 as [[]|e]; [|by injection Hw as <- <-].
  destruct (writeEnrollment _ _ d1) as [d2 r2] eqn:Hw2. pose proof (WriteFile_untorn _ _ _ _ _ Hu1 Hw2) as [_ Hr].
  apply WriteFile_run in Hw2 as [_ Hi]. destruct r2 as [[]|e]; injection Hw as Hd <-; rewrite <- Hd; simpl.
  - unfold Enrolled, exists_file. rewrite Hi, lookup_insert_eq by done. by apply bool_decide_eq_true_2.
  - destruct Hr as [|Hr]; [done|]. revert Hn1. unfold Enrolled, exists_file. by rewrite Hr.
Qed.

(** ** Renewal *)

Lemma Load_inv d d' l :
  Load paths d = (d', Ok l) →
  d' = d ∧ ∃ b, files d !! EnrollmentPath paths = Some b ∧ unmarshal_enrollment b = Ok (ld_Enrollment l).
Proof.
  unfold Load, Enrolled, exists_file, ReadFile. intros (x & d1 & [= <- <-] & Hl)%bind_Ok.
  destruct (files d !! EnrollmentPath paths) as [b|] eqn:Hb; [|done]. simpl in Hl.
  apply bind_Ok in Hl as (b' & d1 & Hr & Hl). rewrite Hb in Hr. injection Hr as <- <-.
  assert (∀ path typ d d' der, readPEM path typ d = (d', Ok der) → d' = d) as Hro.
  { intros path typ s s' der. unfold readPEM, ReadFile, mbind, M_bind. repeat case_match; by intros [=]. }
  apply bind_Ok in Hl as (e & d1 & [= <- He] & Hl). apply bind_Ok in Hl as (cert & d1 & ->%Hro & Hl).
  apply bind_Ok in Hl as (ca & d1 & ->%Hro & Hl). apply bind_Ok in Hl as (sealed & d1 & ->%Hro & Hl).
  apply bind_Ok in Hl as (kd & d1 & [= <- _] & Hl). apply bind_Ok in Hl as (leaf & d1 & [= <- _] & [= <- <-]).
  split; [done|]. by exists b.
Qed.

(** Renewal replaces the key and the certificate and nothing else: when it succeeds, what
    the agent loads afterwards is the same enrollment and authority with the certificate
    of the answer and the key of the request that was made for it. *)
Theorem Renew_then_Load l a a' :
  Load paths (ag_disk a) = (ag_disk a, Ok l) → Renew paths l a = (a', Ok tt) →
  ∃ tls key csr der,
    TLSConfig l = Ok tls ∧ CreateCSR (en_DeviceID (ld_Enrollment l)) key = Ok csr ∧
    rpc_Renew tls csr (ag_srv a) = (ag_srv a', Ok (inr der)) ∧
    ∀ leaf, parse_leaf der = Ok leaf →
      ∃ keyDER, Load paths (ag_disk a') = (ag_disk a', Ok (mkLoaded (ld_Enrollment l) der keyDER (ld_caDER l) (lf_NotAfter leaf))) ∧
        parse_private keyDER = Ok key.
Proof.
  intros [_ (b & Hb & Hu)]%Load_inv. unfold Renew. destruct (TLSConfig l) as [tls|e] eqn:Ht; [|done].
  intros (t & a1 & [= <- <-] & Hr)%bind_Ok. apply bind_Ok in Hr as (n & a1 & [= <- <-] & Hr).
  apply bind_Ok in Hr as (key & a1 & Hg & Hr). destruct (ec_generate _) as [k|] eqn:Hk; [|done]. injection Hg as <- <-.
  apply bind_Ok in Hr as (csr & a1 & Hc & Hr). destruct (CreateCSR _ _) as [c|] eqn:Hcs; [|done]. injection Hc as <- <-.
  apply bind_Ok in Hr as (ans & a1 & Hrpc & Hr). unfold ag_on_srv in Hrpc. simpl in Hrpc.
  destruct (rpc_Renew tls c (ag_srv a)) as [s ans'] eqn:Hrp. injection Hrpc as <- ->.
  apply bind_Ok in Hr as (der & a1 & Hans & Hr). destruct ans as [|d0]; [done|]. injection Hans as <- <-.
  unfold ag_on_disk in Hr. simpl in Hr. destruct (writeIdentity _ _ _ _ _) as [d1 r1] eqn:Hw. injection Hr as <- ->.
  apply writeIdentity_run in Hw as [Ho Hi]. exists tls, k, c, d0. split_and!; try done. intros leaf Hl. simpl.
  apply (Load_run _ b k); [|done| by apply Hi | done]. by rewrite Ho by apply enrollment_apart.
Qed.
End identity.
