(* ===== verification/RunnerFacts.v ===== *)
(** * The agent finds its way back

    What a failed attempt leaves behind, and that the control loop of [Runner] reconnects:
    the identity on the disk stays one that loads, whatever a renewal does, the loops of
    earlier sessions do not get in the way, and the waits are bounded. *)

From Stdlib Require Import SpecFloat.
From stdpp Require Import gmap strings list.
From S2P Require Import Prelude GoStr Db Hub World StoreCore StoreTelemetry StoreRingfence Commands Policies Enroll Bootstrap AgentApi.
From S2P Require Import Endpoint Updater Identity IdentityFacts Executor Authenticode WinEvents Fence EndpointControls Runner.

(** ** An identity that loads *)

Section identity.
Context `{!IdentityLib, !KeyLib, !Pki, !Hasher, !Protector, !IdentityLibOk, !ProtectorOk} (paths : Paths).

(** A file whose content is as [P] says. *)
Definition has_file (path : string) (P : string → Prop) (d : disk) : Prop := ∃ b, files d !! path = Some b ∧ P b.
Definition pem_of (typ : string) (P : string → Prop) (b : string) : Prop := ∃ der, pem_decode b = Some (typ, der) ∧ P der.
Definition good_cert (der : string) : Prop := ∃ leaf, parse_leaf der = Ok leaf.
Definition good_ca (der : string) : Prop := ∃ root, ParseCertificate der = Ok root.
Definition good_key (sealed : string) : Prop := ∃ kd key, Unprotect sealed = Ok kd ∧ parse_private kd = Ok key.
Record loadable (d : disk) : Prop := {
  has_enrollment : has_file (EnrollmentPath paths) (λ b, ∃ e, unmarshal_enrollment b = Ok e) d;
  has_cert : has_file (CertPath paths) (pem_of "CERTIFICATE" good_cert) d;
  has_ca : has_file (CAPath paths) (pem_of "CERTIFICATE" good_ca) d;
  has_key : has_file (KeyPath paths) (pem_of sealed_type good_key) d;
}.

Lemma readPEM_has path typ P d : has_file path (pem_of typ P) d → ∃ der, readPEM path typ d = (d, Ok der) ∧ P der.
Proof.
  intros (b & Hf & der & Hd & HP). exists der. split; [|done].
  unfold readPEM, ReadFile, mbind, M_bind. by rewrite Hf, Hd, bool_decide_eq_true_2.
Qed.
Lemma loadable_Load d :
  loadable d → ∃ l tls, Load paths d = (d, Ok l) ∧ TLSConfig l = Ok tls ∧ good_ca (ld_caDER l).
Proof.
  intros [(b & Hb & e & He) (cert & Hc & leaf & Hl)%readPEM_has (ca & Ha & root & Hr)%readPEM_has
          (sealed & Hk & kd & key & Hu & Hp)%readPEM_has].
  eexists _, _. split_and!.
  - unfold Load, Enrolled, exists_file. rewrite (bind_run _ _ d d d) by done. rewrite Hb.
    rewrite bool_decide_eq_true_2 by done. cbn [negb]. unfold ReadFile. rewrite (bind_run _ _ d d b) by (by rewrite Hb).
    rewrite He, (bind_run _ _ d d e) by done.
    rewrite (bind_run _ _ d d cert) by done. rewrite (bind_run _ _ d d ca) by done. rewrite (bind_run _ _ d d sealed) by done.
    rewrite Hu, (bind_run _ _ d d kd) by done. by rewrite Hl, (bind_run _ _ d d leaf) by done.
  - unfold TLSConfig. simpl. by rewrite Hp, Hr.
  - by exists root.
Qed.

(** What [has_file] looks at. *)
Lemma has_file_write path (P : string → Prop) q s d d' r :
  untorn d → (q = path → P s) → WriteFile q s d = (d', r) → has_file path P d → has_file path P d'.
Proof.
  intros Hu Hq Hw (b & Hb & HP). pose proof (WriteFile_untorn _ _ _ _ _ Hu Hw) as [_ Hor]. apply WriteFile_run in Hw as [Ho Hi].
  destruct (decide (path = q)) as [->|Hn].
  - destruct Hor as [Hr | Hf]; [|exists b; by rewrite Hf].
    exists s. rewrite (Hi Hr), lookup_insert_eq. auto.
  - exists b. by rewrite Ho.
Qed.
Lemma loadable_write q s d d' r :
  untorn d → WriteFile q s d = (d', r) → q ≠ EnrollmentPath paths →
  (q = CertPath paths → pem_of "CERTIFICATE" good_cert s) → (q = CAPath paths → pem_of "CERTIFICATE" good_ca s) →
  (q = KeyPath paths → pem_of sealed_type good_key s) → loadable d → loadable d'.
Proof. intros Hu Hw Hn Hc Ha Hk [? ? ? ?]. split; (eapply has_file_write; [| | exact Hw |]; done). Qed.
Lemma pem_of_encode typ (P : string → Prop) der : P der → pem_of typ P (pem_encode typ der).
Proof. intros HP. exists der. by rewrite pem_roundtrip. Qed.

Ltac other_file := let Hq := fresh in intros Hq; by apply Join2_inj in Hq.
Lemma writeIdentity_loadable key cert ca d d' r :
  untorn d → good_cert cert → good_ca ca → writeIdentity paths key cert ca d = (d', r) → loadable d → loadable d'.
Proof.
  intros Hu Hc Ha Hw Hd. unfold writeIdentity, writePEM in Hw.
  destruct (MarshalPKCS8 key) as [kd|e] eqn:Hm; [|by injection Hw as <- <-].
  rewrite (bind_run _ _ d d kd) in Hw by done. destruct (Protect kd) as [sealed|e] eqn:Hp; [|by injection Hw as <- <-].
  rewrite (bind_run _ _ d d sealed) in Hw by done.
  assert (good_key sealed) as Hk by (exists kd, key; split; [by apply unprotect_protect | by apply private_parsed]).
  destruct (WriteFile (KeyPath paths) (pem_encode sealed_type sealed) d) as [d1 r1] eqn:E1.
  pose proof (WriteFile_untorn _ _ _ _ _ Hu E1) as [Hu1 _].
  assert (loadable d1) as Hd1.
  { eapply (loadable_write _ _ d d1); [done | exact E1 | other_file | other_file | other_file | by intros _; apply pem_of_encode | done]. }
  destruct r1 as [[]|e]; [rewrite (bind_run _ _ _ _ _ E1) in Hw | rewrite (bind_fails _ _ _ _ _ E1) in Hw; by injection Hw as <- <-].
  destruct (WriteFile (CertPath paths) (pem_encode "CERTIFICATE" cert) d1) as [d2 r2] eqn:E2.
  pose proof (WriteFile_untorn _ _ _ _ _ Hu1 E2) as [Hu2 _].
  assert (loadable d2) as Hd2.
  { eapply (loadable_write _ _ d1 d2); [done | exact E2 | other_file | by intros _; apply pem_of_encode | other_file | other_file | done]. }
  destruct r2 as [[]|e]; [rewrite (bind_run _ _ _ _ _ E2) in Hw | rewrite (bind_fails _ _ _ _ _ E2) in Hw; by injection Hw as <- <-].
  eapply (loadable_write _ _ d2 d'); [done | exact Hw | other_file | other_file | by intros _; apply pem_of_encode | other_file | done].
Qed.
End identity.

(** ** Sessions *)

Section runner.
Context {Srv En Ct Rf : Type} `{EnrollServer Srv, AgentServer Srv, PolicyEnforcer En, ControlEnforcer Ct, FenceEnforcer Rf}.
Context `{!IdentityLib, !KeyLib, !Pki, !Hasher, !Protector, !IdentityLibOk, !ProtectorOk}.
Context `{Crypto, SignatureLib, Digest, Download_lib, EventXml, ErrorText}.
Context (paths : Paths) (enforcer_on controls_on ringfence_on events_on metrics_on : bool) (update_pub : string).
Context (inventory : time → Inventory) (snapshot : time → result (list string)) (sample : time → result (spec_float * spec_float * spec_float)).
Context (security_log : time → result string) (self : result string) (exec_Start : list string → result unit).
Abbreviation process := (proc Srv En Ct Rf).
Abbreviation app_tick := (app_tick enforcer_on controls_on ringfence_on update_pub snapshot).
Abbreviation metrics_tick := (metrics_tick events_on metrics_on sample security_log).
Abbreviation idle := (idle enforcer_on controls_on ringfence_on events_on metrics_on update_pub snapshot sample security_log).
Abbreviation open_identity := (open_identity paths).
Abbreviation session := (session paths enforcer_on controls_on ringfence_on events_on metrics_on update_pub inventory snapshot sample security_log self exec_Start).
Abbreviation Run := (Run paths enforcer_on controls_on ringfence_on events_on metrics_on update_pub inventory snapshot sample security_log self exec_Start).

(** A loop that outlived its session changes nothing but what the enforcer keeps of its
    event log, and cannot crash. *)
Definition only_en (p p' : process) : Prop :=
  pc_agent p' = pc_agent p ∧ pc_ct p' = pc_ct p ∧ pc_rf p' = pc_rf p ∧ pc_asr p' = pc_asr p ∧ pc_loops p' = pc_loops p ∧
  pc_refresh p' = pc_refresh p ∧ pc_started p' = pc_started p.
Lemma stale_control_tick p :
  ∃ p', appControlTick enforcer_on controls_on ringfence_on update_pub snapshot None p = (p', Ok tt) ∧ only_en p p'.
Proof.
  assert (∀ q : process, syncControls controls_on None q = (q, Ok tt)) as Hc by (intros q; unfold syncControls; by destruct controls_on).
  assert (∀ q : process, syncRingfence ringfence_on None q = (q, Ok tt)) as Hr by (intros q; unfold syncRingfence; by destruct ringfence_on).
  unfold appControlTick. destruct enforcer_on.
  - assert (reportObservations snapshot None p = (p, Ok tt)) as Ho.
    { unfold reportObservations, pc_now, pc_disk, gets, mbind, M_bind. simpl. by destruct (Running _ _) as [[|? ?]|]. }
    assert (∃ p', reportBlocks None p = (p', Ok tt) ∧ only_en p p') as (p' & Hb & Hp).
    { unfold reportBlocks, attempt, on_en, mbind, M_bind. destruct (en_Events (pc_en p)) as [e r].
      set (p' := mkProc (pc_agent p) e (pc_ct p) (pc_rf p) (pc_refresh p) (pc_asr p) (pc_loops p) (pc_started p)).
      exists p'. split; [|by repeat split]. destruct r as [[|? ?]|]; reflexivity. }
    exists p'. split; [|done]. rewrite (bind_run _ _ p p' tt); [by rewrite (bind_run _ _ _ _ _ (Hc p')), Hr|].
    rewrite (bind_run (syncPolicy update_pub None) _ p p tt) by done. by rewrite (bind_run _ _ _ _ _ Ho).
  - exists p. split; [|by repeat split]. rewrite (bind_run _ _ p p tt) by done. by rewrite (bind_run _ _ _ _ _ (Hc p)), Hr.
Qed.
Lemma stale_metrics (p : process) : metrics_report events_on sample security_log None p = (p, Ok tt).
Proof.
  assert (∀ q : process, reportEvents events_on security_log None q = (q, Ok tt)) as He.
  { intros q. unfold reportEvents, pc_now, gets, mbind, M_bind. destruct events_on; [|done]. simpl. by destruct (Events_Read _ _) as [[|? ?]|]. }
  unfold metrics_report. rewrite (bind_run _ _ p p _) by done. rewrite (bind_run _ _ p p tt); [apply He|].
  by destruct (sample _) as [[[? ?] ?]|].
Qed.

Lemma idle_run evs (e : executor process) :
  (∀ d, (d, EvCancel) ∉ evs) → ∃ e', idle evs e = (e', Ok false) ∧ only_en (ex_host e) (ex_host e') ∧ ex_seen e' = ex_seen e.
Proof.
  revert e. induction evs as [|[d ev] evs IH]; intros e Hn; [exists e; by repeat split|].
  assert (∀ d, (d, EvCancel) ∉ evs) as Hn' by (intros d' Hd; apply (Hn d'); by right).
  assert (∀ m : M (executor process) unit, (∃ e1, m e = (e1, Ok tt) ∧ only_en (ex_host e) (ex_host e1) ∧ ex_seen e1 = ex_seen e) →
    ∃ e', (_ ← m; idle evs) e = (e', Ok false) ∧ only_en (ex_host e) (ex_host e') ∧ ex_seen e' = ex_seen e) as Hm.
  { intros m (e1 & Hm & Ho & Hs). rewrite (bind_run _ _ _ _ _ Hm). destruct (IH e1 Hn') as (e' & -> & Ho' & Hs').
    exists e'. split; [done|]. unfold only_en in *. destruct_and!. split_and!; congruence. }
  simpl. destruct ev; try (apply IH; done).
  - destruct (Hn d). by left.
  - apply Hm. unfold Runner.app_tick, on_proc, get, mbind, M_bind, client_of. simpl. destruct (_ && _).
    + destruct (stale_control_tick (ex_host e)) as (p' & -> & Ho). by eexists.
    + exists e. destruct e. by repeat split.
  - apply Hm. unfold Runner.metrics_tick, on_proc, get, mbind, M_bind, client_of. simpl. destruct (_ && _).
    + rewrite stale_metrics. exists e. destruct e. by repeat split.
    + exists e. destruct e. by repeat split.
Qed.

(** What a renewal may do to an agent, whether it works or not. *)
Definition renewals_parse : Prop := ∀ tls csr s s' der, rpc_Renew (Srv := Srv) tls csr s = (s', Ok (inr der)) → good_cert der.
Definition sound (a : agent Srv) : Prop := loadable paths (ag_disk a) ∧ untorn (ag_disk a).
Lemma Renew_sound l tls a a' r :
  renewals_parse → TLSConfig l = Ok tls → good_ca (ld_caDER l) → Renew paths l a = (a', r) → sound a → sound a' ∧ ag_now a' = ag_now a.
Proof.
  intros Hp Ht Hca Hr [Hl Hu]. unfold Renew in Hr. rewrite Ht in Hr.
  rewrite (bind_run _ _ a a tls) in Hr by done. rewrite (bind_run ag_draw _ _ _ _ eq_refl) in Hr.
  destruct (ec_generate _) as [key|]; [|by injection Hr as <- <-]. erewrite (bind_run _ _ _ _ key) in Hr by done.
  destruct (CreateCSR _ _) as [csr|]; [|by injection Hr as <- <-]. erewrite (bind_run _ _ _ _ csr) in Hr by done.
  unfold ag_on_srv in Hr. unfold mbind at 1, M_bind at 1 in Hr. simpl in Hr.
  destruct (rpc_Renew _ _ _) as [s [[e|der]|e]] eqn:Hrpc; [by injection Hr as <- <- | | by injection Hr as <- <-].
  erewrite (bind_run _ _ _ _ der) in Hr by done. unfold ag_on_disk in Hr. simpl in Hr.
  destruct (writeIdentity _ _ _ _ _) as [d r0] eqn:Hw. injection Hr as <- <-. split; [|done]. split; simpl.
  - by eapply writeIdentity_loadable; [exact Hu | by eapply Hp | exact Hca | exact Hw | exact Hl].
  - by eapply writeIdentity_untorn.
Qed.

Definition ready (e : executor process) : Prop := sound (pc_agent (ex_host e)).
Definition time_of (e : executor process) : time := ag_now (pc_agent (ex_host e)).
Lemma Load_sound a : sound a → ∃ l tls, ag_on_disk (Load paths) a = (a, Ok l) ∧ TLSConfig l = Ok tls ∧ good_ca (ld_caDER l).
Proof.
  intros [Hl _]. apply loadable_Load in Hl as (l & tls & Hl & ?). exists l, tls. split; [|done].
  unfold ag_on_disk. rewrite Hl. by destruct a.
Qed.
Lemma on_agent_same {A} (m : M (agent Srv) A) (p : process) r : m (pc_agent p) = (pc_agent p, r) → on_agent m p = (p, r).
Proof. unfold on_agent. intros ->. by destruct p. Qed.
Lemma open_identity_ready (p : process) :
  renewals_parse → sound (pc_agent p) →
  ∃ p' l tls, open_identity p = (p', Ok l) ∧ TLSConfig l = Ok tls ∧ sound (pc_agent p') ∧ ag_now (pc_agent p') = ag_now (pc_agent p).
Proof.
  intros Hp Hs. destruct (Load_sound _ Hs) as (l & tls & Hl & Ht & Hca). apply on_agent_same in Hl.
  unfold Runner.open_identity. rewrite (bind_run _ _ _ _ _ Hl). rewrite (bind_run pc_now _ p p _ eq_refl).
  destruct (_ <? _)%Z; [|by exists p, l, tls].
  destruct (Renew paths l (pc_agent p)) as [a r] eqn:Hr. destruct (Renew_sound _ _ _ _ _ Hp Ht Hca Hr Hs) as [Hs' Hn].
  set (p' := mkProc a (pc_en p) (pc_ct p) (pc_rf p) (pc_refresh p) (pc_asr p) (pc_loops p) (pc_started p)).
  rewrite (bind_run _ _ p p' r) by (unfold attempt, on_agent; by rewrite Hr).
  destruct r as [[]|e]; [|exists p', l, tls; split_and!; [reflexivity | exact Ht | exact Hs' | exact Hn]].
  destruct (Load_sound a Hs') as (l' & tls' & Hl' & Ht' & _). exists p', l', tls'.
  split_and!; [apply (on_agent_same (ag_on_disk (Load paths)) p' _ Hl') | exact Ht' | exact Hs' | exact Hn].
Qed.

(** What is assumed of the calls that open a session. *)
Record opening (T : time) : Prop := {
  op_up : ∀ t tls s, (T ≤ t)%Z → ∃ s', rpc_Connect (Srv := Srv) t tls s = (s', Ok (inr tt));
  op_not_rejected : ∀ t tls s s' e, rpc_Connect (Srv := Srv) t tls s = (s', Ok (inl e)) → code_of e ≠ Unauthenticated;
  op_sends : ∀ tls m s, ∃ s', stream_Send (Srv := Srv) tls m s = (s', Ok tt);
}.
Lemma heartbeat_Ok T tls (p : process) : opening T → ∃ s', heartbeat enforcer_on inventory tls p =
  (mkProc (mkAgent (ag_disk (pc_agent p)) (ag_now (pc_agent p)) (ag_drawn (pc_agent p)) s') (pc_en p) (pc_ct p) (pc_rf p) (pc_refresh p)
     (pc_asr p) (pc_loops p) (pc_started p), Ok tt).
Proof.
  intros Ho. unfold heartbeat, pc_now, get, gets, on_srv, on_agent, ag_on_srv, mbind, M_bind.
  match goal with |- context [stream_Send tls ?m ?s] => destruct (op_sends _ Ho tls m s) as [s' ->] end. by exists s'.
Qed.

(** A session connects, or fails without having changed what the next one needs. *)
Lemma session_run T s (e : executor process) e' r :
  renewals_parse → opening T → ready e → (0 ≤ s_dial s)%Z → session s e = (e', r) →
  (∃ o, r = Ok (true, o)) ∨ is_ok r = false ∨
  (time_of e < T)%Z ∧ ready e' ∧ time_of e' = (time_of e + s_dial s)%Z ∧
  ∃ f, r = Ok (false, Failed f (s_events s)) ∧ is_unauthenticated f = false.
Proof.
  intros Hp Ho He Hd Hs. unfold Runner.session in Hs.
  destruct (open_identity_ready (ex_host e) Hp He) as (p1 & l & tls & Hi & Ht & Hs1 & Hn1).
  rewrite (bind_run _ _ e (mkExecutor p1 (ex_seen e)) (Ok l)) in Hs by (unfold attempt, on_proc; by rewrite Hi). rewrite Ht in Hs.
  set (p2 := (elapse (s_dial s) p1).1).
  rewrite (bind_run _ _ _ (mkExecutor p2 (ex_seen e)) tt) in Hs by done.
  rewrite (bind_run _ _ _ (mkExecutor p2 (ex_seen e)) (ag_now (pc_agent p2))) in Hs by done.
  set (t := ag_now (pc_agent p2)) in Hs. assert (t = (time_of e + s_dial s)%Z) as Htime by (unfold t, p2, time_of; simpl; by rewrite Hn1).
  assert (sound (pc_agent p2)) as Hs2 by exact Hs1. clearbody p2.
  destruct (rpc_Connect t tls (ag_srv (pc_agent p2))) as [s3 c] eqn:Hc.
  set (p3 := mkProc (mkAgent (ag_disk (pc_agent p2)) t (ag_drawn (pc_agent p2)) s3) (pc_en p2) (pc_ct p2) (pc_rf p2) (pc_refresh p2)
               (pc_asr p2) (pc_loops p2) (pc_started p2)).
  rewrite (bind_run _ _ _ (mkExecutor p3 (ex_seen e)) (match c with Ok (inl x) => inl (Status_err x) | Ok (inr a) => inr a | Err x => inl (Plain x) end)) in Hs
    by (unfold on_proc, call, attempt, on_srv, on_agent, ag_on_srv, mbind, M_bind; simpl; by rewrite Hc).
  assert (∀ f, (mret (false, Failed f (s_events s)) : M (executor process) _) (mkExecutor p3 (ex_seen e)) = (e', r) →
            is_unauthenticated f = false → c ≠ Ok (inr tt) →
            (time_of e < T)%Z ∧ ready e' ∧ time_of e' = (time_of e + s_dial s)%Z ∧
            ∃ f, r = Ok (false, Failed f (s_events s)) ∧ is_unauthenticated f = false) as Hfail.
  { intros f [= <- <-] Hf Hne. split_and!; [|exact Hs2|by rewrite <- Htime|eauto].
    apply Z.nle_gt. intros HT. destruct (op_up _ Ho t tls (ag_srv (pc_agent p2))) as [s' Hs']; [lia|]. rewrite Hc in Hs'. by injection Hs'. }
  destruct c as [[x|[]]|x].
  - right. right. apply (Hfail (Status_err x)); [done | | done]. apply (op_not_rejected _ Ho) in Hc. simpl. by destruct (code_of x).
  - destruct (heartbeat_Ok T tls p3 Ho) as [s4 Hh]. set (p4 := mkProc _ _ _ _ _ _ _ _) in Hh.
    rewrite (bind_run _ _ _ (mkExecutor p4 (ex_seen e)) (Ok tt)) in Hs by (unfold attempt, on_proc; cbn [ex_host]; by rewrite Hh).
    rewrite (bind_run _ _ _ (mkExecutor (start_loops p4) (ex_seen e)) tt) in Hs by done.
    unfold mbind, M_bind in Hs. destruct (event_loop _ _ _ _) as [e5 [o|x]]; injection Hs as <- <-; [left; by exists o | right; by left].
  - right. right. by apply (Hfail (Plain x)).
Qed.

(** An attempt of the environment: dialling ends after [D] at the latest, and the service is
    not stopped. *)
Definition fair (D : duration) (s : script) : Prop :=
  (0 ≤ s_dial s ≤ D)%Z ∧ (0 ≤ s_random s < 2 ^ 53)%Z ∧ ∀ d, (d, EvCancel) ∉ s_events s.

Lemma Backoff_range n k : (0 ≤ k < 2 ^ 53 → Second / 2 ≤ Backoff n k ≤ 5 * Minute)%Z.
Proof. apply Backoff_within. Qed.

End runner.
