(* ===== verification/RunnerCommands.v ===== *)
(** * What the server can make an agent do

    The commands an agent of [Runner] executes are those its tenant signed for it, each once;
    and a policy it installs is one whose version its tenant signed. *)

From Stdlib Require Import SpecFloat.
From stdpp Require Import gmap strings list.
From S2P Require Import Prelude GoStr Db Hub World StoreCore StoreTelemetry StoreRingfence Commands Policies Enroll Bootstrap AgentApi.
From S2P Require Import Endpoint Updater Identity Executor Authenticode WinEvents Fence EndpointControls Runner.

Section runner.
Context {Srv En Ct Rf : Type} `{EnrollServer Srv, AgentServer Srv, PolicyEnforcer En, ControlEnforcer Ct, FenceEnforcer Rf}.
Context `{IdentityLib, KeyLib, Pki, Hasher, Protector, Crypto, SignatureLib, Digest, Download_lib, EventXml, ErrorText}.
Context (paths : Paths) (enforcer_on controls_on ringfence_on events_on metrics_on : bool) (update_pub : string).
Context (inventory : time → Inventory) (snapshot : time → result (list string)) (sample : time → result (spec_float * spec_float * spec_float)).
Context (security_log : time → result string) (self : result string) (exec_Start : list string → result unit).
Abbreviation process := (proc Srv En Ct Rf).
Abbreviation agent_process := (executor process).
Abbreviation event_loop := (event_loop paths enforcer_on controls_on ringfence_on events_on metrics_on update_pub inventory snapshot sample security_log self exec_Start).
Abbreviation actions := (agent_actions paths self exec_Start).

(** ** What leaves the programs alone *)

Abbreviation quiet := (keeps (pc_started (Srv := Srv) (En := En) (Ct := Ct) (Rf := Rf))).
#[local] Instance on_agent_quiet {A} (m : M (agent Srv) A) : Steps quiet (on_agent m).
Proof. intros p. unfold via, on_agent. by destruct (m _). Qed.
#[local] Instance on_en_quiet {A} (m : M En A) : Steps quiet (on_en m).
Proof. intros p. unfold via, on_en. by destruct (m _). Qed.
#[local] Instance on_ct_quiet {A} (m : M Ct A) : Steps quiet (on_ct m).
Proof. intros p. unfold via, on_ct. by destruct (m _). Qed.
#[local] Instance on_rf_quiet {A} (m : M Rf A) : Steps quiet (on_rf m).
Proof. intros p. unfold via, on_rf. by destruct (m _). Qed.
#[local] Instance on_srv_quiet {A} (m : M Srv A) : Steps quiet (on_srv m).
Proof. apply on_agent_quiet. Qed.
#[local] Instance get_quiet : Steps quiet get.
Proof. done. Qed.
#[local] Instance pc_now_quiet : Steps quiet pc_now.
Proof. done. Qed.
#[local] Instance pc_disk_quiet : Steps quiet pc_disk.
Proof. done. Qed.
#[local] Instance elapse_quiet d : Steps quiet (elapse d).
Proof. apply on_agent_quiet. Qed.
#[local] Instance refresh_quiet b : Steps quiet (modify (set_refresh b)).
Proof. done. Qed.
#[local] Instance asr_quiet b : Steps quiet (modify (set_asr_reported b)).
Proof. done. Qed.
#[local] Instance loops_quiet : Steps quiet (modify start_loops).
Proof. done. Qed.
#[local] Instance call_quiet {A} c (f : ClientTLS → M Srv (rpc_error + A)) : Steps quiet (call c f).
Proof. unfold call. steps. Qed.
#[local] Instance heartbeat_quiet tls : Steps quiet (heartbeat enforcer_on inventory tls).
Proof. unfold heartbeat. steps. Qed.
#[local] Instance control_tick_quiet c : Steps quiet (appControlTick enforcer_on controls_on ringfence_on update_pub snapshot c).
Proof. unfold appControlTick, syncPolicy, reportObservations, reportBlocks, syncControls, syncRingfence. steps. Qed.
#[local] Instance metrics_quiet c : Steps quiet (metrics_report events_on sample security_log c).
Proof. unfold metrics_report, reportEvents. steps. Qed.

(** ** Commands *)

Definition starts_program (c : CommandPB) : bool := bool_decide (pb_type c = UNINSTALL) || bool_decide (pb_type c = UPDATE_AGENT).
Definition started (e : agent_process) : list (list string) := pc_started (ex_host e).

(** Between two states of the process: new commands, all of them as [P] says, have been
    executed, and no other program was started than theirs. *)
Definition executed (P : CommandPB → Prop) (e e' : agent_process) : Prop :=
  ∃ cmds, Forall P cmds ∧ NoDup (pb_id <$> cmds) ∧ Forall (λ c, pb_id c ∉ dom (ex_seen e)) cmds ∧
    dom (ex_seen e') = dom (ex_seen e) ∪ list_to_set (pb_id <$> cmds) ∧
    ∃ new, started e' = started e ++ new ∧ length new ≤ count starts_program cmds.
#[local] Instance executed_preorder P : PreOrder (executed P).
Proof.
  split.
  - intros e. exists []. split_and!; [done | constructor | done | set_solver | exists []; by rewrite app_nil_r].
  - intros e1 e2 e3 (cs & Hp & Hn & Hf & Hd & new & Hs & Hl) (cs' & Hp' & Hn' & Hf' & Hd' & new' & Hs' & Hl'). exists (cs ++ cs').
    rewrite !fmap_app, list_to_set_app_L, Hd', Hd. rewrite Forall_forall in Hf, Hf'. split_and!.
    + by apply Forall_app.
    + apply NoDup_app. split_and!; try done. intros i Hi (c & -> & Hc)%list_elem_of_fmap. apply (Hf' c Hc). rewrite Hd. set_solver.
    + apply Forall_forall. intros c [Hc|Hc]%elem_of_app; [by apply Hf|]. specialize (Hf' c Hc). set_solver.
    + set_solver.
    + exists (new ++ new'). rewrite Hs', Hs, app_assoc, length_app, count_app. split; [done | lia].
Qed.

Lemma on_proc_executed {A} P (m : M process A) : Steps quiet m → Steps (executed P) (on_proc m).
Proof.
  intros Hm e. unfold on_proc. specialize (Hm (ex_host e)). destruct (m (ex_host e)) as [p r]. simpl in *.
  exists []. split_and!; [done | constructor | done | set_solver | exists []]. rewrite app_nil_r. split; [by symmetry | done].
Qed.
#[local] Existing Instance on_proc_executed.

(** [dispatch] starts one program at most, and only for two types of command. *)
Definition starts_upto (n : nat) (p p' : process) : Prop := ∃ new, pc_started p' = pc_started p ++ new ∧ length new ≤ n.
Lemma quiet_starts {A} n (m : M process A) : Steps quiet m → Steps (starts_upto n) m.
Proof. intros Hm p. exists []. rewrite app_nil_r. split; [symmetry; apply (Hm p) | simpl; lia]. Qed.
Lemma quiet_then {A B} n (m : M process A) (k : A → M process B) :
  Steps quiet m → (∀ a, Steps (starts_upto n) (k a)) → Steps (starts_upto n) (m ≫= k).
Proof.
  intros Hm Hk p. unfold mbind, M_bind. specialize (Hm p). destruct (m p) as [p1 [a|x]]; unfold via in Hm; simpl in Hm.
  - destruct (Hk a p1) as (new & Hn & ?). exists new. by rewrite Hn, Hm.
  - exists []. rewrite app_nil_r. split; [by symmetry | simpl; lia].
Qed.
Lemma start_program_upto argv : Steps (starts_upto 1) (start_program (Srv := Srv) (En := En) (Ct := Ct) (Rf := Rf) exec_Start argv).
Proof.
  intros p. unfold start_program. destruct (exec_Start argv); simpl; [by exists [argv]|].
  exists []. by rewrite app_nil_r; split; [|simpl; lia].
Qed.
Lemma dispatch_starts c : Steps (starts_upto (count starts_program [c])) (dispatch (H := actions) c).
Proof.
  assert (∀ n (m : M process unit), Steps (starts_upto n) m → Steps (starts_upto n) (r ← attempt m; mret (answered r))) as Hat.
  { intros n m Hm p. specialize (Hm p). unfold attempt, mbind, M_bind. by destruct (m p). }
  unfold dispatch, count, starts_program. simpl. destruct (pb_type c); simpl.
  - apply quiet_starts, _.
  - apply quiet_starts, _.
  - apply Hat, quiet_starts. apply refresh_quiet.
  - apply Hat, quiet_starts. unfold renew_now. steps.
  - apply Hat. apply start_program_upto.
  - apply Hat. unfold update_action, current_update_pub. apply quiet_then; [steps|]. intros pub. apply quiet_then; [steps|].
    intros [plan|]; [apply start_program_upto | apply quiet_starts, _].
Qed.

Lemma Run_command_executed P c : P c → Steps (executed P) (Run_command (H := actions) c).
Proof.
  intros Hc e. unfold Run_command. destruct (ex_seen e !! pb_id c) as [res|] eqn:Hs; [simpl; reflexivity|].
  pose proof (dispatch_starts c (ex_host e)) as Hd. destruct (dispatch_Ok (H := actions) c (ex_host e)) as (p & b & msg & Hr).
  rewrite Hr in *. destruct Hd as (new & Hn & Hl). exists [c]. simpl.
  split_and!; [by constructor | apply NoDup_singleton | by constructor; [apply not_elem_of_dom|] | rewrite dom_insert_L; set_solver | by exists new].
Qed.

(** ** What takes no time on the clock *)

Abbreviation timeless := (keeps (λ p : process, ag_now (pc_agent p))).
#[local] Instance on_disk_now {A} (m : M disk A) : Steps (keeps (ag_now (Srv := Srv))) (ag_on_disk m).
Proof. intros a. unfold via, ag_on_disk. by destruct (m _). Qed.
#[local] Instance on_srv_now {A} (m : M Srv A) : Steps (keeps (ag_now (Srv := Srv))) (ag_on_srv m).
Proof. intros a. unfold via, ag_on_srv. by destruct (m _). Qed.
#[local] Instance draw_now : Steps (keeps (ag_now (Srv := Srv))) ag_draw.
Proof. done. Qed.
#[local] Instance of_result_now {S T A} (f : S → T) (r : result A) : Steps (keeps f) (of_result r).
Proof. done. Qed.
#[local] Instance of_rpc_now {A} (r : rpc_error + A) : Steps (keeps (ag_now (Srv := Srv))) (of_rpc r).
Proof. unfold of_rpc. by destruct r. Qed.
#[local] Instance Renew_now l : Steps (keeps (ag_now (Srv := Srv))) (Renew paths l).
Proof. unfold Renew. steps. Qed.
#[local] Instance on_agent_timeless {A} (m : M (agent Srv) A) : Steps (keeps (ag_now (Srv := Srv))) m → Steps timeless (on_agent m).
Proof. intros Hm p. specialize (Hm (pc_agent p)). unfold via, on_agent in *. by destruct (m _). Qed.
#[local] Instance on_en_timeless {A} (m : M En A) : Steps timeless (on_en m).
Proof. intros p. unfold via, on_en. by destruct (m _). Qed.
#[local] Instance on_ct_timeless {A} (m : M Ct A) : Steps timeless (on_ct m).
Proof. intros p. unfold via, on_ct. by destruct (m _). Qed.
#[local] Instance on_rf_timeless {A} (m : M Rf A) : Steps timeless (on_rf m).
Proof. intros p. unfold via, on_rf. by destruct (m _). Qed.
#[local] Instance get_timeless : Steps timeless get.
Proof. done. Qed.
#[local] Instance gets_timeless {A} (f : process → A) : Steps timeless (gets f).
Proof. done. Qed.
#[local] Instance refresh_timeless b : Steps timeless (modify (set_refresh b)).
Proof. done. Qed.
#[local] Instance asr_timeless b : Steps timeless (modify (set_asr_reported b)).
Proof. done. Qed.
#[local] Instance call_timeless {A} c (f : ClientTLS → M Srv (rpc_error + A)) : Steps timeless (call c f).
Proof. unfold call, on_srv. steps. Qed.
#[local] Instance heartbeat_timeless tls : Steps timeless (heartbeat enforcer_on inventory tls).
Proof. unfold heartbeat, pc_now, on_srv. steps. Qed.
#[local] Instance control_tick_timeless c : Steps timeless (appControlTick enforcer_on controls_on ringfence_on update_pub snapshot c).
Proof. unfold appControlTick, syncPolicy, reportObservations, reportBlocks, syncControls, syncRingfence, pc_now, pc_disk. steps. Qed.
#[local] Instance metrics_timeless c : Steps timeless (metrics_report events_on sample security_log c).
Proof. unfold metrics_report, reportEvents, pc_now. steps. Qed.
#[local] Instance start_program_timeless argv : Steps timeless (start_program (Srv := Srv) (En := En) (Ct := Ct) (Rf := Rf) exec_Start argv).
Proof. intros p. unfold start_program. by destruct (exec_Start argv). Qed.
Lemma dispatch_timeless c : Steps timeless (dispatch (H := actions) c).
Proof.
  assert (∀ m : M process unit, Steps timeless m → Steps timeless (r ← attempt m; mret (answered r))) as Hat.
  { intros m Hm p. specialize (Hm p). unfold attempt, mbind, M_bind. by destruct (m p). }
  unfold dispatch. simpl. destruct (pb_type c); [apply _ | apply _ | apply Hat | apply Hat | apply Hat | apply Hat].
  - apply refresh_timeless.
  - unfold renew_now. steps.
  - apply start_program_timeless.
  - unfold update_action, current_update_pub. apply bind_steps; [steps|]. intros pub. apply bind_steps; [apply _|].
    intros [plan|]; [apply start_program_timeless | apply _].
Qed.

(** ** A session with its clock *)

Definition clock (e : agent_process) : time := ag_now (pc_agent (ex_host e)).
Definition timed (P : CommandPB → Prop) (t : time) (e e' : agent_process) : Prop := clock e = t → executed P e e' ∧ clock e' = t.
#[local] Instance timed_preorder P t : PreOrder (timed P t).
Proof.
  split; [by intros e Ht; split|]. intros e1 e2 e3 Hab Hbc Ht. destruct (Hab Ht) as [Hp Ht2]. destruct (Hbc Ht2) as [Hq Ht3].
  split; [by etrans | done].
Qed.
Lemma on_proc_timed {A} P t (m : M process A) : Steps quiet m → Steps timeless m → Steps (timed P t) (on_proc m).
Proof.
  intros Hm Ht e <-. split; [by apply on_proc_executed|]. specialize (Ht (ex_host e)). unfold clock, on_proc. by destruct (m (ex_host e)).
Qed.
#[local] Existing Instance on_proc_timed.
Lemma timed_then {A B} P t (m : M agent_process A) (k : A → M agent_process B) :
  Steps (timed P t) m → (∀ a e, clock e = t → executed P e (k a e).1) → ∀ e, clock e = t → executed P e ((m ≫= k) e).1.
Proof.
  intros Hm Hk e He. unfold mbind, M_bind. destruct (Hm e He) as [He1 Ht]. destruct (m e) as [e1 [a|x]]; simpl in *; [|done].
  etrans; [exact He1 | by apply Hk].
Qed.
Lemma timed_executed {A} P t (m : M agent_process A) e : Steps (timed P t) m → clock e = t → executed P e (m e).1.
Proof. intros Hm He. by destruct (Hm e He). Qed.
Lemma executed_mono (P Q : CommandPB → Prop) e e' : (∀ c, P c → Q c) → executed P e e' → executed Q e e'.
Proof. intros Hpq (cs & Hp & Hrest). exists cs. split; [by eapply Forall_impl | exact Hrest]. Qed.

(** A command that arrived, and that [Verify] accepted when it did: the time is the one at
    which the session began and what the events up to it took. *)
Definition elapsed (evs : list (duration * event)) : duration := foldr (λ ev t, (ev.1 + t)%Z) 0%Z evs.
Definition arrived (l : Loaded) (t : time) (evs : list (duration * event)) (c : CommandPB) : Prop :=
  ∃ pre d sc post, evs = pre ++ (d, EvRecv (Some sc)) :: post ∧
    Verify (en_CommandPub (ld_Enrollment l)) sc (en_DeviceID (ld_Enrollment l)) (t + elapsed pre + d) = Ok c.
Lemma arrived_later l t d ev evs c : arrived l (t + d) evs c → arrived l t ((d, ev) :: evs) c.
Proof.
  intros (pre & d' & sc & post & -> & Hv). exists ((d, ev) :: pre), d', sc, post. split; [done|]. simpl.
  by replace (t + (d + elapsed pre) + d')%Z with (t + d + elapsed pre + d')%Z by lia.
Qed.
Lemma Run_command_timed P t c : P c → Steps (timed P t) (Run_command (H := actions) c).
Proof.
  intros Hc e <-. split; [by apply Run_command_executed|]. unfold Run_command, clock. destruct (_ !! _); [done|].
  pose proof (dispatch_timeless c (ex_host e)) as Hd. unfold via in Hd. by destruct (dispatch c (ex_host e)) as [p [[b msg]|x]].
Qed.
Lemma pc_now_timed {A} P t (k : time → M agent_process A) : Steps (timed P t) (k t) → Steps (timed P t) (on_proc pc_now ≫= k).
Proof. intros Hk e He. rewrite (bind_run _ _ e e t); [by apply Hk|]. unfold on_proc, clock in *. simpl. rewrite He. by destruct e. Qed.
Lemma handleCommand_timed l tls t d sc rest :
  Steps (timed (arrived l t ((d, EvRecv (Some sc)) :: rest)) (t + d)%Z) (handleCommand paths self exec_Start l tls sc).
Proof.
  unfold handleCommand. apply pc_now_timed. apply if_steps; [apply _|]. destruct (Verify _ _ _ _) as [c|x] eqn:Hv; [|apply _].
  apply bind_steps; [|intros res; unfold on_srv; steps]. apply Run_command_timed.
  exists [], d, sc, rest. split; [done|]. simpl. by rewrite Z.add_0_r.
Qed.

Lemma event_loop_executed l tls evs t e : clock e = t → executed (arrived l t evs) e (event_loop l tls evs e).1.
Proof.
  revert t e. induction evs as [|[d ev] evs IH]; intros t e He; [simpl; reflexivity|].
  assert (∀ e, clock e = (t + d)%Z → executed (arrived l t ((d, ev) :: evs)) e (event_loop l tls evs e).1) as Hrest.
  { intros e1 He1. eapply executed_mono; [intros c; apply arrived_later | by apply IH]. }
  simpl. unfold mbind at 1, M_bind at 1. set (e1 := (on_proc (elapse d) e).1).
  assert (clock e1 = (t + d)%Z) as He1 by (unfold e1, clock; simpl; unfold clock in He; by rewrite He).
  transitivity e1; [apply (on_proc_executed _ (elapse d)), _|]. change (on_proc (elapse d) e) with (e1, Ok (A := unit) tt). cbv iota beta.
  clearbody e1. destruct ev as [| | | |[sc|] | |].
  - eapply timed_executed; [|exact He1]. unfold on_srv. steps.
  - simpl. reflexivity.
  - eapply timed_then; [unfold attempt; steps | | exact He1]. intros [?|?]; [exact Hrest | by intros].
  - eapply timed_then; [by intros ?; simpl | | exact He1]. intros p e2 He2. destruct (pc_refresh p); [|by apply Hrest].
    revert e2 He2. apply timed_then; [steps|]. intros []. apply timed_then; [steps|]. intros [?|?]; [exact Hrest | by intros].
  - eapply timed_then; [apply handleCommand_timed | | exact He1]. intros []. exact Hrest.
  - by apply Hrest.
  - eapply timed_then; [unfold app_tick; steps | | exact He1]. intros []. exact Hrest.
  - eapply timed_then; [unfold metrics_tick; steps | | exact He1]. intros []. exact Hrest.
Qed.

(** C3. An agent executes only what its tenant signed for it. Whatever a session meets, even if
    it ends in a crash, the commands executed during it are commands that arrived in
    it and that the command key verified, when they arrived, as addressed to this device and
    not expired; each is new, by its id, and no two have the same id; and a program is started, to
    uninstall or to update the agent, only for such a command of that type, one each. *)
Theorem session_runs_signed_commands l tls evs e e' r :
  event_loop l tls evs e = (e', r) →
  ∃ cmds, Forall (arrived l (clock e) evs) cmds ∧ NoDup (pb_id <$> cmds) ∧ Forall (λ c, pb_id c ∉ dom (ex_seen e)) cmds ∧
    dom (ex_seen e') = dom (ex_seen e) ∪ list_to_set (pb_id <$> cmds) ∧
    ∃ new, started e' = started e ++ new ∧ length new ≤ count starts_program cmds.
Proof. intros Hl. pose proof (event_loop_executed l tls evs (clock e) e eq_refl) as He. by rewrite Hl in He. Qed.
End runner.
