(* ===== verification/EndToEnd.v ===== *)
(** * An agent and its server

    The agent of [Identity] and [Runner] with the server of [Backend]: a device that enrolled is let
    in with what it stored, a renewal moves both sides together, what its tenant
    signs reaches it, and the policy that is published for it is the one it applies and
    reports. *)

From Stdlib Require Import SpecFloat.
From stdpp Require Import gmap strings list.
From S2P Require Import Prelude GoStr Wdac Db Hub World StoreCore StoreTelemetry StoreRingfence Commands Policies PolicyFacts Enroll EnrollFacts Bootstrap AgentApi.
From S2P Require Import Endpoint Updater Identity IdentityFacts Executor Authenticode WinEvents Fence EndpointControls Runner Backend RunnerFacts RunnerCommands.

Section identity.
Context `{UuidText, !UuidTextOk, UuidSource, Crypto, !CryptoOk, Hasher, Pki, KeyLib, IdentityLib, !IdentityLibOk, Protector, !ProtectorOk}.
Context (keys : uuid → result Keys) (chain : list string) (paths : Paths).
#[local] Existing Instance enroll_backend.
Abbreviation backend_enroll := (enroll_backend keys chain).
#[local] Instance the_backend : EnrollServer backend := enroll_backend keys chain.

(** The database behind an agent. *)
Definition db_of (a : agent backend) : db := w_db (be_world (ag_srv a)).
(** An identity the server lets in as a device. *)
Definition let_in (a : agent backend) (l : Loaded) (dev : device) : Prop :=
  Load paths (ag_disk a) = (ag_disk a, Ok l) ∧ en_DeviceID (ld_Enrollment l) = uuid_string (dev_ID dev) ∧
  ∃ tls, TLSConfig l = Ok tls ∧ authenticate (peer_of tls) (db_of a) = (db_of a, Ok (inr dev)).

Lemma on_world_Ok {A} (m : M world A) b b' x : on_world m b = (b', Ok x) → m (be_world b) = (be_world b', Ok x).
Proof. unfold on_world. destruct (m (be_world b)). by intros [= <- ->]. Qed.

Lemma AgentEnroll_let_in tok hw a a' enr :
  (∀ t k, keys t = Ok k → good_ca (CA_Cert k)) →
  AgentEnroll paths tok hw a = (a', Ok enr) →
  ∃ l dev k,
    let_in a' l dev ∧ ld_Enrollment l = enr ∧ keys (dev_TenantID dev) = Ok k ∧ ld_caDER l = CA_Cert k ∧
    en_UpdatePub enr = ed_public (UpdateKey k) ∧ en_UninstallHash enr = UninstallCodeHash k (dev_ID dev) ∧
    ∀ typ c sc t, Sign (CommandKey k) (to_pb typ c) = Ok sc → pc_device c = dev_ID dev → (t ≤ pc_expires_at c)%Z →
      Verify (en_CommandPub enr) sc (en_DeviceID enr) t = Ok (to_pb typ c).
Proof.
  intros Hca (secret & pin & key & csr & resp & _ & _ & Hr & -> & Hload)%Enroll_then_Load.
  simpl in Hr. destruct (check_pinned pin chain) as [|e]; [|done]. apply on_world_Ok in Hr.
  apply Enroll_lets_in in Hr as (id & sn & tenant & tk & t0 & k & req & Hcac & Hck & Huk & Hun & Hid & _ & _ & _ & _ & Hk & _ & Hcr & Hau).
  pose proof (leaf_parsed _ _ _ _ _ Hcr) as Hleaf. destruct (Hload _ Hleaf) as (kd & Hl & Hkd). simpl in Hl.
  destruct (Hca _ _ Hk) as [root Hroot]. eexists _, (mkDeviceRef id tenant), k. simpl. split_and!.
  - split; [exact Hl|]. split; [exact Hid|]. eexists. split; [unfold TLSConfig; simpl; by rewrite Hkd, Hcac, Hroot|].
    unfold peer_of. simpl. rewrite Hleaf. exact Hau.
  - done.
  - exact Hk.
  - exact Hcac.
  - exact Huk.
  - exact Hun.
  - intros typ c sc t Hs <- Ht. rewrite Hck, Hid. by apply Verify_before_expiry.
Qed.

(** C18. Enrollment works end to end. When it succeeds, what the agent loads from its disk from
    then on is let in by the server, as the device whose id it stored and of the tenant of
    the token; it trusts that tenant's authority and update key, holds
    the hash of the uninstall code the console shows for it; and every command the tenant
    signs for the device passes the agent's check up to its deadline. *)
Theorem enrolled_agent_is_let_in tok hw a a' enr :
  (∀ t k, keys t = Ok k → good_ca (CA_Cert k)) →
  AgentEnroll paths tok hw a = (a', Ok enr) →
  ∃ l dev k,
    let_in a' l dev ∧ ld_Enrollment l = enr ∧ keys (dev_TenantID dev) = Ok k ∧ ld_caDER l = CA_Cert k ∧
    en_UpdatePub enr = ed_public (UpdateKey k) ∧ en_UninstallHash enr = UninstallCodeHash k (dev_ID dev) ∧
    ∀ typ c sc t, Sign (CommandKey k) (to_pb typ c) = Ok sc → pc_device c = dev_ID dev → (t ≤ pc_expires_at c)%Z →
      Verify (en_CommandPub enr) sc (en_DeviceID enr) t = Ok (to_pb typ c).
Proof. apply AgentEnroll_let_in. Qed.

(** Renewal moves both sides together. When it succeeds for a device that is let in, the
    agent's new identity has the same enrollment, is let in as the same device, and lasts
    another ninety days from the server's clock; the certificate it had before is refused
    from then on, unless it happens to have the new serial number. *)
Theorem renewed_agent_is_let_in l dev a a' :
  let_in a l dev → good_ca (ld_caDER l) → Renew paths l a = (a', Ok tt) →
  ∃ l' sn, sn = rand_serial (w_drawn (be_world (ag_srv a))) ∧ let_in a' l' dev ∧ ld_Enrollment l' = ld_Enrollment l ∧
    ld_CertNotAfter l' = TruncateSecond (w_now (be_world (ag_srv a)) + DeviceCertValidity) ∧
    ∀ cn sn', sn' ≠ sn → authenticate (Leaf cn sn') (db_of a') ≠ (db_of a', Ok (inr dev)).
Proof.
  intros (Hl & Hid & tls & Ht & Hau) Hca Hr.
  destruct (Renew_then_Load paths l a a' Hl Hr) as (tls0 & key & csr & der & Ht0 & _ & Hrpc & Hload).
  rewrite Ht in Ht0. injection Ht0 as <-. cbn in Hrpc. unfold db_of in Hau. rewrite (as_device_run _ _ _ _ dev) in Hrpc by done.
  apply on_world_Ok in Hrpc.
  apply authenticate_inv in Hau as Hinv. destruct Hinv as (_ & _ & v & tn & _ & _ & Hv & _ & Hrev & _ & Htn & Hsu).
  destruct (RenewCertificate_supersedes keys dev csr _ _ der v tn Hv Hrev Htn Hsu Hrpc) as (sn & Hsn & (nb & ca & pub & ck & Hcr) & Hex).
  pose proof (leaf_parsed _ _ _ _ _ Hcr) as Hleaf. destruct (Hload _ Hleaf) as (kd & Hl' & Hkd). simpl in Hl'.
  destruct Hca as [root Hroot]. exists (mkLoaded (ld_Enrollment l) der kd (ld_caDER l) (TruncateSecond (w_now (be_world (ag_srv a)) + DeviceCertValidity))), sn.
  split_and!; [done| |done|done|].
  - split; [exact Hl'|]. split; [exact Hid|]. eexists. split; [unfold TLSConfig; simpl; by rewrite Hkd, Hroot|].
    unfold peer_of. simpl. rewrite Hleaf. by apply Hex.
  - intros cn sn' Hne Hau'. apply Hne, Hex.
    apply authenticate_inv in Hau' as (? & ? & v' & tn' & [= <- <-] & Hcn & Hv' & Htv & Hrev' & Hs' & Htn' & Hsu').
    rewrite (authenticate_accepts _ sn' (dev_ID dev) v' tn'); rewrite ?Htv; first [done | by destruct dev | apply uuid_parse_string].
Qed.
End identity.

(** ** Policies *)

(** What the runner relies on: an enforcer reports the version it applied, and one that fails
    still reports the one before. *)
Class EnforcerOk (En : Type) `{PolicyEnforcer En} : Prop :=
  en_applies : ∀ v m x (e e' : En) r, en_Apply v m x e = (e', r) →
    match r with Ok _ => AppliedVersion (en_Status e') = v | Err _ => en_Status e' = en_Status e end.
Lemma noop_enforcer_ok : EnforcerOk EnforcerStatus (H := noop_enforcer).
Proof. intros v m x e e' r Ha. simpl in *. unfold Noop_Enforce in Ha. destruct (good_mode m); by injection Ha as <- <-. Qed.
Lemma wdac_enforcer_ok `{CiTools, EventXml} DataDir : EnforcerOk wdac (H := wdac_enforcer DataDir).
Proof.
  intros v m x e e' r Ha. apply wdac_applies_or_reports in Ha. destruct r; simpl; [by destruct Ha as (_ & ? & _) | by destruct Ha].
Qed.

Section policies.
Context {En Ct Rf : Type} `{PolicyEnforcer En, !EnforcerOk En, ControlEnforcer Ct, FenceEnforcer Rf}.
Context `{UuidText, UuidSource, Crypto, !CryptoOk, Hasher, Pki, IdentityLib}.
Context (sort : ∀ A, (A → A → bool) → list A → list A) (keys : uuid → result Keys) (notify : option Emitter) (alerting : option (option Emitter)).
Context (network : time → option err) (inventory : time → Inventory).
#[local] Instance the_server : AgentServer backend := agent_backend sort keys true true notify alerting network.
Abbreviation process := (proc backend En Ct Rf).
Definition world_of (p : process) : world := be_world (ag_srv (pc_agent p)).

Lemma call_run {A} tls (f : ClientTLS → M backend (rpc_error + A)) (p : process) a :
  f tls (ag_srv (pc_agent p)) = (ag_srv (pc_agent p), Ok (inr a)) → call (Some tls) f p = (p, Ok (inr a)).
Proof.
  intros Hf. unfold call, attempt, on_srv, on_agent, ag_on_srv, mbind, M_bind. rewrite Hf. simpl. by destruct p as [[] ? ? ? ? ? ? ?].
Qed.
Lemma GetPolicy_run tls dev eff (b : backend) :
  authenticate (peer_of tls) (w_db (be_world b)) = (w_db (be_world b), Ok (inr dev)) →
  Effective_for sort keys (dev_TenantID dev) (dev_ID dev) (w_db (be_world b)) = (w_db (be_world b), Ok eff) →
  rpc_GetPolicy (AgentServer := the_server) tls b = (b, Ok (inr eff)).
Proof.
  intros Ha He. cbn [rpc_GetPolicy the_server agent_backend]. rewrite (as_device_run _ _ _ _ dev) by done.
  unfold on_world, GetPolicy_rpc, attempt, on_db, mbind, M_bind. simpl. rewrite He. by destruct b as [[] ?].
Qed.

Lemma send_run tls m (b : backend) dev :
  be_stream b = Some dev → stream_Send (AgentServer := the_server) tls m b = on_world (handle true dev m) b.
Proof. intros Hs. cbn [stream_Send the_server agent_backend]. rewrite (bind_run _ _ b b b) by done. by rewrite Hs. Qed.
(** The heartbeat of a connected agent writes what it reports in the device's row. *)
Lemma heartbeat_row tls dev v (p p' : process) r :
  be_stream (ag_srv (pc_agent p)) = Some dev → devices (w_db (world_of p)) !! dev_ID dev = Some v → dv_tenant v = dev_TenantID dev →
  heartbeat true inventory tls p = (p', r) →
  r = Ok tt ∧ pc_en p' = pc_en p ∧
  (AppliedVersion (en_Status (pc_en p)) ≠ "" →
   ∃ v', devices (w_db (world_of p')) !! dev_ID dev = Some v' ∧ dv_policy_version v' = AppliedVersion (en_Status (pc_en p))).
Proof.
  intros Hst Hv Hvt. unfold heartbeat. rewrite (bind_run pc_now _ p p _ eq_refl), (bind_run get _ p p p eq_refl).
  unfold on_srv, on_agent, ag_on_srv. rewrite (send_run _ _ _ dev Hst).
  unfold on_world, handle, now, gets, mbind, M_bind, attempt, on_db, RecordHeartbeat, SetDevicePolicyVersion, upd_device, oneRow.
  simpl. unfold world_of in Hv. rewrite Hv. rewrite bool_decide_eq_true_2 by done. simpl.
  case_bool_decide as Hempty; simpl.
  - intros [= <- <-]. done.
  - rewrite lookup_insert_eq. rewrite bool_decide_eq_true_2 by done. simpl. intros [= <- <-]. split_and!; try done.
    intros _. eexists. unfold world_of. simpl. by rewrite lookup_insert_eq.
Qed.

(** C4. A published policy takes effect. When a connected agent synchronizes and then reports,
    its policy is the one the server resolves for its device, whose version is the hash of
    its XML: the agent accepts the signature, applies it if it did not have that version
    yet, and the device's row afterwards shows the version that is applied on the endpoint. The
    only way out is that the enforcer itself fails, and then the row shows what stayed. *)
Theorem policy_reaches_the_device tls dev v k update_pub (p p1 p2 : process) r1 r2 :
  authenticate (peer_of tls) (w_db (world_of p)) = (w_db (world_of p), Ok (inr dev)) → be_stream (ag_srv (pc_agent p)) = Some dev →
  devices (w_db (world_of p)) !! dev_ID dev = Some v → dv_tenant v = dev_TenantID dev →
  policies_ok sort keys (policy_tables (w_db (world_of p))) → keys (dev_TenantID dev) = Ok k →
  update_pub = ed_public (UpdateKey k) → String.length update_pub = PublicKeySize →
  syncPolicy update_pub (Some tls) p = (p1, r1) → heartbeat true inventory tls p1 = (p2, r2) →
  r1 = Ok tt ∧ r2 = Ok tt ∧
  ∃ eff, Effective_for sort keys (dev_TenantID dev) (dev_ID dev) (w_db (world_of p)) = (w_db (world_of p), Ok eff) ∧
    ef_Version eff = sha256_hex (ef_XML eff) ∧
    let applied := AppliedVersion (en_Status (pc_en p2)) in
    (applied = ef_Version eff ∨
     applied = AppliedVersion (en_Status (pc_en p)) ∧ is_ok (en_Apply (ef_Version eff) (ef_Mode eff) (ef_XML eff) (pc_en p)).2 = false) ∧
    (applied ≠ "" → ∃ v', devices (w_db (world_of p2)) !! dev_ID dev = Some v' ∧ dv_policy_version v' = applied).
Proof.
  intros Hau Hst Hv Hvt Hok Hk Hpub Hlen Hs Hh.
  destruct (Effective_signed sort keys (dev_TenantID dev) (dev_ID dev) _ k Hok Hk) as (eff & rs & He & Hsig & Hver & _).
  unfold syncPolicy in Hs. rewrite (bind_run _ _ p p (inr eff)) in Hs by (apply call_run; by apply (GetPolicy_run _ dev)).
  rewrite (bind_run _ _ p p p) in Hs by done. rewrite Hlen, Hpub in Hs. cbn [negb Nat.eqb PublicKeySize] in Hs.
  unfold Verify_policy in Hsig. rewrite Hsig in Hs. cbn [negb] in Hs.
  assert (world_of p1 = world_of p ∧ be_stream (ag_srv (pc_agent p1)) = Some dev ∧ r1 = Ok tt ∧
    (AppliedVersion (en_Status (pc_en p1)) = ef_Version eff ∨
     AppliedVersion (en_Status (pc_en p1)) = AppliedVersion (en_Status (pc_en p)) ∧
     is_ok (en_Apply (ef_Version eff) (ef_Mode eff) (ef_XML eff) (pc_en p)).2 = false)) as (Hw & Hst1 & -> & Happ).
  { case_bool_decide as Hsame; [injection Hs as <- <-; auto|]. unfold attempt, on_en, mbind, M_bind in Hs.
    destruct (en_Apply _ _ _ (pc_en p)) as [e' [[]|x]] eqn:Ha; pose proof (en_applies _ _ _ _ _ _ Ha) as Hst'; injection Hs as <- <-;
      simpl; split_and!; try done; [by left | right; by rewrite Hst']. }
  destruct (heartbeat_row tls dev v p1 p2 r2 Hst1) as (-> & Hen & Hrow); [by rewrite Hw | done | done |].
  split; [done|]. split; [done|]. exists eff. rewrite Hen. auto.
Qed.
End policies.

(** ** Renewals against the server *)

Section renewals.
Context `{UuidText, UuidSource, Crypto, Hasher, Pki, KeyLib, IdentityLib, !IdentityLibOk} (keys : uuid → result Keys) (chain : list string).

(** Whatever device it is for, a renewal that is answered has a certificate that parses. *)
Lemma RenewCertificate_parses dev csr w w' der : RenewCertificate keys dev csr w = (w', Ok (inr der)) → good_cert der.
Proof.
  unfold RenewCertificate. intros (t & w1 & [= <- <-] & He)%bind_Ok. destruct (keys (dev_TenantID dev)) as [k|]; [|done].
  apply bind_Ok in He as (n & w2 & [= <- <-] & He). destruct (SignDevice _ _ _ _ _) as [[[der' serial] notAfter]|] eqn:Hs; [|done].
  apply SignDevice_Ok in Hs as (_ & _ & req & _ & _ & _ & Hc). apply bind_Ok in He as (r & w3 & _ & He).
  destruct r; [|done]. apply bind_Ok in He as (? & w4 & _ & [= <- <-]). eexists. by eapply leaf_parsed.
Qed.
Lemma backend_renewals_parse : renewals_parse (H := enroll_backend keys chain).
Proof.
  intros tls csr b b' der. cbn [rpc_Renew enroll_backend]. unfold as_device. intros Hr%on_world_Ok. revert Hr. unfold withAuth.
  destruct (negb _); [done|]. intros (r & w1 & _ & Hr)%bind_Ok. destruct r as [e|dev]; [done|]. by eapply RenewCertificate_parses.
Qed.

(** Opening a stream to a server that the network reaches always works for the client. *)
Lemma backend_opening sort commands_on policy_on notify alerting (network : time → option err) T :
  (∀ t, (T ≤ t)%Z → network t = None) →
  opening (H0 := agent_backend sort keys commands_on policy_on notify alerting network) T.
Proof.
  intros Hn. assert (∀ tls b, ∃ b', open_stream keys commands_on tls b = (b', Ok tt)) as Ho.
  { intros tls b. unfold open_stream, on_world, on_db, mbind, M_bind.
    destruct (authenticate _ _) as [d r] eqn:Ha. assert (∃ x, r = Ok x) as [x ->].
    { revert Ha. unfold authenticate, refuse, mbind, M_bind, attempt, mret, M_ret.
      repeat (case_match; simplify_eq/=; try by (intros [= <- <-]; eauto)). }
    destruct x as [e|dev]; [by eexists|]. unfold Connect_start, mbind, M_bind. simpl.
    destruct commands_on; [|by eexists]. unfold attempt. destruct (DeliverPending _ _ _ _). by eexists. }
  split.
  - intros t tls b Ht. cbn [rpc_Connect agent_backend]. rewrite (Hn t Ht). destruct (Ho tls b) as [b' Hb]. exists b'.
    by rewrite (bind_run _ _ _ _ _ Hb).
  - intros t tls b b' e. cbn [rpc_Connect agent_backend]. destruct (network t); [by intros [= _ <-]|].
    destruct (Ho tls b) as [b1 Hb]. by rewrite (bind_run _ _ _ _ _ Hb).
  - intros tls m b. cbn [stream_Send agent_backend]. rewrite (bind_run _ _ b b b) by done.
    destruct (be_stream b) as [dev|]; [|by eexists]. unfold on_world.
    destruct (handle commands_on dev m (be_world b)) as [w r] eqn:Hh. exists (mkBackend w (be_stream b)).
    enough (r = Ok tt) as -> by done. revert Hh. unfold handle, now, gets, attempt, mbind, M_bind, mret, M_ret.
    destruct m; repeat (case_match; simplify_eq/=; try by intros [= <- <-]).
Qed.
End renewals.

(** ** One agent *)

Module Fleet.
Import Toy AgentDemo.
Definition up_at : time := (Hour + Second)%Z.
Definition network (t : time) : option err := if (t <? up_at)%Z then Some (EMsg "connection refused") else None.
#[export] Instance fleet_server : AgentServer backend := agent_backend insertion_sort agent_keys true true None None network.
#[export] Instance no_xml : EventXml := {| xml_events _ := Ok []; parse_time _ := None |}.
#[export] Instance tools : CiTools := plain_tools.
#[export] Instance fleet_enforcer : PolicyEnforcer wdac := wdac_enforcer "C:".
#[export] Instance fleet_enforcer_ok : EnforcerOk wdac := wdac_enforcer_ok "C:".
#[export] Instance fleet_controls : ControlEnforcer Controls := noop_controls.
#[export] Instance fleet_fence : FenceEnforcer FenceStatus := noop_fence.
#[export] Instance no_signatures : SignatureLib := {| pe_security _ := Ok (0, 0)%Z; certsFromPKCS7 _ := Ok []; win_verify _ := false |}.
#[export] Instance no_digest : Digest := λ _ s, s.
#[export] Instance no_downloads : Download_lib := {| http_get _ := Err (EMsg "offline"); unmarshal_update _ := Err (EMsg "json") |}.
#[export] Instance plain_errors : ErrorText := λ e, match e with EMsg m => m | _ => "error" end.
Definition inventory (_ : time) : Inventory := mkInventory "pc" "10.0" [] "" "1.0" 7.
Definition boot (a : agent backend) : executor (proc backend wdac Controls FenceStatus) :=
  mkExecutor (mkProc a (mkWdac (mkDisk ∅ []) None [] (mkEnforcerStatus "" "")) (mkControls false false false) (mkFenceStatus "" false)
                false None 0 []) ∅.
Abbreviation fleet_run := (Run machine_paths true true true false false update_key inventory (λ _, Ok []) (λ _, Err (EMsg "metrics"))
                             (λ _, Err (EMsg "log")) (Ok "agent.exe") (λ _, Ok tt)).
Abbreviation fleet_loop := (event_loop machine_paths true true true false false update_key inventory (λ _, Ok []) (λ _, Err (EMsg "metrics"))
                             (λ _, Err (EMsg "log")) (Ok "agent.exe") (λ _, Ok tt)).
(** What the agent loaded, and its side of the connection. *)
Definition loaded : Loaded :=
  match (Load machine_paths (ag_disk enrolled)).2 with Ok l => l | Err _ => mkLoaded (mkEnrollment "" "" "" "") "" "" "" 0 end.
Definition client_tls : ClientTLS := match TLSConfig loaded with Ok t => t | Err _ => no_tls end.
Definition dev100 : device := mkDeviceRef 100 1.
Definition connected : executor (proc backend wdac Controls FenceStatus) :=
  boot (mkAgent (ag_disk enrolled) Hour 1 (open_stream agent_keys true client_tls (ag_srv enrolled)).1).
(** A command of the tenant for this device, one for another device, and one nobody signed. *)
Definition order (typ : CommandType) (device : uuid) : SignedCommand :=
  match Sign command_key (mkCommandPB "order" typ (uuid_string device) 0 (to_unix (2 * Hour)%Z) "") with
  | Ok sc => sc | Err _ => mkSignedCommand "" ""
  end.
End Fleet.

Section fleet.
Import Toy AgentDemo Fleet.

Lemma enrolled_loadable : loadable machine_paths (ag_disk enrolled).
Proof.
  split.
  - eexists. split; [vm_compute; reflexivity|]. eexists. vm_compute. reflexivity.
  - eexists. split; [vm_compute; reflexivity|]. eexists. split; [vm_compute; reflexivity|]. eexists. vm_compute. reflexivity.
  - eexists. split; [vm_compute; reflexivity|]. eexists. split; [vm_compute; reflexivity|]. eexists. vm_compute. reflexivity.
  - eexists. split; [vm_compute; reflexivity|]. eexists. split; [vm_compute; reflexivity|]. eexists _, _. split; vm_compute; reflexivity.
Qed.

Lemma Enroll_all_or_nothing_witness :
  Enrolled machine_paths (ag_disk fresh_agent) = false ∧
  Enrolled machine_paths (ag_disk enrolled) = is_ok (AgentEnroll machine_paths token hardware fresh_agent).2.
Proof.
  split; [reflexivity|]. unfold enrolled. destruct (AgentEnroll machine_paths token hardware fresh_agent) as [a' r] eqn:He.
  apply (Enroll_all_or_nothing machine_paths token hardware fresh_agent a' r He); [reflexivity | constructor].
Defined.

Lemma enrolled_agent_is_let_in_witness :
  ∃ enr l dev, (AgentEnroll machine_paths token hardware fresh_agent).2 = Ok enr ∧
    Load machine_paths (ag_disk enrolled) = (ag_disk enrolled, Ok l) ∧ en_DeviceID (ld_Enrollment l) = uuid_string (dev_ID dev).
Proof.
  unfold enrolled. destruct (AgentEnroll machine_paths token hardware fresh_agent) as [a' r] eqn:He.
  destruct r as [enr|e]; [|vm_compute in He; discriminate He].
  destruct (enrolled_agent_is_let_in agent_keys [server_leaf; "authority"] machine_paths token hardware fresh_agent a' enr)
    as (l & dev & k & (Hl & Hid & _) & _); [intros t k Hk; exists (CA_Cert k); reflexivity | exact He |].
  exists enr, l, dev. split; [reflexivity|]. split; [exact Hl | exact Hid].
Defined.

Lemma client_let_in : let_in machine_paths enrolled loaded dev100.
Proof. split; [vm_compute; reflexivity|]. split; [vm_compute; reflexivity|]. eexists. split; vm_compute; reflexivity. Qed.
Lemma renewed_agent_is_let_in_witness :
  let a' := (Renew machine_paths loaded enrolled).1 in
  ∃ l', let_in machine_paths a' l' dev100 ∧ authenticate (peer_of client_tls) (db_of a') ≠ (db_of a', Ok (inr dev100)).
Proof.
  destruct (Renew machine_paths loaded enrolled) as [a' r] eqn:Hr.
  destruct r as [[]|e]; [|vm_compute in Hr; discriminate Hr].
  destruct (renewed_agent_is_let_in agent_keys [server_leaf; "authority"] machine_paths loaded dev100 enrolled a' client_let_in)
    as (l' & sn & Hsn & Hl & _ & _ & Hold); [eexists; reflexivity | exact Hr |].
  exists l'. split; [exact Hl|].
  assert (peer_of client_tls = Leaf "101001" 1001) as Hp by (vm_compute; reflexivity). rewrite Hp. apply Hold. rewrite Hsn.
  vm_compute. discriminate.
Defined.

(** The answer to a renewal is lost: the server has already replaced the serial number, and the
    agent, which still has the old certificate, is turned away for good. *)
Example renewal_answer_lost :
  let '(b, r) := rpc_Renew client_tls "new key" (ag_srv enrolled) in
  is_ok r = true ∧
  (authenticate (peer_of client_tls) (w_db (be_world b))).2 = Ok (inl (RpcErr Unauthenticated "certificate superseded")).
Proof. by vm_compute. Qed.

Lemma no_policies d :
  policies d = ∅ → policy_versions d = ∅ → policy_assignments d = ∅ → policies_ok insertion_sort agent_keys (policy_tables d).
Proof. intros Hp Hv Ha. unfold policy_tables. rewrite Hp, Hv, Ha. by split. Qed.
Lemma policy_reaches_the_device_witness :
  let p := ex_host connected in
  let p1 := (syncPolicy update_key (Some client_tls) p).1 in
  let p2 := (heartbeat true inventory client_tls p1).1 in
  is_Some (wd_active (pc_en p2)) ∧
  ∃ eff, Effective_for insertion_sort agent_keys 1 100 (w_db (world_of p)) = (w_db (world_of p), Ok eff) ∧
    AppliedVersion (en_Status (pc_en p2)) = ef_Version eff.
Proof.
  intros p p1 p2. split; [vm_compute; eexists; reflexivity|].
  assert (bool_decide (AppliedVersion (en_Status (pc_en p2)) = "") = false) as Hne by (vm_compute; reflexivity).
  apply bool_decide_eq_false in Hne.
  destruct (syncPolicy update_key (Some client_tls) p) as [q1 r1] eqn:E1. destruct (heartbeat true inventory client_tls q1) as [q2 r2] eqn:E2.
  assert (p1 = q1) as Hq1 by (unfold p1; rewrite ?E1; reflexivity).
  assert (p2 = q2) as Hq2 by (unfold p2; rewrite ?Hq1, ?E2; reflexivity).
  destruct (devices (w_db (world_of p)) !! 100%N) as [v|] eqn:Hv; [|vm_compute in Hv; discriminate Hv].
  assert (dv_tenant <$> devices (w_db (world_of p)) !! 100%N = Some 1%N) as Ht by (vm_compute; reflexivity).
  rewrite Hv in Ht. injection Ht as Ht.
  destruct (policy_reaches_the_device insertion_sort agent_keys None None network inventory client_tls dev100 v
    (mkKeys command_key update_key "authority" "cak" "unk") update_key p q1 q2 r1 r2)
    as (_ & _ & eff & He & _ & Happ & _).
  - vm_compute. reflexivity.
  - vm_compute. reflexivity.
  - exact Hv.
  - exact Ht.
  - apply no_policies; vm_compute; reflexivity.
  - reflexivity.
  - reflexivity.
  - reflexivity.
  - exact E1.
  - exact E2.
  - exists eff. split; [exact He|]. rewrite Hq2. destruct Happ as [Happ|[Hsame _]]; [exact Happ|].
    exfalso. rewrite <- Hq2 in Hsame. apply Hne. rewrite Hsame. reflexivity.
Defined.

(** The server is down for a second: the first two attempts fail, the third connects. *)
Definition attempt_s (k : Z) : script := mkScript 0 k [].

(** Three commands arrive, twice: only the one for this device is executed, once. *)
Lemma session_runs_signed_commands_witness :
  let evs := [(0%Z, EvRecv (Some (order UNINSTALL 101))); (0%Z, EvRecv (Some (order UNINSTALL 100)));
              (0%Z, EvRecv (Some (mkSignedCommand (sc_command (order PING 100)) "forged"))); (0%Z, EvRecv (Some (order UNINSTALL 100)))] in
  let e' := (fleet_loop loaded client_tls evs connected).1 in
  length (started e') = 1 ∧
  ∃ cmds, Forall (arrived loaded (clock connected) evs) cmds ∧ dom (ex_seen e') = dom (ex_seen connected) ∪ list_to_set (pb_id <$> cmds).
Proof.
  intros evs e'. split; [vm_compute; reflexivity|].
  destruct (session_runs_signed_commands machine_paths true true true false false update_key inventory (λ _, Ok []) (λ _, Err (EMsg "metrics"))
    (λ _, Err (EMsg "log")) (Ok "agent.exe") (λ _, Ok tt) loaded client_tls evs connected e' (fleet_loop loaded client_tls evs connected).2)
    as (cmds & Ha & _ & _ & Hd & _); [apply surjective_pairing|].
  exists cmds. split; [exact Ha | exact Hd].
Defined.

(** A server that opens the stream and then refuses, as it does for every agent of a suspended
    tenant, counts as a connection: the backoff starts over each time, and every attempt leaves
    behind background loops that nothing ends. *)
Definition refused (k : Z) : script := mkScript 0 k [(0%Z, EvRecvErr (Status_err (RpcErr PermissionDenied "tenant suspended")))].
Definition later : executor (proc backend wdac Controls FenceStatus) :=
  boot (mkAgent (ag_disk enrolled) up_at 1 (ag_srv enrolled)).
Example suspended_agents_do_not_back_off :
  let '(e', r) := fleet_run 0 (replicate 6 (refused 0)) later in
  (match r with Ok (_, log) => at_wait <$> log | Err _ => [] end) = replicate 6 (500000000)%Z ∧ pc_loops (ex_host e') = 6.
Proof. by vm_compute. Qed.

(** A certificate is renewed as soon as less than sixty of its ninety days are left. *)
Example renewed_after_a_month :
  let month := mkAgent (ag_disk enrolled) (Hour + 30 * 24 * Hour)%Z 1 (ag_srv enrolled) in
  let day_later := mkAgent (ag_disk enrolled) (Hour + 30 * 24 * Hour + Second)%Z 1 (ag_srv enrolled) in
  ag_drawn (pc_agent (open_identity machine_paths (ex_host (boot month))).1) = 1 ∧
  ag_drawn (pc_agent (open_identity machine_paths (ex_host (boot day_later))).1) = 2.
Proof. by vm_compute. Qed.

(** The signature covers the version only: XML that does not hash to it is applied as well. *)
Definition with_xml (xml : string) (r : result (rpc_error + Effective)) : result (rpc_error + Effective) :=
  match r with Ok (inr eff) => Ok (inr (mkEffective (ef_Version eff) (ef_Mode eff) xml (ef_Signature eff))) | _ => r end.
Definition tampering : AgentServer backend := {|
  rpc_Connect := rpc_Connect; stream_Send := stream_Send; rpc_Observe := rpc_Observe; rpc_ReportBlocks := rpc_ReportBlocks;
  rpc_GetPolicy tls := λ b, let '(b', r) := rpc_GetPolicy tls b in (b', with_xml "<allow-everything/>" r);
  rpc_GetControls := rpc_GetControls; rpc_GetRingfence := rpc_GetRingfence; rpc_ReportRingfenceEvents := rpc_ReportRingfenceEvents;
  rpc_ReportMetrics := rpc_ReportMetrics; rpc_ReportEvents := rpc_ReportEvents |}.
Example xml_is_not_checked :
  wd_active (pc_en (syncPolicy (H0 := tampering) update_key (Some client_tls) (ex_host connected)).1) = Some "<allow-everything/>".
Proof. by vm_compute. Qed.
End fleet.
