(* ===== verification/UpdateEndToEnd.v ===== *)
(** * A release reaches the device

    The whole path of an update: the console stores a release and signs it, a command for one
    device carries its address, hash and signature, the device's agent checks the command, downloads
    the release from the console, stages it and starts the helper, and the helper puts it in the
    place of the agent. Composes [Releases], [Commands], [Hub], [Runner], [Updater] and
    [AgentApi]. *)

From Stdlib Require Import SpecFloat.
From stdpp Require Import gmap strings list.
From S2P Require Import Prelude GoStr Wdac Db Hub World StoreCore StoreAdmins StoreTelemetry StoreRingfence Commands Policies PolicyFacts Http Authn Enroll EnrollFacts Bootstrap App Releases Console AgentApi AgentFacts.
From S2P Require Import Endpoint Updater Identity IdentityFacts Executor Authenticode WinEvents Fence EndpointControls Runner Backend RunnerFacts RunnerCommands EndToEnd.

Section updates.
Context {En Ct Rf : Type} `{PolicyEnforcer En, ControlEnforcer Ct, FenceEnforcer Rf}.
Context `{UuidText, !UuidTextOk, UuidSource, Crypto, !CryptoOk, Hasher, Pki, KeyLib, IdentityLib, Protector, Download_lib, ErrorText}.
Context (sort : ∀ A, (A → A → bool) → list A → list A) (keys : uuid → result Keys) (chain : list string).
Context (notify : option Emitter) (alerting : option (option Emitter)) (network : time → option err).
Context (MarshalUpdate : UpdatePayload → string) (ReleaseURL : uuid → string → string) (ReleaseDir : string).
Context (paths : Paths) (self : string) (exec_Start : list string → result unit).
#[local] Instance up_enroll : EnrollServer backend := enroll_backend keys chain.
#[local] Instance up_server : AgentServer backend := agent_backend sort keys true true notify alerting network.
Abbreviation process := (proc backend En Ct Rf).
Abbreviation agent_process := (executor process).
Abbreviation handles := (handleCommand (En := En) (Ct := Ct) (Rf := Rf) paths (Ok self) exec_Start).

(** What the agent is told, and where. *)
Definition staged_at : string := staged_path (InstallDir paths).
Definition update_plan : Plan := mkPlan self staged_at (UpdaterExe paths) "FreeLockerAgent".

(** The identity of a process is the one its session uses, with keys of the right size. *)
Definition holds (l : Loaded) (k : Keys) (dev : device) (p : process) : Prop :=
  Load paths (ag_disk (pc_agent p)) = (ag_disk (pc_agent p), Ok l) ∧ en_DeviceID (ld_Enrollment l) = uuid_string (dev_ID dev) ∧
  en_CommandPub (ld_Enrollment l) = ed_public (CommandKey k) ∧ en_UpdatePub (ld_Enrollment l) = ed_public (UpdateKey k) ∧
  String.length (ed_public (CommandKey k)) = PublicKeySize ∧ String.length (ed_public (UpdateKey k)) = PublicKeySize.

(** ** The agent's side *)

Definition with_disk (d : disk) (p : process) : process :=
  let a := pc_agent p in
  mkProc (mkAgent d (ag_now a) (ag_drawn a) (ag_srv a)) (pc_en p) (pc_ct p) (pc_rf p) (pc_refresh p) (pc_asr p) (pc_loops p) (pc_started p).
Definition with_started (argv : list string) (p : process) : process :=
  mkProc (pc_agent p) (pc_en p) (pc_ct p) (pc_rf p) (pc_refresh p) (pc_asr p) (pc_loops p) (pc_started p ++ [argv]).
Abbreviation does_update := (update_action (En := En) (Ct := Ct) (Rf := Rf) paths (Ok self) exec_Start).
Abbreviation disk_of p := (ag_disk (pc_agent p)).

(** What the action does is what [UpdateAgent] does on the disk, and then starting the helper. *)
Lemma update_action_run l cmd (p : process) :
  Load paths (disk_of p) = (disk_of p, Ok l) →
  does_update cmd p =
    match UpdateAgent paths (en_UpdatePub (ld_Enrollment l)) (Ok self) false (pb_payload cmd) (disk_of p) with
    | (d', Ok (Some plan)) =>
        match exec_Start (pl_UpdaterExe plan :: SwapArgs plan) with
        | Ok _ => (with_started (pl_UpdaterExe plan :: SwapArgs plan) (with_disk d' p), Ok tt)
        | Err e => (with_disk d' p, Err e)
        end
    | (d', Ok None) => (with_disk d' p, Ok tt)
    | (d', Err e) => (with_disk d' p, Err e)
    end.
Proof.
  intros Hl. unfold update_action. rewrite (bind_run _ _ p p (en_UpdatePub (ld_Enrollment l))).
  2: { unfold current_update_pub, attempt, on_agent, ag_on_disk, mbind, M_bind. rewrite Hl. by destruct p as [[] ? ? ? ? ? ? ?]. }
  unfold on_agent, ag_on_disk, mbind, M_bind. destruct (UpdateAgent _ _ _ _ _ _) as [d' [[plan|]|e]]; try done.
  unfold start_program. by destruct (exec_Start _).
Qed.

(** The answer of a command goes into its row. *)
Definition answered_row (k : uuid) (ok : bool) (p : process) : Prop :=
  ∃ cm, commands (w_db (world_of p)) !! k = Some cm ∧ cm_state cm = (if ok then "succeeded" else "failed").

Lemma handles_update l tls sc (e : agent_process) cmd dev k cm d' res :
  String.length (en_CommandPub (ld_Enrollment l)) = PublicKeySize →
  Verify (en_CommandPub (ld_Enrollment l)) sc (en_DeviceID (ld_Enrollment l)) (ag_now (pc_agent (ex_host e))) = Ok cmd →
  pb_type cmd = UPDATE_AGENT → pb_id cmd = uuid_string k → ex_seen e !! pb_id cmd = None →
  be_stream (ag_srv (pc_agent (ex_host e))) = Some dev →
  commands (w_db (world_of (ex_host e))) !! k = Some cm → cm_tenant cm = dev_TenantID dev → cm_device cm = dev_ID dev → command_open cm = true →
  does_update cmd (ex_host e) = (d', res) → ag_srv (pc_agent d') = ag_srv (pc_agent (ex_host e)) →
  ∃ e', handles l tls sc e = (e', Ok tt) ∧ disk_of (ex_host e') = disk_of d' ∧ pc_started (ex_host e') = pc_started d' ∧
    ex_seen e' !! pb_id cmd = Some (mkCommandResult (pb_id cmd) (answered res).1 (answered res).2) ∧ answered_row k (is_ok res) (ex_host e').
Proof.
  intros Hlen Hv Ht Hid Hseen Hst Hk Hct Hcd Ho Hact Hsrv. unfold handleCommand.
  rewrite (bind_run _ _ e e (ag_now (pc_agent (ex_host e)))) by (by destruct e). rewrite Hlen. cbn [negb Nat.eqb PublicKeySize]. rewrite Hv.
  destruct (answered res) as [ok msg] eqn:Hans. set (r := mkCommandResult (pb_id cmd) ok msg).
  assert (Run_command (H := agent_actions paths (Ok self) exec_Start) cmd e = (mkExecutor d' (<[pb_id cmd := r]> (ex_seen e)), Ok r)) as Hrun.
  { unfold Run_command. rewrite Hseen. unfold dispatch. rewrite Ht. cbn [act_UpdateAgent agent_actions]. unfold attempt, mbind, M_bind.
    rewrite Hact. by destruct res; injection Hans as <- <-. }
  rewrite (bind_run _ _ _ _ _ Hrun).
  destruct (handle_result dev k cm r (be_world (ag_srv (pc_agent d')))) as (w' & cm' & Hh & Hk' & Hs & _);
    [unfold r; simpl; by rewrite Hid, uuid_parse_string | by rewrite Hsrv | done.. |].
  assert (stream_Send tls (CommandResultMsg r) (ag_srv (pc_agent d')) = (mkBackend w' (Some dev), Ok tt)) as Hsend.
  { cbn [stream_Send up_server agent_backend]. rewrite (bind_run _ _ (ag_srv (pc_agent d')) (ag_srv (pc_agent d')) (ag_srv (pc_agent d'))) by done.
    rewrite Hsrv, Hst. unfold on_world. rewrite <- Hsrv, Hh. by rewrite Hsrv, Hst. }
  unfold attempt, on_proc, on_srv, on_agent, ag_on_srv, mbind, M_bind. cbn [ex_host]. rewrite Hsend. eexists. split; [done|]. simpl.
  split_and!; try done; [by rewrite lookup_insert_eq|]. exists cm'. split; [exact Hk'|]. rewrite Hs. simpl.
  by destruct res; injection Hans as <- _.
Qed.

(** ** The whole path *)

(** [encoding/json] reads a payload back, and a text UUID has no slash. *)
Hypothesis payload_roundtrip : ∀ u, unmarshal_update (MarshalUpdate u) = Ok u.
Hypothesis uuid_plain : ∀ u, no_slash (uuid_string u) = true.
(** The helper can be started. *)
Hypothesis helper_starts : exec_Start (pl_UpdaterExe update_plan :: SwapArgs update_plan) = Ok tt.

(** What a download of the console's router answers over HTTP. *)
Definition served (r : result reply) : result (Z * string) :=
  match r with Ok (File _ content) => Ok (200%Z, content) | _ => Ok (404%Z, "") end.
Definition argv : list string := pl_UpdaterExe update_plan :: SwapArgs update_plan.

(** How an update ends on the device: the bytes are staged, nothing else on the disk changes, the helper
    is started for them and the command has succeeded; whatever then happens under the
    helper, it ends with these bytes in the place of the agent, or with the old program. *)
Definition installs (content : string) (id : uuid) (e e' : agent_process) : Prop :=
  files (disk_of (ex_host e')) = <[staged_at := content]> (files (disk_of (ex_host e))) ∧
  pc_started (ex_host e') = pc_started (ex_host e) ++ [argv] ∧ answered_row id true (ex_host e') ∧
  ∀ m old, m_disk m = disk_of (ex_host e') → files (disk_of (ex_host e)) !! self = Some old →
    self ≠ staged_at → self +:+ ".bak" ≠ staged_at → ∃ m' r, swap self staged_at m = (m', r) ∧ swapped self old content m m' r.
(** Or the command has failed, and nothing happened. *)
Definition rejects (id : uuid) (e e' : agent_process) : Prop :=
  disk_of (ex_host e') = disk_of (ex_host e) ∧ pc_started (ex_host e') = pc_started (ex_host e) ∧ answered_row id false (ex_host e').

End updates.

(** ** One release for one device *)

Module UpdateDemo.
Import Toy AgentDemo Fleet.
Definition payload_text (u : UpdatePayload) : string :=
  pair_text (up_version u) (pair_text (up_url u) (pair_text (up_sha256 u) (up_signature u))).
Definition read_payload (s : string) : option UpdatePayload :=
  '(v, s) ← text_pair s; '(u, s) ← text_pair s; '(h, g) ← text_pair s; Some (mkUpdatePayload v u h g).
Definition release_url (t : uuid) (v : string) : string := "https://fl/" +:+ uuid_string t +:+ "/" +:+ v.
Definition admin : principal := mkPrincipal 1 7 "root@acme" "owner" false "10.0.0.1".
(** The console behind the connected agent of [Fleet], before and after the upload. *)
Definition site : host := mkHost (be_world (ag_srv (pc_agent (ex_host connected)))) (Some 1%N) ∅.
Definition release_form : upload_form := mkForm " 1.2 " (Some "version 1.2").
Definition released : host := (uploadRelease agent_keys "releases" Stored admin (Some release_form) site).1.
Definition program : string := "C:\Program Files\FreeLocker\freelocker-agent.exe".
#[export] Instance release_net : Download_lib := {
  http_get url := if bool_decide (url = release_url 1 "1.2") then served (downloadRelease "releases" (uuid_string 1) "1.2" released).2
                  else Ok (404%Z, "");
  unmarshal_update s := or_fail (read_payload s);
}.
Definition row : Release := default (mkRelease "" "" 0) (agent_releases (w_db (h_world released)) !! (1%N, "1.2")).
Definition offer : world * result uuid :=
  IssueUpdate agent_keys payload_text 1 100 (updatePayload release_url 1 ("1.2", row)) "admin:root@acme" (h_world released).
Definition told : world := offer.1.
(** The agent, with its program on the disk. *)
Definition at_work : executor (proc backend wdac Controls FenceStatus) :=
  let a := pc_agent (ex_host connected) in
  boot (mkAgent (mkDisk (<[program := "version 1.1"]> (files (ag_disk a))) []) (ag_now a) (ag_drawn a) (mkBackend told (Some dev100))).
End UpdateDemo.

Section update_witness.
Import Toy AgentDemo Fleet UpdateDemo.
Lemma payload_reads_back u : unmarshal_update (payload_text u) = Ok u.
Proof.
  destruct u as [v url sha sig]. cbn [unmarshal_update release_net]. unfold read_payload, payload_text. cbn [up_version up_url up_sha256 up_signature].
  rewrite text_pair_text. cbn [mbind option_bind]. rewrite text_pair_text. cbn [mbind option_bind]. by rewrite text_pair_text.
Qed.
Definition offered : uuid := match offer.2 with Ok id => id | Err _ => 0%N end.
Definition offered_row : Command :=
  default (mkCommand 0 0 "" "" None 0 0 "" "" None) (commands (w_db told) !! offered).
Lemma upload_answer :
  ∃ r, uploadRelease agent_keys "releases" Stored admin (Some release_form) site = (released, Ok r) ∧ rs_code r = 201%Z.
Proof. eexists. split; vm_compute; reflexivity. Qed.
Lemma offer_answer :
  IssueUpdate agent_keys payload_text 1 100 (updatePayload release_url 1 ("1.2", row)) "admin:root@acme" (h_world released) = (told, Ok offered).
Proof. vm_compute. reflexivity. Qed.
Lemma released_row : agent_releases (w_db (h_world released)) !! (1%N, "1.2") = Some row.
Proof. vm_compute. reflexivity. Qed.
Lemma told_row : commands (w_db told) !! offered = Some offered_row ∧ cm_state offered_row = "sent".
Proof. split; vm_compute; reflexivity. Qed.
Lemma agent_at_work :
  holds machine_paths loaded (mkKeys command_key update_key "authority" "cak" "unk") dev100 (ex_host at_work) ∧
  (ag_now (pc_agent (ex_host at_work)) ≤ cm_expires_at offered_row)%Z ∧ ex_seen at_work !! uuid_string offered = None.
Proof. split; [|split; vm_compute; [discriminate | reflexivity]]. unfold holds. split_and!; vm_compute; reflexivity. Qed.


(** What it looks like: the message that waits in the connection makes the agent stage the bytes. *)
Definition waiting : option SignedCommand := (Receive (default 0%N (conns (w_hub told) !! 100%N)) (w_hub told)).1.
Definition after_update : executor (proc backend wdac Controls FenceStatus) :=
  (handleCommand machine_paths (Ok program) (λ _, Ok tt) loaded client_tls (default (mkSignedCommand "" "") waiting) at_work).1.
Example update_in_motion :
  (files (ag_disk (pc_agent (ex_host after_update))) !! staged_path (InstallDir machine_paths), length (pc_started (ex_host after_update)))
    = (Some "version 1.2", 1).
Proof. by vm_compute. Qed.
End update_witness.
