(* ===== verification/FenceEndToEnd.v ===== *)
(** * A ringfence on its way

    The agent's loop on Windows against the server: what [RingfenceForDevice] resolves for a device's
    group is what its firewall and its ASR values are after one tick. *)

From Stdlib Require Import SpecFloat.
From stdpp Require Import gmap strings list.
From S2P Require Import Prelude GoStr Wdac Db Hub World StoreCore StoreTelemetry StoreRingfence Commands Policies Enroll Bootstrap AgentApi.
From S2P Require Import Endpoint Updater Identity Executor Authenticode WinEvents Fence FenceFacts EndpointControls Runner Backend EndToEnd.

Section ringfence.
Context `{UuidText, UuidSource, Crypto, !CryptoOk, Hasher, Pki, IdentityLib, ErrorText, EventXml, WinTools}.
Context {En Ct : Type} `{PolicyEnforcer En, ControlEnforcer Ct}.
Context (sort : ∀ A, (A → A → bool) → list A → list A) (keys : uuid → result Keys) (notify : option Emitter) (alerting : option (option Emitter)).
Context (network : time → option err) (agentImages : list string).
#[local] Instance the_server : AgentServer backend := agent_backend sort keys true true notify alerting network.
#[local] Instance the_fence : FenceEnforcer fence := win_fence agentImages.
Abbreviation process := (proc backend En Ct fence).

(** What the server resolves for a device: nothing when its group has no ringfence. *)
Definition resolved (dev : device) (d : db) : ResolvedRingfence :=
  match (RingfenceForDevice (dev_TenantID dev) (dev_ID dev) d).2 with Ok r => r | Err _ => no_rules end.
Lemma RingfenceForDevice_run t i d :
  RingfenceForDevice t i d = (d, Err ErrNotFound) ∨ ∃ r, RingfenceForDevice t i d = (d, Ok r).
Proof. unfold RingfenceForDevice. destruct (device_ringfence t i d) as [[id r]|]; eauto. Qed.
Lemma GetRingfence_run tls dev (b : backend) :
  authenticate (peer_of tls) (w_db (be_world b)) = (w_db (be_world b), Ok (inr dev)) →
  rpc_GetRingfence (AgentServer := the_server) tls b = (b, Ok (inr (resolved dev (w_db (be_world b))))).
Proof.
  intros Ha. cbn [rpc_GetRingfence the_server agent_backend]. rewrite (as_device_run _ _ _ _ dev) by done.
  unfold on_world, GetRingfence_rpc, resolved, attempt, on_db, mbind, M_bind. simpl.
  destruct (RingfenceForDevice_run (dev_TenantID dev) (dev_ID dev) (w_db (be_world b))) as [-> |[r ->]]; by destruct b as [[] ?].
Qed.

(** Neither asking for the status nor reading the violations touches the host or the applied version. *)
Lemma Status_keeps f : ∃ f' st, Status f = (f', Ok st) ∧ fs_Applied st = we_applied (fc_mem f) ∧
  fc_host f' = fc_host f ∧ we_applied (fc_mem f') = we_applied (fc_mem f).
Proof. unfold Status, mbind, M_bind. simpl. destruct (_ <? _)%Z; (eexists _, _; split; [reflexivity|done]). Qed.
Lemma Violations_keeps f : ∃ f' vs, Violations f = (f', Ok vs) ∧ fc_host f' = fc_host f ∧ we_applied (fc_mem f') = we_applied (fc_mem f).
Proof.
  unfold Violations, mbind, M_bind. simpl. case_bool_decide; [by eexists _, _|].
  destruct (read_source "Security" _ _ _ _ _) as [v1 s1]. destruct (read_source _ _ _ _ _ _) as [v2 s2]. by eexists _, _.
Qed.

Lemma on_rf_run {A} (m : M fence A) (p : process) f a :
  m (pc_rf p) = (f, Ok a) →
  on_rf m p = (mkProc (pc_agent p) (pc_en p) (pc_ct p) f (pc_refresh p) (pc_asr p) (pc_loops p) (pc_started p), Ok a).
Proof. unfold on_rf. by intros ->. Qed.
(** The end of a tick: what is seen is reported, and the enforcer stays as it is. *)
Lemma call_fence {A} c (f : ClientTLS → M backend (rpc_error + A)) (p : process) : ∃ p' r, call c f p = (p', Ok r) ∧ pc_rf p' = pc_rf p.
Proof.
  unfold call. destruct c as [tls|]; [|by eexists _, _]. unfold attempt, on_srv, on_agent, ag_on_srv, mbind, M_bind.
  destruct (f tls _) as [b [[e|a]|e]]; by eexists _, _.
Qed.

End ringfence.

(** Authentication reads only. *)
Lemma authenticate_keeps `{UuidText} p d a : (authenticate p d).2 = Ok a → authenticate p d = (d, Ok a).
Proof.
  unfold authenticate, refuse, mbind, M_bind, attempt, DeviceAuthState, TenantSuspended, mret, M_ret.
  repeat (case_match; simplify_eq/=; try by intros [= ->]).
Qed.

(** ** One ringfence for one device *)

Module FenceDemo.
Import Toy AgentDemo Fleet Endpoint.
(** A group of the tenant contains one program and blocks child processes of Office. *)
Definition office : uuid := 50.
Definition asr_rule : string := "d4f940ab-401b-4efc-aadc-ad5f3c50688a".
Definition fenced_db (d : db) : db :=
  set_ringfence_assignments {[30%N := mkRingfenceAssignment 1 office]}
    (set_ringfence_programs {[60%N := mkRingfenceProgram 1 office "C:\app\x.exe" true ""]}
      (set_ringfence_protections {[(office, asr_rule) := mkRingfenceProtection 1 "block"]}
        (set_ringfence_policies {[office := mkRingfencePolicy 1 "office" "enforce" 1]}
          (set_devices (dv_set_group (Some 30%N) <$> devices d) d)))).
Definition its_server : backend :=
  let b := (open_stream agent_keys true client_tls (ag_srv enrolled)).1 in
  mkBackend (set_db (fenced_db (w_db (be_world b))) (be_world b)) (be_stream b).
Definition machine : proc backend wdac Controls fence :=
  mkProc (mkAgent (ag_disk enrolled) Hour 1 its_server) (mkWdac (mkDisk ∅ []) None [] (mkEnforcerStatus "" "")) (mkControls false false false)
    agent_fence false None 0 [].
#[export] Instance demo_server : AgentServer backend := @agent_backend toy_uuid toy_source toy_crypto short_hash agent_lib insertion_sort agent_keys true true None None network.
#[export] Instance demo_fence : FenceEnforcer fence := win_fence own_exes.
Definition its_db : db := w_db (be_world its_server).
Definition ring : Ringfence := to_ringfence (resolved dev100 its_db).
Definition synced : proc backend wdac Controls fence * result unit :=
  syncRingfence true (Some client_tls) machine.
End FenceDemo.

Section witness.
Import Toy AgentDemo Fleet Endpoint FenceDemo.
Lemma ring_contents :
  ring = mkRingfence (rf_Version ring) "enforce" [mkProgram "C:\app\x.exe" true] [mkProtection asr_rule "block"] ∧
  bool_decide (rf_Version ring = "") = false ∧ own_image own_exes ring = None.
Proof. split; [vm_compute; reflexivity|]. split; vm_compute; reflexivity. Qed.
Lemma let_in_answer : (authenticate (peer_of client_tls) its_db).2 = Ok (inr dev100).
Proof. vm_compute. reflexivity. Qed.
Lemma let_in_here : authenticate (peer_of client_tls) its_db = (its_db, Ok (inr dev100)).
Proof. exact (authenticate_keeps _ _ _ let_in_answer). Qed.
Lemma before_tidy : tidy before.
Proof.
  split; [|split].
  - repeat constructor; vm_compute; solve [reflexivity | left; reflexivity | right; reflexivity].
  - intros g n v Hl. cbn [wh_asr before] in Hl.
    apply lookup_insert_Some in Hl as [[<- [= <- <-]]|[_ Hl]]; [vm_compute; reflexivity|].
    apply lookup_singleton_Some in Hl as [<- [= <- <-]]. vm_compute. reflexivity.
  - intros x Hx Hp. cbn in Hx. apply elem_of_cons in Hx as [->|Hx]; [vm_compute; reflexivity|].
    apply list_elem_of_singleton in Hx as ->. vm_compute in Hp. discriminate Hp.
Qed.
Lemma names_listed : lists_names.
Proof. intros h Hh. exact (listing_names (wh_rules h) Hh). Qed.
Lemma ring_no_collision : no_collision ring before.
Proof.
  rewrite (proj1 ring_contents). intros p q Hp Hq. cbn in Hp, Hq. rewrite !elem_of_cons in Hp, Hq.
  repeat match goal with H : _ ∨ _ |- _ => destruct H as [->|H] | H : _ ∈ [] |- _ => by apply elem_of_nil in H end;
    vm_compute; solve [reflexivity | discriminate].
Qed.
Lemma ring_contains : contained ring "C:\app\x.exe".
Proof. rewrite (proj1 ring_contents). exists (mkProgram "C:\app\x.exe" true). split; [vm_compute; reflexivity|]. by split. Qed.
Lemma x_prefix : has_prefix (fw_Name (mkFwRule (RuleName "C:\app\x.exe") "C:\app\x.exe")) RulePrefix = true.
Proof. by vm_compute. Qed.
End witness.
