(* ===== verification/AgentMain.v ===== *)
(** * The agent's program

    Models [cmd/agent/main.go] and [manage_windows.go] with [internal/agent/config/config.go]:
    the configuration, what is done before the control loop starts, and the removal of the
    agent with its uninstall code. *)

From stdpp Require Import gmap strings list.
From S2P Require Import Prelude GoStr Db Hub World StoreCore Commands Enroll Bootstrap Endpoint Identity IdentityFacts Backend RunnerFacts EndToEnd.

(** ** config.go *)

Record AgentConfig := mkAgentConfig { cf_ServerURL : string; cf_Token : string }.
Definition ErrNoServerURL : err := EMsg "server_url is required".
(** [gopkg.in/yaml.v3], which reads over a configuration; and the environment. *)
Class ConfigLib := {
  yaml_unmarshal : string → AgentConfig → result AgentConfig;
  yaml_marshal : AgentConfig → result string;
  getenv : string → string;
}.
Section config.
Context `{ConfigLib}.
Definition over (v old : string) : string := if bool_decide (v = "") then old else v.
Definition config_Load (path : string) : M disk AgentConfig :=
  d ← get;
  c ← (if exists_file path d
       then b ← ReadFile path;
            of_result (match yaml_unmarshal b (mkAgentConfig "" "") with Ok c => Ok c | Err e => Err (EWrap "parse config" e) end)
       else mret (mkAgentConfig "" ""));
  let c := mkAgentConfig (over (getenv "FREELOCKER_SERVER_URL") (cf_ServerURL c)) (over (getenv "FREELOCKER_TOKEN") (cf_Token c)) in
  if bool_decide (cf_ServerURL c = "") then fail ErrNoServerURL else mret c.
Definition config_Write (path : string) (c : AgentConfig) : M disk unit := b ← of_result (yaml_marshal c); WriteFile path b.
(** [writeConfig], after the directory was made. *)
Definition writeConfig (paths : Paths) (server token : string) : M disk unit :=
  if bool_decide (server = "") then fail (EMsg "-server is required") else config_Write (ConfigPath paths) (mkAgentConfig server token).
End config.

(** ** main.go, runAgent *)

Section run_agent.
Context {Srv : Type} `{EnrollServer Srv, ConfigLib, IdentityLib, KeyLib, Pki, Hasher, Protector} (paths : Paths).
(** What happens before the loop starts: the server's address and the update key it runs
    with, none when the identity does not load. *)
Definition runAgent (hw : HardwareInfo) : M (agent Srv) (string * string) :=
  cfg ← ag_on_disk (config_Load (ConfigPath paths));
  d ← gets ag_disk;
  _ ← (if Enrolled paths d then mret tt
       else if bool_decide (cf_Token cfg = "") then fail (EFmt "not enrolled and no token in %s" [ConfigPath paths])
       else _ ← AgentEnroll paths (cf_Token cfg) hw; mret tt);
  l ← attempt (ag_on_disk (Load paths));
  mret (cf_ServerURL cfg, match l with Ok l => en_UpdatePub (ld_Enrollment l) | Err _ => "" end).
End run_agent.

(** ** manage_windows.go, uninstall *)

(** The service manager: whether it can be reached, what [Query] says, call by call, of the
    service if there is one (that it is stopped), whether a deletion would work, whose
    error is ignored, and whether the service was deleted. *)
Record station := mkStation {
  sn_disk : disk; sn_reached : bool; sn_service : option (list bool); sn_deletes : bool; sn_deleted : bool;
}.
Definition in_dir (dir path : string) : bool := String.prefix (dir +:+ "\") path.
(** [os.RemoveAll], which can stop after some files. *)
Definition RemoveAll (dir : string) : M disk unit :=
  λ d,
    match next_io d with
    | (Fine, os) => (mkDisk (filter (λ pf, in_dir dir pf.1 = false) (files d)) os, Ok tt)
    | (Refused, os) => (mkDisk (files d) os, Err (io_error "unlinkat" dir))
    | (Torn n, os) =>
        (mkDisk (foldr delete (files d) (take n (List.filter (in_dir dir) (map_to_list (files d)).*1))) os, Err (io_error "unlinkat" dir))
    end.
(** [waitStopped]: at most thirty polls, a second apart; afterwards it goes on all the same. *)
Fixpoint wait_polls (n : nat) (answers : list bool) : list bool :=
  match n, answers with
  | O, _ | _, [] => answers
  | S n, stopped :: rest => if stopped : bool then rest else wait_polls n rest
  end.

Section uninstall.
Context `{IdentityLib, KeyLib, Pki, Protector} (paths : Paths).
Definition remove_service (s : station) : station :=
  match sn_service s with
  | None => s
  | Some answers => mkStation (sn_disk s) (sn_reached s) (Some (wait_polls 30 answers)) (sn_deletes s) (sn_deleted s || sn_deletes s)
  end.
Definition on_station {A} (m : M disk A) : M station A :=
  λ s, let '(d, r) := m (sn_disk s) in (mkStation d (sn_reached s) (sn_service s) (sn_deletes s) (sn_deleted s), r).
Definition check_code (code : string) (force : bool) (s : station) : result unit :=
  if force then Ok tt
  else
    match (Load paths (sn_disk s)).2 with
    | Err e => Err (EWrap "cannot verify uninstall code" e)
    | Ok l => if bool_decide (sha256 code = en_UninstallHash (ld_Enrollment l)) then Ok tt else Err (EMsg "incorrect uninstall code")
    end.
Definition uninstall (code : string) (force : bool) : M station unit :=
  s ← get;
  _ ← of_result (check_code code force s);
  if negb (sn_reached s) then fail (EMsg "service manager")
  else _ ← modify remove_service; on_station (RemoveAll (DataDir paths)).
End uninstall.

(** ** Who can remove the agent *)

Lemma RemoveAll_calm dir d d' r :
  calm d → RemoveAll dir d = (d', r) → r = Ok tt ∧ ∀ f, in_dir dir f = true → files d' !! f = None.
Proof.
  intros Hc. unfold RemoveAll. destruct (next_io d) as [o os] eqn:Ho. destruct (next_io_calm _ _ _ Hc Ho) as [-> _].
  intros [= <- <-]. split; [done|]. intros f Hf. simpl. apply map_lookup_filter_None. right. intros x _. simpl. by rewrite Hf.
Qed.

Section removal.
Context `{UuidText, !UuidTextOk, UuidSource, Crypto, !CryptoOk, Hasher, Pki, KeyLib, IdentityLib, !IdentityLibOk, Protector, !ProtectorOk}.
Context (keys : uuid → result Keys) (chain : list string) (paths : Paths).
#[local] Instance enrolling : EnrollServer backend := enroll_backend keys chain.

End removal.

Section removal_witness.
Import Toy AgentDemo.
Definition station_of (a : agent backend) : station := mkStation (ag_disk a) true (Some [false; true]) true false.

(** The flag the server's own uninstall uses skips the check for whoever can run the command. *)
Example anyone_may_force : (uninstall machine_paths "" true (station_of enrolled)).2 = Ok tt.
Proof. by vm_compute. Qed.
End removal_witness.
