(* ===== verification/Service.v ===== *)
(** * The agent as a Windows service

    Models [internal/agent/service/service_windows.go] (what the service answers the service
    manager), [internal/agent/hardening/hardening_windows.go] and the installation of
    [cmd/agent/manage_windows.go]. *)

From stdpp Require Import gmap strings list.
From S2P Require Import Prelude GoStr Endpoint.

(** ** service_windows.go *)

Inductive svc_state := StartPending | Running | StopPending | Other_state (n : N).
Inductive svc_cmd := Interrogate (current : svc_state) | Stop | Shutdown | Other_cmd.
(** What [Execute] waits for: a request, or the end of the runner. *)
Inductive svc_event := Request (c : svc_cmd) | RunnerDone.
(** What it did: the states it reported, whether it cancelled the context of the runner, and
    what it returned, if it did. *)
Record svc_run := mkSvcRun { sv_reported : list svc_state; sv_cancelled : bool; sv_returned : option (bool * N) }.
Definition report (s : svc_state) (r : svc_run) : svc_run := mkSvcRun (s :: sv_reported r) (sv_cancelled r) (sv_returned r).

(** The wait for the runner after a stop. *)
Fixpoint await_done (evs : list svc_event) : option (bool * N) :=
  match evs with [] => None | RunnerDone :: _ => Some (false, 0%N) | Request _ :: evs => await_done evs end.
Fixpoint Execute_loop (evs : list svc_event) : svc_run :=
  match evs with
  | [] => mkSvcRun [] false None
  | RunnerDone :: _ => mkSvcRun [] true (Some (false, 0%N))    (* the deferred cancel *)
  | Request (Interrogate current) :: evs => report current (Execute_loop evs)
  | Request (Stop | Shutdown) :: evs => report StopPending (mkSvcRun [] true (await_done evs))
  | Request Other_cmd :: evs => Execute_loop evs
  end.
Definition Execute (evs : list svc_event) : svc_run := report StartPending (report Running (Execute_loop evs)).

(** ** hardening_windows.go *)

(** The entries of a directory's access list: who, and whether the entry is inherited. *)
Record ace := mkAce { ac_who : string; ac_inherited : bool }.
#[export] Instance ace_eq_dec : EqDecision ace.
Proof. solve_decision. Defined.
(** [icacls], by the access list it leaves. *)
Class Icacls := icacls_run : list string → list ace → list ace.
Definition inheritance_flag : string := "/inheritance:r".
Definition full_control (who : string) : string := who +:+ ":(OI)(CI)F".
(** Its documentation: the first form removes the inherited entries, the second replaces the
    explicit ones of one account. *)
Class IcaclsOk `{Icacls} : Prop := {
  icacls_inheritance : ∀ dir acl, icacls_run [dir; inheritance_flag] acl = filter (λ e, ac_inherited e = false) acl;
  icacls_grant : ∀ dir who acl,
    icacls_run [dir; "/grant:r"; full_control who] acl = filter (λ e, ac_who e ≠ who ∨ ac_inherited e = true) acl ++ [mkAce who false];
}.

(** The machine the installer works on: whether the service manager can be reached, the
    services with the program and whether they run, the access list of the data directory,
    the services whose recovery is configured, and which of the next calls fail. *)
Record SvcConfig := mkSvcConfig { sc_exe : string; sc_args : list string; sc_automatic : bool; sc_running : bool }.
Record scm := mkScm {
  sm_reached : bool; sm_services : gmap string SvcConfig; sm_acl : list ace; sm_recovery : list string; sm_faults : list bool;
}.
(** A call that changes the machine, or fails before it does. *)
Definition sys_call (e : err) (f : scm → scm) : M scm unit :=
  λ s,
    match sm_faults s with
    | true :: fs => (mkScm (sm_reached s) (sm_services s) (sm_acl s) (sm_recovery s) fs, Err e)
    | fs => (f (mkScm (sm_reached s) (sm_services s) (sm_acl s) (sm_recovery s) (tail fs)), Ok tt)
    end.
Definition set_acl (acl : list ace) (s : scm) : scm := mkScm (sm_reached s) (sm_services s) acl (sm_recovery s) (sm_faults s).
Definition set_recovery (r : list string) (s : scm) : scm := mkScm (sm_reached s) (sm_services s) (sm_acl s) r (sm_faults s).
Definition set_services (m : gmap string SvcConfig) (s : scm) : scm := mkScm (sm_reached s) m (sm_acl s) (sm_recovery s) (sm_faults s).

Section install.
Context `{Icacls}.
Definition secure_steps (dir : string) : list (list string) :=
  [[dir; inheritance_flag]; [dir; "/grant:r"; full_control "SYSTEM"]; [dir; "/grant:r"; full_control "Administrators"]].
Definition SecureDataDir (dir : string) : M scm unit :=
  for_each (secure_steps dir) (λ args, sys_call (EFmt "icacls %v: %v (%s)" args) (λ s, set_acl (icacls_run args (sm_acl s)) s)).
Definition ConfigureRecovery (service : string) : M scm unit :=
  sys_call (EFmt "sc failure: %v (%s)" []) (λ s, set_recovery (service :: sm_recovery s) s).

(** ** manage_windows.go, installService *)

Definition serviceName : string := "FreeLockerAgent".
Definition start_service (s : scm) : scm :=
  set_services (alter (λ c, mkSvcConfig (sc_exe c) (sc_args c) (sc_automatic c) true) serviceName (sm_services s)) s.
Definition installService (paths : Paths) (self : result string) : M scm unit :=
  exe ← of_result self;
  s ← get;
  if negb (sm_reached s) then fail (EMsg "service manager")
  else if bool_decide (is_Some (sm_services s !! serviceName)) then fail (EFmt "service %s already installed" [serviceName])
  else
    _ ← sys_call (EMsg "CreateService") (λ s, set_services (<[serviceName := mkSvcConfig exe ["run"] true false]> (sm_services s)) s);
    _ ← SecureDataDir (DataDir paths);
    _ ← ConfigureRecovery serviceName;
    sys_call (EMsg "StartService") start_service.
End install.

(** ** The service *)

(** The requests a service answers before the first that stops it. *)
Definition stops (ev : svc_event) : bool := match ev with Request (Stop | Shutdown) => true | RunnerDone => true | _ => false end.

Lemma await_done_spec evs : is_Some (await_done evs) ↔ RunnerDone ∈ evs.
Proof.
  induction evs as [|[c|] l IH]; simpl.
  - split; [by intros [? [=]] | by intros []%elem_of_nil].
  - rewrite IH, elem_of_cons. split; [by right | by intros [|]].
  - split; [by left | by eexists].
Qed.

(** The service never leaves its runner behind. It reports that it starts and that it
    runs; it returns only once the runner has returned, with its context cancelled, and always
    when the runner does; at the first stop it says so, cancels the runner and waits for
    it; and as long as nobody stops it and the runner goes on, it neither cancels nor
    returns. *)
Theorem service_waits_for_runner evs :
  let r := Execute evs in
  (∃ more, sv_reported r = StartPending :: Running :: more) ∧
  (is_Some (sv_returned r) ↔ RunnerDone ∈ evs) ∧ (RunnerDone ∈ evs → sv_cancelled r = true) ∧
  (∀ pre c post, evs = pre ++ Request c :: post → c = Stop ∨ c = Shutdown → Forall (λ ev, stops ev = false) pre →
     StopPending ∈ sv_reported r ∧ sv_cancelled r = true) ∧
  (Forall (λ ev, stops ev = false) evs → sv_cancelled r = false ∧ sv_returned r = None).
Proof.
  intros r. subst r. unfold Execute. cbn [report sv_reported sv_returned sv_cancelled]. split; [by eexists|].
  enough ((is_Some (sv_returned (Execute_loop evs)) ↔ RunnerDone ∈ evs) ∧ (RunnerDone ∈ evs → sv_cancelled (Execute_loop evs) = true) ∧
    (∀ pre c post, evs = pre ++ Request c :: post → c = Stop ∨ c = Shutdown → Forall (λ ev, stops ev = false) pre →
       StopPending ∈ sv_reported (Execute_loop evs) ∧ sv_cancelled (Execute_loop evs) = true) ∧
    (Forall (λ ev, stops ev = false) evs → sv_cancelled (Execute_loop evs) = false ∧ sv_returned (Execute_loop evs) = None))
    as (H1 & H2 & H3 & H4).
  { split_and!; [done | done | | done]. intros pre c post He Hc Hp. rewrite !elem_of_cons. destruct (H3 pre c post He Hc Hp). auto. }
  induction evs as [|ev evs IH].
  { split_and!; [|by intros []%elem_of_nil | by intros [] | done]. split; [by intros [? [=]] | by intros []%elem_of_nil]. }
  destruct IH as (IH1 & IH2 & IH3 & IH4). rewrite elem_of_cons.
  destruct ev as [[current| | |]|]; simpl.
  1,4: split_and!; [rewrite IH1; naive_solver | naive_solver | | intros [_ Hf]%Forall_cons; auto];
    intros [|ev pre] c post He Hc Hp; simplify_eq/=; [by destruct Hc |]; apply Forall_cons in Hp as [_ Hp];
    destruct (IH3 pre c post eq_refl Hc Hp); rewrite ?elem_of_cons; auto.
  1,2: split_and!; [rewrite await_done_spec; naive_solver | done | intros; split; [left | done] | by intros [? _]%Forall_cons].
  split_and!; [split; [by left | by eexists] | done | | by intros [? _]%Forall_cons].
  intros [|ev pre] c post He Hc Hp; simplify_eq/=. by apply Forall_cons in Hp as [? _].
Qed.

(** ** Installing *)

Section installing.
Context `{Icacls, !IcaclsOk}.

Lemma sys_call_Ok e f s s' : sys_call e f s = (s', Ok tt) → ∃ s1, s' = f s1 ∧ sm_services s1 = sm_services s ∧ sm_acl s1 = sm_acl s ∧ sm_recovery s1 = sm_recovery s.
Proof. unfold sys_call. destruct (sm_faults s) as [|[] fs] eqn:Hf; intros [= <-]; by eexists. Qed.

(** What three calls of [icacls] leave. *)
Definition owners (who : string) : bool := bool_decide (who = "SYSTEM") || bool_decide (who = "Administrators").
Lemma SecureDataDir_acl dir s s' :
  SecureDataDir dir s = (s', Ok tt) →
  sm_services s' = sm_services s ∧ sm_recovery s' = sm_recovery s ∧
  sm_acl s' = filter (λ e, ac_inherited e = false ∧ owners (ac_who e) = false) (sm_acl s) ++ [mkAce "SYSTEM" false; mkAce "Administrators" false].
Proof.
  unfold SecureDataDir, secure_steps. cbn [for_each]. intros ([] & s1 & (r1 & -> & Hs1 & Ha1 & Hr1)%sys_call_Ok & Hb)%bind_Ok.
  apply bind_Ok in Hb as ([] & s2 & (r2 & -> & Hs2 & Ha2 & Hr2)%sys_call_Ok & Hb).
  apply bind_Ok in Hb as ([] & s3 & (r3 & -> & Hs3 & Ha3 & Hr3)%sys_call_Ok & [= <-]).
  cbn [sm_services sm_acl sm_recovery set_acl] in *. split; [congruence|]. split; [congruence|].
  rewrite icacls_grant, Ha3, icacls_grant, Ha2, icacls_inheritance, Ha1, filter_app, <- app_assoc. f_equal.
  rewrite !list_filter_filter. apply list_filter_iff. intros [who inh]. unfold owners. simpl.
  rewrite orb_false_iff, !bool_decide_eq_false. destruct inh; naive_solver.
Qed.

(** C31. An agent that was installed is protected. When the installation succeeds the service
    was not there before, now runs this program and starts with the machine, its
    recovery is configured, and of the access list of the data directory nothing that was
    inherited is left: whoever is on it is the system, an administrator, or had an explicit
    entry of his own before. *)
Theorem install_protects paths self s s' :
  installService paths self s = (s', Ok tt) →
  ∃ exe, self = Ok exe ∧ sm_services s !! serviceName = None ∧
    sm_services s' = <[serviceName := mkSvcConfig exe ["run"] true true]> (sm_services s) ∧ sm_recovery s' = serviceName :: sm_recovery s ∧
    (∀ e, e ∈ sm_acl s' → ac_inherited e = false ∧ (ac_who e = "SYSTEM" ∨ ac_who e = "Administrators" ∨ e ∈ sm_acl s)) ∧
    mkAce "SYSTEM" false ∈ sm_acl s' ∧ mkAce "Administrators" false ∈ sm_acl s'.
Proof.
  unfold installService. intros (exe & s1 & He & Hb)%bind_Ok. unfold of_result in He. injection He as <- Hself.
  apply bind_Ok in Hb as (s1 & s2 & [= <- <-] & Hb). destruct (sm_reached s); [|done]. simpl in Hb.
  case_bool_decide as Hn; [done|]. apply eq_None_not_Some in Hn. apply bind_Ok in Hb as ([] & s2 & (r2 & -> & Hs2 & Ha2 & Hr2)%sys_call_Ok & Hb).
  apply bind_Ok in Hb as ([] & s3 & (Hs3 & Hr3 & Ha3)%SecureDataDir_acl & Hb).
  apply bind_Ok in Hb as ([] & s4 & (r4 & -> & Hs4 & Ha4 & Hr4)%sys_call_Ok & (r5 & -> & Hs5 & Ha5 & Hr5)%sys_call_Ok).
  cbn [start_service set_services set_recovery sm_services sm_recovery sm_acl] in *.
  exists exe. split_and!; [done | done | | congruence | | |].
  - rewrite Hs5, Hs4, Hs3, Hs2. by rewrite alter_insert_eq.
  - intros e. rewrite Ha5, Ha4, Ha3, Ha2, elem_of_app, list_elem_of_filter, !elem_of_cons. intros [[[Hi Ho] Hin]|[->|[->|[]%elem_of_nil]]]; auto.
  - rewrite Ha5, Ha4, Ha3, elem_of_app. right. left.
  - rewrite Ha5, Ha4, Ha3, elem_of_app. right. right. left.
Qed.
End installing.

Section install_witness.
(** [icacls] for the arguments that are used. *)
#[local] Instance demo_icacls : Icacls := λ args acl,
  match args with
  | [_; flag] => filter (λ e, ac_inherited e = false) acl
  | [_; _; grant] =>
      let who := TrimSuffix grant ":(OI)(CI)F" in
      filter (λ e, ac_who e ≠ who ∨ ac_inherited e = true) acl ++ [mkAce who false]
  | _ => acl
  end.
#[local] Instance demo_icacls_ok : IcaclsOk.
Proof.
  split; [done|]. intros dir who acl. cbn [icacls_run demo_icacls].
  assert (TrimSuffix (full_control who) ":(OI)(CI)F" = who) as ->; [|done]. unfold TrimSuffix, full_control. rewrite to_list_app, rev_app_distr.
  rewrite (proj2 (strip_prefix_Some _ _ (rev (to_list who)))) by done. by rewrite rev_involutive, of_to_list.
Qed.
(** A machine on which a user made the directory first, as [ProgramData] lets everybody do. *)
Definition fresh_machine (faults : list bool) : scm :=
  mkScm true ∅ [mkAce "Users" true; mkAce "mallory" false; mkAce "CREATOR OWNER" true] [] faults.
Definition agent_paths : Paths := DefaultPaths (λ _, "").
Lemma install_protects_witness :
  ∃ s', installService agent_paths (Ok "agent.exe") (fresh_machine []) = (s', Ok tt) ∧ mkAce "SYSTEM" false ∈ sm_acl s' ∧
    mkAce "Users" true ∉ sm_acl s'.
Proof.
  destruct (installService agent_paths (Ok "agent.exe") (fresh_machine [])) as [s' r] eqn:Hi.
  destruct r as [[]|e]; [|vm_compute in Hi; discriminate Hi]. exists s'. split; [reflexivity|].
  destruct (install_protects agent_paths (Ok "agent.exe") (fresh_machine []) s' Hi) as (exe & _ & _ & _ & _ & Hacl & Hs & _).
  split; [exact Hs|]. intros [Hin _]%Hacl. discriminate Hin.
Defined.

(** An entry that somebody gave himself explicitly, before the installation, stays. *)
Example explicit_entries_stay :
  sm_acl (installService agent_paths (Ok "agent.exe") (fresh_machine [])).1 =
    [mkAce "mallory" false; mkAce "SYSTEM" false; mkAce "Administrators" false].
Proof. by vm_compute. Qed.
(** A step that fails after the service was created leaves it registered, to start with the machine over
    a directory that is not protected, and a second attempt is refused. *)
Example install_half_done :
  let '(s1, r1) := installService agent_paths (Ok "agent.exe") (fresh_machine [false; true]) in
  let '(s2, r2) := installService agent_paths (Ok "agent.exe") s1 in
  is_ok r1 = false ∧ (sc_automatic <$> sm_services s1 !! serviceName) = Some true ∧ bool_decide (mkAce "Users" true ∈ sm_acl s1) = true ∧
  r2 = Err (EFmt "service %s already installed" [serviceName]).
Proof. by vm_compute. Qed.
End install_witness.

(** A service that is interrogated and then stopped. *)
Definition stopping : list svc_event := [Request (Interrogate Running); Request Stop; Request (Interrogate Running); RunnerDone].
Example stopped_in_order : Execute stopping = mkSvcRun [StartPending; Running; Running; StopPending] true (Some (false, 0%N)).
Proof. reflexivity. Qed.
Lemma service_waits_for_runner_witness : StopPending ∈ sv_reported (Execute stopping) ∧ is_Some (sv_returned (Execute stopping)).
Proof.
  destruct (service_waits_for_runner stopping) as (_ & Hret & _ & Hstop & _). split.
  - apply (Hstop [Request (Interrogate Running)] Stop [Request (Interrogate Running); RunnerDone]); [reflexivity | left; reflexivity | repeat constructor].
  - apply Hret. repeat (left || right).
Defined.
