(* ===== verification/Sim.v ===== *)
(** * The simulated fleet

    Models [internal/sim/enroll.go], [session.go] and [runner.go], the fake agent of the
    integration tests, and [cmd/agent-sim/main.go], which runs many of them from a file of
    identities. The package promises to be accurate to the protocol: what it exchanges with a
    server is what an agent exchanges. *)

From stdpp Require Import countable gmap strings list pretty.
From S2P Require Import Prelude GoStr Db Hub StoreCore World Commands Enroll EnrollFacts AgentApi Bootstrap AgentFacts Authenticode Endpoint Updater Identity WinEvents Fence EndpointControls Executor Runner Backend IdentityFacts EndToEnd.

(** ** enroll.go *)

Record Identity := mkIdentity {
  id_DeviceID : string; id_CertDER : string; id_KeyDER : string; id_CADER : string; id_CommandPub : string; id_UpdatePub : string;
  id_UninstallHash : string;
}.

Section enroll.
Context {Srv : Type} `{EnrollServer Srv, IdentityLib, KeyLib, Pki, Hasher}.

(** [pinnedTLS] of this package: the server's raw chain against the pin of the token. *)
Definition pinnedTLS (pin : string) (raw : list string) : result unit :=
  match raw, last raw with
  | leaf :: _ :: _, Some caDER =>
      if negb (bool_decide (PinFromCert caDER = pin)) then Err (EMsg "server CA does not match install token pin")
      else
        caCert ← ParseCertificate caDER;
        _ ← parse_leaf leaf;
        verify_server leaf caCert
  | _, _ => Err (EMsg "server did not present a CA chain")
  end.

Definition Enroll (installToken : string) (hw : HardwareInfo) : M (agent Srv) Identity :=
  '(secret, pin) ← of_result (Parse installToken);
  n ← ag_draw;
  key ← of_result (ec_generate n);
  csr ← of_result (CreateCSR (hw_hostname hw) key);
  r ← ag_on_srv (rpc_Enroll (pinnedTLS pin) (mkEnrollRequest secret csr hw));
  resp ← match r with inl e => fail (EWrap "enroll" (ErrRpc e)) | inr resp => mret resp end;
  keyDER ← of_result (MarshalPKCS8 key);
  mret (mkIdentity (es_device_id resp) (es_cert_der resp) keyDER (es_ca_cert_der resp) (es_command_key resp) (es_update_key resp)
          (es_uninstall resp)).

Definition TLSConfig (id : Identity) : result ClientTLS :=
  key ← parse_private (id_KeyDER id);
  caCert ← ParseCertificate (id_CADER id);
  Ok (mkClientTLS (id_CertDER id) key caCert (PinFromCert (id_CADER id))).

(** session.go: [Renew], over a connection of its own. *)
Definition Renew (id : Identity) : M (agent Srv) Identity :=
  tls ← of_result (TLSConfig id);
  n ← ag_draw;
  key ← of_result (ec_generate n);
  csr ← of_result (CreateCSR (id_DeviceID id) key);
  r ← ag_on_srv (rpc_Renew tls csr);
  der ← of_rpc r;
  keyDER ← of_result (MarshalPKCS8 key);
  mret (mkIdentity (id_DeviceID id) der keyDER (id_CADER id) (id_CommandPub id) (id_UpdatePub id) (id_UninstallHash id)).
End enroll.

(** ** session.go *)

(** What the goroutine of [Connect] shares with the loop: the buffered commands, the one it is
    blocked on while the buffer is full, and what the stream ended with, which also
    closes the channel of commands. *)
Record Session := mkSession { ss_commands : list SignedCommand; ss_blocked : option SignedCommand; ss_done : option failure }.
Definition commands_cap : nat := 64.
Definition no_commands : Session := mkSession [] None None.

(** A turn of the goroutine: [stream.Recv] has a message, or the end of the stream. It does
    not receive while it is blocked, nor after the end. *)
Definition receiving (s : Session) : bool := negb (bool_decide (is_Some (ss_blocked s))) && negb (bool_decide (is_Some (ss_done s))).
Definition Recv (m : option SignedCommand) (s : Session) : Session :=
  match m with
  | Some c =>
      if negb (receiving s) then s
      else if (length (ss_commands s) <? commands_cap)%nat then mkSession (ss_commands s ++ [c]) None None
      else mkSession (ss_commands s) (Some c) None
  | None => s
  end.
Definition RecvErr (f : failure) (s : Session) : Session :=
  if receiving s then mkSession (ss_commands s) None (Some f) else s.
(** The loop takes a command, which makes room for the one that waits. *)
Definition take_command (s : Session) : option (SignedCommand * Session) :=
  match ss_commands s with
  | [] => None
  | c :: cs => Some (c, match ss_blocked s with
                        | Some b => mkSession (cs ++ [b]) None (ss_done s)
                        | None => mkSession cs None (ss_done s)
                        end)
  end.

(** ** runner.go *)

Record Runner := mkRunner { r_Identity : Identity; r_Hostname : string; r_Interval : duration }.

(** What happens in a session: the goroutine has a turn, or the loop's [select] takes one of the
    cases that are ready. *)
Inductive sim_event := SRecv (m : option SignedCommand) | SRecvErr (f : failure) | SCancel | SDone | SCommand | STick.
Inductive sim_end := SLive | SCancelled | SFailed (f : failure).
(** An attempt: how long dialling takes, the draw of the backoff, what happens with the time before
    each event, and whether the context is over when the session has ended, or ends while the
    runner waits. *)
Inductive stop_at := Never | AtEnd | Waiting.
Record sim_script := mkSimScript { si_dial : duration; si_random : Z; si_events : list (duration * sim_event); si_stop : stop_at }.

Section runner.
Context {Srv : Type} `{EnrollServer Srv, AgentServer Srv, IdentityLib, KeyLib, Pki, Hasher, Crypto} (r : Runner).

Definition ag_clock : M (agent Srv) time := gets ag_now.
Definition ag_elapse (d : duration) : M (agent Srv) unit :=
  modify (λ a, mkAgent (ag_disk a) (ag_now a + d)%Z (ag_drawn a) (ag_srv a)).

(** [Session.Heartbeat], [SendResult] and [Goodbye]. *)
Definition Heartbeat (tls : ClientTLS) (inv : Inventory) : M (agent Srv) unit := ag_on_srv (stream_Send tls (AgentApi.Heartbeat inv "")).
Definition SendResult (tls : ClientTLS) (res : CommandResult) : M (agent Srv) unit := ag_on_srv (stream_Send tls (CommandResultMsg res)).
Definition Goodbye (tls : ClientTLS) : M (agent Srv) unit := ag_on_srv (stream_Send tls AgentApi.Goodbye).

(** Whole seconds: the rounding of [Seconds] does not reach them in a run of less than [2^24]. *)
Definition sim_inventory (started t : time) : Inventory :=
  mkInventory (r_Hostname r) "sim" ["127.0.0.1"] "SIM\user" "sim-0.1" (Z.quot (t - started) Second).
Definition heartbeat (tls : ClientTLS) (started : time) : M (agent Srv) unit :=
  t ← ag_clock; Heartbeat tls (sim_inventory started t).

Definition sim_result (cmd : CommandPB) : CommandResult := mkCommandResult (pb_id cmd) true ("sim handled " +:+ TypeName (pb_type cmd)).
(** The case of a command: what is not signed for this device is passed over. An error of
    the outer computation is a panic. *)
Definition answer (tls : ClientTLS) (sc : SignedCommand) : M (agent Srv) (result unit) :=
  t ← ag_clock;
  if negb (String.length (id_CommandPub (r_Identity r)) =? PublicKeySize)%nat then fail panic_key_length
  else match Verify (id_CommandPub (r_Identity r)) sc (id_DeviceID (r_Identity r)) t with
  | Err _ => mret (Ok tt)
  | Ok cmd => attempt (SendResult tls (sim_result cmd))
  end.

Definition failed (res : result unit) (k : M (agent Srv) sim_end) : M (agent Srv) sim_end :=
  match res with Err e => mret (SFailed (Plain e)) | Ok _ => k end.
Fixpoint select_loop (tls : ClientTLS) (started : time) (evs : list (duration * sim_event)) (s : Session) : M (agent Srv) sim_end :=
  match evs with
  | [] => mret SLive
  | (d, ev) :: evs =>
      _ ← ag_elapse d;
      match ev with
      | SRecv m => select_loop tls started evs (Recv m s)
      | SRecvErr f => select_loop tls started evs (RecvErr f s)
      | SCancel => _ ← attempt (Goodbye tls); mret SCancelled
      | SDone => match ss_done s with Some f => mret (SFailed f) | None => select_loop tls started evs s end
      | SCommand =>
          match take_command s, ss_done s with
          | Some (c, s'), _ => res ← answer tls c; failed res (select_loop tls started evs s')
          | None, Some f => mret (SFailed f)
          | None, None => select_loop tls started evs s
          end
      | STick => res ← attempt (heartbeat tls started); failed res (select_loop tls started evs s)
      end
  end.

(** Whether [connected] was called, and how it ended. [time.NewTicker] panics on an interval
    that is not positive. *)
Definition session (started : time) (sc : sim_script) : M (agent Srv) (bool * sim_end) :=
  match TLSConfig (r_Identity r) with
  | Err e => mret (false, SFailed (Plain e))
  | Ok tls =>
      _ ← ag_elapse (si_dial sc);
      t ← ag_clock;
      c ← attempt (ag_on_srv (rpc_Connect t tls));
      match c with
      | Err e => mret (false, SFailed (Plain e))
      | Ok (inl e) => mret (false, SFailed (Status_err e))
      | Ok (inr _) =>
          h ← attempt (heartbeat tls started);
          match h with
          | Err e => mret (false, SFailed (Plain e))
          | Ok _ =>
              if (r_Interval r <=? 0)%Z then fail (EMsg "non-positive interval for NewTicker")
              else o ← select_loop tls started (si_events sc) no_commands; mret (true, o)
          end
      end
  end.

(** [Run]: still running when the attempts are over, or what it returns; and the waits. *)
Inductive sim_return := StillRunning | Returned (f : option failure).
Fixpoint Run (started : time) (attempt_no : nat) (scs : list sim_script) : M (agent Srv) (sim_return * list duration) :=
  match scs with
  | [] => mret (StillRunning, [])
  | sc :: scs =>
      co ← session started sc;
      let n := if co.1 : bool then 0 else attempt_no in
      match co.2, si_stop sc with
      | SLive, _ => mret (StillRunning, [])
      | SCancelled, _ | SFailed _, AtEnd => mret (Returned None, [])
      | SFailed f, stop =>
          if is_unauthenticated f then mret (Returned (Some f), [])
          else
            let d := Backoff n (si_random sc) in
            match stop with
            | Waiting => mret (Returned None, [d])
            | _ => _ ← ag_elapse d; rest ← Run started (S n) scs; mret (rest.1, d :: rest.2)
            end
      end
  end.
End runner.

(** ** agent-sim *)

Record stateEntry := mkStateEntry { se_Hostname : string; se_Identity : Identity }.
(** [encoding/json] on the state file. *)
Class StateJson := { marshal_state : list stateEntry → string; unmarshal_state : string → result (list stateEntry) }.
Class StateJsonOk `{StateJson} : Prop := state_roundtrip : ∀ l, unmarshal_state (marshal_state l) = Ok l.

(** [fmt.Sprintf] of a natural number with the verb %05d. *)
Fixpoint zeros (n : nat) : string := match n with O => "" | S n => "0" +:+ zeros n end.
Definition pad5 (i : nat) : string := let s := pretty (N.of_nat i) in zeros (5 - String.length s) +:+ s.
Definition sim_host (i : nat) : string := "sim-" +:+ pad5 i.
Definition sim_hardware (i : nat) : HardwareInfo := mkHardwareInfo (sim_host i) "sim" (sim_host i).

Section main.
Context {Srv : Type} `{EnrollServer Srv, IdentityLib, KeyLib, Pki, Hasher, StateJson}.

(** The goroutines of the loop: their calls reach the server in some order, and what they
    got is appended in another. *)
Fixpoint enroll_each (token : string) (order : list nat) : M (agent Srv) (list (nat * result Identity)) :=
  match order with
  | [] => mret []
  | i :: rest => r ← attempt (Enroll token (sim_hardware i)); rs ← enroll_each token rest; mret ((i, r) :: rs)
  end.
Definition append_each (done : list (nat * result Identity)) (agents : list stateEntry) (errs : list err) : list stateEntry * list err :=
  (agents ++ omap (λ p, match p.2 with Ok id => Some (mkStateEntry (sim_host p.1) id) | Err _ => None end) done,
   errs ++ omap (λ p, match p.2 with Ok _ => None | Err e => Some (EWrap (sim_host p.1) e) end) done).

(** [order] is the order of the calls, [finish] reorders their results. *)
Definition loadOrEnroll (path token : string) (count : Z) (order : list nat)
    (finish : list (nat * result Identity) → list (nat * result Identity)) : M (agent Srv) (list stateEntry) :=
  d ← gets ag_disk;
  agents ← of_result (match files d !! path with
                      | Some b => match unmarshal_state b with Ok l => Ok l | Err e => Err (EWrap (("parse " +:+ path)%string) e) end
                      | None => Ok []
                      end);
  if (count <=? Z.of_nat (length agents))%Z then
    (if (count <? 0)%Z then fail (EMsg "slice bounds out of range") else mret (take (Z.to_nat count) agents))
  else if bool_decide (token = "") then
    fail (EFmt "need -token to enroll %d more agents" [pretty (count - Z.of_nat (length agents))%Z])
  else
    done ← enroll_each token order;
    let '(agents, errs) := append_each (finish done) agents [] in
    _ ← ag_on_disk (WriteFile path (marshal_state agents));
    match errs with
    | [] => mret agents
    | e :: _ => fail (EWrap (pretty (Z.of_nat (length errs)) +:+ " enrollments failed, first") e)
    end.
End main.

(** ** The simulated fleet does what agents do

    An identity of [Sim] is what an agent would have stored: enrolling and renewing make the
    same calls with the same effects. The commands of a session are looked at in the order
    in which they came, and none is lost; and agent-sim ends with the agents it was asked for. *)

(** *** Enrolling and renewing *)

(** What an agent loads that holds an identity. *)
Definition enrollment_of (id : Sim.Identity) : Enrollment :=
  mkEnrollment (id_DeviceID id) (id_CommandPub id) (id_UpdatePub id) (id_UninstallHash id).
Definition loaded_of (id : Sim.Identity) (leaf : LeafInfo) : Loaded :=
  mkLoaded (enrollment_of id) (id_CertDER id) (id_KeyDER id) (id_CADER id) (lf_NotAfter leaf).

Section identities.
Context {Srv : Type} `{EnrollServer Srv}.
Context `{!IdentityLib, !KeyLib, !Pki, !Hasher, !Protector, !IdentityLibOk, !ProtectorOk} (paths : Paths).

Lemma TLSConfig_same id leaf : Sim.TLSConfig id = Identity.TLSConfig (loaded_of id leaf).
Proof. reflexivity. Qed.

(** The end of both enrollments: they fail alike on a key that cannot be marshalled. *)
Lemma writeIdentity_key_fails key cert ca e d d' r :
  MarshalPKCS8 key = Err e → writeIdentity paths key cert ca d = (d', r) → r = Err e.
Proof. unfold writeIdentity, mbind, M_bind. intros ->. by intros [= _ <-]. Qed.

(** C29. The simulated agent is accurate to the protocol. Enrolling it makes the calls of a real
    agent: from the same machine and token they leave the server in the same state, it
    fails with the error the agent fails with, and when both succeed
    the agent's files hold what the simulation keeps in memory: loading them gives the same keys,
    certificate and authority, with which both present themselves in the same way. *)
Theorem sim_is_an_agent tok hw a a1 a2 r1 r2 :
  Sim.Enroll tok hw a = (a1, r1) → AgentEnroll paths tok hw a = (a2, r2) →
  ag_srv a1 = ag_srv a2 ∧ ag_drawn a1 = ag_drawn a2 ∧ (∀ e, r1 = Err e → r2 = Err e) ∧
  ∀ id leaf, r1 = Ok id → is_ok r2 = true → parse_leaf (id_CertDER id) = Ok leaf →
    r2 = Ok (enrollment_of id) ∧ Load paths (ag_disk a2) = (ag_disk a2, Ok (loaded_of id leaf)) ∧
    Identity.TLSConfig (loaded_of id leaf) = Sim.TLSConfig id.
Proof.
  intros Hs Ha.
  unfold AgentEnroll in Ha. unfold Sim.Enroll in Hs.
  destruct (Parse tok) as [[secret pin]|e]; [|injection Hs as <- <-; injection Ha as <- <-; naive_solver].
  rewrite (bind_run _ _ a a (secret, pin)) in Hs by done. rewrite (bind_run _ _ a a (secret, pin)) in Ha by done.
  rewrite (bind_run _ _ _ _ (ag_drawn a)) in Hs by done. rewrite (bind_run _ _ _ _ (ag_drawn a)) in Ha by done.
  destruct (ec_generate _) as [key|e]; [|injection Hs as <- <-; injection Ha as <- <-; naive_solver].
  erewrite (bind_run _ _ _ _ key) in Hs by done. erewrite (bind_run _ _ _ _ key) in Ha by done.
  destruct (CreateCSR _ _) as [csr|e]; [|injection Hs as <- <-; injection Ha as <- <-; naive_solver].
  erewrite (bind_run _ _ _ _ csr) in Hs by done. erewrite (bind_run _ _ _ _ csr) in Ha by done.
  change (pinnedTLS pin) with (check_pinned pin) in Hs. unfold ag_on_srv, mbind, M_bind in Hs, Ha. simpl in Hs, Ha.
  destruct (rpc_Enroll _ _ _) as [s [[e|resp]|e]]; [injection Hs as <- <-; injection Ha as <- <-; naive_solver | |
    injection Hs as <- <-; injection Ha as <- <-; naive_solver].
  simpl in Hs, Ha. unfold of_result in Hs.
  destruct (ag_on_disk _ _) as [a3 r3] eqn:Hw. unfold ag_on_disk in Hw. simpl in Hw.
  destruct (writeIdentity _ _ _ _ _) as [d1 r4] eqn:Hwi. injection Hw as <- <-.
  destruct (MarshalPKCS8 key) as [kd|e] eqn:Hk;
    [|apply writeIdentity_key_fails with (1 := Hk) in Hwi as ->; injection Hs as <- <-; injection Ha as <- <-; naive_solver].
  injection Hs as <- <-. destruct r4 as [[]|e]; [|injection Ha as <- <-; naive_solver].
  apply writeIdentity_run in Hwi as [_ Hi]. specialize (Hi eq_refl).
  unfold ag_on_disk in Ha. simpl in Ha. destruct (writeEnrollment _ _ _) as [d2 [[]|e]] eqn:Hwe; injection Ha as <- <-; simpl; [|naive_solver].
  split_and!; [done | done | done |]. intros id leaf [= <-] _ Hl. simpl in Hl. split; [done|]. split; [|done].
  apply WriteFile_run in Hwe as [Ho He]. specialize (He eq_refl).
  refine (Load_holds paths _ _ key kd _ _ leaf _ _ (enrollment_roundtrip _) _ Hl Hk); [rewrite He; apply lookup_insert_eq|].
  destruct Hi as (kd' & sealed & Hi). exists kd', sealed. by rewrite !Ho by (by apply Join2_ne).
Qed.

(** Renewals are the same too: the identity after it is the one the agent loads. *)
Theorem sim_renews_as_an_agent id leaf a a1 a2 r1 r2 :
  Load paths (ag_disk a) = (ag_disk a, Ok (loaded_of id leaf)) →
  Sim.Renew id a = (a1, r1) → Identity.Renew paths (loaded_of id leaf) a = (a2, r2) →
  ag_srv a1 = ag_srv a2 ∧ (∀ e, r1 = Err e → r2 = Err e) ∧
  ∀ id' leaf', r1 = Ok id' → r2 = Ok tt → parse_leaf (id_CertDER id') = Ok leaf' →
    Load paths (ag_disk a2) = (ag_disk a2, Ok (loaded_of id' leaf')).
Proof.
  intros [_ (b & Hb & Hu)]%Load_inv Hs Ha. unfold Identity.Renew in Ha. unfold Sim.Renew in Hs.
  rewrite <- (TLSConfig_same id leaf) in Ha. destruct (Sim.TLSConfig id) as [tls|e]; [|injection Hs as <- <-; injection Ha as <- <-; naive_solver].
  rewrite (bind_run _ _ a a tls) in Hs by done. rewrite (bind_run _ _ a a tls) in Ha by done.
  rewrite (bind_run _ _ _ _ (ag_drawn a)) in Hs by done. rewrite (bind_run _ _ _ _ (ag_drawn a)) in Ha by done.
  destruct (ec_generate _) as [key|e]; [|injection Hs as <- <-; injection Ha as <- <-; naive_solver].
  erewrite (bind_run _ _ _ _ key) in Hs by done. erewrite (bind_run _ _ _ _ key) in Ha by done. simpl in Ha.
  destruct (CreateCSR _ _) as [csr|e]; [|injection Hs as <- <-; injection Ha as <- <-; naive_solver].
  erewrite (bind_run _ _ _ _ csr) in Hs by done. erewrite (bind_run _ _ _ _ csr) in Ha by done.
  unfold ag_on_srv, mbind, M_bind in Hs, Ha. simpl in Hs, Ha.
  destruct (rpc_Renew _ _ _) as [s [[e|der]|e]]; [injection Hs as <- <-; injection Ha as <- <-; naive_solver | |
    injection Hs as <- <-; injection Ha as <- <-; naive_solver].
  simpl in Hs, Ha. unfold of_result in Hs. unfold ag_on_disk in Ha. simpl in Ha.
  destruct (writeIdentity _ _ _ _ _) as [d1 r4] eqn:Hwi. injection Ha as <- <-.
  destruct (MarshalPKCS8 key) as [kd|e] eqn:Hk;
    [|apply writeIdentity_key_fails with (1 := Hk) in Hwi as ->; injection Hs as <- <-; naive_solver].
  injection Hs as <- <-. simpl. split; [done|]. split; [done|]. intros id' leaf' [= <-] -> Hl. simpl in Hl.
  apply writeIdentity_run in Hwi as [Ho Hi].
  refine (Load_holds paths _ b key kd _ _ leaf' _ _ Hu (Hi eq_refl) Hl Hk). by rewrite Ho by apply enrollment_apart.
Qed.
End identities.

(** *** A session *)

(** The buffer, the goroutine that waits to add to it and the end of the stream are
    one queue of at most 65 commands. *)
Definition queue (s : Session) : list SignedCommand := ss_commands s ++ option_list (ss_blocked s).
Definition session_ok (s : Session) : Prop :=
  (length (ss_commands s) ≤ commands_cap)%nat ∧
  (is_Some (ss_blocked s) → length (ss_commands s) = commands_cap ∧ ss_done s = None).

Lemma session_ok_start : session_ok no_commands.
Proof. split; simpl; [lia | by intros [? [=]]]. Qed.
Lemma session_ok_Recv m s : session_ok s → session_ok (Recv m s).
Proof.
  intros [Hl Hb]. unfold Recv, receiving. destruct m as [c|]; [|done]. destruct s as [cs [b|] [f|]]; simpl in *; try done.
  destruct (Nat.ltb_spec (length cs) commands_cap).
  - split; simpl; [rewrite length_app; simpl; lia | by intros [? [=]]].
  - split; simpl; [done|]. split; [lia | done].
Qed.
Lemma session_ok_RecvErr f s : session_ok s → session_ok (RecvErr f s).
Proof.
  intros [Hl Hb]. unfold RecvErr, receiving. destruct s as [cs [b|] [g|]]; simpl in *; try done. split; simpl; [done | by intros [? [=]]].
Qed.
Lemma session_ok_take c s s' : session_ok s → take_command s = Some (c, s') → session_ok s'.
Proof.
  intros [Hl Hb] Ht. unfold take_command in Ht. destruct (ss_commands s) as [|c0 cs] eqn:Hc; [done|]. simpl in Hl.
  destruct (ss_blocked s) as [b|] eqn:Hbl; injection Ht as <- <-; split; simpl; try (by intros [? [=]]); [|lia].
  rewrite length_app. simpl. lia.
Qed.

(** The reference: a first-in-first-out queue with a bound, and a loop over it. *)
Section reference.
Context {Srv : Type} `{EnrollServer Srv, AgentServer Srv, IdentityLib, KeyLib, Pki, Hasher, Crypto} (r : Runner).
Definition queue_cap : nat := 65.
Fixpoint queue_loop (tls : ClientTLS) (started : time) (evs : list (duration * sim_event)) (q : list SignedCommand) (stop : option failure) :
    M (agent Srv) sim_end :=
  match evs with
  | [] => mret SLive
  | (d, ev) :: evs =>
      _ ← ag_elapse d;
      let open := (length q <? queue_cap)%nat && bool_decide (stop = None) in
      match ev with
      | SRecv (Some c) => queue_loop tls started evs (if open then q ++ [c] else q) stop
      | SRecv None => queue_loop tls started evs q stop
      | SRecvErr f => queue_loop tls started evs q (if open then Some f else stop)
      | SCancel => _ ← attempt (Goodbye tls); mret SCancelled
      | SDone => match stop with Some f => mret (SFailed f) | None => queue_loop tls started evs q stop end
      | SCommand =>
          match q, stop with
          | c :: q', _ => res ← answer r tls c; failed res (queue_loop tls started evs q' stop)
          | [], Some f => mret (SFailed f)
          | [], None => queue_loop tls started evs q stop
          end
      | STick => res ← attempt (heartbeat r tls started); failed res (queue_loop tls started evs q stop)
      end
  end.

Lemma bind_ext {S A B} (m : M S A) (k k' : A → M S B) s : (∀ x s', k x s' = k' x s') → (m ≫= k) s = (m ≫= k') s.
Proof. intros Hk. unfold mbind, M_bind. destruct (m s) as [s' [x|e]]; [apply Hk | done]. Qed.
Lemma failed_ext res (k k' : M (agent Srv) sim_end) a : (∀ a, k a = k' a) → failed res k a = failed res k' a.
Proof. intros Hk. destruct res; simpl; [apply Hk | done]. Qed.

(** Whether the goroutine receives is whether the queue is open. *)
Lemma receiving_open s :
  session_ok s → receiving s = (length (queue s) <? queue_cap)%nat && bool_decide (ss_done s = None).
Proof.
  intros [Hl Hb]. unfold receiving, queue, queue_cap. destruct s as [cs [b|] stop]; simpl in *.
  - destruct (Hb ltac:(by eexists)) as [Hlen ->]. rewrite length_app. simpl. unfold commands_cap in *.
    rewrite (proj2 (Nat.ltb_ge _ _)) by lia. done.
  - rewrite app_nil_r. unfold commands_cap in *. rewrite (proj2 (Nat.ltb_lt _ _)) by lia. by destruct stop.
Qed.
Lemma queue_Recv c s :
  session_ok s → queue (Recv (Some c) s) = (if receiving s then queue s ++ [c] else queue s) ∧ ss_done (Recv (Some c) s) = ss_done s.
Proof.
  intros [Hl Hb]. unfold Recv, receiving, queue. destruct s as [cs [b|] [f|]]; simpl in *; try done.
  rewrite app_nil_r. destruct (_ <? _)%nat; simpl; by rewrite ?app_nil_r.
Qed.
Lemma queue_RecvErr f s :
  queue (RecvErr f s) = queue s ∧ ss_done (RecvErr f s) = (if receiving s then Some f else ss_done s).
Proof. unfold RecvErr, receiving, queue. by destruct s as [cs [b|] [g|]]. Qed.
Lemma queue_take s :
  session_ok s →
  match take_command s with
  | Some (c, s') => queue s = c :: queue s' ∧ ss_done s' = ss_done s
  | None => queue s = []
  end.
Proof.
  intros [Hl Hb]. unfold take_command, queue. destruct s as [[|c cs] b stop]; simpl in *.
  - destruct b as [b|]; [|done]. by destruct (Hb ltac:(by eexists)).
  - destruct b as [b|]; simpl; [|done]. by rewrite app_nil_r.
Qed.

Lemma select_queue tls started evs s a :
  session_ok s → select_loop r tls started evs s a = queue_loop tls started evs (queue s) (ss_done s) a.
Proof.
  revert s a. induction evs as [|[d ev] evs IH]; intros s a Hok; [done|]. cbn [select_loop queue_loop]. apply bind_ext. intros _ a1.
  rewrite <- receiving_open by done. destruct ev as [[c|]|f| | | |].
  - destruct (queue_Recv c s Hok) as [<- Hd]. rewrite IH by (by apply session_ok_Recv). by rewrite Hd.
  - by apply IH.
  - destruct (queue_RecvErr f s) as [Hq <-]. rewrite <- Hq. by apply IH, session_ok_RecvErr.
  - done.
  - destruct (ss_done s) eqn:Hd; [done|]. rewrite IH by done. by rewrite Hd.
  - pose proof (queue_take s Hok) as Ht. destruct (take_command s) as [[c s']|] eqn:Htk.
    + destruct Ht as [-> Hd]. apply bind_ext. intros res a2. apply failed_ext. intros a3. rewrite IH by (by eapply session_ok_take). by rewrite Hd.
    + destruct (queue s) as [|c q] eqn:Hq; [|done]. destruct (ss_done s) eqn:Hd; [done|]. rewrite IH by done. by rewrite Hq, Hd.
  - apply bind_ext. intros res a2. apply failed_ext. intros a3. by apply IH.
Qed.

(** The commands of a session are looked at in the order in which they came, each once: the
    goroutine that receives, the channel of 64 commands and the channel of the end behave
    as a single queue of at most 65, and while it is full nothing is lost, because
    nothing is received. *)
Theorem session_is_a_queue tls started evs a :
  select_loop r tls started evs no_commands a = queue_loop tls started evs [] None a.
Proof. apply (select_queue tls started evs no_commands), session_ok_start. Qed.
End reference.

(** *** Against the server *)

Section served.
Context `{UuidText, !UuidTextOk, UuidSource, Crypto, !CryptoOk, Hasher, Pki, KeyLib, IdentityLib, !IdentityLibOk}.
Context (sort : ∀ A, (A → A → bool) → list A → list A) (keys : uuid → result Keys) (chain : list string).
Context (notify : option Emitter) (alerting : option (option Emitter)) (network : time → option err).
#[local] Instance sim_enroll_server : EnrollServer backend := enroll_backend keys chain.
#[local] Instance sim_agent_server : AgentServer backend := agent_backend sort keys true true notify alerting network.

(** A simulated agent that enrolled is let in. *)
Lemma sim_enrolled_is_let_in tok hw (a a' : agent backend) id :
  Sim.Enroll tok hw a = (a', Ok id) →
  ∃ dev sn, id_DeviceID id = uuid_string (dev_ID dev) ∧
    authenticate (Leaf (id_DeviceID id) sn) (w_db (be_world (ag_srv a'))) = (w_db (be_world (ag_srv a')), Ok (inr dev)) ∧
    ∀ leaf, parse_leaf (id_CertDER id) = Ok leaf → lf_CommonName leaf = id_DeviceID id ∧ lf_Serial leaf = sn.
Proof.
  unfold Sim.Enroll. intros ([secret pin] & a1 & _ & (n & a2 & _ & (key & a3 & _ & (csr & a4 & _ & He)%bind_Ok)%bind_Ok)%bind_Ok)%bind_Ok.
  apply bind_Ok in He as (resp & a5 & Hr & He). unfold ag_on_srv in Hr. destruct (rpc_Enroll _ _ _) as [b' r] eqn:Hrpc.
  injection Hr as <- ->. destruct resp as [e|resp]; [done|]. apply bind_Ok in He as (resp' & a6 & [= <- <-] & He).
  apply bind_Ok in He as (kd & a7 & Hk & [= <- <-]). unfold of_result in Hk. injection Hk as <- _. simpl.
  cbn [rpc_Enroll sim_enroll_server enroll_backend] in Hrpc. destruct (pinnedTLS pin chain); [|done]. apply on_world_Ok in Hrpc.
  apply Enroll_lets_in in Hrpc as (id & sn & tenant & tk & t0 & k & req & Hcac & _ & _ & _ & Hid & _ & _ & _ & _ & _ & _ & Hcr & Hau).
  exists (mkDeviceRef id tenant), sn. split_and!; [done | done |]. intros leaf. rewrite (leaf_parsed _ _ _ _ _ Hcr). by intros [= <-].
Qed.

(** A simulated agent answers for what it is sent. A signed message that a session takes
    and that is a command for the agent's device, in time and with an open row, closes that
    row as succeeded, with the text that the simulation sends; whatever else is taken leaves
    the server as it is. *)
Theorem sim_answers r tls sc (a : agent backend) dev k cm cmd :
  be_stream (ag_srv a) = Some dev → String.length (id_CommandPub (r_Identity r)) = PublicKeySize →
  commands (w_db (be_world (ag_srv a))) !! k = Some cm → cm_tenant cm = dev_TenantID dev → cm_device cm = dev_ID dev →
  command_open cm = true → pb_id cmd = uuid_string k →
  match Verify (id_CommandPub (r_Identity r)) sc (id_DeviceID (r_Identity r)) (ag_now a) with
  | Ok cmd' => cmd' = cmd → ∃ a' cm', answer r tls sc a = (a', Ok (Ok tt)) ∧ ag_now a' = ag_now a ∧
      commands (w_db (be_world (ag_srv a'))) !! k = Some cm' ∧ cm_state cm' = "succeeded" ∧
      cm_result cm' = ("sim handled " +:+ TypeName (pb_type cmd))%string
  | Err _ => answer r tls sc a = (a, Ok (Ok tt))
  end.
Proof.
  intros Hst Hlen Hk Ht Hd Ho Hid. unfold answer. rewrite (bind_run _ _ a a (ag_now a)) by done. rewrite Hlen. cbn [negb Nat.eqb PublicKeySize].
  destruct (Verify _ _ _ _) as [cmd'|e]; [|done]. intros ->.
  destruct (handle_result dev k cm (sim_result cmd) (be_world (ag_srv a))) as (w' & cm' & Hh & Hk' & Hs & Hr & _);
    [by rewrite <- uuid_parse_string, <- Hid | done.. |].
  assert (stream_Send tls (CommandResultMsg (sim_result cmd)) (ag_srv a) = (mkBackend w' (Some dev), Ok tt)) as Hsend.
  { cbn [stream_Send sim_agent_server agent_backend]. rewrite (bind_run _ _ (ag_srv a) (ag_srv a) (ag_srv a)) by done.
    rewrite Hst. unfold on_world. by rewrite Hh, Hst. }
  unfold attempt, SendResult, ag_on_srv. rewrite Hsend. simpl.
  eexists _, cm'. by split_and!.
Qed.
End served.

(** *** agent-sim *)

Section fleet.
Context {Srv : Type} `{EnrollServer Srv, !IdentityLib, !KeyLib, !Pki, !Hasher, !StateJson, !StateJsonOk}.

#[local] Instance ag_on_srv_disk {A} (m : M Srv A) : Steps (keeps ag_disk) (ag_on_srv m).
Proof. intros a. unfold ag_on_srv. by destruct (m (ag_srv a)). Qed.
#[local] Instance ag_draw_disk : Steps (keeps (@ag_disk Srv)) ag_draw.
Proof. done. Qed.
#[local] Instance of_result_disk {A} (r : result A) : Steps (keeps (@ag_disk Srv)) (of_result r).
Proof. done. Qed.
#[local] Instance Enroll_disk tok hw : Steps (keeps (@ag_disk Srv)) (Sim.Enroll tok hw).
Proof. unfold Sim.Enroll. steps. Qed.

Lemma enroll_each_run token order a :
  ∃ a' done, enroll_each token order a = (a', Ok done) ∧ done.*1 = order ∧ ag_disk a' = ag_disk a.
Proof.
  revert a. induction order as [|i order IH]; intros a; simpl; [by eexists _, []|].
  pose proof (steps_of (m := Sim.Enroll token (sim_hardware i)) a) as Hd. unfold via in Hd.
  destruct (Sim.Enroll _ _ a) as [a1 r] eqn:He. destruct (IH a1) as (a' & done & Hr & Hdone & Hdisk).
  exists a', ((i, r) :: done). rewrite (bind_run _ _ a a1 r) by (unfold attempt; by rewrite He). rewrite (bind_run _ _ _ _ _ Hr).
  simpl in *. split_and!; [done | by rewrite <- Hdone | congruence].
Qed.

(** Without an error every result became an agent. *)
Lemma append_each_Ok done agents agents' :
  append_each done agents [] = (agents', []) →
  ∃ more, agents' = agents ++ more ∧ length more = length done ∧ se_Hostname <$> more = sim_host <$> done.*1.
Proof.
  unfold append_each. intros [= <- He]. eexists. split; [done|].
  induction done as [|[i [id|e]] done IH]; simpl in *; [done| |done]. destruct (IH He) as [Hl Hh]. split; by f_equal.
Qed.

Definition stored (path : string) (a : agent Srv) : result (list stateEntry) :=
  match files (ag_disk a) !! path with Some b => unmarshal_state b | None => Ok [] end.
(** Reorderings of the goroutines. *)
Definition schedule (from : nat) (count : Z) (order : list nat) : Prop := order ≡ₚ seq from (Z.to_nat count - from).
Definition reordering {A} (finish : list A → list A) : Prop := ∀ l, finish l ≡ₚ l.

(** agent-sim starts the number of agents it is asked for, and enrolls an agent once. In whatever
    order its goroutines run and finish, when it returns agents there are exactly
    [count] of them, those of the state file first and each of the others under a host name of its
    number; and a second run with the same count returns the very same agents without
    a call to the server. *)
Theorem loadOrEnroll_once path token token' count order finish order' finish' a a' old agents :
  stored path a = Ok old → schedule (length old) count order → reordering finish →
  loadOrEnroll path token count order finish a = (a', Ok agents) →
  Z.of_nat (length agents) = count ∧
  (∃ more, agents = take (Z.to_nat count) old ++ more ∧ se_Hostname <$> more ≡ₚ sim_host <$> seq (length old) (Z.to_nat count - length old)) ∧
  loadOrEnroll path token' count order' finish' a' = (a', Ok agents).
Proof.
  unfold stored, schedule, reordering. intros Hold Hord Hfin He. unfold loadOrEnroll in He. rewrite (bind_run _ _ a a (ag_disk a)) in He by done.
  rewrite (bind_run _ _ a a old) in He by (destruct (files _ !! path); [by rewrite Hold | by injection Hold as <-]).
  destruct (Z.leb_spec count (Z.of_nat (length old))) as [Hle|Hgt].
  - destruct (Z.ltb_spec count 0); [done|]. injection He as <- <-. split; [rewrite length_take; lia|]. split.
    + exists []. rewrite app_nil_r. replace (Z.to_nat count - length old) with 0 by lia. done.
    + unfold loadOrEnroll. rewrite (bind_run _ _ a a (ag_disk a)) by done.
      rewrite (bind_run _ _ a a old) by (destruct (files _ !! path); [by rewrite Hold | by injection Hold as <-]).
      rewrite (proj2 (Z.leb_le _ _)) by lia. by rewrite (proj2 (Z.ltb_ge _ _)) by lia.
  - case_bool_decide as Htok; [done|]. destruct (enroll_each_run token order a) as (a1 & done & Hr & Hdone & Hdisk).
    rewrite (bind_run _ _ _ _ _ Hr) in He. destruct (append_each (finish done) old []) as [ags errs] eqn:Happ.
    apply bind_Ok in He as ([] & a2 & Hw & He). destruct errs; [|done]. injection He as <- <-.
    apply append_each_Ok in Happ as (more & -> & Hlen & Hhost).
    assert (length more = Z.to_nat count - length old) as Hmore.
    { rewrite Hlen, (Permutation_length (Hfin done)). rewrite <- (length_fmap fst), Hdone, Hord. apply length_seq. }
    assert (Z.of_nat (length (old ++ more)) = count) as Hcount by (rewrite length_app; lia).
    split; [done|]. split; [|].
    + exists more. rewrite take_ge by lia. split; [done|]. rewrite Hhost. by rewrite (Hfin done), Hdone, Hord.
    + unfold ag_on_disk in Hw. destruct (WriteFile _ _ _) as [d' r'] eqn:Hwf. injection Hw as <- ->.
      apply WriteFile_run in Hwf as [_ Hf]. unfold loadOrEnroll. simpl. rewrite (bind_run _ _ _ _ d') by done.
      rewrite (bind_run _ _ _ _ (old ++ more)) by (by rewrite Hf, lookup_insert_eq, state_roundtrip by done).
      rewrite Hcount, (proj2 (Z.leb_le _ _)), (proj2 (Z.ltb_ge _ _)) by lia. by rewrite take_ge by lia.
Qed.
End fleet.

(** *** A concrete fleet *)

Module SimDemo.
Import Toy AgentDemo.
(** A text for a state file. *)
Definition entry_tuple (e : stateEntry) :=
  let i := se_Identity e in
  (se_Hostname e, [id_DeviceID i; id_CertDER i; id_KeyDER i; id_CADER i; id_CommandPub i; id_UpdatePub i; id_UninstallHash i]).
Definition tuple_entry (p : string * list string) : option stateEntry :=
  match p with (h, [d; c; k; a; cp; up; u]) => Some (mkStateEntry h (mkIdentity d c k a cp up u)) | _ => None end.
#[export] Instance plain_state : StateJson := {
  marshal_state l := pos_text (encode (entry_tuple <$> l));
  unmarshal_state s := match decode (text_pos s) with Some l => or_fail (mapM tuple_entry l) | None => Err (EMsg "malformed") end;
}.
#[export] Instance plain_state_ok : StateJsonOk.
Proof.
  intros l. simpl. rewrite text_pos_text, decode_encode. induction l as [|[h []] l IH]; [done|]. simpl in *.
  destruct (mapM tuple_entry _); [|done]. simpl in *. by injection IH as ->.
Qed.

(** Two agents of a tenant, enrolled in one order and done in the other. *)
Definition two_agents := loadOrEnroll "sim.json" token 2 [1; 0] (@rev _) fresh_agent.
(** A server that turns the second call away. *)
#[local] Instance flaky : EnrollServer nat := {|
  rpc_Enroll _ req n := (S n, if (n =? 1)%nat then Ok (inl (RpcErr Unavailable "try again"))
                              else Ok (inr (mkEnrollResponse (hw_hostname (eq_hardware req)) "cert" "ca" "cmd" "upd" "hash")));
  rpc_Renew _ _ n := (n, Err (EMsg "no"));
|}.
Definition hosts (path : string) (a : agent nat) : list string :=
  match stored path a with Ok l => se_Hostname <$> l | Err _ => [] end.
(** After a run in which one enrollment failed, the next run counts from the number of agents in the
    file: it enrolls a second device under a name that is taken, and never the one that
    failed. *)
Example hostname_taken_twice :
  let '(a1, r1) := loadOrEnroll "sim.json" token 3 [0; 1; 2] id (mkAgent (mkDisk ∅ []) 0%Z 0 0) in
  let '(a2, r2) := loadOrEnroll "sim.json" token 3 [2] id a1 in
  is_ok r1 = false ∧ hosts "sim.json" a1 = ["sim-00000"; "sim-00002"] ∧
  is_ok r2 = true ∧ hosts "sim.json" a2 = ["sim-00000"; "sim-00002"; "sim-00002"].
Proof. by vm_compute. Qed.
End SimDemo.

Section sim_witnesses.
Import Toy AgentDemo SimDemo.
Lemma sim_is_an_agent_witness :
  ag_srv (Sim.Enroll token hardware fresh_agent).1 = ag_srv enrolled ∧
  ∃ id leaf, Load machine_paths (ag_disk enrolled) = (ag_disk enrolled, Ok (loaded_of id leaf)).
Proof.
  unfold enrolled. destruct (Sim.Enroll token hardware fresh_agent) as [a1 r1] eqn:E1.
  destruct (AgentEnroll machine_paths token hardware fresh_agent) as [a2 r2] eqn:E2.
  destruct (sim_is_an_agent machine_paths token hardware fresh_agent a1 a2 r1 r2 E1 E2) as (Hs & _ & _ & Hl).
  split; [exact Hs|]. destruct r1 as [id|e]; [|vm_compute in E1; discriminate E1].
  destruct r2 as [enr|e]; [|vm_compute in E2; discriminate E2].
  destruct (parse_leaf (id_CertDER id)) as [leaf|e] eqn:Hp;
    [|vm_compute in E1; injection E1 as _ <-; vm_compute in Hp; discriminate Hp].
  exists id, leaf. apply (Hl id leaf eq_refl eq_refl Hp).
Defined.

Lemma loadOrEnroll_once_witness :
  ∃ agents, two_agents.2 = Ok agents ∧ Z.of_nat (length agents) = 2%Z ∧
    loadOrEnroll "sim.json" "" 2 [] id two_agents.1 = (two_agents.1, Ok agents).
Proof.
  unfold two_agents. destruct (loadOrEnroll "sim.json" token 2 [1; 0] (@rev _) fresh_agent) as [a' r] eqn:He.
  destruct r as [agents|e]; [|vm_compute in He; discriminate He].
  destruct (loadOrEnroll_once "sim.json" token "" 2 [1; 0] (@rev _) [] id fresh_agent a' [] agents) as (Hc & _ & Hagain);
    [reflexivity | apply perm_swap | intros l; symmetry; apply Permutation_rev | exact He |].
  exists agents. split; [reflexivity|]. split; [exact Hc | exact Hagain].
Defined.
End sim_witnesses.
