(* ===== verification/Lifecycle.v ===== *)
(** * The life of the server process

    Models the concurrent side of [internal/server/app/app.go]: the group of background tasks
    ([startBackground], [background], [stopBackground]), what [activate] starts and [Close]
    stops, as threads that interleave; and the loops: [Run] of the process with its ticker, and
    [Run] of [internal/server/notify/notify.go], which the background task of [activate] is.
    Also the command line of [cmd/server/main.go]. Shown: a [Close] that no activation overlaps stops everything
    that was started; two examples at the end are the races this condition leaves out. *)

From stdpp Require Import gmap strings list.
From S2P Require Import Prelude GoStr Db Hub StoreCore World Commands Enroll StoreRollouts StoreNotify Syslog Notify Http StorePolicies StoreMetrics StoreAdmins Policies Authn Bootstrap Rollout App RolloutLife.

(** ** Threads *)

(** What follows [stopBackground]: the rest of [startBackground] in an activation, with the
    agent server it listens on, or the rest of [Close]. *)
Inductive after := ThenStart (srv : nat) | ThenClose.
(** Where a thread is. An activation listens, stops the previous group, opens its own, runs its
    task in it and publishes its server; [Close] takes and stops the server, stops the group
    and closes the store. *)
Inductive pc :=
  | Listen
  | StopTake (k : after) | StopCancel (c : option nat) (k : after) | StopWait (k : after)
  | Open (srv : nat)
  | BgRead (srv : nat) | BgAdd (c : option nat) (srv : nat) | BgGo (c : nat) (srv : nat)
  | Publish (srv : nat)
  | CloseTake | CloseStop (srv : option nat) | CloseStore
  | Finished.
#[export] Instance after_eq_dec : EqDecision after.
Proof. solve_decision. Defined.
#[export] Instance pc_eq_dec : EqDecision pc.
Proof. solve_decision. Defined.

(** The process: [bgCtx] with its cancel function, the next context or server, the contexts
    that are cancelled, the counter of the wait group, the contexts of the tasks that
    run, [agentSrv], the servers that serve, and whether the store is open. *)
Record process := mkProcess {
  y_bgCtx : option nat; y_fresh : nat; y_cancelled : gset nat; y_bg : nat; y_tasks : list nat;
  y_agentSrv : option nat; y_servers : gset nat; y_store : bool;
}.
Definition start_process : process := mkProcess None 0 ∅ 0 [] None ∅ true.

Definition set_bgCtx (c : option nat) (y : process) : process :=
  mkProcess c (y_fresh y) (y_cancelled y) (y_bg y) (y_tasks y) (y_agentSrv y) (y_servers y) (y_store y).
Definition set_fresh (n : nat) (y : process) : process :=
  mkProcess (y_bgCtx y) n (y_cancelled y) (y_bg y) (y_tasks y) (y_agentSrv y) (y_servers y) (y_store y).
Definition cancel_ctx (c : option nat) (y : process) : process :=
  mkProcess (y_bgCtx y) (y_fresh y) (match c with Some c => {[c]} ∪ y_cancelled y | None => y_cancelled y end) (y_bg y) (y_tasks y)
    (y_agentSrv y) (y_servers y) (y_store y).
Definition set_bg (n : nat) (ts : list nat) (y : process) : process :=
  mkProcess (y_bgCtx y) (y_fresh y) (y_cancelled y) n ts (y_agentSrv y) (y_servers y) (y_store y).
Definition set_agentSrv (s : option nat) (y : process) : process :=
  mkProcess (y_bgCtx y) (y_fresh y) (y_cancelled y) (y_bg y) (y_tasks y) s (y_servers y) (y_store y).
Definition set_servers (s : gset nat) (y : process) : process :=
  mkProcess (y_bgCtx y) (y_fresh y) (y_cancelled y) (y_bg y) (y_tasks y) (y_agentSrv y) s (y_store y).
Definition close_store (y : process) : process :=
  mkProcess (y_bgCtx y) (y_fresh y) (y_cancelled y) (y_bg y) (y_tasks y) (y_agentSrv y) (y_servers y) false.

(** One step of a thread; none when it waits, or is over. *)
Definition move (p : pc) (y : process) : option (pc * process) :=
  match p with
  | Listen => Some (StopTake (ThenStart (y_fresh y)), set_servers ({[y_fresh y]} ∪ y_servers y) (set_fresh (S (y_fresh y)) y))
  | StopTake k => Some (StopCancel (y_bgCtx y) k, set_bgCtx None y)
  | StopCancel c k => Some (StopWait k, cancel_ctx c y)
  | StopWait k =>
      if (y_bg y =? 0)%nat then Some (match k with ThenStart s => Open s | ThenClose => CloseStore end, y) else None
  | Open s => Some (BgRead s, set_bgCtx (Some (y_fresh y)) (set_fresh (S (y_fresh y)) y))
  | BgRead s => Some (BgAdd (y_bgCtx y) s, y)
  | BgAdd None s => Some (Publish s, y)
  | BgAdd (Some c) s => Some (BgGo c s, set_bg (S (y_bg y)) (y_tasks y) y)
  | BgGo c s => Some (Publish s, set_bg (y_bg y) (c :: y_tasks y) y)
  | Publish s => Some (Finished, set_agentSrv (Some s) y)
  | CloseTake => Some (CloseStop (y_agentSrv y), set_agentSrv None y)
  | CloseStop s => Some (StopTake ThenClose, match s with Some s => set_servers (y_servers y ∖ {[s]}) y | None => y end)
  | CloseStore => Some (Finished, close_store y)
  | Finished => None
  end.

(** An activation that has begun: [Run] activates before it serves, and [setupMu] lets one
    setup at a time through. *)
Definition activating (p : pc) : bool :=
  match p with
  | Listen | StopTake (ThenStart _) | StopCancel _ (ThenStart _) | StopWait (ThenStart _) | Open _ | BgRead _ | BgAdd _ _ | BgGo _ _
  | Publish _ => true
  | _ => false
  end.
(** A state with its threads, and its steps: a thread moves, a task returns, which it may do at any
    time, an activation begins when none is going on, or a [Close] begins. *)
Record system := mkSystem { sy_process : process; sy_threads : list pc }.
Inductive act := Move (i : nat) | Return (j : nat) | Call (p : pc).
Definition sys_step (a : act) (s : system) : option system :=
  let y := sy_process s in
  match a with
  | Move i =>
      p ← sy_threads s !! i;
      '(p', y') ← move p y;
      Some (mkSystem y' (<[i := p']> (sy_threads s)))
  | Return j =>
      match y_tasks y !! j with
      | Some _ => Some (mkSystem (set_bg (pred (y_bg y)) (delete j (y_tasks y)) y) (sy_threads s))
      | None => None
      end
  | Call p =>
      if bool_decide (p = Listen) && negb (existsb activating (sy_threads s)) || bool_decide (p = CloseTake)
      then Some (mkSystem y (sy_threads s ++ [p])) else None
  end.
Fixpoint sys_run (acts : list act) (s : system) : option system :=
  match acts with [] => Some s | a :: acts => s' ← sys_step a s; sys_run acts s' end.
Definition boot : system := mkSystem start_process [].

(** ** The loops *)

Definition elapse (d : duration) : M world unit := modify (λ w, mkWorld (w_db w) (w_hub w) (w_now w + d)%Z (w_drawn w)).

(** [Run] of the dispatcher: it is woken, its ticker fires, or its context ends; [fuel] bounds the
    rounds of one draining. Whether it returned. *)
Inductive wakeup := Woken | Ticked | CtxDone.
Section dispatcher.
Context `{UuidText, UrlParser, Codec, Sealer, Wire} (smtp : SMTP) (fuel : nat).
Fixpoint notify_Run (evs : list (duration * wakeup)) : M world bool :=
  match evs with
  | [] => mret false
  | (d, ev) :: evs =>
      _ ← elapse d;
      match ev with
      | CtxDone => mret true
      | Woken | Ticked => _ ← drain smtp fuel; notify_Run evs
      end
  end.
End dispatcher.

(** [Run] of the process, once it serves: a minute has passed, serving failed, or the context
    ended and the console was shut down with some result. *)
Inductive run_event := MinuteTick | ServeFailed (e : err) | Stopped (shutdown : result unit).
Section running.
Context `{UuidText, UuidSource, Crypto, Pki, Hasher, Passwords, KeyLib} (cfg : Config) (rollouts : Service).
Fixpoint Run_loop (evs : list (duration * run_event)) : M host (option (result unit)) :=
  match evs with
  | [] => mret None
  | (d, ev) :: evs =>
      _ ← in_world (elapse d);
      match ev with
      | MinuteTick => _ ← minute cfg rollouts; Run_loop evs
      | ServeFailed e => mret (Some (Err e))
      | Stopped r => mret (Some r)
      end
  end.
Context (master : string) (sort : ∀ A, (A → A → bool) → list A → list A) (keys : uuid → result Keys).
Definition App_Run (listen : result unit) (evs : list (duration * run_event)) : M host (option (result unit)) :=
  _ ← Run_start master sort keys listen; Run_loop evs.

(** [TokenForTests]: an unlimited token of the runtime's tenant. *)
Definition TokenForTests : M host string :=
  h ← get;
  match h_rt h with
  | None => fail (EMsg "not initialized")
  | Some tenant =>
      k ← of_result (keys tenant);
      n ← in_world draw;
      let '(full, hash) := Generate n (PinFromCert (CA_Cert k)) in
      id ← in_world uuid_New;
      _ ← in_world (on_db (CreateInstallToken id tenant hash "bring-up" None None None None));
      mret full
  end.

(** ** cmd/server/main.go *)

(** The flags after the command, as [flag] parses them. *)
Record flags := mkFlags { fl_org : string; fl_email : string; fl_password : string; fl_role : string }.
Definition command_of (args : list string) : string :=
  match args with
  | a :: _ => if has_prefix a "-" then "serve" else a
  | [] => "serve"
  end.
Definition password_of (f : flags) (env : string) : string := if bool_decide (fl_password f = "") then env else fl_password f.
(** [run], once the store is open: its error, if it returns. *)
Definition run (args : list string) (f : flags) (env : string) (listen : result unit) (evs : list (duration * run_event)) :
    M host (option (result unit)) :=
  let cmd := command_of args in
  if bool_decide (cmd = "serve") then App_Run listen evs
  else if bool_decide (cmd = "init") then
    r ← attempt (in_world (Initialize master (fl_org f) (fl_email f) (password_of f env)));
    mret (Some (match r with Ok _ => Ok tt | Err e => Err e end))
  else if bool_decide (cmd = "create-admin") then
    r ← attempt (in_world (cli_CreateAdmin (fl_email f) (password_of f env) (fl_role f)));
    mret (Some r)
  else mret (Some (Err (EFmt "unknown command %q (want serve, init, or create-admin)" [cmd]))).
End running.

(** ** What closing the server leaves behind

    The group of background tasks under every interleaving, and what the loop of the process
    guarantees about the passing of time. *)

(** *** The wait group *)

Definition counts (p : pc) : bool := match p with BgGo _ _ => true | _ => false end.
(** The contexts of tasks that run or are about to. *)
Definition holds_ctx (c : nat) (p : pc) : Prop := match p with BgAdd (Some c') _ | BgGo c' _ => c = c' | _ => False end.
Definition to_cancel (c : nat) (ps : list pc) : Prop := ∃ k, StopCancel (Some c) k ∈ ps.
(** A context is the current one, or cancelled, or about to be. *)
Definition covered (c : nat) (s : system) : Prop :=
  c ∈ y_cancelled (sy_process s) ∨ y_bgCtx (sy_process s) = Some c ∨ to_cancel c (sy_threads s).
Definition group_ok (s : system) : Prop :=
  y_bg (sy_process s) = length (y_tasks (sy_process s)) + count counts (sy_threads s) ∧
  (∀ c, c ∈ y_tasks (sy_process s) → covered c s) ∧ (∀ c p, p ∈ sy_threads s → holds_ctx c p → covered c s).

Lemma count_insert {A} (f : A → bool) l i x y :
  l !! i = Some x → count f (<[i := y]> l) + (if f x then 1 else 0) = count f l + (if f y then 1 else 0).
Proof.
  revert i. induction l as [|z l IH]; intros [|i]; simpl; [done|done| |].
  - intros [= ->]. rewrite !count_cons. lia.
  - intros Hi. specialize (IH i Hi). rewrite !count_cons. lia.
Qed.
Lemma elem_of_insert {A} (l : list A) i x y : y ∈ <[i := x]> l → y = x ∨ y ∈ l.
Proof.
  rewrite !list_elem_of_lookup. intros [j Hj]. rewrite list_lookup_insert in Hj. destruct (decide _); [naive_solver | eauto].
Qed.
Lemma elem_of_insert_ne {A} (l : list A) i x z y : l !! i = Some z → y ∈ l → y = z ∨ y ∈ <[i := x]> l.
Proof.
  intros Hi. rewrite !list_elem_of_lookup. intros [j Hj]. destruct (decide (i = j)) as [<-|Hne]; [left; congruence|].
  right. exists j. by rewrite list_lookup_insert_ne.
Qed.
Lemma elem_of_inserted {A} (l : list A) i x z : l !! i = Some z → x ∈ <[i := x]> l.
Proof. intros Hi. apply list_elem_of_lookup. exists i. apply list_lookup_insert_eq. by eapply lookup_lt_Some. Qed.

(** An activation that is between taking the group and opening its own has left none. *)
Definition cleared (p : pc) : bool := match p with StopCancel _ (ThenStart _) | StopWait (ThenStart _) | Open _ => true | _ => false end.
Record lifecycle_ok (s : system) : Prop := {
  lc_count : y_bg (sy_process s) = length (y_tasks (sy_process s)) + count counts (sy_threads s);
  lc_tasks : ∀ c, c ∈ y_tasks (sy_process s) → covered c s;
  lc_threads : ∀ c p, p ∈ sy_threads s → holds_ctx c p → covered c s;
  lc_single : count activating (sy_threads s) ≤ 1;
  lc_cleared : ∀ p, p ∈ sy_threads s → cleared p = true → y_bgCtx (sy_process s) = None;
}.
Lemma cleared_activating p : cleared p = true → activating p = true.
Proof. by destruct p as [|[]|? []|[]| | | | | | | | |]. Qed.

Lemma move_cancelled p y p' y' : move p y = Some (p', y') → y_cancelled y ⊆ y_cancelled y'.
Proof.
  destruct p as [|k|[?|] ?|k|srv|srv|[?|] srv|? srv|srv| |[?|]| |]; simpl; try (by intros [= <- <-]); try (by intros [= <- <-]; set_solver).
  destruct (_ =? _)%nat; [by intros [= <- <-] | done].
Qed.

(** A context that is covered stays so. *)
Lemma covered_move s i p p' y' c :
  lifecycle_ok s → sy_threads s !! i = Some p → move p (sy_process s) = Some (p', y') → covered c s →
  covered c (mkSystem y' (<[i := p']> (sy_threads s))).
Proof.
  intros Hok Hi Hm Hc. unfold covered, to_cancel in *. simpl.
  assert (p ∈ sy_threads s) as Hp by (by eapply list_elem_of_lookup_2).
  assert (∀ k, StopCancel (Some c) k ∈ sy_threads s → p = StopCancel (Some c) k ∨ StopCancel (Some c) k ∈ <[i := p']> (sy_threads s)) as Hkeep.
  { intros k Hk. destruct (elem_of_insert_ne _ i p' p _ Hi Hk) as [->|]; auto. }
  assert ((∃ k, StopCancel (Some c) k ∈ sy_threads s) → (∃ k, p = StopCancel (Some c) k) ∨ ∃ k, StopCancel (Some c) k ∈ <[i := p']> (sy_threads s))
    as Hkeep' by (intros [k Hk]; destruct (Hkeep k Hk); eauto). clear Hkeep.
  pose proof (elem_of_inserted _ i p' p Hi) as Hin. pose proof (lc_cleared _ Hok p Hp) as Hcl.
  destruct Hc as [Hc|[Hc|[[k ->]|Hk]%Hkeep']]; [left|..|by right; right].
  - apply move_cancelled in Hm. set_solver.
  - destruct (decide (y_bgCtx y' = Some c)) as [|Hne]; [by right; left|]. right. right.
    destruct p as [|k|? ?|k|srv|srv|[?|] srv|? srv|srv| |[?|]| |]; simpl in Hm, Hcl;
      try (by injection Hm as <- <-); try (by destruct (_ =? _)%nat; [injection Hm as <- <-|]); try by rewrite Hcl in Hc.
    injection Hm as <- <-. exists k. rewrite Hc in Hin |- *. exact Hin.
  - injection Hm as <- <-. left. set_solver.
Qed.

(** What a move does to the thread and to the group. *)
Lemma move_count p y p' y' :
  move p y = Some (p', y') →
  y_bg y' + length (y_tasks y) + (if counts p then 1 else 0) = y_bg y + length (y_tasks y') + (if counts p' then 1 else 0).
Proof.
  destruct p as [|k|? ?|k|srv|srv|[?|] srv|? srv|srv| |[?|]| |]; simpl; try done; try (intros [= <- <-]; simpl; lia).
  destruct (_ =? _)%nat; [|done]. intros [= <- <-]. destruct k; simpl; lia.
Qed.
Lemma move_holds p y p' y' c : move p y = Some (p', y') → holds_ctx c p' → holds_ctx c p ∨ y_bgCtx y = Some c.
Proof.
  destruct p as [|k|? ?|k|srv|srv|[?|] srv|? srv|srv| |[?|]| |]; simpl; try (by intros [= <- <-]; simpl; auto).
  - destruct (_ =? _)%nat; [|done]. intros [= <- <-]. by destruct k.
  - intros [= <- <-]. simpl. destruct (y_bgCtx y); [|done]. intros ->. by right.
Qed.
Lemma move_tasks p y p' y' c : move p y = Some (p', y') → c ∈ y_tasks y' → c ∈ y_tasks y ∨ holds_ctx c p.
Proof.
  destruct p as [|k|? ?|k|srv|srv|[?|] srv|? srv|srv| |[?|]| |]; simpl; try (by intros [= <- <-]; simpl; auto).
  - destruct (_ =? _)%nat; [|done]. intros [= <- <-]. auto.
  - intros [= <- <-]. simpl. intros [->|]%elem_of_cons; auto.
Qed.
Lemma move_activating p y p' y' : move p y = Some (p', y') → activating p' = true → activating p = true.
Proof.
  destruct p as [|[]|? []|[]|srv|srv|[?|] srv|? srv|srv| |[?|]| |]; simpl; try (by intros [= <- <-]); by destruct (_ =? _)%nat; [intros [= <- <-]|].
Qed.
Lemma move_cleared p y p' y' :
  move p y = Some (p', y') →
  (cleared p' = true → y_bgCtx y' = None ∨ cleared p = true ∧ y_bgCtx y' = y_bgCtx y) ∧
  (y_bgCtx y' = None ∨ y_bgCtx y' = y_bgCtx y ∨ ∃ srv, p = Open srv).
Proof.
  destruct p as [|[]|? []|[]|srv|srv|[?|] srv|? srv|srv| |[?|]| |]; simpl; try done; try destruct (_ =? _)%nat; try done;
    intros [= <- <-]; simpl; (split; [by auto|]); auto. by right; right; exists srv.
Qed.

Lemma single_other ps i j p q :
  count activating ps ≤ 1 → ps !! i = Some p → ps !! j = Some q → activating p = true → activating q = true → i = j.
Proof.
  intros Hs Hi Hj Hp Hq. destruct (decide (i = j)) as [|Hne]; [done|]. exfalso.
  pose proof (count_insert activating ps i p Finished Hi) as Hc. rewrite Hp in Hc. simpl in Hc.
  assert (count activating (<[i:=Finished]> ps) = 0) as Hz by lia. rewrite count_zero in Hz. specialize (Hz q).
  rewrite Hq in Hz. by ediscriminate Hz; apply list_elem_of_lookup; exists j; rewrite list_lookup_insert_ne.
Qed.

Lemma lifecycle_move s i p p' y' :
  lifecycle_ok s → sy_threads s !! i = Some p → move p (sy_process s) = Some (p', y') →
  lifecycle_ok (mkSystem y' (<[i := p']> (sy_threads s))).
Proof.
  intros Hok Hi Hm. assert (p ∈ sy_threads s) as Hp by (by eapply list_elem_of_lookup_2).
  assert (∀ c, covered c s → covered c (mkSystem y' (<[i := p']> (sy_threads s)))) as Hcov by (intros c; by eapply covered_move).
  split; simpl.
  - pose proof (move_count _ _ _ _ Hm). pose proof (count_insert counts _ i p p' Hi). pose proof (lc_count _ Hok). lia.
  - intros c Hc. apply Hcov. apply (move_tasks _ _ _ _ _ Hm) in Hc as [Hc|Hc]; [by apply (lc_tasks _ Hok) | by eapply (lc_threads _ Hok)].
  - intros c q Hq Hc. apply Hcov. apply elem_of_insert in Hq as [->|Hq]; [|by eapply (lc_threads _ Hok)].
    destruct (move_holds _ _ _ _ _ Hm Hc) as [Hc'|Hc']; [by eapply (lc_threads _ Hok) | right; by left].
  - pose proof (count_insert activating _ i p p' Hi) as Hc. pose proof (lc_single _ Hok). pose proof (move_activating _ _ _ _ Hm) as Ha.
    destruct (activating p'); [rewrite (Ha eq_refl) in Hc; lia | destruct (activating p); lia].
  - intros q Hq Hcl. destruct (move_cleared _ _ _ _ Hm) as [H1 H2]. apply list_elem_of_lookup in Hq as [j Hj].
    destruct (decide (i = j)) as [<-|Hne].
    + rewrite list_lookup_insert_eq in Hj by (by eapply lookup_lt_Some). injection Hj as <-.
      destruct (H1 Hcl) as [|[Hpc ->]]; [done|]. by apply (lc_cleared _ Hok p).
    + rewrite list_lookup_insert_ne in Hj by done. destruct H2 as [|[->|[srv ->]]]; [done | |].
      * apply (lc_cleared _ Hok q); [by eapply list_elem_of_lookup_2 | done].
      * by destruct Hne; apply (single_other _ _ _ _ _ (lc_single _ Hok) Hi Hj); [|apply cleared_activating].
Qed.
Lemma lifecycle_step a s s' : lifecycle_ok s → sys_step a s = Some s' → lifecycle_ok s'.
Proof.
  intros Hok. destruct a as [i|j|p]; simpl.
  - destruct (sy_threads s !! i) as [p|] eqn:Hi; [|done]. simpl. destruct (move p _) as [[p' y']|] eqn:Hm; [|done]. intros [= <-].
    by eapply lifecycle_move.
  - destruct (y_tasks _ !! j) as [c|] eqn:Hj; [|done]. intros [= <-]. destruct Hok as [Hc Ht Hth Hs Hcl]. split; simpl; try done.
    + assert (is_Some (y_tasks (sy_process s) !! j)) as Hsome by eauto. pose proof (length_delete _ _ Hsome) as Hl. pose proof (lookup_lt_Some _ _ _ Hj). rewrite Hl. lia.
    + intros c' Hin. apply Ht. eapply elem_of_submseteq; [exact Hin|]. apply sublist_submseteq, sublist_delete.
  - destruct (_ || _) eqn:Hb; [|done]. intros [= <-]. destruct Hok as [Hc Ht Hth Hs Hcl]. unfold covered, to_cancel in *.
    assert (p = Listen ∧ existsb activating (sy_threads s) = false ∨ p = CloseTake) as Hp.
    { apply orb_true_iff in Hb as [[? ?]%andb_true_iff|?]; bool_cases; auto. }
    split; simpl; try done.
    + rewrite count_app, count_cons, count_nil, Hc. destruct Hp as [[-> _]| ->]; simpl; lia.
    + intros c Hin. destruct (Ht c Hin) as [|[|[k Hk]]]; [by left | by right; left | right; right; exists k; apply elem_of_app; by left].
    + intros c q [Hq|Hq]%elem_of_app Hh.
      * destruct (Hth c q Hq Hh) as [|[|[k Hk]]]; [by left | by right; left | right; right; exists k; apply elem_of_app; by left].
      * apply list_elem_of_singleton in Hq as ->. by destruct Hp as [[-> _]| ->].
    + rewrite count_app, count_cons, count_nil. destruct Hp as [[-> Hn]| ->]; simpl; [|lia].
      enough (count activating (sy_threads s) = 0) as -> by lia. apply count_zero. intros q Hq.
      destruct (activating q) eqn:Ha; [|done]. exfalso. assert (existsb activating (sy_threads s) = true) as Ht'; [|congruence].
      apply existsb_exists. exists q. split; [by apply list_elem_of_In|done].
    + intros q [Hq|Hq]%elem_of_app Hcl'; [by eapply Hcl|]. apply list_elem_of_singleton in Hq as ->. by destruct Hp as [[-> _]| ->].
Qed.
Lemma lifecycle_boot : lifecycle_ok Lifecycle.boot.
Proof. split; simpl; try lia; set_solver. Qed.
Lemma lifecycle_run acts s s' : lifecycle_ok s → sys_run acts s = Some s' → lifecycle_ok s'.
Proof.
  revert s. induction acts as [|a acts IH]; simpl; intros s Hok; [by intros [= <-]|].
  destruct (sys_step a s) as [s1|] eqn:Hs; [|done]. simpl. apply IH. by eapply lifecycle_step.
Qed.

(** *** Closing *)

(** The steps [Close] has left, without those of the tasks it waits for. *)
Definition rank (p : pc) : nat :=
  match p with
  | CloseTake => 6 | CloseStop _ => 5 | StopTake _ => 4 | StopCancel _ _ => 3 | StopWait _ => 2 | CloseStore => 1 | _ => 0
  end.
Definition without (o : option nat) (servers : gset nat) : gset nat := match o with Some s => servers ∖ {[s]} | None => servers end.
(** Where a [Close] that began in [y0] is: what it has done and what is still as it was. *)
Definition closing_at (y0 : process) (p : pc) (y : process) : Prop :=
  match p with
  | CloseTake => y_agentSrv y = y_agentSrv y0 ∧ y_servers y = y_servers y0 ∧ y_store y = y_store y0
  | CloseStop srv => srv = y_agentSrv y0 ∧ y_agentSrv y = None ∧ y_servers y = y_servers y0 ∧ y_store y = y_store y0
  | StopTake ThenClose => y_agentSrv y = None ∧ y_servers y = without (y_agentSrv y0) (y_servers y0) ∧ y_store y = y_store y0
  | StopCancel _ ThenClose | StopWait ThenClose =>
      y_bgCtx y = None ∧ y_agentSrv y = None ∧ y_servers y = without (y_agentSrv y0) (y_servers y0) ∧ y_store y = y_store y0
  | CloseStore =>
      y_tasks y = [] ∧ y_bgCtx y = None ∧ y_agentSrv y = None ∧ y_servers y = without (y_agentSrv y0) (y_servers y0) ∧ y_store y = y_store y0
  | Finished =>
      y_tasks y = [] ∧ y_bgCtx y = None ∧ y_agentSrv y = None ∧ y_servers y = without (y_agentSrv y0) (y_servers y0) ∧ y_store y = false
  | _ => False
  end.
(** A [Close] alone: the other threads are over. *)
Definition closing (y0 : process) (ps : list pc) (s : system) (p : pc) : Prop :=
  lifecycle_ok s ∧ sy_threads s = ps ++ [p] ∧ Forall (eq Finished) ps ∧ closing_at y0 p (sy_process s).

Lemma count_finished f ps : f Finished = false → Forall (eq Finished) ps → count f ps = 0.
Proof. intros Hf Hps. apply count_zero. intros q Hq. rewrite Forall_forall in Hps. by rewrite <- (Hps q Hq). Qed.
Lemma closing_count y0 ps s p : closing y0 ps s p → y_bg (sy_process s) = length (y_tasks (sy_process s)).
Proof.
  intros (Hok & Hth & Hps & Hat). rewrite (lc_count _ Hok), Hth, count_app, count_cons, count_nil, count_finished by done.
  destruct p; simpl in *; try done; lia.
Qed.
(** The move of [Close], and a task that returns meanwhile. *)
Lemma closing_move y0 p y p' y' :
  closing_at y0 p y → y_bg y = length (y_tasks y) → move p y = Some (p', y') →
  closing_at y0 p' y' ∧ y_tasks y' = y_tasks y ∧ rank p = S (rank p').
Proof.
  intros Hat Hbg. destruct p as [|[]|? []|[]|srv|srv|? srv|? srv|srv| |srv| |]; simpl in *; try done;
    try (intros [= <- <-]; simpl; naive_solver).
  - destruct (y_bg y =? 0)%nat eqn:H0; [|done]. apply Nat.eqb_eq in H0. intros [= <- <-]. simpl. intuition. apply length_zero_iff_nil. lia.
  - intros [= <- <-]. destruct Hat as (-> & Ha & Hs & Hst). simpl. by destruct (y_agentSrv y0); simpl; rewrite ?Hs.
Qed.
Lemma closing_step y0 ps s p a s1 :
  closing y0 ps s p → (∀ q, a ≠ Call q) → sys_step a s = Some s1 →
  ∃ p1, closing y0 ps s1 p1 ∧ rank p + length (y_tasks (sy_process s)) = S (rank p1 + length (y_tasks (sy_process s1))).
Proof.
  intros Hcl Hno Hs. pose proof (closing_count _ _ _ _ Hcl) as Hbg. destruct Hcl as (Hok & Hth & Hps & Hat).
  pose proof (lifecycle_step _ _ _ Hok Hs) as Hok1. destruct a as [i|j|q]; simpl in Hs; [| |by edestruct Hno].
  - destruct (sy_threads s !! i) as [q|] eqn:Hi; [|done]. simpl in Hs. destruct (move q _) as [[q' y']|] eqn:Hm; [|done]. injection Hs as <-.
    rewrite Hth in Hi. apply lookup_app_Some in Hi as [Hi|[Hlen Hi]].
    { apply (Forall_lookup_1 _ _ _ _ Hps) in Hi as <-. discriminate. }
    apply list_lookup_singleton_Some in Hi as [Hi <-]. destruct (closing_move _ _ _ _ _ Hat Hbg Hm) as (Hat1 & Ht & Hr).
    exists q'. simpl. rewrite Ht. split; [|lia]. split; [done|]. simpl. split; [|done].
    rewrite Hth, insert_app_r_alt by done. by replace (i - length ps) with 0.
  - destruct (y_tasks _ !! j) as [c|] eqn:Hj; [|done]. injection Hs as <-. exists p. simpl in *.
    assert (is_Some (y_tasks (sy_process s) !! j)) as Hsome by eauto. pose proof (length_delete _ _ Hsome). pose proof (lookup_lt_Some _ _ _ Hj).
    split; [|lia]. split; [done|]. split; [done|]. split; [done|].
    destruct p as [|[]|? []|[]| | | | | | | | |]; simpl in *; try done; destruct Hat as [Hnil _]; by rewrite Hnil in Hj.
Qed.
Lemma closing_run y0 ps acts s p s1 :
  closing y0 ps s p → Forall (λ a, ∀ q, a ≠ Call q) acts → sys_run acts s = Some s1 →
  ∃ p1, closing y0 ps s1 p1 ∧ rank p + length (y_tasks (sy_process s)) = length acts + (rank p1 + length (y_tasks (sy_process s1))).
Proof.
  revert s p. induction acts as [|a acts IH]; simpl; intros s p Hcl Hno; [intros [= <-]; by exists p|].
  inversion Hno as [|? ? Ha Hno']; subst. destruct (sys_step a s) as [s2|] eqn:Hs; [|done]. simpl. intros Hrun.
  destruct (closing_step _ _ _ _ _ _ Hcl Ha Hs) as (p2 & Hcl2 & Hr). destruct (IH _ _ Hcl2 Hno' Hrun) as (p1 & Hcl1 & Hr1).
  exists p1. split; [done|lia].
Qed.
(** It never gets stuck: it moves, or waits for a task that has been told to end. *)
Lemma closing_progress y0 ps s p :
  closing y0 ps s p → p ≠ Finished →
  is_Some (sys_step (Move (length ps)) s) ∨ y_tasks (sy_process s) ≠ [] ∧ Forall (.∈ y_cancelled (sy_process s)) (y_tasks (sy_process s)).
Proof.
  intros Hcl Hp. pose proof (closing_count _ _ _ _ Hcl) as Hbg. destruct Hcl as (Hok & Hth & Hps & Hat).
  assert (sy_threads s !! length ps = Some p) as Hi by (by rewrite Hth, list_lookup_middle).
  destruct (move p (sy_process s)) as [[p' y']|] eqn:Hm; [left; simpl; rewrite Hi; simpl; rewrite Hm; eauto|]. right.
  destruct p as [|[]|? []|[]| | |[?|] ?| | | | | |]; simpl in Hm, Hat; try done.
  destruct (y_bg _ =? 0)%nat eqn:H0; [done|]. apply Nat.eqb_neq in H0. split; [intros Hnil; rewrite Hnil in Hbg; simpl in Hbg; lia|].
  apply Forall_forall. intros c Hc. destruct (lc_tasks _ Hok c Hc) as [|[Hb|[k Hk]]]; [done|by rewrite (proj1 Hat) in Hb|].
  rewrite Hth in Hk. apply elem_of_app in Hk as [Hk|Hk%list_elem_of_singleton]; [|done].
  rewrite Forall_forall in Hps. by specialize (Hps _ Hk).
Qed.

(** C11. Closing the server, whatever ran before and however its steps interleave with tasks that return:
    it never gets stuck except waiting for tasks whose context is cancelled, it ends after at most six
    steps of its own and one return of each task, the store stays open as long as a task
    runs, and in the end no task is left, the published agent server is stopped, nothing is published and the store is closed. *)
Theorem Close_stops_everything acts s acts' s' :
  sys_run acts Lifecycle.boot = Some s → Forall (eq Finished) (sy_threads s) →
  Forall (λ a, ∀ q, a ≠ Call q) acts' → sys_run (Call CloseTake :: acts') s = Some s' →
  let y := sy_process s in let y' := sy_process s' in
  let over := Forall (eq Finished) (sy_threads s') in
  length acts' ≤ 6 + length (y_tasks y) ∧
  (length acts' = 6 + length (y_tasks y) → over) ∧
  (y_tasks y' ≠ [] → y_store y' = y_store y) ∧
  (¬ over → is_Some (sys_step (Move (length (sy_threads s))) s') ∨ y_tasks y' ≠ [] ∧ Forall (.∈ y_cancelled y') (y_tasks y')) ∧
  (over → y_tasks y' = [] ∧ y_bg y' = 0 ∧ y_bgCtx y' = None ∧ y_agentSrv y' = None ∧
          y_servers y' = without (y_agentSrv y) (y_servers y) ∧ y_store y' = false).
Proof.
  intros Hrun Hfin Hno Hcl. simpl in Hcl. pose proof (lifecycle_run _ _ _ lifecycle_boot Hrun) as Hok.
  assert (closing (sy_process s) (sy_threads s) (mkSystem (sy_process s) (sy_threads s ++ [CloseTake])) CloseTake) as H0.
  { split; [|by split_and!]. by apply (lifecycle_step (Call CloseTake) s). }
  destruct (closing_run _ _ _ _ _ _ H0 Hno Hcl) as (p & Hp & Hr). simpl in Hr. pose proof (closing_count _ _ _ _ Hp) as Hbg.
  pose proof (closing_progress _ _ _ _ Hp) as Hprog. destruct Hp as (Hok' & Hth & Hps & Hat).
  assert (Forall (eq Finished) (sy_threads s') ↔ p = Finished) as Hover.
  { rewrite Hth, Forall_app, Forall_singleton. naive_solver. }
  cbv zeta. rewrite Hover. split_and!; [lia| | |exact Hprog|].
  - intros Hl. assert (rank p = 0) as Hz by lia. by destruct p as [|[]|? []|[]| | |[?|] ?| | | | | |].
  - intros Ht. by destruct p as [|[]|? []|[]| | |[?|] ?| | | | | |]; simpl in Hat; try done; naive_solver.
  - intros ->. simpl in Hat. destruct Hat as (Ht & ? & ? & ? & ?). by rewrite Hbg, Ht.
Qed.
Definition moves (i n : nat) : list act := repeat (Move i) n.
Definition activated : list act := Call Listen :: moves 0 9.
Definition closed : list act := moves 1 4 ++ [Return 0] ++ moves 1 2.
Lemma activated_state : sys_run activated Lifecycle.boot = Some (mkSystem (mkProcess (Some 1) 2 ∅ 1 [1] (Some 0) {[0]} true) [Finished]).
Proof. by vm_compute. Qed.
Lemma closed_state :
  sys_run (Call CloseTake :: closed) (mkSystem (mkProcess (Some 1) 2 ∅ 1 [1] (Some 0) {[0]} true) [Finished]) =
  Some (mkSystem (mkProcess None 2 {[1]} 0 [] None ∅ false) [Finished; Finished]).
Proof. by vm_compute. Qed.
Lemma Close_stops_everything_witness :
  ∃ s s', sys_run activated Lifecycle.boot = Some s ∧ sys_run (Call CloseTake :: closed) s = Some s' ∧ length (y_tasks (sy_process s)) = 1 ∧
    y_tasks (sy_process s') = [] ∧ y_servers (sy_process s') = without (y_agentSrv (sy_process s)) (y_servers (sy_process s)).
Proof.
  eexists _, _. split; [exact activated_state|]. split; [exact closed_state|]. split; [done|].
  destruct (Close_stops_everything activated _ closed _ activated_state ltac:(by repeat constructor) ltac:(by repeat constructor) closed_state)
    as (_ & _ & _ & _ & Hover).
  destruct (Hover ltac:(by repeat constructor)) as (Ht & _ & _ & _ & Hs & _). by split.
Defined.

(** [background] reads the context under its lock and joins the wait group after it: a [Close] in
    between waits for nobody, closes the store, and the task starts on a closed store, with the agent server left serving. *)
Example Close_misses_a_task :
  ∃ s, sys_run (Call Listen :: moves 0 6 ++ Call CloseTake :: moves 1 6 ++ moves 0 3) Lifecycle.boot = Some s ∧
    sy_threads s = [Finished; Finished] ∧ y_store (sy_process s) = false ∧ y_tasks (sy_process s) = [1] ∧ y_servers (sy_process s) = {[0]}.
Proof. eexists. by vm_compute. Qed.
(** An activation that comes after [Close], from a setup still in flight, starts a group and a server that nobody stops. *)
Example activation_after_Close :
  ∃ s, sys_run (Call CloseTake :: moves 0 6 ++ Call Listen :: moves 1 9) Lifecycle.boot = Some s ∧
    sy_threads s = [Finished; Finished] ∧ y_store (sy_process s) = false ∧ y_tasks (sy_process s) = [1] ∧
    1 ∉ y_cancelled (sy_process s) ∧ y_agentSrv (sy_process s) = Some 0.
Proof. eexists. split; [by vm_compute|]. simpl. split_and!; try done; set_solver. Qed.
