(* ===== verification/Streams.v ===== *)
(** * The streams the agent service serves

    Models [Connect] of [internal/server/agentapi/agent.go] for any number of streams at a
    time: each one is registered in the hub, forwards what is queued for it, handles what its agent
    sends, and ends by one of the ways of the select loop; the rest of the server reaches a
    stream only through the hub. Shown: who is connected, what replaces what, and in which order
    messages go out. *)

From stdpp Require Import gmap strings list.
From S2P Require Import Prelude GoStr Db Hub StoreCore World Commands Enroll StoreRollouts Http AgentApi Rollout RolloutLife.

(** How a stream ends: the agent closed it, receiving or sending failed, or a context was
    done: the one of the connection, with its cause, or that of the call. *)
Inductive stream_end := EndNil | EndErr (e : err) | EndAborted (msg : string) | EndCause (msg : string) | EndContext (e : err).
Definition replaced_msg : string := "replaced by a newer connection from the same device".
Definition end_of (k : cause) : stream_end := match k with ErrReplaced => EndAborted replaced_msg | Cause m => EndCause m end.

(** A stream: its device, what it has sent, and its end. The streams are known by the pointer of their [Conn]. *)
Record stream := mkStream { sm_dev : device; sm_sent : list SignedCommand; sm_over : option stream_end }.
Record service := mkStreams { ss_world : world; ss_streams : gmap N stream }.

(** What the select loop, or the goroutine that receives, finds ready. *)
Inductive ready :=
  | Incoming (m : AgentMessage)
  | RecvFailed (e : option err)
  | ConnDone | CallDone (e : err)
  | Outgoing (sent : option err).

Section streams.
Context `{UuidText, UuidSource, Crypto, Hasher} (keys : uuid → result Keys) (commands_on : bool).

(** The deferred [Unregister]. *)
Definition over (p : N) (st : stream) (e : stream_end) (s : service) : service :=
  mkStreams (Connect_end (sm_dev st) p (ss_world s)).1 (<[p := mkStream (sm_dev st) (sm_sent st) (Some e)]> (ss_streams s)).
Definition accept (dev : device) (s : service) : service :=
  match Connect_start keys commands_on dev (ss_world s) with
  | (w, Ok p) => mkStreams w (<[p := mkStream dev [] None]> (ss_streams s))
  | (w, Err _) => mkStreams w (ss_streams s)
  end.
(** A step of a stream; none when what it waits for is not there. *)
Definition serve (p : N) (ev : ready) (s : service) : option service :=
  st ← ss_streams s !! p;
  match sm_over st with
  | Some _ => None
  | None =>
      match ev with
      | Incoming m => Some (mkStreams (handle commands_on (sm_dev st) m (ss_world s)).1 (ss_streams s))
      | RecvFailed e => Some (over p st (match e with None => EndNil | Some e => EndErr e end) s)
      | ConnDone =>
          c ← heap (w_hub (ss_world s)) !! p;
          k ← c_cancelled c;
          Some (over p st (end_of k) s)
      | CallDone e => Some (over p st (EndContext e) s)
      | Outgoing failed =>
          let '(m, h) := Receive p (w_hub (ss_world s)) in
          m ← m;
          let s' := mkStreams (set_hub h (ss_world s)) (ss_streams s) in
          match failed with
          | Some e => Some (over p st (EndErr e) s')
          | None => Some (mkStreams (ss_world s') (<[p := mkStream (sm_dev st) (sm_sent st ++ [m]) None]> (ss_streams s)))
          end
      end
  end.

(** What the other parts of the server do to the hub: they send and disconnect. *)
Inductive push : hub SignedCommand → hub SignedCommand → Prop :=
  | push_send id m h : push h (Send id m h).2
  | push_disconnect id k h : push h (Disconnect id k h).
Inductive step : service → service → Prop :=
  | step_accept dev s : step s (accept dev s)
  | step_serve p ev s s' : serve p ev s = Some s' → step s s'
  | step_elsewhere w s : rtc push (w_hub (ss_world s)) (w_hub w) → step s (mkStreams w (ss_streams s)).
Definition start (w : world) : service := mkStreams w ∅.

(** ** Handlers only push *)

Abbreviation pushes := (via w_hub (rtc push)).
#[export] Instance on_db_pushes {A} (m : M db A) : Steps pushes (on_db m).
Proof. intros w. unfold on_db, via. destruct (m (w_db w)). simpl. reflexivity. Qed.
#[export] Instance hub_send_pushes i m : Steps pushes (hub_send i m).
Proof.
  intros w. unfold hub_send, via. pose proof (push_send i m (w_hub w)) as Hp. destruct (Send i m (w_hub w)) as [b h]. by apply rtc_once.
Qed.
#[export] Instance deliver_pushes t c : Steps pushes (deliver keys t c).
Proof. unfold deliver. steps. Qed.
#[export] Instance DeliverPending_pushes t d : Steps pushes (DeliverPending keys t d).
Proof. unfold DeliverPending. steps. Qed.
#[export] Instance uuid_New_pushes : Steps pushes uuid_New.
Proof. intros w. unfold via. reflexivity. Qed.
#[export] Instance Issue_pushes t v typ p b a : Steps pushes (Issue keys t v typ p b a).
Proof. unfold Issue. steps. Qed.
#[export] Instance Complete_pushes t d r : Steps pushes (Complete t d r).
Proof. unfold Complete. steps. Qed.
#[export] Instance handle_pushes dev m : Steps pushes (handle commands_on dev m).
Proof. unfold handle. steps. Qed.
End streams.

(** ** What a stream promises

    Invariants of the streams of [Streams] under every interleaving: the hub knows exactly the
    streams that are served, a stream that was replaced has been told so, and what is queued for
    a stream goes out in order, once. *)

(** *** Connections *)

Definition off_conns (p : N) (h : hub SignedCommand) : Prop := ∀ id, conns h !! id ≠ Some p.
(** [c'] is what [c] may become without its stream: more is queued, but only while it is current, and a
    cause stays. *)
Definition conn_next (off : Prop) (c c' : Conn SignedCommand) : Prop :=
  c_send c `prefix_of` c_send c' ∧ (∀ k, c_cancelled c = Some k → c_cancelled c' = Some k) ∧ (off → c_send c' = c_send c).
Definition hub_le (h h' : hub SignedCommand) : Prop :=
  ∀ p c, heap h !! p = Some c →
    (∃ c', heap h' !! p = Some c' ∧ conn_next (off_conns p h) c c') ∧ (off_conns p h → off_conns p h').
Lemma conn_next_refl off c : conn_next off c c.
Proof. by split_and!. Qed.
#[export] Hint Resolve conn_next_refl : fl.
#[export] Instance hub_le_preorder : PreOrder hub_le.
Proof.
  split; [intros h p c Hc; split; [eauto with fl | done]|].
  intros h1 h2 h3 H12 H23 p c Hc. destruct (H12 p c Hc) as [(c2 & Hc2 & Hp & Hk & Ho) Hoff].
  destruct (H23 p c2 Hc2) as [(c3 & Hc3 & Hp' & Hk' & Ho') Hoff'].
  split; [|by auto]. exists c3. split; [done|]. split_and!; [by etrans | auto |]. intros Hno. rewrite Ho' by auto. auto.
Qed.
Lemma alter_le (h : hub SignedCommand) p f :
  (∀ c, heap h !! p = Some c → conn_next (off_conns p h) c (f c)) → hub_le h (mkHub (conns h) (alter f p (heap h)) (next_ptr h)).
Proof.
  intros Hf q c Hc. split; [|by intros Ho]. simpl. rewrite lookup_alter. case_decide; [subst; rewrite Hc; simpl; eauto | eauto with fl].
Qed.
Lemma cancel_next off k (c : Conn SignedCommand) : conn_next off c (cancel k c).
Proof. destruct c as [m [k'|]]; split_and!; try done; by intros ? [= ->]. Qed.
Lemma push_le h h' : push h h' → hub_ok h → hub_le h h' ∧ conns h' = conns h.
Proof.
  destruct 1 as [id m h|id k h]; intros Hok.
  - unfold Send. destruct (conns h !! id) as [p|] eqn:Hp; [|by split]. destruct (heap h !! p) as [c|] eqn:Hc; [|by split].
    destruct (_ <? _)%nat; [|by split]. split; [|done]. simpl.
    replace (<[p:=mkConn (c_send c ++ [m]) (c_cancelled c)]> (heap h)) with (alter (λ c, mkConn (c_send c ++ [m]) (c_cancelled c)) p (heap h)).
    + apply alter_le. intros c' Hc'. split_and!; [by eexists | done |]. intros Hoff. by destruct (Hoff id).
    + apply map_eq. intros q. rewrite lookup_alter, lookup_insert. case_decide; [subst; by rewrite Hc | done].
  - unfold Disconnect. destruct (conns h !! id) as [p|]; [|by split]. split; [|done]. apply alter_le. intros c _. apply cancel_next.
Qed.
Lemma push_step h h' : push h h' → Hub.step h h'.
Proof. destruct 1; constructor. Qed.
Lemma pushes_le h h' : rtc push h h' → hub_ok h → hub_le h h' ∧ conns h' = conns h ∧ hub_ok h'.
Proof.
  induction 1 as [h|h1 h2 h3 Hp _ IH]; intros Hok; [by split_and!|].
  destruct (push_le _ _ Hp Hok) as [Hle Hc]. destruct IH as (Hle' & Hc' & Hok'); [by eapply hub_step_ok, Hok; apply push_step|].
  split_and!; [by etrans | congruence | done].
Qed.
Lemma fresh_ptr (h : hub SignedCommand) : hub_ok h → heap h !! next_ptr h = None.
Proof. intros Hok. destruct (heap h !! next_ptr h) as [c|] eqn:Hc; [|done]. apply (ok_alloc _ Hok) in Hc. lia. Qed.
Lemma Register_le id h p h' :
  hub_ok h → Register id h = (p, h') →
  hub_le h h' ∧ hub_ok h' ∧ heap h !! p = None ∧ heap h' !! p = Some (mkConn [] None) ∧ conns h' = <[id := p]> (conns h) ∧
  (∀ q, conns h !! id = Some q → ∃ c k, heap h' !! q = Some c ∧ c_cancelled c = Some k).
Proof.
  intros Hok Hr. pose proof (Register_ok id h Hok) as Hok'. destruct (Register_replaces id h p h' Hok Hr) as (_ & Hp & Hold & _).
  rewrite Hr in Hok'. pose proof (fresh_ptr h Hok) as Hf. unfold Register in Hr. injection Hr as <- <-. split_and!; try done.
  - intros q c Hc. assert (q ≠ next_ptr h) as Hne by congruence. split.
    + exists (if bool_decide (conns h !! id = Some q) then cancel ErrReplaced c else c). simpl.
      assert (<[next_ptr h := mkConn [] None]> (heap h) !! q = Some c) as Hq by (by rewrite lookup_insert_ne).
      split; [|case_bool_decide; [apply cancel_next | auto with fl]].
      destruct (conns h !! id) as [q'|] eqn:Ho; [|by case_bool_decide]. rewrite lookup_alter. case_decide as Hd; case_bool_decide; simplify_eq; by rewrite ?Hq.
    + intros Hoff i. simpl. rewrite lookup_insert. case_decide; [congruence|apply Hoff].
  - intros q Hq. destruct (Hold q Hq) as [(c & c' & _ & Hc' & _ & Hk) _]. eauto.
Qed.

(** *** The invariant *)

Section facts.
Context `{UuidText, UuidSource, Crypto, Hasher} (keys : uuid → result Keys) (commands_on : bool).
Abbreviation sstep := (Streams.step keys commands_on).
Definition shub (s : Streams.service) : hub SignedCommand := w_hub (ss_world s).
Definition told (p : N) (s : Streams.service) : Prop := ∃ c k, heap (shub s) !! p = Some c ∧ c_cancelled c = Some k.
Record streams_ok (s : Streams.service) : Prop := {
  so_hub : hub_ok (shub s);
  so_conns : ∀ id p, conns (shub s) !! id = Some p → ∃ st, ss_streams s !! p = Some st ∧ dev_ID (sm_dev st) = id ∧ sm_over st = None;
  so_alloc : ∀ p st, ss_streams s !! p = Some st → is_Some (heap (shub s) !! p);
  so_stale : ∀ p st, ss_streams s !! p = Some st → sm_over st = None → conns (shub s) !! dev_ID (sm_dev st) = Some p ∨ told p s;
}.
(** A change of the world that keeps the connections and only moves them forward. *)
Lemma streams_ok_world s w :
  streams_ok s → hub_ok (w_hub w) → hub_le (shub s) (w_hub w) → conns (w_hub w) = conns (shub s) → streams_ok (mkStreams w (ss_streams s)).
Proof.
  intros [Hh Hc Ha Hs] Hok Hle Heq. split; unfold shub, told in *; simpl; try rewrite Heq; try done.
  - intros p st Hst. destruct (Ha p st Hst) as [c Hp]. destruct (Hle p c Hp) as [(c' & Hc' & _) _]. eauto.
  - intros p st Hst Ho. destruct (Hs p st Hst Ho) as [|(c & k & Hp & Hk)]; [by left|]. right.
    destruct (Hle p c Hp) as [(c' & Hc' & _ & Hmono & _) _]. eauto.
Qed.
Lemma streams_ok_pushes s w : streams_ok s → rtc push (shub s) (w_hub w) → streams_ok (mkStreams w (ss_streams s)).
Proof.
  intros Hok Hp. destruct (pushes_le _ _ Hp (so_hub _ Hok)) as (Hle & Hc & Hh). by apply streams_ok_world.
Qed.
Lemma start_ok w : w_hub w = New → streams_ok (start w).
Proof. intros Hw. split; unfold shub; simpl; rewrite ?Hw; done || apply New_ok. Qed.

Lemma accept_run dev s :
  ∃ p h w, Register (dev_ID dev) (shub s) = (p, h) ∧ rtc push h (w_hub w) ∧
    accept keys commands_on dev s = mkStreams w (<[p := mkStream dev [] None]> (ss_streams s)).
Proof.
  unfold accept, Connect_start, mbind, M_bind, shub. destruct (Register _ _) as [p h] eqn:Hr. exists p, h.
  destruct commands_on; simpl; [|exists (set_hub h (ss_world s)); by split_and!].
  pose proof (DeliverPending_pushes keys (dev_TenantID dev) (dev_ID dev) (set_hub h (ss_world s))) as Hd. unfold via, attempt in *.
  destruct (DeliverPending keys _ _ _) as [w r]. eexists. by split_and!.
Qed.
Lemma accept_ok dev s : streams_ok s → streams_ok (accept keys commands_on dev s).
Proof.
  intros Hok. destruct (accept_run dev s) as (p & h & w & Hr & Hp & ->).
  destruct (Register_le _ _ _ _ (so_hub _ Hok) Hr) as (Hle & Hh & Hf & Hnew & Hc & Hold).
  assert (∀ q st, ss_streams s !! q = Some st → q ≠ p) as Hne.
  { intros q st Hq ->. destruct (so_alloc _ Hok _ _ Hq) as [c Hc']. congruence. }
  refine (streams_ok_pushes (mkStreams (set_hub h (ss_world s)) (<[p := mkStream dev [] None]> (ss_streams s))) w _ Hp).
  split; unfold shub, told in *; simpl in *; try done.
  - intros id q. rewrite Hc, !lookup_insert. case_decide as Hid.
    + intros [= <-]. rewrite decide_True by done. eauto.
    + intros Hq. destruct (so_conns _ Hok id q Hq) as (st & Hst & Hd & Ho). rewrite decide_False by (symmetry; by eapply Hne). eauto.
  - intros q st. rewrite lookup_insert. case_decide; [intros _; subst; eauto|]. intros Hq.
    destruct (so_alloc _ Hok q st Hq) as [c Hq']. destruct (Hle q c Hq') as [(c' & Hc' & _) _]. eauto.
  - intros q st. rewrite lookup_insert, Hc. case_decide; [intros [= <-] _; subst; left; apply lookup_insert_eq|]. intros Hq Ho.
    destruct (so_stale _ Hok q st Hq Ho) as [Hcur|(c & k & Hq' & Hk)].
    + destruct (decide (dev_ID dev = dev_ID (sm_dev st))) as [Heq|Hd]; [right; apply Hold; by rewrite Heq | left; by rewrite lookup_insert_ne].
    + right. destruct (Hle q c Hq') as [(c' & Hc' & _ & Hmono & _) _]. eauto.
Qed.

(** *** A step of a stream *)

Lemma Receive_run p (h h1 : hub SignedCommand) m :
  Receive p h = (Some m, h1) →
  ∃ ms k, heap h !! p = Some (mkConn (m :: ms) k) ∧ h1 = mkHub (conns h) (<[p := mkConn ms k]> (heap h)) (next_ptr h).
Proof. unfold Receive. destruct (heap h !! p) as [[[|m' ms] k]|]; [done| |done]. intros [= -> <-]. eauto. Qed.
(** The hub a stream leaves: a message less, or none. *)
Definition popped (p : N) (h h1 : hub SignedCommand) : Prop := h1 = h ∨ ∃ m, Receive p h = (Some m, h1).
Inductive served (p : N) (st : stream) (s : Streams.service) : Streams.service → Prop :=
  | served_handle w : rtc push (shub s) (w_hub w) → served p st s (mkStreams w (ss_streams s))
  | served_over h1 w e :
      popped p (shub s) h1 → w_hub w = Unregister (dev_ID (sm_dev st)) p h1 →
      served p st s (mkStreams w (<[p := mkStream (sm_dev st) (sm_sent st) (Some e)]> (ss_streams s)))
  | served_sent w m :
      Receive p (shub s) = (Some m, w_hub w) →
      served p st s (mkStreams w (<[p := mkStream (sm_dev st) (sm_sent st ++ [m]) None]> (ss_streams s))).
Lemma serve_inv p ev s s' :
  serve commands_on p ev s = Some s' → ∃ st, ss_streams s !! p = Some st ∧ sm_over st = None ∧ served p st s s'.
Proof.
  unfold serve. destruct (ss_streams s !! p) as [st|] eqn:Hst; [|done]. simpl. destruct (sm_over st) eqn:Ho; [done|]. intros Hs.
  exists st. split; [done|]. split; [done|]. destruct ev as [m|e| |e|failed].
  - injection Hs as <-. apply served_handle, handle_pushes.
  - injection Hs as <-. unfold over. by eapply served_over; [left|].
  - destruct (heap _ !! p) as [c|]; [|done]. simpl in Hs. destruct (c_cancelled c) as [k|]; [|done]. injection Hs as <-. by eapply served_over; [left|].
  - injection Hs as <-. by eapply served_over; [left|].
  - destruct (Receive p (w_hub (ss_world s))) as [[m|] h] eqn:Hr; [|done]. simpl in Hs. destruct failed as [e|]; injection Hs as <-.
    + unfold over. simpl. apply (served_over p st s h); [right; by exists m | done].
    + by apply served_sent.
Qed.

(** Stores and connections carry over, causes too. *)
Definition hub_next (h h1 : hub SignedCommand) : Prop :=
  hub_ok h1 ∧ ∀ q c, heap h !! q = Some c → ∃ c1, heap h1 !! q = Some c1 ∧ ∀ k, c_cancelled c = Some k → c_cancelled c1 = Some k.
Lemma popped_next p h h1 : hub_ok h → popped p h h1 → hub_next h h1 ∧ conns h1 = conns h.
Proof.
  intros Hok [->|[m Hr]]; [split; [split; [done|eauto]|done]|]. pose proof (hub_step_ok _ _ (step_receive p h) Hok) as Hok1. rewrite Hr in Hok1.
  apply Receive_run in Hr as (ms & k & Hp & ->). split; [|done]. split; [done|]. intros q c Hq. simpl. rewrite lookup_insert.
  case_decide; [simplify_eq; eexists; by split | eauto].
Qed.
Lemma Unregister_next id p (h : hub SignedCommand) :
  hub_ok h → hub_next h (Unregister id p h) ∧
  ∀ i q, conns (Unregister id p h) !! i = Some q ↔ conns h !! i = Some q ∧ ¬ (i = id ∧ q = p).
Proof.
  intros Hok. split; [split; [by eapply (hub_step_ok _ _ (step_unregister id p h))|]; intros q c Hq; exists c|]; unfold Unregister.
  - by case_bool_decide.
  - intros i q. case_bool_decide as Hid; simpl.
    + rewrite lookup_delete_Some. split; [intros [Hne Hq]; split; [done|by intros [-> _]] | intros [Hq Hno]; split; [|done]].
      intros <-. destruct Hno. split; [done|]. congruence.
    + split; [|by intros []]. intros Hq. split; [done|]. by intros [-> ->].
Qed.

(** The table of streams after the step of one of them. *)
Lemma streams_ok_after s p st st' w :
  streams_ok s → ss_streams s !! p = Some st → sm_dev st' = sm_dev st → sm_over st = None → hub_next (shub s) (w_hub w) →
  (∀ i q, conns (w_hub w) !! i = Some q ↔ conns (shub s) !! i = Some q ∧ (is_Some (sm_over st') → ¬ (i = dev_ID (sm_dev st) ∧ q = p))) →
  streams_ok (mkStreams w (<[p := st']> (ss_streams s))).
Proof.
  intros Hok Hst Hdev Hserv [Hh Hheap] Hconns. split; unfold shub, told in *; simpl; [done| | |].
  - intros id q [Hq Hno]%Hconns. destruct (so_conns _ Hok id q Hq) as (st0 & Hst0 & Hd & Ho). rewrite lookup_insert.
    case_decide as Hqp; [|eauto]. subst q. simplify_eq. exists st'. split_and!; [done | congruence |].
    destruct (sm_over st') eqn:Hov; [|done]. exfalso. apply Hno; eauto.
  - intros q st0. rewrite lookup_insert. intros Hq. assert (is_Some (ss_streams s !! q)) as [st1 Hst1] by (case_decide; subst; eauto).
    destruct (so_alloc _ Hok q st1 Hst1) as [c Hc]. destruct (Hheap q c Hc) as (c1 & Hc1 & _). eauto.
  - intros q st0 Hq Ho. assert (∃ st1, ss_streams s !! q = Some st1 ∧ sm_over st1 = None ∧ sm_dev st1 = sm_dev st0) as (st1 & Hst1 & Ho1 & Hd1).
    { rewrite lookup_insert in Hq. case_decide; simplify_eq; eauto. }
    destruct (so_stale _ Hok q st1 Hst1 Ho1) as [Hcur|(c & k & Hc & Hk)].
    + left. rewrite <- Hd1. apply Hconns. split; [done|]. intros [e He] [_ ->]. rewrite lookup_insert_eq in Hq. simplify_eq.
    + right. destruct (Hheap q c Hc) as (c1 & Hc1 & Hk1). eauto.
Qed.
Lemma serve_ok p ev s s' : streams_ok s → serve commands_on p ev s = Some s' → streams_ok s'.
Proof.
  intros Hok (st & Hst & Ho & Hs)%serve_inv. destruct Hs as [w Hp|h1 w e Hpop Hun|w m Hr].
  - by apply streams_ok_pushes.
  - destruct (popped_next _ _ _ (so_hub _ Hok) Hpop) as [[Hh1 Hn1] Hc1]. destruct (Unregister_next (dev_ID (sm_dev st)) p h1 Hh1) as [[Hh2 Hn2] Hc2].
    eapply streams_ok_after; try done; rewrite Hun.
    + split; [done|]. intros q c Hq. destruct (Hn1 q c Hq) as (c1 & Hq1 & Hk1). destruct (Hn2 q c1 Hq1) as (c2 & Hq2 & Hk2). eauto 6.
    + intros i q. rewrite Hc2, Hc1. simpl. split; intros [Hq Hno]; (split; [done|]); [done | apply Hno; eauto].
  - assert (popped p (shub s) (w_hub w)) as Hpop by (right; eauto). destruct (popped_next _ _ _ (so_hub _ Hok) Hpop) as [Hn Hc].
    eapply streams_ok_after; try done. intros i q. rewrite Hc. simpl. split; [intros Hq; split; [done|by intros []] | by intros []].
Qed.
Lemma streams_step_ok s s' : sstep s s' → streams_ok s → streams_ok s'.
Proof.
  destruct 1 as [dev s|p ev s s' Hs|w s Hp]; intros Hok; [by apply accept_ok | by eapply serve_ok | by apply streams_ok_pushes].
Qed.
Lemma streams_steps_ok s s' : rtc sstep s s' → streams_ok s → streams_ok s'.
Proof. induction 1; eauto using streams_step_ok. Qed.

(** *** Delivery *)

(** All that was queued for a stream: what it has sent and what waits. *)
Definition queue (st : stream) (c : Conn SignedCommand) : list SignedCommand := sm_sent st ++ c_send c.
Definition delivered (off off' : Prop) (st st' : stream) (c c' : Conn SignedCommand) : Prop :=
  sm_dev st' = sm_dev st ∧ sm_sent st `prefix_of` sm_sent st' ∧ (is_Some (sm_over st) → st' = st) ∧
  (sm_over st' = None → queue st c `prefix_of` queue st' c') ∧
  (off → off' ∧ sm_sent st' `prefix_of` queue st c ∧ (sm_over st' = None → queue st' c' = queue st c)).
Definition delivers (p : N) (s s' : Streams.service) : Prop :=
  ∀ st c, ss_streams s !! p = Some st → heap (shub s) !! p = Some c →
    ∃ st' c', ss_streams s' !! p = Some st' ∧ heap (shub s') !! p = Some c' ∧
      delivered (off_conns p (shub s)) (off_conns p (shub s')) st st' c c'.

#[export] Instance delivers_preorder p : PreOrder (delivers p).
Proof.
  split; [intros s st c Hst Hc; exists st, c; split_and!; try done; split_and!; try done; intros Ho; split_and!; try done; by apply prefix_app_r|].
  intros s1 s2 s3 H12 H23 st c Hst Hc. destruct (H12 st c Hst Hc) as (st2 & c2 & Hst2 & Hc2 & Hd & Hs & Hov & Hq & Hoff).
  destruct (H23 st2 c2 Hst2 Hc2) as (st3 & c3 & Hst3 & Hc3 & Hd' & Hs' & Hov' & Hq' & Hoff'). exists st3, c3. split_and!; try done. split_and!.
  - congruence.
  - by etrans.
  - intros Ho. specialize (Hov Ho). subst st2. auto.
  - intros Ho. assert (sm_over st2 = None) as Ho2; [|by etrans; [apply Hq | apply Hq']].
    destruct (sm_over st2) eqn:E; [|done]. rewrite (Hov' ltac:(by eexists)) in Ho. congruence.
  - intros Hc1. destruct (Hoff Hc1) as (Ho2 & Hpre & Heq). destruct (Hoff' Ho2) as (Ho3 & Hpre' & Heq'). split; [done|].
    destruct (sm_over st2) eqn:E.
    + rewrite (Hov' ltac:(by eexists)). split; [done|]. congruence.
    + rewrite <- (Heq eq_refl). by split.
Qed.
Lemma delivers_world p s w st :
  hub_le (shub s) (w_hub w) → st = ss_streams s → delivers p s (mkStreams w st).
Proof.
  intros Hle -> x c Hst Hc. destruct (Hle p c Hc) as [(c' & Hc' & Hpre & _ & Hsame) Hoff]. exists x, c'. split_and!; try done.
  split_and!; try done; [intros _; by apply prefix_app|]. intros Ho. unfold queue. rewrite (Hsame Ho).
  split_and!; [by apply Hoff | by apply prefix_app_r | done].
Qed.
Lemma delivers_other p q s s' x :
  q ≠ p → ss_streams s' = <[q := x]> (ss_streams s) → hub_le (shub s) (shub s') → delivers p s s'.
Proof.
  intros Hne Hs Hle. destruct s' as [w ss]. simpl in Hs. subst ss. intros st c Hst Hc.
  destruct (delivers_world p s w (ss_streams s) Hle eq_refl st c Hst Hc) as (st' & c' & Hst' & Hr). exists st', c'. simpl in *.
  by rewrite lookup_insert_ne.
Qed.
Lemma popped_conns p (h h1 : hub SignedCommand) : popped p h h1 → conns h1 = conns h ∧ ∀ q, q ≠ p → heap h1 !! q = heap h !! q.
Proof.
  intros [->|[m Hr]]; [done|]. apply Receive_run in Hr as (ms & k & _ & ->). split; [done|]. intros q Hq. simpl. by rewrite lookup_insert_ne.
Qed.
Lemma Unregister_conns id p (h : hub SignedCommand) :
  heap (Unregister id p h) = heap h ∧ ∀ i x, conns (Unregister id p h) !! i = Some x → conns h !! i = Some x.
Proof. unfold Unregister. case_bool_decide; [|done]. split; [done|]. simpl. by intros i x [_ Hx]%lookup_delete_Some. Qed.

Lemma serve_delivers p q ev s s' : streams_ok s → serve commands_on q ev s = Some s' → delivers p s s'.
Proof.
  intros Hok (st & Hst & Ho & Hs)%serve_inv. destruct Hs as [w Hp|h1 w e Hpop Hun|w m Hr].
  - apply delivers_world; [|done]. by apply (pushes_le _ _ Hp (so_hub _ Hok)).
  - destruct (popped_conns _ _ _ Hpop) as [Hc1 Hh1]. destruct (Unregister_conns (dev_ID (sm_dev st)) q h1) as [Hh2 Hc2].
    intros x c Hx Hc. assert (∀ i, conns (w_hub w) !! i = Some p → conns (shub s) !! i = Some p) as Hoff.
    { intros i Hi. rewrite Hun in Hi. apply Hc2 in Hi. congruence. }
    unfold delivered, shub in *. simpl. rewrite lookup_insert. case_decide as Hqp.
    + subst q. simplify_eq. eexists _.
      assert (∃ c', heap (w_hub w) !! p = Some c') as [c' Hc'].
      { rewrite Hun, Hh2. destruct Hpop as [->|[m Hr]]; [eauto|]. apply Receive_run in Hr as (ms & k & _ & ->). simpl. rewrite lookup_insert_eq. eauto. }
      exists c'. split_and!; try done; simpl; try done; [rewrite Ho; by intros []|].
      intros H3. split_and!; [intros i Hi; by apply (H3 i), Hoff | by apply prefix_app_r | done].
    + exists x, c. rewrite Hun, Hh2, Hh1 by done. split_and!; try done. intros H3. split_and!; [|by apply prefix_app_r|done].
      intros i Hi. rewrite <- Hun in Hi. by apply (H3 i), Hoff.
  - intros x c Hx Hc. apply Receive_run in Hr as (ms & k & Hq & Hw). unfold delivered, shub in *. simpl. rewrite Hw. simpl. rewrite !lookup_insert.
    case_decide as Hqp; [subst q; simplify_eq|].
    + exists (mkStream (sm_dev st) (sm_sent st ++ [m]) None), (mkConn ms k). unfold queue. simpl. rewrite Ho, <- app_assoc. simpl.
      split_and!; [done | done | done | by apply prefix_app_r | by intros [] | done |]. intros Hoff.
      split_and!; [exact Hoff | apply prefix_app, prefix_cons, prefix_nil | done].
    + exists x, c. split_and!; try done. intros H3. split_and!; [done | by apply prefix_app_r | done].
Qed.
Lemma accept_delivers p dev s : streams_ok s → delivers p s (accept keys commands_on dev s).
Proof.
  intros Hok. destruct (accept_run dev s) as (q & h & w & Hr & Hp & ->).
  destruct (Register_le _ _ _ _ (so_hub _ Hok) Hr) as (Hle & Hh & Hf & _). intros st c Hst Hc.
  assert (q ≠ p) as Hne by congruence. eapply (delivers_other p q s); try done. unfold shub in *. simpl.
  etrans; [exact Hle|]. by apply (pushes_le _ _ Hp Hh).
Qed.
Lemma step_delivers p s s' : sstep s s' → streams_ok s → delivers p s s'.
Proof.
  destruct 1 as [dev s|q ev s s' Hs|w s Hp]; intros Hok; [by apply accept_delivers | by eapply serve_delivers |].
  apply delivers_world; [|done]. by apply (pushes_le _ _ Hp (so_hub _ Hok)).
Qed.
Lemma steps_deliver p s s' : rtc sstep s s' → streams_ok s → delivers p s s'.
Proof.
  induction 1 as [s|s1 s2 s3 Hs _ IH]; intros Hok; [reflexivity|]. etrans; [by apply step_delivers | apply IH; by eapply streams_step_ok].
Qed.

Lemma reached_ok w s : w_hub w = New → rtc sstep (start w) s → streams_ok s.
Proof. intros Hw Hs. eapply streams_steps_ok, start_ok; done. Qed.
Definition serving (p : N) (id : uuid) (s : Streams.service) : Prop :=
  ∃ st, ss_streams s !! p = Some st ∧ dev_ID (sm_dev st) = id ∧ sm_over st = None.
Lemma told_done p id s : told p s → serving p id s → is_Some (serve commands_on p ConnDone s).
Proof.
  intros (c & k & Hc & Hk) (st & Hst & _ & Ho). unfold serve. rewrite Hst. simpl. rewrite Ho. unfold shub in Hc. rewrite Hc. simpl. rewrite Hk. by eexists.
Qed.

(** C10. Over any interleaving of streams that start, run and end with handlers that send and disconnect,
    from a server that starts: a device counts as connected only while one of its streams is served; a stream
    that is served is the current one of its device or can end at once, for its context is cancelled; of two streams of
    one device at least one can; and no buffer ever holds more than 64 messages. *)
Theorem streams_invariant w s :
  w_hub w = New → rtc sstep (start w) s →
  (∀ id, Connected id (shub s) = true → ∃ p, conns (shub s) !! id = Some p ∧ serving p id s) ∧
  (∀ id p, serving p id s → conns (shub s) !! id = Some p ∨ is_Some (serve commands_on p ConnDone s)) ∧
  (∀ id p q, serving p id s → serving q id s → p ≠ q →
     is_Some (serve commands_on p ConnDone s) ∨ is_Some (serve commands_on q ConnDone s)) ∧
  (∀ p c, heap (shub s) !! p = Some c → length (c_send c) ≤ 64).
Proof.
  intros Hw Hs. pose proof (reached_ok w s Hw Hs) as Hok.
  assert (∀ id p, serving p id s → conns (shub s) !! id = Some p ∨ is_Some (serve commands_on p ConnDone s)) as Hstale.
  { intros id p Hp. pose proof Hp as (st & Hst & <- & Ho). destruct (so_stale _ Hok p st Hst Ho) as [|Ht]; [by left|]. right. by eapply told_done. }
  split_and!; [|exact Hstale| |].
  - intros id Hc. unfold Connected in Hc. apply bool_decide_eq_true in Hc as [p Hp]. exists p. split; [done|]. apply (so_conns _ Hok id p Hp).
  - intros id p q Hp Hq Hne. destruct (Hstale id p Hp) as [Hc|]; [|by left]. destruct (Hstale id q Hq) as [Hc'|]; [congruence|by right].
  - intros p c. apply (ok_buffer _ (so_hub _ Hok)).
Qed.

End facts.

(** *** A device that reconnects with a command open *)

Section reconnect.
Import Toy Fleet.
Definition phone : device := mkDeviceRef 9 1.
Definition waiting : world := mkWorld (w_db ticked) New (w_now ticked) (w_drawn ticked).
Definition toy_accept (s : Streams.service) : Streams.service := accept lab_keys true phone s.
Definition twice : Streams.service := toy_accept (toy_accept (start waiting)).
Definition flushed : Streams.service := default twice (serve true 0 (Outgoing None) twice).
Definition replaced : Streams.service := default twice (serve true 0 ConnDone flushed).
Lemma twice_reached : rtc (Streams.step lab_keys true) (start waiting) twice.
Proof. eapply rtc_l; [apply step_accept|]. apply rtc_once, step_accept. Qed.
Lemma twice_flushed : serve true 0 (Outgoing None) twice = Some flushed.
Proof. unfold flushed. destruct (serve true 0 (Outgoing None) twice) eqn:E; [done|]. by vm_compute in E. Qed.
Lemma flushed_replaced : serve true 0 ConnDone flushed = Some replaced.
Proof. unfold replaced. destruct (serve true 0 ConnDone flushed) eqn:E; [done|]. by vm_compute in E. Qed.
Lemma twice_streams :
  ∃ st c, ss_streams twice !! 0%N = Some st ∧ heap (shub twice) !! 0%N = Some c ∧ length (c_send c) = 1 ∧ length (sm_sent st) = 0 ∧
    conns (shub twice) !! dev_ID (sm_dev st) ≠ Some 0%N.
Proof.
  destruct (ss_streams twice !! 0%N) as [st|] eqn:Hst; [|by vm_compute in Hst]. destruct (heap (shub twice) !! 0%N) as [c|] eqn:Hc; [|by vm_compute in Hc].
  exists st, c. vm_compute in Hst, Hc. injection Hst as <-. injection Hc as <-. split_and!; [done|done|done|done|]. by vm_compute.
Qed.
Lemma twice_current : conns (shub twice) !! 9%N = Some 1%N.
Proof. by vm_compute. Qed.
(** The first stream, replaced while its command waits, still delivers it and then ends with Aborted. *)
Lemma replaced_end : sm_over <$> ss_streams replaced !! 0%N = Some (Some (EndAborted replaced_msg)).
Proof. by vm_compute. Qed.
Lemma streams_invariant_witness :
  Connected 9 (shub twice) = true ∧ ∃ p, conns (shub twice) !! 9%N = Some p ∧ serving p 9 twice.
Proof.
  assert (Connected 9 (shub twice) = true) as Hc by (unfold Connected; by rewrite twice_current).
  split; [exact Hc|]. destruct (streams_invariant lab_keys true waiting twice eq_refl twice_reached) as (Hconn & _). exact (Hconn 9%N Hc).
Defined.
End reconnect.
