(* ===== verification/Housekeeping.v ===== *)
(** * What the loop of the server guarantees as time passes

    The minute of housekeeping of [internal/server/app/app.go] and the loop around it
    ([Lifecycle.Run_loop]), with the reconciliation of rollouts between its steps. *)

From stdpp Require Import gmap strings list.
From S2P Require Import Prelude GoStr Db Hub World StoreCore StoreAdmins StoreNotify StorePolicies StoreMetrics StoreRollouts Commands Enroll Syslog Notify Http Policies Rollout RolloutLife Authn Bootstrap App AppFacts Outbox Lifecycle.

(** What the other steps clean up. *)
Definition house (d : db) := (login_failures d, device_metrics d, block_events d, alerts d, approval_requests d).
(** Time stands still, commands only move forward and nothing else to clean up changes. *)
Definition tidy (w w' : world) : Prop :=
  w_now w' = w_now w ∧ house (w_db w') = house (w_db w) ∧ commands_le (commands (w_db w)) (commands (w_db w')).
#[export] Instance tidy_preorder : PreOrder tidy.
Proof.
  split; [by intros w|]. intros w1 w2 w3 (Hn1 & Hh1 & Hc1) (Hn2 & Hh2 & Hc2).
  split_and!; [congruence | congruence | by etrans].
Qed.
Definition tidy_db (d d' : db) : Prop := house d' = house d ∧ commands_le (commands d) (commands d').
#[export] Instance on_db_tidy {A} (m : M db A) : Steps tidy_db m → Steps tidy (on_db m).
Proof. intros Hm w. unfold on_db. specialize (Hm (w_db w)). destruct (m (w_db w)) as [d r]. by split. Qed.
#[export] Instance tidy_db_preorder : PreOrder tidy_db.
Proof. split; [by intros d|]. intros d1 d2 d3 [Hh1 Hc1] [Hh2 Hc2]. split; [congruence | by etrans]. Qed.
(** A statement that leaves commands and house alone. *)
Lemma same_tidy_db {A} (m : M db A) : Steps (keeps (λ d, (house d, commands d))) m → Steps tidy_db m.
Proof. intros Hm d. specialize (Hm d). unfold via in Hm. injection Hm as H1 H2 H3 H4 H5 Hc. split; [unfold house; congruence | by rewrite Hc]. Qed.

Ltac store_step f := apply same_tidy_db; intros d; unfold f; by repeat case_match.
#[export] Instance AppendAudit_tidy t a b c x det ip r : Steps tidy_db (AppendAudit t a b c x det ip r).
Proof. store_step @AppendAudit. Qed.
#[export] Instance SetRolloutState_tidy t id from to now : Steps tidy_db (SetRolloutState t id from to now).
Proof.
  apply same_tidy_db. intros d. unfold SetRolloutState.
  assert (keeps (λ d, (house d, commands d)) d ((GetRollout t id ≫= λ _, @fail db unit ErrConflict) d).1) as Hget by apply steps_of.
  repeat case_match; try done; exact Hget.
Qed.
#[export] Instance ResolveRolloutDevices_tidy t id now c : Steps tidy_db (ResolveRolloutDevices t id now c).
Proof. store_step @ResolveRolloutDevices. Qed.
#[export] Instance AddRolloutDevice_tidy id c k t : Steps tidy_db (AddRolloutDevice id c k t).
Proof. store_step @AddRolloutDevice. Qed.
#[export] Instance CreateCommand_tidy t i v typ p by_ ia ea : Steps tidy_db (CreateCommand t i v typ p by_ ia ea).
Proof. intros d. split; [unfold CreateCommand; by repeat case_match | apply CreateCommand_le]. Qed.
#[export] Instance MarkCommandSent_tidy t i : Steps tidy_db (MarkCommandSent t i).
Proof. intros d. split; [unfold MarkCommandSent, oneRow; by repeat case_match | apply MarkCommandSent_le]. Qed.
#[export] Instance hub_send_tidy i m : Steps tidy (hub_send i m).
Proof. intros w. split_and!; [| |apply hub_send_le]; unfold hub_send; by destruct (Send i m (w_hub w)). Qed.

Section housekeeping.
Context `{UuidText, Crypto, UuidSource} (s : Service).
Hypothesis Notify_ok : ∀ em, Notify s = Some em → @EmitterOk em.

#[export] Instance uuid_New_tidy : Steps tidy uuid_New.
Proof. by intros w. Qed.
#[export] Instance deliver_tidy keys t c : Steps tidy (Commands.deliver keys t c).
Proof. unfold Commands.deliver. steps. Qed.
#[export] Instance IssueUpdate_tidy keys ser t v p a : Steps tidy (IssueUpdate keys ser t v p a).
Proof. unfold IssueUpdate, Issue. steps. Qed.
#[export] Instance emit_tidy e : Steps tidy (emit s e).
Proof.
  intros w. unfold emit. destruct (Notify s) as [em|] eqn:E; [|done].
  destruct (@Emit_frame em (Notify_ok em eq_refl) e w) as [d' ->]. by split_and!.
Qed.
#[export] Instance issue_batch_tidy t id p now cands slots i r : Steps tidy (issue_batch s t id p now cands slots i r).
Proof. revert slots i r. induction cands; intros; simpl; unfold wrap; steps. Qed.
#[export] Instance Reconcile_tidy t id r : Steps tidy (Reconcile s t id r).
Proof. unfold Reconcile, auto_pause, issue_next, complete_if_done, wrap. steps. Qed.
#[export] Instance Tick_tidy : Steps tidy (Tick s).
Proof. unfold Tick. steps. Qed.

(** ** One minute *)

Lemma logged_run {S A} (m : M S A) x : logged m x = ((m x).1, Ok tt).
Proof. unfold logged, attempt, mbind, M_bind. by destruct (m x). Qed.

(** Failures recorded before the window, and rows past their retention, are gone; [cfg] may turn retention off. *)
Definition kept_failures (t : time) (d : db) : list LoginFailure := List.filter (λ f, negb (lf_at f <? t - failWindow)%Z) (login_failures d).
Definition retained (cfg : Config) (t : time) (d : db) : db :=
  if (0 <? MetricsRetentionDays cfg)%Z then (Retention (t - days (MetricsRetentionDays cfg))%Z d).1 else d.
Definition approvals_after (cfg : Config) (t : time) (d : db) : gmap uuid ApprovalRequest :=
  if (0 <? ApprovalExpiryDays cfg)%Z then (approval_requests (ExpireApprovalRequests (t - days (ApprovalExpiryDays cfg))%Z d).1) else approval_requests d.
(** The commands [C] as they were become those of [C'], where none is open past its deadline at [t]. *)
Definition expired_by (t : time) (C C' : gmap uuid Command) : Prop :=
  ∀ id c, C !! id = Some c → ∃ c', C' !! id = Some c' ∧ command_next c c' ∧ (command_open c' = true → t < cm_expires_at c')%Z.

Record after_minute (cfg : Config) (h h' : host) : Prop := {
  am_clock : w_now (h_world h') = w_now (h_world h);
  am_runtime : h_rt h' = h_rt h;
  am_le : commands_le (commands (w_db (h_world h))) (commands (w_db (h_world h')));
  am_commands : is_Some (h_rt h) → expired_by (w_now (h_world h)) (commands (w_db (h_world h))) (commands (w_db (h_world h')));
  am_failures : login_failures (w_db (h_world h')) = kept_failures (w_now (h_world h)) (w_db (h_world h));
  am_metrics : device_metrics (w_db (h_world h')) = device_metrics (retained cfg (w_now (h_world h)) (w_db (h_world h)));
  am_events : block_events (w_db (h_world h')) = block_events (retained cfg (w_now (h_world h)) (w_db (h_world h)));
  am_alerts : alerts (w_db (h_world h')) = alerts (retained cfg (w_now (h_world h)) (w_db (h_world h)));
  am_approvals : approval_requests (w_db (h_world h')) = approvals_after cfg (w_now (h_world h)) (w_db (h_world h));
}.

Lemma expire_open now c : command_open (expire_command now c) = true → expire_command now c = c ∧ (now < cm_expires_at c)%Z.
Proof. unfold expire_command. destruct (command_open c && _) eqn:Hg; [done|]. intros Ho. rewrite Ho in Hg. apply Z.leb_gt in Hg. by split. Qed.
Lemma ExpireStale_expires w w' :
  tidy (ExpireStale w).1 w' → expired_by (w_now w) (commands (w_db w)) (commands (w_db w')).
Proof.
  intros (_ & _ & Hle) id c Hc. simpl in Hle.
  destruct (Hle id (expire_command (w_now w) c)) as (c' & Hc' & Hn).
  { rewrite lookup_fmap, Hc. done. }
  exists c'. split; [done|].
  destruct (command_step_next _ _ id c (step_expire (w_now w) (w_db w)) Hc) as (c1 & Hc1 & Hn1).
  simpl in Hc1. rewrite lookup_fmap, Hc in Hc1. injection Hc1 as <-.
  split; [by eapply command_next_trans|]. intros Ho.
  assert (command_open (expire_command (w_now w) c) = true) as Ho1.
  { destruct (command_open (expire_command (w_now w) c)) eqn:Hcl; [done|].
    destruct Hn as (_ & _ & _ & _ & _ & _ & _ & Heq). rewrite (Heq Hcl) in Ho. congruence. }
  destruct (expire_open _ _ Ho1) as [Heq Hlt]. rewrite Heq in Hn. by destruct Hn as (_ & _ & _ & _ & _ & -> & _).
Qed.

(** What a minute does to the world before it prunes. *)
Definition reconciled (h : host) : world := if h_rt h then (Tick s (ExpireStale (h_world h)).1).1 else h_world h.
Lemma reconciled_tidy h :
  w_now (reconciled h) = w_now (h_world h) ∧ house (w_db (reconciled h)) = house (w_db (h_world h)) ∧
  commands_le (commands (w_db (h_world h))) (commands (w_db (reconciled h))) ∧
  (is_Some (h_rt h) → expired_by (w_now (h_world h)) (commands (w_db (h_world h))) (commands (w_db (reconciled h)))).
Proof.
  unfold reconciled. destruct (h_rt h) as [t|].
  - pose proof (Tick_tidy (ExpireStale (h_world h)).1) as (Hn & Hh & Hc). split_and!; [done|done| |].
    + etrans; [|exact Hc]. intros k c. apply command_step_next. constructor.
    + intros _. by apply ExpireStale_expires.
  - split_and!; [done|done|reflexivity|by intros []].
Qed.
Definition pruned (cfg : Config) (t : time) (d : db) : db :=
  let d1 := retained cfg t (PruneLoginFailures (t - failWindow)%Z d).1 in
  if (0 <? ApprovalExpiryDays cfg)%Z then (ExpireApprovalRequests (t - days (ApprovalExpiryDays cfg))%Z d1).1 else d1.
Lemma logged_then {A B} (m : M world A) (k : unit → M host B) h :
  (u ← in_world (logged m); k u) h = k tt (set_world (m (h_world h)).1 h).
Proof. unfold mbind, M_bind, in_world. by rewrite logged_run. Qed.
Lemma bind_now {B} (k : time → M host B) h : (t ← in_world now; k t) h = k (w_now (h_world h)) h.
Proof. by destruct h. Qed.
Lemma bind_ret {B} (k : unit → M host B) h : (u ← mret tt; k u) h = k tt h.
Proof. done. Qed.
Lemma bind_get_host {B} (k : host → M host B) h : (x ← get; k x) h = k h h.
Proof. done. Qed.
Lemma bind_reconciled {B} (k : unit → M host B) h :
  (u ← (match h_rt h with Some _ => in_world (_ ← logged ExpireStale; logged (Tick s)) | None => mret tt end); k u) h =
  k tt (set_world (reconciled h) h).
Proof.
  unfold reconciled. destruct h as [w [t|] fs]; simpl; [|done]. unfold mbind, M_bind, in_world. simpl. by rewrite !logged_run.
Qed.
Lemma minute_run cfg h :
  minute cfg s h = (mkHost (set_db (pruned cfg (w_now (reconciled h)) (w_db (reconciled h))) (reconciled h)) (h_rt h) (h_files h), Ok tt).
Proof.
  unfold minute. rewrite (bind_get_host _ h), (bind_reconciled _ h).
  unfold pruned, retained. set (w := reconciled h). clearbody w. destruct h as [w0 rt fs].
  rewrite bind_now. rewrite logged_then. simpl.
  destruct (0 <? MetricsRetentionDays cfg)%Z; rewrite ?logged_then, ?bind_ret; simpl;
    (destruct (0 <? ApprovalExpiryDays cfg)%Z; [unfold in_world; by rewrite logged_run | by destruct w]).
Qed.

Lemma minute_after cfg h : after_minute cfg h (minute cfg s h).1 ∧ (minute cfg s h).2 = Ok tt.
Proof.
  rewrite minute_run. split; [|done]. destruct (reconciled_tidy h) as (Hn & Hh & Hle & Hex). injection Hh as Hlf Hm He Ha Hap.
  unfold pruned, retained. rewrite Hn.
  split; simpl; unfold kept_failures, retained, approvals_after; try done;
    destruct (0 <? MetricsRetentionDays cfg)%Z, (0 <? ApprovalExpiryDays cfg)%Z; simpl; congruence || done.
Qed.

(** ** The loop *)

Definition tick_at (d : duration) : duration * run_event := (d, MinuteTick).
Definition total : list duration → duration := foldr Z.add 0%Z.
Lemma Run_loop_tick cfg d evs h :
  Run_loop cfg s (tick_at d :: evs) h =
  Run_loop cfg s evs (minute cfg s (set_world (elapse d (h_world h)).1 h)).1.
Proof.
  simpl. unfold mbind at 1, M_bind at 1, in_world at 1. simpl. unfold mbind at 1, M_bind at 1.
  destruct (minute_after cfg (set_world (elapse d (h_world h)).1 h)) as [_ Hr].
  destruct (minute cfg s _) as [h' r]. simpl in *. by subst.
Qed.
(** Over any number of minutes no failure ends the loop. *)
Lemma Run_loop_ticks cfg ds evs h :
  ∃ h', Run_loop cfg s (map tick_at ds ++ evs) h = Run_loop cfg s evs h' ∧
    w_now (h_world h') = (w_now (h_world h) + total ds)%Z ∧ h_rt h' = h_rt h ∧
    commands_le (commands (w_db (h_world h))) (commands (w_db (h_world h'))) ∧ (ds = [] → h' = h).
Proof.
  revert h. induction ds as [|d ds IH]; intros h; [exists h; simpl; split_and!; [done|lia|done|reflexivity|done]|].
  cbn [map app]. rewrite Run_loop_tick. set (h1 := set_world (elapse d (h_world h)).1 h).
  destruct (minute_after cfg h1) as [Ha _]. destruct (IH (minute cfg s h1).1) as (h' & -> & Hn & Hrt & Hle & _).
  exists h'. rewrite Hn, Hrt, (am_clock _ _ _ Ha), (am_runtime _ _ _ Ha). simpl. split_and!; [done|lia|done| |done].
  etrans; [exact (am_le _ _ _ Ha)|exact Hle].
Qed.

(** C12. The loop of the process, over any minutes of any length and until the context ends: nothing that
    fails in a minute ends it, it returns what shutting the console down gave, and every command whose deadline a minute
    has reached while the server is initialized is closed, along its life cycle; when that minute was the last, no login failure
    outside the window is left, nor metrics past a retention that is set. *)
Theorem Run_loop_keeps_house cfg ds d ds' d' r h :
  let t := (w_now (h_world h) + total ds + d)%Z in
  ∃ h', Run_loop cfg s (map tick_at (ds ++ d :: ds') ++ [(d', Stopped r)]) h = (h', Ok (Some r)) ∧
    h_rt h' = h_rt h ∧
    (is_Some (h_rt h) → ∀ id c, commands (w_db (h_world h)) !! id = Some c → (cm_expires_at c ≤ t)%Z →
       ∃ c', commands (w_db (h_world h')) !! id = Some c' ∧ command_next c c' ∧ command_open c' = false) ∧
    (ds' = [] → ∀ f, In f (login_failures (w_db (h_world h'))) → (t - failWindow ≤ lf_at f)%Z) ∧
    (ds' = [] → (0 < MetricsRetentionDays cfg)%Z → ∀ m, In m (device_metrics (w_db (h_world h'))) →
       (t - days (MetricsRetentionDays cfg) ≤ dm_at m)%Z).
Proof.
  intros t. rewrite map_app, <- app_assoc. destruct (Run_loop_ticks cfg ds (map tick_at (d :: ds') ++ [(d', Stopped r)]) h) as (h1 & -> & Hn1 & Hrt1 & Hle1 & _).
  cbn [map app]. rewrite Run_loop_tick. set (h2 := set_world (elapse d (h_world h1)).1 h1).
  assert (w_now (h_world h2) = t) as Ht by (simpl; lia). destruct (minute_after cfg h2) as [Ha _]. set (h3 := (minute cfg s h2).1) in *.
  destruct (Run_loop_ticks cfg ds' [(d', Stopped r)] h3) as (h4 & Hrun & _ & Hrt4 & Hle4 & Hnil).
  exists (set_world (elapse d' (h_world h4)).1 h4). split; [rewrite Hrun; done|]. split; [by rewrite <- Hrt1; etrans; [exact Hrt4|apply (am_runtime _ _ _ Ha)]|].
  split_and!.
  - intros Hrt id c Hc Hexp. destruct (Hle1 id c Hc) as (c1 & Hc1 & Hn1'). rewrite <- Hrt1 in Hrt.
    destruct (am_commands _ _ _ Ha Hrt id c1 Hc1) as (c3 & Hc3 & Hn3 & Hopen). destruct (Hle4 id c3 Hc3) as (c4 & Hc4 & Hn4).
    exists c4. split; [exact Hc4|]. assert (command_next c c3) as Hn by (by eapply command_next_trans).
    assert (command_open c3 = false) as Hclosed.
    { destruct (command_open c3) eqn:Ho; [|done]. exfalso. specialize (Hopen eq_refl). rewrite Ht in Hopen.
      destruct Hn as (_ & _ & _ & _ & _ & Heq & _). lia. }
    split; [by eapply command_next_trans|]. destruct Hn4 as (_ & _ & _ & _ & _ & _ & _ & Heq). by rewrite (Heq Hclosed).
  - intros Hds f Hf. rewrite (Hnil Hds) in Hf. simpl in Hf. rewrite (am_failures _ _ _ Ha), Ht in Hf. apply List.filter_In in Hf as [_ Hf]. bool_cases. lia.
  - intros Hds Hpos m Hm. rewrite (Hnil Hds) in Hm. simpl in Hm. rewrite (am_metrics _ _ _ Ha), Ht in Hm. unfold retained in Hm.
    destruct (Z.ltb_spec 0 (MetricsRetentionDays cfg)); [|lia]. apply List.filter_In in Hm as [_ Hm]. bool_cases. lia.
Qed.
End housekeeping.

(** ** A fleet an hour later *)

Section witness.
Import Toy Fleet.
Definition fleet_host : host := mkHost ticked (Some 1%N) ∅.
Definition week : duration := (7 * 24 * Hour)%Z.
Lemma fleet_command : ∃ id c, commands (w_db (h_world fleet_host)) !! id = Some c ∧ command_open c = true ∧
  (cm_expires_at c ≤ w_now (h_world fleet_host) + total [Minute] + (2 * week))%Z.
Proof.
  exists 101%N. destruct (commands (w_db (h_world fleet_host)) !! 101%N) as [c|] eqn:Hc; [|vm_compute in Hc; discriminate Hc].
  exists c. split; [done|]. vm_compute in Hc. injection Hc as <-. by vm_compute.
Qed.
Lemma Run_loop_keeps_house_witness :
  ∃ id c h' c', command_open c = true ∧ commands (w_db (h_world fleet_host)) !! id = Some c ∧
    Run_loop (mkConfig 30 14) service (map tick_at ([Minute] ++ [(2 * week)%Z]) ++ [(Minute, Stopped (Ok tt))]) fleet_host = (h', Ok (Some (Ok tt))) ∧
    commands (w_db (h_world h')) !! id = Some c' ∧ command_open c' = false.
Proof.
  destruct fleet_command as (id & c & Hc & Ho & Hexp).
  destruct (Run_loop_keeps_house service service_notify_ok (mkConfig 30 14) [Minute] (2 * week)%Z [] Minute (Ok tt) fleet_host)
    as (h' & Hrun & _ & Hcmd & _).
  destruct (Hcmd ltac:(by eexists) id c Hc Hexp) as (c' & Hc' & _ & Hcl).
  exists id, c, h', c'. by split_and!.
Defined.
End witness.

(** ** The dispatcher's loop *)

Section dispatcher.
Import Toy Outbox.Post.
(** Eleven deliveries to a webhook that answers 503. A full batch that only has retries counts as none, so draining stops, and the
    eleventh, which is due, waits for the next wake-up. *)
Definition eleven : world := Nat.iter 11 (λ w, (@Service_Emit post_codec alarm w).1) hook_world.
Definition due_of (w : world) : nat := length (due_ids (w_now w) 100 (w_db w)).
Example a_batch_of_retries_stops_the_draining :
  due_of eleven = 11 ∧ due_of (notify_Run no_smtp 20 [(0%Z, Woken)] eleven).1 = 1 ∧ due_of (notify_Run no_smtp 20 [(0%Z, Woken); (0%Z, Woken)] eleven).1 = 0.
Proof. by vm_compute. Qed.
End dispatcher.
