(* ===== verification/Webui.v ===== *)
(** * What a browser is served

    Models the embedded console ([internal/server/webui/webui.go]) with the file server it hands
    known files to, and the mux of [NewWithStore] in [internal/server/app/app.go] that divides the
    requests between it and the API. Paths are byte lists; the embedded build is a map from names to contents.
    The mux and the file server are those of Go's standard library. *)

From Stdlib Require Import Ascii.
From stdpp Require Import gmap strings list.
From S2P Require Import Prelude GoStr Utf8.

Abbreviation slash := "/"%char.
Definition lit (s : string) : bytes := to_list s.
Fixpoint join_path (es : list bytes) : bytes :=
  match es with [] => [] | [e] => e | e :: es => e ++ slash :: join_path es end.
Definition elements (p : bytes) : list bytes := split_byte slash p.
Definition starts (p : bytes) : bool := match p with c :: _ => Ascii.eqb c slash | [] => false end.
Definition ends (p : bytes) : bool := match rev p with c :: _ => Ascii.eqb c slash | [] => false end.
(** [path.Clean] of a path that starts with a slash, and [path.Base] of one that does not end with one. *)
Definition clean_step (acc : list bytes) (e : bytes) : list bytes :=
  if bool_decide (e = []) || bool_decide (e = lit ".") then acc else if bool_decide (e = lit "..") then tail acc else e :: acc.
Definition Clean (p : bytes) : bytes := slash :: join_path (rev (foldl clean_step [] (elements p))).
Definition Base (p : bytes) : bytes := match rev (elements p) with e :: _ => e | [] => [] end.
(** A relative reference [t] as a browser resolves it at the page [p]; a leading dot element is dropped. *)
Definition dir_of (p : bytes) : bytes := match rev (elements p) with _ :: es => join_path (rev ([] :: es)) | [] => [] end.
Definition resolve (p t : bytes) : bytes := dir_of p ++ match t with "."%char :: "/"%char :: t' => t' | _ => t end.

(** ** The embedded build *)

(** [fs.ValidPath], and [fs.Stat] of an embedded tree. *)
Definition valid_elem (e : bytes) : bool := negb (bool_decide (e = []) || bool_decide (e = lit ".") || bool_decide (e = lit "..")).
Definition ValidPath (name : bytes) : bool :=
  ValidUTF8 (of_list name) && (bool_decide (name = lit ".") || forallb valid_elem (elements name)).
Definition below (dir name : bytes) : bool := bool_decide (is_Some (strip_prefix (dir ++ [slash]) name)).
Definition is_dir (t : gmap bytes string) (name : bytes) : bool :=
  bool_decide (name = lit ".") || existsb (λ kv, below name kv.1) (map_to_list t).
Definition Stat (t : gmap bytes string) (name : bytes) : bool :=
  ValidPath name && (is_dir t name || bool_decide (is_Some (t !! name))).

Inductive web_answer :=
  | Index (page : string) | File (name : bytes) (content : string) | Moved (target : bytes) | Listing (dir : bytes) | NotFound (msg : string).

(** [http.FileServer]: the index of a directory has the directory's own address, and an address ends with a
    slash just when it is one of a directory. *)
Definition file_server (t : gmap bytes string) (url : bytes) : web_answer :=
  let url := if starts url then url else slash :: url in
  let name := match Clean url with [_] => lit "." | _ :: n => n | [] => [] end in
  if has_suffix (of_list url) "/index.html" then Moved (lit "./")
  else if negb (Stat t name) then NotFound "404 page not found"
  else if is_dir t name then
    if negb (ends url) then Moved (Base url ++ [slash])
    else match t !! (if bool_decide (name = lit ".") then lit "index.html" else name ++ lit "/index.html") with
         | Some c => File name c
         | None => Listing name
         end
  else if ends url then Moved (lit "../" ++ Base (rev (tail (rev url))))
  else match t !! name with Some c => File name c | None => NotFound "404 page not found" end.

(** [dist], [Enabled] and [Handler]; [Path] is [r.URL.Path]. *)
Definition Enabled (t : gmap bytes string) : bool := Stat t (lit "index.html").
Definition serveIndex (t : gmap bytes string) : web_answer := Index (default "" (t !! lit "index.html")).
Definition Handler (t : gmap bytes string) (Path : bytes) : web_answer :=
  if negb (Enabled t) then NotFound "console UI not built; run `npm --prefix web run build`"
  else
    let clean := match Path with c :: p => if Ascii.eqb c slash then p else Path | [] => [] end in
    if bool_decide (clean = []) then serveIndex t
    else if negb (Stat t clean) then serveIndex t
    else file_server t Path.

(** ** The mux of [NewWithStore]

    [http.ServeMux] on paths without escapes: it redirects to the clean form of a path, and from a
    subtree's root without its slash to the one with it; then the longest pattern wins. *)
Definition cleanPath (p : bytes) : bytes :=
  let p := if starts p then p else slash :: p in
  let np := Clean p in
  if ends p && negb (bool_decide (np = [slash])) then np ++ [slash] else np.
Definition subtrees : list bytes := [lit "/api/"; lit "/agent/"].
Definition is_api (p : bytes) : bool :=
  existsb (λ t, bool_decide (is_Some (strip_prefix t p))) subtrees || bool_decide (p = lit "/healthz") || bool_decide (p = lit "/readyz").
Inductive target := Api | Web | MovedTo (p : bytes).
Definition mux (p : bytes) : target :=
  let c := cleanPath p in
  if bool_decide (c ++ [slash] ∈ subtrees) then MovedTo (c ++ [slash])
  else if negb (bool_decide (c = p)) then MovedTo c
  else if is_api c then Api else Web.
(** The handler of the server: without a build the API answers everything. *)
Definition NewWithStore_handler {A : Type} (t : gmap bytes string) (api : bytes → A) (Path : bytes) : (A + web_answer)%type :=
  match mux Path with
  | MovedTo p => inr (Moved p)
  | Api => inl (api Path)
  | Web => if Enabled t then inr (Handler t Path) else inl (api Path)
  end.

(** ** What the embedded console guarantees

    Whatever path a browser asks for, the console answers with a file of the build or its index after at most
    one redirect, never with a listing of a directory or an error; and the mux gives every path that does not
    change by cleaning to one side. *)

(** *** Paths and their elements *)

Lemma split_slash p : elements (slash :: p) = [] :: elements p.
Proof. done. Qed.
Lemma split_ne p : elements p ≠ [].
Proof. apply split_byte_ne. Qed.
Lemma split_cons c p : c ≠ slash → elements (c :: p) = (c :: hd [] (elements p)) :: tail (elements p).
Proof.
  intros Hc. unfold elements. cbn [split_byte]. rewrite (proj2 (Ascii.eqb_neq c slash) Hc). pose proof (split_byte_ne slash p).
  by destruct (split_byte slash p).
Qed.
Lemma join_split p : join_path (elements p) = p.
Proof.
  induction p as [|c p IH]; [done|]. destruct (decide (c = slash)) as [->|Hc].
  - rewrite split_slash. pose proof (split_ne p). destruct (elements p) as [|e es] eqn:He; [done|].
    change (slash :: join_path (e :: es) = slash :: p). by rewrite IH.
  - rewrite split_cons by done. pose proof (split_ne p). destruct (elements p) as [|e es] eqn:He; [done|]. simpl.
    destruct es as [|e' es]; simpl in *; by rewrite IH.
Qed.
Lemma split_app_slash p q : elements (p ++ slash :: q) = elements p ++ elements q.
Proof.
  induction p as [|c p IH]; [done|]. rewrite <- app_comm_cons. destruct (decide (c = slash)) as [->|Hc].
  - by rewrite !split_slash, IH.
  - rewrite !split_cons, IH by done. pose proof (split_ne p). by destruct (elements p).
Qed.
(** A path ends with a slash just when its last element is empty. *)
Lemma ends_app p q : q ≠ [] → ends (p ++ q) = ends q.
Proof. intros Hq. unfold ends. rewrite rev_app_distr. destruct (rev q) eqn:E; [|done]. apply (f_equal (@rev _)) in E. by rewrite rev_involutive in E. Qed.
Lemma ends_split p : ends p = true → ∃ q, p = q ++ [slash].
Proof.
  unfold ends. destruct (rev p) as [|c l] eqn:E; [done|]. intros Hc%Ascii.eqb_eq. subst c. exists (rev l).
  apply (f_equal (@rev _)) in E. by rewrite rev_involutive in E.
Qed.

Lemma forallb_app' {A} (f : A → bool) l k : forallb f (l ++ k) = forallb f l && forallb f k.
Proof. apply forallb_app. Qed.
(** A name with a slash at its end is no valid path. *)
Lemma ends_invalid p : ends p = true → ValidPath p = false.
Proof.
  intros (q & ->)%ends_split. unfold ValidPath. rewrite split_app_slash, forallb_app'. simpl. rewrite andb_false_r, orb_false_r.
  apply andb_false_iff. right. apply bool_decide_eq_false. intros He. apply (f_equal (@rev _)) in He. by rewrite rev_app_distr in He.
Qed.
Lemma starts_invalid p : starts p = true → ValidPath p = false.
Proof.
  destruct p as [|c p]; [done|]. intros Hc%Ascii.eqb_eq. subst c. unfold ValidPath. rewrite split_slash. simpl.
  by rewrite andb_false_r.
Qed.

(** *** Cleaning *)

Lemma clean_step_valid acc e : valid_elem e = true → clean_step acc e = e :: acc.
Proof. unfold valid_elem, clean_step. by repeat case_bool_decide. Qed.
Lemma foldl_valid es acc : forallb valid_elem es = true → foldl clean_step acc es = rev es ++ acc.
Proof.
  revert acc. induction es as [|e es IH]; intros acc; [done|]. simpl. intros [He Hes]%andb_true_iff.
  rewrite clean_step_valid, IH by done. by rewrite <- app_assoc.
Qed.
Lemma Clean_valid p : forallb valid_elem (elements p) = true → Clean (slash :: p) = slash :: p.
Proof.
  intros Hv. unfold Clean. rewrite split_slash. cbn [foldl]. change (clean_step [] []) with (@nil bytes).
  rewrite foldl_valid, app_nil_r, rev_involutive by done. by rewrite join_split.
Qed.

(** *** The handler *)

Section web.
Context (t : gmap bytes string).

(** What the handler looks up, and the address the file server sees. *)
Definition looked_up (p : bytes) : bytes := match p with c :: q => if Ascii.eqb c slash then q else p | [] => [] end.
Lemma Handler_slash p : ends p = true → Enabled t = true → Handler t p = serveIndex t.
Proof.
  intros He Hen. unfold Handler. rewrite Hen. simpl. fold (looked_up p). case_bool_decide as Hc; [done|].
  assert (ends (looked_up p) = true) as Hl.
  { destruct p as [|c q]; [done|]. simpl in *. destruct (Ascii.eqb_spec c slash) as [->|]; [|done].
    by rewrite <- (ends_app [slash] q). }
  unfold Stat. by rewrite (ends_invalid _ Hl).
Qed.
Lemma join_snoc_nil es : es ≠ [] → join_path (es ++ [[]]) = join_path es ++ [slash].
Proof.
  induction es as [|e es IH]; [done|]. intros _. destruct es as [|e' es]; [done|].
  change (e ++ slash :: join_path ((e' :: es) ++ [[]]) = (e ++ slash :: join_path (e' :: es)) ++ [slash]).
  rewrite IH by done. by rewrite <- app_assoc.
Qed.
(** The address of a page's directory is empty or ends with a slash, and so is a reference to one resolved there. *)
Definition at_dir (p : bytes) : Prop := p = [] ∨ ends p = true.
Lemma dir_of_at_dir p : at_dir (dir_of p).
Proof.
  unfold dir_of. destruct (rev (elements p)) as [|e es]; [by left|]. simpl. destruct (rev es) as [|e1 l] eqn:He; [by left|]. right.
  rewrite join_snoc_nil by done. by rewrite ends_app.
Qed.
Lemma resolve_here p : at_dir (resolve p (lit "./")).
Proof. unfold resolve. simpl. rewrite app_nil_r. apply dir_of_at_dir. Qed.
Lemma resolve_dir p b : at_dir (resolve p (b ++ [slash])).
Proof.
  unfold resolve. destruct b as [|c1 [|c2 b]]; simpl.
  - right. by rewrite ends_app.
  - repeat case_match; first [rewrite app_nil_r; apply dir_of_at_dir | right; by rewrite ends_app].
  - assert (∀ x y, ends (x ++ y ++ [slash]) = true) as Hends by (intros x y; by rewrite app_assoc, ends_app).
    repeat case_match; right; try apply Hends; (apply (Hends _ (_ :: _ :: b)) || apply (Hends _ (_ :: b))).
Qed.
Lemma Handler_dir p : at_dir p → Enabled t = true → Handler t p = serveIndex t.
Proof. intros [->|He] Hen; [unfold Handler; by rewrite Hen | by apply Handler_slash]. Qed.
Lemma url_of (p : bytes) : (if starts p then p else slash :: p) = slash :: looked_up p ∨ p = [].
Proof. destruct p as [|c q]; [by right|]. left. simpl. destruct (Ascii.eqb_spec c slash) as [->|]; done. Qed.

(** What is under the name the handler looks up, as the file server sees it. *)
Definition served_name (n : bytes) : bytes := match Clean (slash :: n) with [_] => lit "." | _ :: n => n | [] => [] end.
Lemma served_valid n : n ≠ [] → ValidPath n = true → served_name n = n.
Proof.
  intros Hne Hv. unfold ValidPath in Hv. apply andb_true_iff in Hv as [_ Hv]. apply orb_true_iff in Hv as [Hv|Hv].
  - bool_cases. by subst n.
  - unfold served_name. rewrite Clean_valid by done. by destruct n.
Qed.
Lemma valid_ends n : n ≠ [] → ValidPath n = true → ends (slash :: n) = false.
Proof.
  intros Hne Hv. destruct (ends (slash :: n)) eqn:He; [|done]. change (slash :: n) with ([slash] ++ n) in He. rewrite ends_app in He by done.
  apply ends_invalid in He. congruence.
Qed.

(** What the handler does with a name of the build. *)
Lemma Handler_known p n :
  Enabled t = true → looked_up p = n → n ≠ [] → Stat t n = true →
  Handler t p =
    if has_suffix (of_list (slash :: n)) "/index.html" then Moved (lit "./")
    else if is_dir t n then Moved (Base (slash :: n) ++ [slash])
    else match t !! n with Some c => File n c | None => NotFound "404 page not found" end.
Proof.
  intros Hen Hl Hne Hst. unfold Handler. rewrite Hen. simpl. fold (looked_up p). rewrite Hl, bool_decide_eq_false_2, Hst by done. simpl.
  destruct (url_of p) as [Hu| ->]; [|by subst n]. rewrite Hl in Hu. unfold file_server. rewrite Hu. cbv zeta. fold (served_name n).
  assert (ValidPath n = true) as Hv by (unfold Stat in Hst; by apply andb_true_iff in Hst as [? _]).
  rewrite served_valid, Hst, valid_ends by done. simpl. destruct (has_suffix _ _); [done|]. by destruct (is_dir t n).
Qed.

(** C30. Whatever path a request names, an embedded console answers with its index, with the file of the build the
    path names, or with a redirect whose target is answered with the index: never with the listing of a directory, with an error
    or with anything that is not in the build. Every file that is not an index is served under its name, and every path
    that is nothing of the build gets the index, which the routes of the console need. *)
Theorem web_serves p :
  Enabled t = true →
  match Handler t p with
  | Index page => page = default "" (t !! lit "index.html")
  | File n c => n = looked_up p ∧ t !! n = Some c
  | Moved r => Handler t (resolve p r) = serveIndex t
  | Listing _ | NotFound _ => False
  end ∧
  (Stat t (looked_up p) = false → Handler t p = serveIndex t) ∧
  (∀ n c, t !! n = Some c → ValidPath n = true → is_dir t n = false → n ≠ [] →
     has_suffix (of_list (slash :: n)) "/index.html" = false → Handler t (slash :: n) = File n c).
Proof.
  intros Hen. split_and!.
  - destruct (decide (looked_up p = [])) as [Hnil|Hne].
    { unfold Handler. rewrite Hen. simpl. fold (looked_up p). by rewrite Hnil. }
    destruct (Stat t (looked_up p)) eqn:Hst.
    + rewrite (Handler_known p (looked_up p)) by done. destruct (has_suffix _ _); [by apply Handler_dir, Hen; apply resolve_here|].
      destruct (is_dir t (looked_up p)) eqn:Hd; [by apply Handler_dir, Hen; apply resolve_dir|].
      destruct (t !! looked_up p) eqn:Ht; [done|]. unfold Stat in Hst. rewrite Hd, Ht in Hst. by apply andb_true_iff in Hst as [_ Hf].
    + unfold Handler. rewrite Hen. simpl. fold (looked_up p). rewrite Hst. by case_bool_decide.
  - intros Hst. unfold Handler. rewrite Hen. simpl. fold (looked_up p). rewrite Hst. by case_bool_decide.
  - intros n c Hn Hv Hd Hne Hx. rewrite (Handler_known (slash :: n) n); [by rewrite Hx, Hd, Hn | done | done | done |].
    unfold Stat. by rewrite Hv, Hn, orb_true_r.
Qed.
End web.

(** *** The mux *)

Lemma split_join es : es ≠ [] → Forall (λ e, slash ∉ e) es → elements (join_path es) = es.
Proof.
  assert (∀ e, slash ∉ e → elements e = [e]) as Hone.
  { induction e as [|c e IH]; intros Hn; [done|]. rewrite split_cons, IH by set_solver. done. }
  induction es as [|e es IH]; [done|]. intros _ [He Hes]%Forall_cons. destruct es as [|e' es]; [by apply Hone|].
  change (elements (e ++ slash :: join_path (e' :: es)) = e :: e' :: es). rewrite split_app_slash, Hone, IH by done. done.
Qed.
Lemma foldl_clean es acc :
  Forall (λ e, slash ∉ e) es → Forall (λ e, valid_elem e = true ∧ slash ∉ e) acc →
  Forall (λ e, valid_elem e = true ∧ slash ∉ e) (foldl clean_step acc es).
Proof.
  revert acc. induction es as [|e es IH]; intros acc; [done|]. intros [He Hes]%Forall_cons Ha. simpl. apply IH; [done|].
  unfold clean_step. repeat case_bool_decide; try done; [by destruct Ha|]. constructor; [|done]. split; [|done].
  unfold valid_elem. by rewrite !bool_decide_eq_false_2.
Qed.
(** A clean path is the root, or a slash before valid elements. *)
Lemma Clean_form p : Clean p = [slash] ∨ ∃ q, Clean p = slash :: q ∧ q ≠ [] ∧ forallb valid_elem (elements q) = true.
Proof.
  unfold Clean. assert (Forall (λ e, valid_elem e = true ∧ slash ∉ e) (rev (foldl clean_step [] (elements p)))) as Hf.
  { apply Forall_rev, foldl_clean; [|done]. apply Forall_forall. intros e. apply split_byte_clean. }
  destruct (rev _) as [|e es]; [by left|]. right. eexists. split; [done|].
  assert (elements (join_path (e :: es)) = e :: es) as Hs by (apply split_join; [done|]; eapply Forall_impl; [exact Hf|]; naive_solver).
  split.
  - intros Hnil. rewrite Hnil in Hs. unfold elements in Hs. simpl in Hs. injection Hs as <- <-. by apply Forall_cons in Hf as [[? _] _].
  - rewrite Hs. apply forallb_forall. intros x Hx%list_elem_of_In. rewrite Forall_forall in Hf. by apply Hf.
Qed.
Lemma Clean_idemp q : q ≠ [] → forallb valid_elem (elements q) = true → Clean ((slash :: q) ++ [slash]) = slash :: q.
Proof.
  intros Hne Hv. unfold Clean. rewrite <- app_comm_cons, split_slash, split_app_slash. change (elements []) with [@nil Ascii.ascii]. simpl.
  change (clean_step [] []) with (@nil bytes). rewrite foldl_app, (foldl_valid (elements q)), app_nil_r by done.
  change (foldl clean_step (rev (elements q)) [[]]) with (rev (elements q)). by rewrite rev_involutive, join_split.
Qed.
Lemma cleanPath_idemp p : cleanPath (cleanPath p) = cleanPath p.
Proof.
  unfold cleanPath at 2 3. set (u := if starts p then p else slash :: p). destruct (Clean_form u) as [->|(q & -> & Hne & Hv)]; [by rewrite bool_decide_eq_true_2, andb_false_r|].
  rewrite bool_decide_eq_false_2 by (intros [=]; by destruct q). rewrite andb_true_r.
  assert (ends (slash :: q) = false) as He.
  { destruct (ends (slash :: q)) eqn:E; [|done]. apply ends_split in E as (x & Hx). destruct x as [|c x]; [simpl in Hx; congruence|].
    injection Hx as _ ->. rewrite split_app_slash, forallb_app' in Hv. simpl in Hv. by rewrite andb_false_r in Hv. }
  destruct (ends u); unfold cleanPath.
  - replace (starts ((slash :: q) ++ [slash])) with true by done. rewrite Clean_idemp, ends_app by done. rewrite bool_decide_eq_false_2; [done|].
    intros [=]. by destruct q.
  - replace (starts (slash :: q)) with true by done. by rewrite Clean_valid, He.
Qed.
(** The mux redirects at most once, and what it then hands to the API is just what lies under the API's patterns. *)
Theorem mux_settles p :
  match mux p with
  | MovedTo q => ∀ r, mux q ≠ MovedTo r
  | Api => cleanPath p = p ∧ is_api p = true
  | Web => cleanPath p = p ∧ is_api p = false
  end.
Proof.
  unfold mux. case_bool_decide as Hsub.
  - intros r. unfold subtrees in Hsub. apply elem_of_cons in Hsub as [-> | ->%list_elem_of_singleton]; by vm_compute.
  - case_bool_decide as Hc; simpl; [rewrite Hc; by destruct (is_api p)|]. intros r. rewrite cleanPath_idemp.
    rewrite bool_decide_eq_false_2 by done. rewrite bool_decide_eq_true_2 by done. simpl. by destruct (is_api _).
Qed.

(** *** A build *)

Definition build : gmap bytes string := {[lit "index.html" := "<html>"; lit "assets/app.js" := "js"; lit "favicon.svg" := "svg"]}.
Example served :
  Handler build (lit "/assets/app.js") = File (lit "assets/app.js") "js" ∧ Handler build (lit "/devices/7") = Index "<html>" ∧
  Handler build (lit "/assets") = Moved (lit "assets/") ∧ Handler build (lit "/assets/") = Index "<html>" ∧
  Handler build (lit "/../../etc/passwd") = Index "<html>" ∧ Handler build (lit "/index.html") = Moved (lit "./") ∧
  mux (lit "/api") = MovedTo (lit "/api/") ∧ mux (lit "/x/../api/devices") = MovedTo (lit "/api/devices") ∧ mux (lit "/apiary") = Web.
Proof. split_and!; by vm_compute. Qed.
Lemma web_serves_witness : Enabled build = true ∧ Handler build (lit "/../../etc/passwd") = serveIndex build.
Proof.
  assert (Enabled build = true) as Hen by (by vm_compute). split; [exact Hen|].
  destruct (web_serves build (lit "/../../etc/passwd") Hen) as (_ & Hun & _). apply Hun. by vm_compute.
Defined.
