(* ===== verification/Startup.v ===== *)
(** * How the server starts

    Models its configuration, [internal/server/config/config.go]: the defaults, the file and the environment
    over them, how the console gets TLS, and the address agents download a release from; and what happens
    before the server runs: the master secret, the store, [New] and the listeners. *)

From Stdlib Require Import Ascii.
From stdpp Require Import strings list sets gmap.
From S2P Require Import Prelude GoStr Db World Enroll Notify Bootstrap Demo BootstrapFacts Endpoint WinEvents.

Record Config := mkConfig {
  DatabaseURL : string; AgentListen : string; ConsoleListen : string; PublicHostnames : list string; MasterSecretFile : string;
  ConsoleTLSCert : string; ConsoleTLSKey : string; InsecureCookies : bool; ReleaseDir : string; ReleaseBaseURL : string;
  ACMEDomains : list string; ACMEEmail : string; ACMECacheDir : string; MetricsRetentionDays : Z; ApprovalExpiryDays : Z; Mail : SMTP;
}.
Definition SMTPConfigured (c : Config) : bool := Configured (Mail c).
Definition ConsoleTLSMode (c : Config) : string :=
  if negb (bool_decide (ACMEDomains c = [])) then "acme" else if negb (bool_decide (ConsoleTLSCert c = "")) then "file" else "plain".

(** *** [strings.TrimRight] of one byte, [net.SplitHostPort] and [url.PathEscape] *)

Fixpoint drop_byte (b : ascii) (l : bytes) : bytes :=
  match l with c :: l' => if Ascii.eqb c b then drop_byte b l' else l | [] => [] end.
Definition TrimRightByte (b : ascii) (s : string) : string := of_list (rev (drop_byte b (rev (to_list s)))).
Definition has_byte (b : ascii) (l : bytes) : bool := existsb (Ascii.eqb b) l.
(** Before and after the last occurrence of a byte. *)
Definition cut_last (b : ascii) (l : bytes) : option (bytes * bytes) :=
  match cut_byte b (rev l) with Some (post, pre) => Some (rev pre, rev post) | None => None end.
Definition SplitHostPort (hostport : string) : option (string * string) :=
  '(host, port) ← cut_last ":"%char (to_list hostport);
  match host with
  | "["%char :: inner =>
      '(ip, rest) ← cut_byte "]"%char inner;
      if bool_decide (rest = []) && negb (has_byte "["%char ip) && negb (has_byte "["%char port) && negb (has_byte "]"%char port)
      then Some (of_list ip, of_list port) else None
  | _ =>
      if has_byte ":"%char host || has_byte "["%char (host ++ port) || has_byte "]"%char (host ++ port) then None
      else Some (of_list host, of_list port)
  end.

Definition upper_hex (n : N) : ascii := ascii_of_N (if (n <? 10)%N then 48 + n else 55 + n).
(** [shouldEscape] for a path segment is false. *)
Definition segment_byte (c : ascii) : bool :=
  let n := N_of_ascii c in
  ((48 <=? n) && (n <=? 57) || (65 <=? n) && (n <=? 90) || (97 <=? n) && (n <=? 122))%N || has_byte c (to_list "-_.~$&+:=@").
Definition escape_byte (c : ascii) : bytes :=
  if segment_byte c then [c] else ["%"%char; upper_hex (N_of_ascii c / 16); upper_hex (N_of_ascii c mod 16)].
Definition PathEscape (s : string) : string := of_list (concat (escape_byte <$> to_list s)).

Section config.
Context `{UuidText}.

Definition ReleaseURL (c : Config) (tenantID : uuid) (version : string) : string :=
  let base := TrimRightByte "/"%char (ReleaseBaseURL c) in
  let base :=
    if negb (bool_decide (base = "")) then base
    else
      let host := match PublicHostnames c with h :: _ => if bool_decide (h = "") then "localhost" else h | [] => "localhost" end in
      let scheme := if bool_decide (ConsoleTLSMode c = "plain") then "http" else "https" in
      let port := match SplitHostPort (ConsoleListen c) with Some (_, p) => if bool_decide (p = "") then "8080" else p | None => "8080" end in
      scheme +:+ "://" +:+ host +:+ ":" +:+ port in
  base +:+ "/agent/releases/" +:+ uuid_string tenantID +:+ "/" +:+ PathEscape version.
End config.

(** *** [Load] *)

Definition default_config : Config :=
  mkConfig "" ":8443" ":8080" ["localhost"] "master.key" "" "" false "releases" "" [] "" "acme-cache" 30 30
    (mkSMTP "" 587 "" "" "" true).
Definition envStr (getenv : string → string) (key old : string) : string := if bool_decide (getenv key = "") then old else getenv key.
(** Over what the file says; [yaml_unmarshal] of the [yaml.v3] package. *)
Definition from_env (getenv : string → string) (c : Config) : Config :=
  let e := envStr getenv in
  let list_of key old := if bool_decide (getenv key = "") then old else SplitByte (getenv key) ","%char in
  let m := Mail c in
  mkConfig (e "FREELOCKER_DATABASE_URL" (DatabaseURL c)) (e "FREELOCKER_AGENT_LISTEN" (AgentListen c))
    (e "FREELOCKER_CONSOLE_LISTEN" (ConsoleListen c)) (list_of "FREELOCKER_PUBLIC_HOSTNAMES" (PublicHostnames c))
    (e "FREELOCKER_MASTER_SECRET_FILE" (MasterSecretFile c)) (e "FREELOCKER_CONSOLE_TLS_CERT" (ConsoleTLSCert c))
    (e "FREELOCKER_CONSOLE_TLS_KEY" (ConsoleTLSKey c))
    (bool_decide (getenv "FREELOCKER_INSECURE_COOKIES" = "true") || InsecureCookies c)
    (e "FREELOCKER_RELEASE_DIR" (ReleaseDir c)) (e "FREELOCKER_RELEASE_BASE_URL" (ReleaseBaseURL c))
    (list_of "FREELOCKER_ACME_DOMAINS" (ACMEDomains c)) (e "FREELOCKER_ACME_EMAIL" (ACMEEmail c))
    (e "FREELOCKER_ACME_CACHE_DIR" (ACMECacheDir c)) (MetricsRetentionDays c) (ApprovalExpiryDays c)
    (mkSMTP (e "FREELOCKER_SMTP_HOST" (sm_Host m))
       (if bool_decide (getenv "FREELOCKER_SMTP_PORT" = "") then sm_Port m else default (sm_Port m) (Atoi (getenv "FREELOCKER_SMTP_PORT")))
       (e "FREELOCKER_SMTP_USERNAME" (sm_Username m)) (e "FREELOCKER_SMTP_PASSWORD" (sm_Password m))
       (e "FREELOCKER_SMTP_FROM" (sm_From m))
       (if bool_decide (getenv "FREELOCKER_SMTP_STARTTLS" = "") then sm_STARTTLS m else bool_decide (getenv "FREELOCKER_SMTP_STARTTLS" = "true"))).
Definition Config_Load (getenv : string → string) (read_file : string → result string) (yaml_unmarshal : string → Config → result Config)
    (path : string) : result Config :=
  c ← (if bool_decide (path = "") then Ok default_config
       else
         match read_file path with
         | Err e => Err (EWrap "read config" e)
         | Ok b => match yaml_unmarshal b default_config with Ok c => Ok c | Err e => Err (EWrap "parse config" e) end
         end);
  let c := from_env getenv c in
  if bool_decide (DatabaseURL c = "") then Err (EMsg "database_url is required") else Ok c.

(** ** Where releases are *)

Definition unhex (c : ascii) : N := let n := N_of_ascii c in (if n <? 65 then n - 48 else n - 55)%N.
(** What a server decodes from a path segment. *)
Fixpoint unescape (l : bytes) : bytes :=
  match l with
  | "%"%char :: h :: k :: l => ascii_of_N (16 * unhex h + unhex k) :: unescape l
  | c :: l => c :: unescape l
  | [] => []
  end.
Definition PathUnescape (s : string) : string := of_list (unescape (to_list s)).

Lemma escape_byte_back c l : unescape (escape_byte c ++ l) = c :: unescape l.
Proof. by destruct c as [[] [] [] [] [] [] [] []]. Qed.
Lemma escape_byte_slash c : "/"%char ∉ escape_byte c.
Proof.
  intros Hin. assert (has_byte "/"%char (escape_byte c) = true) as Hb by (apply existsb_exists; exists "/"%char; split; [by apply list_elem_of_In | done]).
  revert Hb. clear Hin. by destruct c as [[] [] [] [] [] [] [] []].
Qed.
(** A version survives the way through the address, and cannot leave its segment. *)
Lemma PathEscape_roundtrip v : PathUnescape (PathEscape v) = v ∧ "/"%char ∉ to_list (PathEscape v).
Proof.
  unfold PathUnescape, PathEscape. rewrite !to_of_list. split.
  - rewrite <- (of_to_list v) at 2. f_equal. induction (to_list v) as [|c l IH]; [done|]. rewrite fmap_cons. cbn [concat]. by rewrite escape_byte_back, IH.
  - induction (to_list v) as [|c l IH]; [apply not_elem_of_nil|]. rewrite fmap_cons. cbn [concat]. rewrite elem_of_app. intros [Hc|Hl]; [by apply escape_byte_slash in Hc | done].
Qed.
Lemma cut_unique (sep : ascii) (a a' b b' : bytes) : sep ∉ a → sep ∉ a' → a ++ sep :: b = a' ++ sep :: b' → a = a' ∧ b = b'.
Proof.
  revert a'. induction a as [|c a IH]; intros [|c' a'] Ha Ha' Heq; simplify_eq/=.
  - done.
  - by destruct Ha'; left.
  - by destruct Ha; left.
  - apply not_elem_of_cons in Ha as [_ Ha], Ha' as [_ Ha']. by destruct (IH a' Ha Ha' ltac:(done)) as [-> ->].
Qed.

(** Different releases have different addresses: neither two tenants with the same version nor
    two versions of a tenant share one, and the version is decoded as it was. *)
Theorem ReleaseURL_distinct `{UuidText, !UuidTextOk} c t v t' v' :
  (∀ u, "/"%char ∉ to_list (uuid_string u)) → ReleaseURL c t v = ReleaseURL c t' v' → t = t' ∧ v = v'.
Proof.
  intros Hs Heq. unfold ReleaseURL in Heq. cbv zeta in Heq. set (base := if negb _ then _ else _) in Heq. clearbody base.
  apply (f_equal to_list) in Heq. rewrite !to_list_app in Heq. apply app_inv_head, app_inv_head in Heq.
  apply (cut_unique "/"%char) in Heq as [Hu Hp]; [|done|done]. apply to_list_inj in Hu, Hp. split.
  - apply (f_equal uuid_parse) in Hu. rewrite !uuid_parse_string in Hu. by injection Hu.
  - by rewrite <- (proj1 (PathEscape_roundtrip v)), Hp, (proj1 (PathEscape_roundtrip v')).
Qed.

(** ** From the configuration to a running server

    [LoadOrCreateMasterSecret] of
    [internal/server/keys/sealer.go] over the disk of [Endpoint], [Open] and [Close] of
    [internal/server/store/store.go] as the pools they hold, [New] and [NewWithStore] of
    [internal/server/app/app.go], the listeners [Run] opens for each way of getting TLS, and the frame of [run]
    in [cmd/server/main.go]. Shown: the master secret is created once and never replaced, whatever fails, and no pool is left open. *)

(** The disk, the pools that are open, and the draws from the random source. *)
Record starting := mkStarting { bt_disk : disk; bt_pools : nat; bt_drawn : nat }.
Definition bt_on_disk {A} (m : M disk A) : M starting A :=
  λ b, let '(d, r) := m (bt_disk b) in (mkStarting d (bt_pools b) (bt_drawn b), r).
Definition bt_draw : M starting nat := λ b, (mkStarting (bt_disk b) (bt_pools b) (S (bt_drawn b)), Ok (bt_drawn b)).
Definition open_pool : M starting unit := modify (λ b, mkStarting (bt_disk b) (S (bt_pools b)) (bt_drawn b)).
(** [Store.Close]. *)
Definition Close : M starting unit := modify (λ b, mkStarting (bt_disk b) (pred (bt_pools b)) (bt_drawn b)).

(** What the libraries below answer: [pgxpool], the ping, the migrations of [goose], and reading a file that is there. *)
Record answers := mkAnswers { an_pool : result unit; an_ping : result unit; an_migrate : result unit; an_read : result unit }.

(** A server: its sealers, and whether [Close] closes the store. *)
Record server := mkServer { sv_master : string; sv_totp : string; sv_notify : string; sv_ownsStore : bool }.

Section startup.
Context `{KeyLib, Pki} (an : answers).

Definition Open : M starting unit :=
  match an_pool an with
  | Err e => fail (EWrap "open pool" e)
  | Ok _ =>
      _ ← open_pool;
      match an_ping an with
      | Err e => _ ← Close; fail (EWrap "ping database" e)
      | Ok _ => mret tt
      end
  end.
Definition Migrate : M starting unit := match an_migrate an with Err e => fail (EWrap "migrate" e) | Ok _ => mret tt end.

Definition LoadOrCreateMasterSecret (path : string) : M starting string :=
  b0 ← get;
  if exists_file path (bt_disk b0) then
    match an_read an with
    | Err e => fail e
    | Ok _ =>
        b ← bt_on_disk (ReadFile path);
        if (String.length b <? masterLen)%nat then fail (EFmt "master secret %s is shorter than %d bytes" [path; "32"]) else mret b
    end
  else
    n ← bt_draw;
    let b := rand_bytes n masterLen in
    r ← attempt (bt_on_disk (WriteFile path b));
    match r with
    | Err e => fail (EWrap "write master secret" e)
    | Ok _ => mret b
    end.

(** The services of the server are those of the other files; its handler is [Webui.NewWithStore_handler]. *)
Definition NewWithStore (master : string) : result server :=
  match NewSealer master "totp" with
  | Err e => Err e
  | Ok totp =>
      match NewSealer master "notify" with
      | Err e => Err e
      | Ok notify => Ok (mkServer master totp notify false)
      end
  end.
Definition owning (a : server) : server := mkServer (sv_master a) (sv_totp a) (sv_notify a) true.
(** A step of [New]: when it fails the store is closed. *)
Definition or_close {A} (m : M starting A) : M starting A :=
  r ← attempt m;
  match r with
  | Err e => _ ← Close; fail e
  | Ok a => mret a
  end.
Definition New (path : string) : M starting server :=
  _ ← Open;
  _ ← or_close Migrate;
  master ← or_close (LoadOrCreateMasterSecret path);
  a ← or_close (of_result (NewWithStore master));
  mret (owning a).

(** [run] with its deferred [Close], around what it runs. *)
Definition App_Close (a : server) : M starting unit := if sv_ownsStore a then Close else mret tt.
Definition run_frame {A} (path : string) (body : server → M starting A) : M starting A :=
  a ← New path;
  r ← attempt (body a);
  _ ← App_Close a;
  of_result r.
End startup.

(** *** The listeners of the console *)

Inductive listener :=
  | Plain (addr : string)
  | TLSFile (addr cert key : string)
  | TLSAcme (addr : string) (hosts : list string) (cache email : string)
  | Challenge (addr : string).
(** What [Run] starts, by [ConsoleTLSMode]. *)
Definition listeners (c : Config) : list listener :=
  let mode := ConsoleTLSMode c in
  if bool_decide (mode = "acme") then [Challenge ":80"; TLSAcme (ConsoleListen c) (ACMEDomains c) (ACMECacheDir c) (ACMEEmail c)]
  else if bool_decide (mode = "file") then [TLSFile (ConsoleListen c) (ConsoleTLSCert c) (ConsoleTLSKey c)]
  else [Plain (ConsoleListen c)].

(** *** The master secret and the pools *)

Section facts.
Context `{KeyLib, Pki, !KeyLibOk} (an : answers).

Lemma NewSealer_long master purpose : masterLen ≤ String.length master → ∃ k, NewSealer master purpose = Ok k.
Proof.
  intros Hm. unfold NewSealer, Derive. destruct (Nat.ltb_spec (String.length master) masterLen); [lia|].
  pose proof (hkdf_total master purpose). destruct (hkdf_key master purpose); [eauto|done].
Qed.
(** What becomes of the file of the master secret: one that is there stays; a new one is written as a whole unless the write fails. *)
Lemma LoadOrCreate_run path b b' r :
  LoadOrCreateMasterSecret an path b = (b', r) →
  bt_pools b' = bt_pools b ∧ (∀ p, p ≠ path → files (bt_disk b') !! p = files (bt_disk b) !! p) ∧
  (∀ s, files (bt_disk b) !! path = Some s → files (bt_disk b') = files (bt_disk b)) ∧
  (∀ m, r = Ok m → files (bt_disk b') !! path = Some m ∧ masterLen ≤ String.length m).
Proof.
  unfold LoadOrCreateMasterSecret, exists_file. unfold mbind at 1, M_bind at 1. simpl.
  destruct (files (bt_disk b) !! path) as [s|] eqn:Hs; simpl.
  - destruct (an_read an) as [u|e]; [|by intros [= <- <-]]. unfold mbind, M_bind, bt_on_disk, ReadFile. simpl. rewrite Hs.
    destruct (Nat.ltb_spec (String.length s) masterLen); intros [= <- <-]; simpl; [done|].
    split_and!; try done. by intros m [= <-].
  - unfold mbind at 1, M_bind at 1. simpl. unfold mbind, M_bind, attempt, bt_on_disk, WriteFile. simpl.
    destruct (next_io (bt_disk b)) as [[| |n] os]; intros [= <- <-]; simpl; split_and!; try done;
      try (intros p Hp; by rewrite lookup_insert_ne). intros m [= <-]. rewrite lookup_insert_eq, rand_length. done.
Qed.
Lemma or_close_run {A} (m : M starting A) b :
  or_close m b = match m b with (b', Ok a) => (b', Ok a) | (b', Err e) => (mkStarting (bt_disk b') (pred (bt_pools b')) (bt_drawn b'), Err e) end.
Proof. unfold or_close, mbind, M_bind, attempt. by destruct (m b) as [b' [a|e]]. Qed.
Lemma Open_run b :
  (∃ e, Open an b = (b, Err e)) ∨ Open an b = (mkStarting (bt_disk b) (S (bt_pools b)) (bt_drawn b), Ok tt).
Proof.
  unfold Open. destruct (an_pool an) as [u|e]; [|left; eauto]. unfold mbind, M_bind. simpl. destruct (an_ping an) as [u'|e]; [by right|].
  left. simpl. exists (EWrap "ping database" e). by destruct b.
Qed.

Lemma New_run path b b' r :
  New an path b = (b', r) →
  (∀ s, files (bt_disk b) !! path = Some s → files (bt_disk b') = files (bt_disk b)) ∧
  (∀ p, p ≠ path → files (bt_disk b') !! p = files (bt_disk b) !! p) ∧
  match r with
  | Ok a =>
      bt_pools b' = S (bt_pools b) ∧ files (bt_disk b') !! path = Some (sv_master a) ∧ masterLen ≤ String.length (sv_master a) ∧
      NewSealer (sv_master a) "totp" = Ok (sv_totp a) ∧ NewSealer (sv_master a) "notify" = Ok (sv_notify a) ∧ sv_ownsStore a = true
  | Err _ => bt_pools b' = bt_pools b
  end.
Proof.
  unfold New. destruct (Open_run b) as [[e Ho]|Ho].
  { rewrite (bind_fails _ _ _ _ _ Ho). by intros [= <- <-]. }
  rewrite (bind_run _ _ _ _ _ Ho). unfold Migrate. destruct (an_migrate an) as [u|e].
  2: { unfold mbind, M_bind. rewrite or_close_run. simpl. by intros [= <- <-]. }
  set (b0 := mkStarting _ _ _). unfold mbind at 1, M_bind at 1. rewrite or_close_run. simpl. unfold mbind at 1, M_bind at 1. rewrite or_close_run.
  destruct (LoadOrCreateMasterSecret an path b0) as [b1 [m|e]] eqn:Hl; destruct (LoadOrCreate_run _ _ _ _ Hl) as (Hp & Hoth & Hkeep & Hm).
  - destruct (Hm m eq_refl) as [Hfile Hlen]. unfold mbind, M_bind. rewrite or_close_run. unfold NewWithStore.
    destruct (NewSealer_long m "totp" Hlen) as [k1 Hk1], (NewSealer_long m "notify" Hlen) as [k2 Hk2]. rewrite Hk1, Hk2. simpl.
    intros [= <- <-]. simpl in *. by split_and!.
  - intros [= <- <-]. simpl in *. rewrite Hp. by split_and!.
Qed.

(** C13. Starting the server, whatever the disk and the database answer: when it succeeds one pool is open, the
    file holds the master secret, of at least 32 bytes, and the sealers are derived from it; when it fails no pool is left open.
    A secret that is in the file is never changed, so that what was sealed with it stays readable, and no other file is touched. *)
Theorem New_keeps_the_secret path b b' r :
  New an path b = (b', r) →
  (∀ s, files (bt_disk b) !! path = Some s → files (bt_disk b') = files (bt_disk b)) ∧
  (∀ p, p ≠ path → files (bt_disk b') !! p = files (bt_disk b) !! p) ∧
  match r with
  | Ok a =>
      bt_pools b' = S (bt_pools b) ∧ files (bt_disk b') !! path = Some (sv_master a) ∧ masterLen ≤ String.length (sv_master a) ∧
      NewSealer (sv_master a) "totp" = Ok (sv_totp a) ∧ NewSealer (sv_master a) "notify" = Ok (sv_notify a) ∧ sv_ownsStore a = true
  | Err _ => bt_pools b' = bt_pools b
  end.
Proof. apply New_run. Qed.

End facts.

(** A restart on the file a start left finds the same secret: the sealers open what they sealed before. *)
Lemma restart_reads_the_secret `{KeyLib, Pki, !KeyLibOk} an an' path b b1 a b2 b2' a' :
  New an path b = (b1, Ok a) → files (bt_disk b2) !! path = files (bt_disk b1) !! path → New an' path b2 = (b2', Ok a') →
  a' = a ∧ ∀ n plain, Sealer_Open (sv_totp a') (Sealer_Seal (sv_totp a) n plain) = Ok plain.
Proof.
  intros Hfirst Hsame Hsecond. destruct (New_run _ _ _ _ _ Hfirst) as (_ & _ & _ & Hf & _ & Ht & Hn & Ho).
  destruct (New_run _ _ _ _ _ Hsecond) as (Hkeep & _ & _ & Hf' & _ & Ht' & Hn' & Ho'). rewrite Hf in Hsame.
  rewrite (Hkeep _ Hsame), Hsame in Hf'. destruct a as [m t n o], a' as [m' t' n' o']. simpl in *. simplify_eq. rewrite Ht in Ht'. rewrite Hn in Hn'. simplify_eq.
  split; [done|]. intros k plain. apply Sealer_roundtrip.
Qed.

(** *** A first start *)

Section first_start.
Import Demo.
Definition fine : answers := mkAnswers (Ok tt) (Ok tt) (Ok tt) (Ok tt).
Definition machine : starting := mkStarting (mkDisk ∅ []) 0 0.
Lemma first_start : ∃ b' a, New fine "master.key" machine = (b', Ok a) ∧ bt_pools b' = 1.
Proof. eexists _, _. by split. Qed.
Lemma New_keeps_the_secret_witness :
  ∃ b' a, New fine "master.key" machine = (b', Ok a) ∧ files (bt_disk b') !! "master.key" = Some (sv_master a) ∧ 32 ≤ String.length (sv_master a).
Proof.
  destruct first_start as (b' & a & Hn & _). destruct (New_keeps_the_secret fine "master.key" machine b' (Ok a) Hn) as (_ & _ & _ & Hf & Hl & _).
  exists b', a. split; [exact Hn|]. split; [exact Hf|exact Hl].
Defined.
(** A first start that is cut off while it writes leaves a short file, with which no later start succeeds. *)
Example torn_secret :
  let b := (New fine "master.key" (mkStarting (mkDisk ∅ [Torn 10]) 0 0)).1 in
  bt_pools b = 0 ∧ (New fine "master.key" b).2 = Err (EFmt "master secret %s is shorter than %d bytes" ["master.key"; "32"]).
Proof. by vm_compute. Qed.
End first_start.
